(* ===== verification/_CoqProject ===== *)
-Q . S2P
Prelude.v
Errors.v
Mbuf.v
MbufType.v
MbufSpec.v
Dpdk.v
Sim.v
Shim.v
Checksum.v
IpText.v
Mempool.v
Memring.v
Port.v
Engine.v
RingBuf.v
RingBufConc.v
RingBufLive.v
RingBufTso.v
FdPass.v
FdExamples.v
MemEnpsf.v
FiveTuple.v
Mux.v
MuxMain.v
MuxProgram.v
Ownership.v
Conservation.v
System.v
LoopApis.v
Loop.v
Build.v
