(* ===== verification/Prelude.v ===== *)
(** * VDP: a virtual data plane on DPDK

    A model and a proof library for the Rust workspace of this repository.

    ** The program

    The system moves Ethernet frames between a network device and client
    processes.  The _engine_ ([l3enginelib], a library over DPDK and a program)
    is the primary DPDK process: it receives packets from a device, hands them
    to the secondary process over a pair of DPDK rings (a channel), and sends
    what comes back.  The _multiplexer_ ([l3enginemux]) is the secondary
    process: it takes packets from the channel, classifies them and passes them
    to a thread per client, which writes them into a queue in memory shared with
    the client ([memenpsf], over [ipc-queue]); the file descriptor of the shared
    memory comes over a Unix socket ([fdpass-rs]).  [dpdk_loop] is a variant of
    the engine with two devices and no multiplexer; its [apis] are copies of the
    library's, with one difference ([Port::configure]).  [dpdk-sys] generates
    the bindings of DPDK when it is built, and has C helpers ([shim.c]).

    ** Files

    - [Prelude]: outcomes of a call (return, panic, undefined behaviour), the
      state monad [M] over them, machine integers, bytes, the reflexive
      transitive closure [star], tactics and the hint databases [vdp] and
      [vdp_len].
    - [Errors] ([apis/mod.rs]): the error enumerations and their decoders.
    - [Mbuf] ([apis/mbuf.rs]): a packet buffer with its memory, Module [Mbuf]
      has the methods; [mbuf_wf] is its invariant, [data] the packet.
      [MbufType] has sequences of calls of the methods, [MbufSpec] the
      specification they refine: packets without memory and addresses.
    - [Dpdk]: the interface to DPDK: the functions the code calls as a class
      [Dpdk], what DPDK documents of them as the classes [MempoolLaws],
      [RingLaws], [EthLaws] and [EalLaws] over an observable state; [Sim] is an
      instance that satisfies all the laws, used by the witnesses.
    - [Shim] ([dpdk-sys/src/shim.c]): the headers of a packet, the ARP
      functions and the closing of the devices; [Checksum]: the ICMP checksum;
      [IpText]: addresses as text, over models of [snprintf] and [sscanf].
    - [Mempool] ([apis/mempool.rs], [mbuf.rs], [mod.rs]): pools, allocation and
      release of buffers; [Memring] ([apis/memring.rs]): rings and channels;
      [Port] ([apis/port.rs], both versions): devices.
    - [Engine] ([l3enginelib/src/main.rs], [eal_init], [eal_cleanup]): the
      engine's loop and program; [Loop] ([dpdk_loop/l3engine/src/main.rs]): the
      loop-back engine, over the copy of the library in its crate, [LoopApis].
    - [RingBuf] ([ipc-queue/src/lib.rs]): the queue, used by one thread;
      [RingBufConc]: by a producer and a consumer at once; [RingBufLive]:
      schedules and progress; [RingBufTso]: the same threads with the store
      buffers of x86.
    - [FdPass] ([fdpass-rs/src/lib.rs], [ffi.rs]): descriptor passing over the
      system calls as parameters, with the documented behaviour as
      [SocketLaws]; [FdExamples] ([fdpass-rs/examples]): the two example
      programs, with files and the terminal ([FileLaws]); [MemEnpsf] ([memenpsf/src/lib.rs]): the shared-memory
      interface.
    - [FiveTuple] ([mux/fivetuple.rs]): classification and ARP, over
      [etherparse] and [pnet] as parameters; [Mux] ([mux/mod.rs]): the
      multiplexer's end of the channel, over [crossbeam]'s [ArrayQueue] as a
      parameter.
    - [MuxMain] ([l3enginemux/src/main.rs]): the channels and threads of the
      multiplexer as a transition system; [MuxProgram]: the whole program,
      [main] with its listener, its set-up, its polling loop and the client
      threads, over DPDK and the kernel; its steps are steps of [MuxMain].  The
      iterator [incoming()] of the listener is a parameter that may end; that it
      never does, as the standard library documents, is the class
      [ListenerLaws], a hypothesis of the theorem that needs it.
    - [Ownership]: where a buffer of a pool can be, and what each operation
      moves; [Conservation]: the accounting of the multiplexer's buffers from
      the start of its [main].
    - [System]: the engine's loop and the multiplexer's program together, from
      the creation of the channel and the start of the multiplexer's [main].
    - [Build] ([dpdk-sys/build.rs]): the build script.

    A method that borrows [&mut self] is a computation in [M] over the state of
    the object; functions that call DPDK run over [world H], whose observable
    part is the record [dpdk].  An owned pointer ([Mbuf], [Mempool]) is its
    address, and a [Drop] is written out where Rust runs it.

    ** What the theorems show

    - The queue: one thread sees a bounded FIFO of [capacity - 1] elements
      ([fifo_refinement]); two threads never leave the mapping or the bounds
      ([spsc_safe]) and [push] is wait-free ([spsc_wait_free]); the one racy
      situation is characterised ([spsc_pop_value]), reachable ([spsc_race]),
      and without it the queue is FIFO for the two threads ([spsc_fifo]); what
      is pushed is popped under every schedule fair to the consumer
      ([spsc_liveness]).  The atomic pieces run alone are the functions
      ([solo_calls], a lemma).  With store buffers the queue is as safe ([tso_safe]) and, without late
      stores, FIFO ([tso_fifo]), but the race outlives the call of [push]
      ([tso_race_after_return]).
    - Buffers: what [extend], [shrink] and the data accesses do to the packet on
      every branch and their round trip.  In a build with overflow checks
      [mbuf_wf] is kept by every sequence of calls ([methods_preserve_wf]), and
      the calls refine the specification up to the first one that panics, whose
      sum of arguments overflows or which writes beyond the data
      ([mbuf_refines]).  In a release build both hold for the calls whose sums do
      not overflow, and only for them: [shrink] with an end that wraps around
      ([shrink_spec]) can break any buffer ([release_shrink_breaks_wf]).
      [from_bytes] is all or nothing.
    - Rings, channels, devices: the effect of every operation on the rings,
      pools and devices, errors included, and where packets get lost.
    - The engine: its loop transmits and forwards nothing
      ([engine_loop_is_a_sink]) and its start-up always panics
      ([engine_main_panics]); the loop-back engine receives nothing, frees
      what it has sent ([xmit_frees_sent], a lemma) and, unless its start-up
      panics, always exits with its devices stopped ([main_exits]); its answer to
      a packet would panic for every packet ([answer_panics]).
    - The C helpers: which packets [_pkt_arp_response] answers, and with which
      frame ([arp_response_spec]: the addresses are not exchanged); where the
      transport headers are looked for ([transport_hdr_spec]: IP options are
      ignored); the checksum of an ICMP reply is right for nine checksums of
      the request only ([icmp_reply_checksum]); addresses survive being printed
      and read ([ip_text_round_trip]).
    - The multiplexer: as [incoming()] never ends, its main thread never leaves
      [thread::scope] ([main_never_leaves_scope]).  The theorems on what comes
      after it do not assume that, and hold whether or not the scope is left: the
      loop queues empty buffers ([recv_from_engine_burst_spec]); buffers of the
      pool are conserved under every interleaving, and the packets taken out of
      the ring are lost ([buffers_conserved]); the second packet for a client
      would panic ([route_panics_iff]).  A client thread serves one packet and
      leaks its buffer ([handle_client_spec]); [Mux::new] frees the rings of the
      engine when it finds no mempool ([mux_new_spec]); dropping the [Mux] frees
      the pool before the buffers ([mux_drop_frees_pool_first]).
    - The system: engine and multiplexer together, from the creation of the
      channel and the start of the multiplexer on, move no packet from end to
      end, and the polling loop, if it is reached, is never left
      ([no_packet_end_to_end]).  (Neither program gets to its loop as it is; the
      theorem shows that repairing the two start-ups would not be enough.)
    - Shared memory: with a large enough mapping the interface is two FIFOs
      ([iface_two_fifos]); the mapping the code makes is too small
      ([mapping_too_small]).
    - Descriptors: a one-byte message transfers the file ([fd_round_trip]), and
      no other length can ([recv_fd_one_byte], a lemma); the receiver of the
      example prints the line typed into the sender ([example_end_to_end]).

    The theorems that state a property of the program are numbered in their
    comments (C1, C2, ...); the lemmas between them have the behaviour of the
    other operations.

    ** Bounds, fuel and assumptions

    Integers are [Z] with their width written out; the target is x86-64.  The
    build profile ([Debug] with overflow checks, [Release] without) is a
    parameter.  Loops are structural recursions over the data, except the
    [while] loop of [Mux::xmit_to_engine_bulk], whose fuel, the length of the
    queue, is proved to be enough, and the programs' main loops, which run for
    any given number of turns or are transition systems; the loop over the
    devices in [shim.c] has one more than the number of device identifiers as
    its fuel, which is proved to be enough (running out of it would be
    [Undefined], which [main_exits] excludes); the loops over [read] and [write] in
    [FdExamples] need one turn more than there are bytes.  [RingBufConc] is
    sequentially consistent: the accesses of [push] and [pop] interleave in
    program order; [RingBufTso] adds a FIFO store buffer for each thread, whose
    stores reach the memory at any later time.  A channel of [crossbeam] keeps
    its messages until both ends are dropped, as the locked version does.  A
    step of a thread of [MuxProgram] is one blocking operation with the code up
    to the next one.

    ** Not modelled

    The bindings generated for DPDK; the functions of [shim.c] that only call a
    macro or an inline function of DPDK, which are functions of the interface
    [Dpdk]; logging and debug output; what the signal handler does at
    run time in the engines, whose loops run for any number of turns (in the
    multiplexer Ctrl+C is a step); ZeroMQ, of which only success or failure
    matters; the branches of the multiplexer for a poisoned lock, which
    do what the others do; what unwinding drops when its main thread panics (the
    process is over; the drop of a [Mux] is [Mux.drop]); the accessors of raw
    pointers and the [Debug] instances; a failure of the system calls of the examples
    in the theorem about them (their error branches are modelled);
    [mux/client.rs], which no crate includes.  Pointer provenance is not
    modelled: an access is checked against the buffer or mapping it addresses,
    the computation of an address is not. *)

From Stdlib Require Export ZArith Lia Strings.Byte.
From stdpp Require Export base numbers list gmap gmultiset strings vector.

#[export] Set Default Goal Selector "!".
#[global] Open Scope Z_scope.

Declare Scope vdp_scope.
Delimit Scope vdp_scope with vdp.

(** ** Outcomes: Rust's three ways of ending a call

    A call returns ([Done]), panics ([Panicked]: a failed [unwrap], an
    [assert!], an arithmetic overflow of a build with overflow checks, a
    remainder by zero) or, in [unsafe] code, has undefined behaviour
    ([Undefined]: an access outside the allocation, a read of memory that was
    never initialised, a dangling pointer). *)

Inductive outcome (A : Type) : Type :=
  | Done (a : A)
  | Panicked
  | Undefined.
Arguments Done {A} a.
Arguments Panicked {A}.
Arguments Undefined {A}.

(** [Result<A, E>] of the Rust standard library. *)
Inductive result (A E : Type) : Type :=
  | Ok (a : A)
  | Err (e : E).
Arguments Ok {A E} a.
Arguments Err {A E} e.

(** The state-and-outcome monad: a method that borrows [&mut self] (or the
    state of the process) of type [S] and returns [A]. *)
Definition M (S A : Type) : Type := S → outcome (A * S).

#[export] Instance M_ret {S} : MRet (M S) := λ A a s, Done (a, s).

#[export] Instance M_bind {S} : MBind (M S) := λ A B k m s,
  match m s with
  | Done (a, s') => k a s'
  | Panicked => Panicked
  | Undefined => Undefined
  end.

#[export] Instance outcome_ret : MRet outcome := λ A a, Done a.

#[export] Instance outcome_bind : MBind outcome := λ A B k o,
  match o with
  | Done a => k a
  | Panicked => Panicked
  | Undefined => Undefined
  end.

Definition get {S} : M S S := λ s, Done (s, s).
Definition put {S} (s : S) : M S unit := λ _, Done (tt, s).
Definition modify {S} (f : S → S) : M S unit := λ s, Done (tt, f s).
Definition panic {S A} : M S A := λ _, Panicked.
Definition undefined {S A} : M S A := λ _, Undefined.

(** A computation that does not touch the state. *)
Definition lift {S A} (o : outcome A) : M S A := λ s,
  match o with
  | Done a => Done (a, s)
  | Panicked => Panicked
  | Undefined => Undefined
  end.

(** A function of the environment that always returns (a C function). *)
Definition call {S A} (f : S → A * S) : M S A := λ s, Done (f s).

(** [Option::unwrap], [Result::unwrap] and [assert!]. *)
Definition unwrap_opt {S A} (o : option A) : M S A :=
  match o with Some a => mret a | None => panic end.
Definition unwrap {S A E} (r : result A E) : M S A :=
  match r with Ok a => mret a | Err _ => panic end.
Definition assert_ {S} (b : bool) : M S unit :=
  if b then mret tt else panic.

(** The operator [?] with the conversion [f] of the error type. *)
Definition try_bind {S A B E E'} (f : E → E') (m : M S (result A E))
    (k : A → M S (result B E')) : M S (result B E') :=
  r ← m;
  match r with
  | Ok a => k a
  | Err e => mret (Err (f e))
  end.

(** A [for] loop whose body may [return] an error early. *)
Fixpoint try_for {S A E} (body : A → M S (result unit E)) (l : list A)
    : M S (result unit E) :=
  match l with
  | [] => mret (Ok tt)
  | x :: l' =>
      r ← body x;
      match r with
      | Ok _ => try_for body l'
      | Err e => mret (Err e)
      end
  end.

(** A [for] loop without early exit. *)
Fixpoint for_each {S A} (body : A → M S unit) (l : list A) : M S unit :=
  match l with
  | [] => mret tt
  | x :: l' => body x ;; for_each body l'
  end.

(** ** Total correctness

    [wp m Q s]: from [s], [m] returns (no panic, no undefined behaviour) with
    a value and a state that satisfy [Q]. *)
Definition wp {S A} (m : M S A) (Q : A → S → Prop) (s : S) : Prop :=
  match m s with
  | Done (a, s') => Q a s'
  | _ => False
  end.

(** [wp_or_panic m Q s]: the same, or [m] panics. *)
Definition wp_or_panic {S A} (m : M S A) (Q : A → S → Prop) (s : S) : Prop :=
  m s = Panicked ∨ wp m Q s.

(** ** Machine integers

    An unsigned [w]-bit integer is a [Z] in [[0, 2^w)], a signed one a [Z] in
    [[-2^(w-1), 2^(w-1))].  The target is x86-64: [usize] has 64 bits. *)

Definition is_uint (w z : Z) : Prop := 0 ≤ z < 2 ^ w.
Definition is_sint (w z : Z) : Prop := - 2 ^ (w - 1) ≤ z < 2 ^ (w - 1).

(** The casts [as uN] and [as iN]. *)
Definition as_uint (w z : Z) : Z := z mod 2 ^ w.
Definition as_sint (w z : Z) : Z := (z + 2 ^ (w - 1)) mod 2 ^ w - 2 ^ (w - 1).

(** Cargo's profile: [Debug] checks arithmetic for overflow and panics,
    [Release] wraps. *)
Inductive profile := Debug | Release.
Existing Class profile.

#[export] Instance profile_eq_dec : EqDecision profile.
Proof. solve_decision. Defined.

Definition arith {prof : profile} (ok : bool) (exact wrapped : Z) : outcome Z :=
  if ok then Done exact
  else match prof with Debug => Panicked | Release => Done wrapped end.

Definition in_uint (w z : Z) : bool := (0 <=? z) && (z <? 2 ^ w).
Definition in_sint (w z : Z) : bool := (- 2 ^ (w - 1) <=? z) && (z <? 2 ^ (w - 1)).

Definition uadd {prof : profile} (w a b : Z) : outcome Z :=
  arith (in_uint w (a + b)) (a + b) (as_uint w (a + b)).
Definition usub {prof : profile} (w a b : Z) : outcome Z :=
  arith (in_uint w (a - b)) (a - b) (as_uint w (a - b)).
Definition umul {prof : profile} (w a b : Z) : outcome Z :=
  arith (in_uint w (a * b)) (a * b) (as_uint w (a * b)).
Definition sadd {prof : profile} (w a b : Z) : outcome Z :=
  arith (in_sint w (a + b)) (a + b) (as_sint w (a + b)).
Definition sneg {prof : profile} (w a : Z) : outcome Z :=
  arith (in_sint w (- a)) (- a) (as_sint w (- a)).

(** The signed remainder [%]: a zero divisor panics in every profile, and so
    does [MIN % -1]; the sign is the dividend's. *)
Definition srem (w a b : Z) : outcome Z :=
  if b =? 0 then Panicked
  else if (a =? - 2 ^ (w - 1)) && (b =? -1) then Panicked
  else Done (Z.rem a b).

(** ** Bytes *)

Abbreviation u8 := Byte.byte.

#[export] Instance byte_eq_dec : EqDecision u8.
Proof. intros x y. destruct (Byte.byte_eq_dec x y); [by left | by right]. Defined.

Definition u8_to_Z (b : u8) : Z := Z.of_N (Byte.to_N b).

(** The byte [z as u8]. *)
Definition u8_of_Z (z : Z) : u8 := default x00 (Byte.of_N (Z.to_N (as_uint 8 z))).

(** Big-endian bytes of a 16-bit integer. *)
Definition be16 (z : Z) : list u8 := [u8_of_Z (z / 256); u8_of_Z z].

(** [u16::to_be] on the little-endian x86-64: the two bytes are swapped. *)
Definition u16_to_be (z : Z) : Z := Z.lor (Z.shiftl (Z.land z 255) 8) (Z.shiftr z 8).

(** ** Slices of memory

    [splice l n l'] replaces the bytes of [l] from index [n] on by [l']. *)
Definition splice {A} (l : list A) (n : nat) (l' : list A) : list A :=
  take n l ++ l' ++ drop (n + length l') l.

(** ** Executions of a step relation *)
Inductive star {A} (R : A → A → Prop) : A → A → Prop :=
  | star_refl a : star R a a
  | star_step a b c : R a b → star R b c → star R a c.

(** ** Automation *)

Create HintDb vdp discriminated.
Create Rewrite HintDb vdp.
Create Rewrite HintDb vdp_len.
#[export] Hint Rewrite @length_app @length_take @length_drop @length_cons
  @length_replicate @length_fmap : vdp_len.

(** Arithmetic on lengths of lists. *)
Ltac len := autorewrite with vdp_len in *; cbn [length] in *; try lia.

(** Splits the [if]s, [match]es and conjunctions of hypotheses and goal. *)
Ltac vdp_simpl :=
  repeat match goal with
  | H : _ ∧ _ |- _ => destruct H
  | H : ∃ _, _ |- _ => destruct H
  | H : Done _ = Done _ |- _ => injection H as H; subst
  | H : Ok _ = Ok _ |- _ => injection H as H; subst
  | H : Err _ = Err _ |- _ => injection H as H; subst
  | H : (_, _) = (_, _) |- _ => injection H as H; subst
  | H : Some _ = Some _ |- _ => injection H as H; subst
  | _ => progress simplify_eq/=
  end.

(** Decides the boolean comparisons of [Z] that occur in the goal. *)
Ltac bool_lia :=
  repeat match goal with
  | |- context [?a <=? ?b] => destruct (Z.leb_spec a b); try lia
  | |- context [?a <? ?b] => destruct (Z.ltb_spec a b); try lia
  | |- context [?a >? ?b] => rewrite (Z.gtb_ltb a b)
  | |- context [?a >=? ?b] => rewrite (Z.geb_leb a b)
  | |- context [?a =? ?b] => destruct (Z.eqb_spec a b); try lia
  end; simpl; try lia; try done.

(** Splits on the integer equality tests of the goal. *)
Ltac split_eqb :=
  repeat match goal with
  | |- context [if Z.eqb ?a ?b then _ else _] => destruct (Z.eqb_spec a b); cbv match
  end.

(** ** Lemmas *)

Lemma bind_done {S A B} (m : M S A) (k : A → M S B) s a s' :
  m s = Done (a, s') → (m ≫= k) s = k a s'.
Proof. intros H. unfold mbind, M_bind. by rewrite H. Qed.

Lemma bind_panicked {S A B} (m : M S A) (k : A → M S B) s :
  m s = Panicked → (m ≫= k) s = Panicked.
Proof. intros H. unfold mbind, M_bind. by rewrite H. Qed.

Lemma bind_undefined {S A B} (m : M S A) (k : A → M S B) s :
  m s = Undefined → (m ≫= k) s = Undefined.
Proof. intros H. unfold mbind, M_bind. by rewrite H. Qed.

Lemma outcome_bind_done {A B} (a : A) (k : A → outcome B) : (Done a ≫= k) = k a.
Proof. done. Qed.

Lemma outcome_bind_inv {A B} (o : outcome A) (k : A → outcome B) b :
  (o ≫= k) = Done b → ∃ a, o = Done a ∧ k a = Done b.
Proof. destruct o; simpl; [eauto | done | done]. Qed.

Lemma bind_inv {S A B} (m : M S A) (k : A → M S B) s b s'' :
  (m ≫= k) s = Done (b, s'') → ∃ a s', m s = Done (a, s') ∧ k a s' = Done (b, s'').
Proof.
  unfold mbind, M_bind. destruct (m s) as [[a s']| |]; [eauto | done | done].
Qed.

Lemma bind_lift {S A B} (o : outcome A) (k : A → M S B) s :
  (lift o ≫= k) s
  = match o with Done a => k a s | Panicked => Panicked | Undefined => Undefined end.
Proof. by destruct o. Qed.

Lemma bind_lift_done {S A B} (a : A) (k : A → M S B) s : (lift (Done a) ≫= k) s = k a s.
Proof. done. Qed.

Lemma bind_get {S B} (k : S → M S B) s : (get ≫= k) s = k s s.
Proof. done. Qed.

Lemma bind_ret {S A B} (a : A) (k : A → M S B) s : (mret a ≫= k) s = k a s.
Proof. done. Qed.

Lemma bind_call {S A B} (f : S → A * S) (k : A → M S B) s :
  (call f ≫= k) s = k (f s).1 (f s).2.
Proof. unfold mbind, M_bind, call. by destruct (f s). Qed.

Lemma bind_put {S B} (s' : S) (k : unit → M S B) s : (put s' ≫= k) s = k tt s'.
Proof. done. Qed.

Lemma bind_modify {S B} (f : S → S) (k : unit → M S B) s : (modify f ≫= k) s = k tt (f s).
Proof. done. Qed.

Lemma bind_unwrap_opt {S A B} (o : option A) (k : A → M S B) (s : S) :
  (unwrap_opt o ≫= k) s = match o with Some a => k a s | None => Panicked end.
Proof. by destruct o. Qed.

Lemma bind_unwrap_ok {S A B E} (a : A) (k : A → M S B) (s : S) :
  (unwrap (@Ok A E a) ≫= k) s = k a s.
Proof. done. Qed.

Lemma bind_unwrap_err {S A B E} (e : E) (k : A → M S B) (s : S) :
  (unwrap (@Err A E e) ≫= k) s = Panicked.
Proof. done. Qed.

Lemma bind_assoc {S A B C} (m : M S A) (k : A → M S B) (k' : B → M S C) s :
  ((m ≫= k) ≫= k') s = (m ≫= (λ a, k a ≫= k')) s.
Proof. unfold mbind, M_bind. by destruct (m s) as [[a s']| |]. Qed.

#[export] Hint Rewrite @bind_put @bind_modify : vdp.
#[export] Hint Rewrite @outcome_bind_done @bind_get @bind_ret @bind_lift_done @bind_call : vdp.

Lemma wp_done {S A} (m : M S A) Q s a s' :
  m s = Done (a, s') → wp m Q s ↔ Q a s'.
Proof. intros H. unfold wp. by rewrite H. Qed.

Lemma wp_elim {S A} (m : M S A) Q s :
  wp m Q s → ∃ a s', m s = Done (a, s') ∧ Q a s'.
Proof. unfold wp. destruct (m s) as [[a s']| |]; [eauto | done | done]. Qed.

Lemma wp_ret {S A} (a : A) Q (s : S) : Q a s → wp (mret a) Q s.
Proof. done. Qed.

Lemma wp_bind {S A B} (m : M S A) (k : A → M S B) Q s :
  wp m (λ a s', wp (k a) Q s') s → wp (m ≫= k) Q s.
Proof. unfold wp, mbind, M_bind. by destruct (m s) as [[a s']| |]. Qed.

Lemma wp_mono {S A} (m : M S A) (P Q : A → S → Prop) s :
  wp m P s → (∀ a s', P a s' → Q a s') → wp m Q s.
Proof. unfold wp. destruct (m s) as [[a s']| |]; eauto. Qed.

Lemma wpp_bind {S A B} (m : M S A) (k : A → M S B) Q s :
  wp_or_panic m (λ a s', wp_or_panic (k a) Q s') s → wp_or_panic (m ≫= k) Q s.
Proof.
  intros [E | W]; [left; by apply bind_panicked |]. apply wp_elim in W as (a & s' & E & [E' | W]).
  - left. by rewrite (bind_done _ _ _ _ _ E).
  - right. unfold wp. by rewrite (bind_done _ _ _ _ _ E).
Qed.

Lemma wpp_done {S A} (m : M S A) Q s a s' : m s = Done (a, s') → Q a s' → wp_or_panic m Q s.
Proof. intros E HQ. right. by apply (wp_done m Q s a s'). Qed.

Lemma wpp_unwrap {S A E} (r : result A E) Q (s : S) :
  (∀ a, r = Ok a → Q a s) → wp_or_panic (unwrap r) Q s.
Proof. intros HQ. destruct r; [right; by apply HQ | by left]. Qed.

Lemma wpp_elim {S A} (m : M S A) Q s :
  wp_or_panic m Q s → m s = Panicked ∨ ∃ a s', m s = Done (a, s') ∧ Q a s'.
Proof. intros [E | W]; [by left | right; by apply wp_elim]. Qed.

(** An invariant of the body is an invariant of the loop. *)
Lemma wp_for_each {S A} (body : A → M S unit) (l : list A) (I : list A → S → Prop) s :
  I l s →
  (∀ x l' s, I (x :: l') s → wp (body x) (λ _ s', I l' s') s) →
  wp (for_each body l) (λ _ s', I [] s') s.
Proof.
  intros HI Hbody. revert s HI. induction l as [|x l IH]; intros s HI; simpl.
  - by apply wp_ret.
  - apply wp_bind. eapply wp_mono; [by apply Hbody |]. eauto.
Qed.

Lemma in_uint_true w z : is_uint w z → in_uint w z = true.
Proof. unfold is_uint, in_uint. intros. bool_lia. Qed.

Lemma in_sint_true w z : is_sint w z → in_sint w z = true.
Proof. unfold is_sint, in_sint. intros. bool_lia. Qed.

Lemma in_uint_false w z : ¬ is_uint w z → in_uint w z = false.
Proof.
  unfold is_uint, in_uint. intros H.
  destruct (Z.leb_spec 0 z); destruct (Z.ltb_spec z (2 ^ w)); try done.
  exfalso. by apply H.
Qed.

Section arith.
Context {prof : profile}.

Lemma uadd_exact w a b : is_uint w (a + b) → uadd w a b = Done (a + b).
Proof. intros. unfold uadd. by rewrite in_uint_true. Qed.

Lemma usub_exact w a b : is_uint w (a - b) → usub w a b = Done (a - b).
Proof. intros. unfold usub. by rewrite in_uint_true. Qed.

Lemma umul_exact w a b : is_uint w (a * b) → umul w a b = Done (a * b).
Proof. intros. unfold umul. by rewrite in_uint_true. Qed.

Lemma sadd_exact w a b : is_sint w (a + b) → sadd w a b = Done (a + b).
Proof. intros. unfold sadd. by rewrite in_sint_true. Qed.

Lemma sneg_exact w a : is_sint w (- a) → sneg w a = Done (- a).
Proof. intros. unfold sneg. by rewrite in_sint_true. Qed.
End arith.

#[export] Hint Rewrite @uadd_exact @usub_exact @umul_exact @sadd_exact @sneg_exact
  using (unfold is_uint, is_sint in *; lia) : vdp.

Lemma as_uint_id w z : is_uint w z → as_uint w z = z.
Proof. intros. by apply Z.mod_small. Qed.

Lemma as_uint_range w z : 0 ≤ w → is_uint w (as_uint w z).
Proof. intros. apply Z.mod_pos_bound. by apply Z.pow_pos_nonneg. Qed.

(** A build without overflow checks computes modulo [2 ^ w]. *)
Lemma in_uint_spec w z : in_uint w z = true ↔ is_uint w z.
Proof. unfold in_uint, is_uint. rewrite andb_true_iff, Z.leb_le, Z.ltb_lt. done. Qed.

Lemma uadd_release w a b : uadd (prof := Release) w a b = Done (as_uint w (a + b)).
Proof.
  unfold uadd, arith. destruct (in_uint w (a + b)) eqn:E; [| done].
  by rewrite as_uint_id by (by apply in_uint_spec).
Qed.

Lemma usub_release w a b : usub (prof := Release) w a b = Done (as_uint w (a - b)).
Proof.
  unfold usub, arith. destruct (in_uint w (a - b)) eqn:E; [| done].
  by rewrite as_uint_id by (by apply in_uint_spec).
Qed.

Lemma sadd_release w a b : ∃ k, sadd (prof := Release) w a b = Done k.
Proof. unfold sadd, arith. destruct (in_sint w (a + b)); eauto. Qed.

(** A build with overflow checks panics on a sum that is too large. *)
Lemma uadd_debug w a b : 2 ^ w ≤ a + b → uadd (prof := Debug) w a b = Panicked.
Proof. intros. unfold uadd, arith. by rewrite in_uint_false by (unfold is_uint; lia). Qed.

(** Reducing a difference twice. *)
Lemma as_uint_sub w a b : 0 ≤ w → as_uint w (as_uint w a - b) = as_uint w (a - b).
Proof. intros Hw. unfold as_uint. apply Zminus_mod_idemp_l. Qed.

Lemma as_uint_sub_r w a b : as_uint w (a - as_uint w b) = as_uint w (a - b).
Proof. unfold as_uint. apply Zminus_mod_idemp_r. Qed.

(** A value one modulus above the range. *)
Lemma as_uint_wrap_pos w z : is_uint w (z - 2 ^ w) → as_uint w z = z - 2 ^ w.
Proof.
  unfold is_uint, as_uint. intros [? ?].
  symmetry. apply (Z.mod_unique_pos _ _ 1); lia.
Qed.

(** A value one modulus below the range wraps to the value plus the modulus. *)
Lemma as_uint_wrap_neg w z : is_uint w (z + 2 ^ w) → as_uint w z = z + 2 ^ w.
Proof.
  unfold is_uint, as_uint. intros [? ?].
  symmetry. apply (Z.mod_unique_pos _ _ (-1)); lia.
Qed.

Lemma as_sint_id w z : 0 < w → is_sint w z → as_sint w z = z.
Proof.
  unfold is_sint, as_sint. intros Hw Hz.
  assert (2 ^ w = 2 * 2 ^ (w - 1)) as E.
  { rewrite <- Z.pow_succ_r by lia. f_equal. lia. }
  rewrite Z.mod_small by lia. lia.
Qed.

(** Disjoint bit fields add up; swapping the bytes of a [u16]. *)
Lemma lor_shift a b k : 0 ≤ k → 0 ≤ b < 2 ^ k → Z.lor (Z.shiftl a k) b = a * 2 ^ k + b.
Proof.
  intros Hk Hb. pose proof (Z.add_lor_land (Z.shiftl a k) b) as E.
  assert (L : Z.land (Z.shiftl a k) b = 0); [| rewrite Z.shiftl_mul_pow2 in * by done; lia].
  apply Z.bits_inj'. intros i Hi. rewrite Z.bits_0, Z.land_spec.
  destruct (decide (i < k)).
  - by rewrite Z.shiftl_spec_low by lia.
  - assert (Hlt : Z.testbit b i = false); [| by rewrite Hlt, andb_false_r].
    destruct (decide (b = 0)) as [-> |]; [apply Z.testbit_0_l |].
    apply Z.bits_above_log2; [lia |]. apply Z.log2_lt_pow2; [lia |].
    pose proof (Z.pow_le_mono_r 2 k i ltac:(lia) ltac:(lia)). lia.
Qed.

Lemma u16_to_be_bytes e : is_uint 16 e → u16_to_be e = e mod 256 * 256 + e / 256.
Proof.
  intros [? ?]. unfold u16_to_be. change 255 with (Z.ones 8).
  rewrite Z.land_ones, Z.shiftr_div_pow2 by lia. apply (lor_shift _ _ 8); [lia |].
  split; [by apply Z.div_pos | by apply Z.div_lt_upper_bound].
Qed.

Lemma u8_range b : 0 ≤ u8_to_Z b < 256.
Proof. unfold u8_to_Z. pose proof (Byte.to_N_bounded b). lia. Qed.

Lemma u8_to_Z_inj a b : u8_to_Z a = u8_to_Z b → a = b.
Proof.
  unfold u8_to_Z. intros E%N2Z.inj. apply (f_equal Byte.of_N) in E.
  rewrite !Byte.of_to_N in E. congruence.
Qed.

(** The two bytes of a big-endian field, loaded by a little-endian machine. *)
Lemma u16_to_be_load a b :
  u16_to_be (u8_to_Z a + 256 * u8_to_Z b) = u8_to_Z a * 256 + u8_to_Z b.
Proof.
  pose proof (u8_range a). pose proof (u8_range b).
  rewrite u16_to_be_bytes by (unfold is_uint; lia). Z.div_mod_to_equations. lia.
Qed.

Lemma length_splice {A} (l : list A) n l' :
  (n + length l' ≤ length l)%nat → length (splice l n l') = length l.
Proof. intros. unfold splice. rewrite !length_app, length_take, length_drop. lia. Qed.

Lemma take_splice {A} (l : list A) n l' k :
  (k ≤ n)%nat → (n ≤ length l)%nat → take k (splice l n l') = take k l.
Proof.
  intros. unfold splice. rewrite take_app_le by (rewrite length_take; lia).
  rewrite take_take. f_equal. lia.
Qed.

Lemma drop_splice {A} (l : list A) n l' k :
  (n + length l' ≤ k)%nat → (n ≤ length l)%nat → drop k (splice l n l') = drop k l.
Proof.
  intros. unfold splice. rewrite app_assoc.
  rewrite drop_app_ge by (rewrite length_app, length_take; lia).
  rewrite drop_drop. f_equal. rewrite length_app, length_take. lia.
Qed.

(** Multisets given by lists. *)
Lemma list_to_set_disj_elements (s : gmultiset Z) : list_to_set_disj (elements s) = s.
Proof.
  induction s as [| x s IH] using gmultiset_ind.
  - by rewrite gmultiset_elements_empty.
  - rewrite gmultiset_elements_disj_union, gmultiset_elements_singleton.
    rewrite list_to_set_disj_app, IH. simpl. multiset_solver.
Qed.

Lemma size_list_to_set_disj (l : list Z) :
  size (list_to_set_disj l : gmultiset Z) = length l.
Proof.
  induction l as [|x l IH]; [done |].
  rewrite list_to_set_disj_cons, gmultiset_size_disj_union, gmultiset_size_singleton, IH. done.
Qed.

Lemma star_one {A} (R : A → A → Prop) a b : R a b → star R a b.
Proof. intros. eapply star_step; [done | apply star_refl]. Qed.

Lemma star_trans {A} (R : A → A → Prop) a b c : star R a b → star R b c → star R a c.
Proof. induction 1; [done |]. intros. eapply star_step; eauto. Qed.

(** Rule induction: an invariant of the steps holds in every reachable state. *)
Lemma star_invariant {A} (R : A → A → Prop) (I : A → Prop) a b :
  I a → (∀ x y, I x → R x y → I y) → star R a b → I b.
Proof. intros HI Hstep Hstar. induction Hstar; eauto. Qed.

#[export] Hint Resolve star_refl star_one : vdp.
