(* ===== verification/Errors.v ===== *)
(** * Errors of the DPDK wrapper ([l3enginelib/src/apis/mod.rs])

    The error enumerations, their constructors from DPDK's [rte_errno], the
    conversions between them and the conversion of Rust strings to C
    strings. *)

From S2P Require Import Prelude.

(** The constants the code imports from the crate [libc]. *)
Class Errno := {
  EAGAIN : Z; EALREADY : Z; EEXIST : Z; EFAULT : Z; EINVAL : Z; ENOBUFS : Z;
  ENODEV : Z; ENOENT : Z; ENOEXEC : Z; ENOMEM : Z; ENOSPC : Z; ENOTSUP : Z;
  EPROTO : Z
}.

(** [errno(3)]: error numbers have distinct positive values.  DPDK's own
    codes start at 1000 ([RTE_MIN_ERRNO]) so that they do not overlap the
    operating system's. *)
Class ErrnoLaws `{Errno} : Prop := {
  errno_distinct :
    NoDup [EAGAIN; EALREADY; EEXIST; EFAULT; EINVAL; ENOBUFS; ENODEV; ENOENT;
           ENOEXEC; ENOMEM; ENOSPC; ENOTSUP; EPROTO];
  errno_bound :
    Forall (λ e, 0 < e < 1000)
          [EAGAIN; EALREADY; EEXIST; EFAULT; EINVAL; ENOBUFS; ENODEV; ENOENT;
           ENOEXEC; ENOMEM; ENOSPC; ENOTSUP; EPROTO]
}.

(** The values of x86-64 Linux. *)
Definition linux_errno : Errno := {|
  EAGAIN := 11; EALREADY := 114; EEXIST := 17; EFAULT := 14; EINVAL := 22;
  ENOBUFS := 105; ENODEV := 19; ENOENT := 2; ENOEXEC := 8; ENOMEM := 12;
  ENOSPC := 28; ENOTSUP := 95; EPROTO := 71 |}.

(** ** C strings *)

(** [std::ffi::NulError]: the position of the first NUL and the bytes. *)
Record NulError := { nul_position : nat; nul_bytes : string }.

Fixpoint find_nul (s : string) (i : nat) : option nat :=
  match s with
  | EmptyString => None
  | String a s' =>
      if Nat.eqb (Ascii.nat_of_ascii a) 0 then Some i else find_nul s' (S i)
  end.

(** [WrappedCString::to_cstring], for [&str] and [String]: [CString::new]. *)
Definition to_cstring (s : string) : result string NulError :=
  match find_nul s 0 with
  | None => Ok s
  | Some i => Err {| nul_position := i; nul_bytes := s |}
  end.

(** ** The enumerations *)

Inductive MemoryError :=
  | NoConfig | SecondaryProcess | Invalid | NoSpace | Exists | NoMem | NoBuf
  | NoEntries | BadVal.

Inductive RingClientMapError :=
  | RcmMemoryError (e : MemoryError)
  | ClientNotFound (client : Z).

Inductive BufError :=
  | BadOffset (offset len : Z)
  | NotResized
  | OutOfBuffer (size remaining : Z).

Inductive PortError :=
  | PortNoDevice | PortInvalid | PortNoSupport | PortNoMem | PortBadVal.

Inductive EALErrors :=
  | NoRsrc | DuplicateCall | InvalidArgs | EalNoMem | BadMemCnfg | BadSystem
  | BadPCI | CoreLaunchFailed | Fault | Weird (code : Z).

#[export] Instance MemoryError_eq_dec : EqDecision MemoryError.
Proof. solve_decision. Defined.
#[export] Instance BufError_eq_dec : EqDecision BufError.
Proof. solve_decision. Defined.
#[export] Instance PortError_eq_dec : EqDecision PortError.
Proof. solve_decision. Defined.
#[export] Instance EALErrors_eq_dec : EqDecision EALErrors.
Proof. solve_decision. Defined.

(** [impl From<NulError> for MemoryError]. *)
Definition MemoryError_from_nul (_ : NulError) : MemoryError := BadVal.

(** [impl From<MemoryError> for RingClientMapError]. *)
Definition RingClientMapError_from (err : MemoryError) : RingClientMapError :=
  RcmMemoryError err.

(** ** Constructors from [rte_errno]

    The [match]es test the arms in order; [errno] is the value the shim
    [_rte_errno] read. *)
Section from_errno.
Context {EN : Errno}.

(** [MemoryError::new]. *)
Definition MemoryError_new (errno : Z) : MemoryError :=
  if errno =? 1001 then SecondaryProcess
  else if errno =? 1002 then NoConfig
  else if errno =? EINVAL then Invalid
  else if errno =? ENOSPC then NoSpace
  else if errno =? EEXIST then Exists
  else if errno =? ENOMEM then NoMem
  else if errno =? ENOBUFS then NoBuf
  else if errno =? ENOENT then NoEntries
  else BadVal.

(** [PortError::new]. *)
Definition PortError_new (errno : Z) : PortError :=
  if errno =? ENODEV then PortNoDevice
  else if errno =? EINVAL then PortInvalid
  else if errno =? ENOTSUP then PortNoSupport
  else if errno =? ENOMEM then PortNoMem
  else PortBadVal.

(** [EALErrors::new]. *)
Definition EALErrors_new (errno : Z) : EALErrors :=
  if errno =? EAGAIN then NoRsrc
  else if errno =? EALREADY then DuplicateCall
  else if errno =? EINVAL then InvalidArgs
  else if errno =? ENOMEM then NoRsrc
  else if errno =? ENODEV then BadMemCnfg
  else if errno =? ENOTSUP then BadSystem
  else if errno =? EPROTO then BadPCI
  else if errno =? ENOEXEC then CoreLaunchFailed
  else if errno =? EFAULT then Fault
  else Weird errno.
End from_errno.

(** ** Reference table: the number each variant documents *)

Definition MemoryError_code `{Errno} (e : MemoryError) : option Z :=
  match e with
  | SecondaryProcess => Some 1001
  | NoConfig => Some 1002
  | Invalid => Some EINVAL
  | NoSpace => Some ENOSPC
  | Exists => Some EEXIST
  | NoMem => Some ENOMEM
  | NoBuf => Some ENOBUFS
  | NoEntries => Some ENOENT
  | BadVal => None
  end.

Definition PortError_code `{Errno} (e : PortError) : option Z :=
  match e with
  | PortNoDevice => Some ENODEV
  | PortInvalid => Some EINVAL
  | PortNoSupport => Some ENOTSUP
  | PortNoMem => Some ENOMEM
  | PortBadVal => None
  end.

(** ** Lemmas *)

#[export] Instance linux_errno_laws : ErrnoLaws (H := linux_errno).
Proof.
  split; simpl.
  - apply (bool_decide_unpack _). by vm_compute.
  - rewrite !Forall_cons, Forall_nil. lia.
Qed.

(** Turns the pairwise distinctness of the codes into disequations. *)
Ltac errno_facts :=
  pose proof errno_distinct; pose proof errno_bound;
  rewrite ?NoDup_cons, ?Forall_cons, ?not_elem_of_cons in *; destruct_and!.

(** Closes a goal about one arm of a decoder: the arm is the right one, or two
    distinct codes are equal, or a code is one of DPDK's. *)
Ltac errno_arm :=
  solve [reflexivity | assumption | congruence
    | exfalso; repeat match goal with H : _ ≠ _ |- _ => clear H end; lia].

Lemma find_nul_spec s i :
  match find_nul s i with
  | None => ∀ k a, String.get k s = Some a → Ascii.nat_of_ascii a ≠ 0%nat
  | Some j => (i ≤ j)%nat ∧ ∃ a, String.get (j - i) s = Some a ∧ Ascii.nat_of_ascii a = 0%nat
  end.
Proof.
  revert i. induction s as [|a s IH]; intros i; simpl; [done |].
  destruct (Nat.eqb_spec (Ascii.nat_of_ascii a) 0).
  - split; [lia |]. exists a. by replace (i - i)%nat with 0%nat by lia.
  - specialize (IH (S i)). destruct (find_nul s (S i)) as [j|].
    + destruct IH as (? & b & ? & ?). split; [lia |]. exists b.
      replace (j - i)%nat with (S (j - S i)) by lia. done.
    + intros [|k] b; [by intros [= <-] | apply IH].
Qed.

(** ** Properties *)

(** [MemoryError::new] decodes every documented error number
    to the variant that documents it, and a number no variant documents to
    [BadVal]: the match has no shadowed arm. *)
Lemma MemoryError_new_decodes `{ErrnoLaws} (e : MemoryError) (errno : Z) :
  MemoryError_new errno = e ↔
  match MemoryError_code e with
  | Some n => errno = n
  | None => ∀ e' n, MemoryError_code e' = Some n → errno ≠ n
  end.
Proof.
  errno_facts. unfold MemoryError_new. split.
  - intros <-. split_eqb; simpl; try errno_arm; by intros [] k; simpl; intros [= <-].
  - destruct e; simpl; intros He; split_eqb; try errno_arm; subst; exfalso.
    all: first [by eapply (He SecondaryProcess) | by eapply (He NoConfig)
      | by eapply (He Invalid) | by eapply (He NoSpace) | by eapply (He Exists)
      | by eapply (He NoMem) | by eapply (He NoBuf) | by eapply (He NoEntries)].
Qed.

(** [MemoryError_new_decodes] at Linux's [ENOENT]. *)
Lemma MemoryError_new_decodes_witness : MemoryError_new (EN := linux_errno) 2 = NoEntries.
Proof. apply (MemoryError_new_decodes (H := linux_errno) NoEntries 2). reflexivity. Defined.

(** The same for [PortError::new]. *)
Lemma PortError_new_decodes `{ErrnoLaws} (e : PortError) (errno : Z) :
  PortError_new errno = e ↔
  match PortError_code e with
  | Some n => errno = n
  | None => ∀ e' n, PortError_code e' = Some n → errno ≠ n
  end.
Proof.
  errno_facts. unfold PortError_new. split.
  - intros <-. split_eqb; simpl; try errno_arm; by intros [] k; simpl; intros [= <-].
  - destruct e; simpl; intros He; split_eqb; try errno_arm; subst; exfalso.
    all: first [by eapply (He PortNoDevice) | by eapply (He PortInvalid)
      | by eapply (He PortNoSupport) | by eapply (He PortNoMem)].
Qed.

(** [EALErrors::new] reports an out-of-memory start-up as
    [NoRsrc] ("setup may be attempted again"); the variant [NoMem], documented
    as "failure likely caused by an out-of-memory condition", is never
    constructed; and exactly the numbers without an arm of their own become
    [Weird]. *)
Lemma EALErrors_new_no_mem `{ErrnoLaws} :
  EALErrors_new ENOMEM = NoRsrc ∧
  (∀ errno, EALErrors_new errno ≠ EalNoMem) ∧
  (∀ errno c, EALErrors_new errno = Weird c ↔
    c = errno ∧ errno ∉ [EAGAIN; EALREADY; EINVAL; ENOMEM; ENODEV; ENOTSUP;
                         EPROTO; ENOEXEC; EFAULT]).
Proof.
  unfold EALErrors_new. split; [| split].
  - errno_facts. split_eqb; errno_arm.
  - intros errno. by split_eqb.
  - intros errno c. split_eqb.
    1-9: split; [done |]; intros [_ []]; subst; rewrite !elem_of_cons; tauto.
    split; [intros [= <-] | by intros [-> _]].
    rewrite !not_elem_of_cons. auto 12 using not_elem_of_nil.
Qed.

Lemma EALErrors_new_no_mem_witness : EALErrors_new (EN := linux_errno) 12 = NoRsrc.
Proof. apply (EALErrors_new_no_mem (H := linux_errno)). Defined.

(** [to_cstring] succeeds, with the same bytes, exactly when the string has
    no interior NUL; the error carries the position of a NUL. *)
Lemma to_cstring_spec s :
  match to_cstring s with
  | Ok c => c = s ∧ ∀ k a, String.get k s = Some a → Ascii.nat_of_ascii a ≠ 0%nat
  | Err e => ∃ a, String.get (nul_position e) s = Some a ∧ Ascii.nat_of_ascii a = 0%nat
  end.
Proof.
  unfold to_cstring. pose proof (find_nul_spec s 0) as Hn.
  destruct (find_nul s 0); simpl; [| done].
  destruct Hn as (_ & a & ? & ?). exists a. by rewrite Nat.sub_0_r in *.
Qed.
