(* ===== verification/Mbuf.v ===== *)
(** * Packet buffers ([l3enginelib/src/apis/mbuf.rs], the methods on one buffer)

    The fields of DPDK's [rte_mbuf] that the code reads or writes, with the
    memory the field [buf_addr] points to, and the methods of [Mbuf] that
    work on one buffer: [data_len], [data_address], [tailroom], [extend],
    [shrink], [resize], [truncate], [read_data], [read_data_slice] and
    [write_data_slice].  Raw pointers are addresses; a copy outside the
    buffer's memory is [Undefined]. *)

From S2P Require Import Prelude Errors.

(** ** Data *)

(** [m_buf] is the memory of [m_buf_len] bytes at address [m_buf_addr]. *)
Record rte_mbuf := RteMbuf {
  m_buf_addr : Z;
  m_buf_len : Z;
  m_data_off : Z;
  m_data_len : Z;
  m_pkt_len : Z;
  m_pool : Z;
  m_buf : list u8
}.

Definition set_data_len (n : Z) (b : rte_mbuf) : rte_mbuf :=
  RteMbuf (m_buf_addr b) (m_buf_len b) (m_data_off b) n (m_pkt_len b) (m_pool b) (m_buf b).
Definition set_pkt_len (n : Z) (b : rte_mbuf) : rte_mbuf :=
  RteMbuf (m_buf_addr b) (m_buf_len b) (m_data_off b) (m_data_len b) n (m_pool b) (m_buf b).
Definition set_buf (l : list u8) (b : rte_mbuf) : rte_mbuf :=
  RteMbuf (m_buf_addr b) (m_buf_len b) (m_data_off b) (m_data_len b) (m_pkt_len b) (m_pool b) l.

(** [NonNull<[T]>]: the address of the first element and the count. *)
Record slice_ptr := SlicePtr { sp_addr : Z; sp_count : Z }.

(** The trait [SizeOf], with the representation of a value in memory. *)
Class SizeOf (T : Type) := {
  size_of : Z;
  repr : T → list u8
}.
Arguments size_of T {_}.

(** What the implementors promise: [size_of] is the size of the
    representation. *)
Class SizeOfLaws (T : Type) `{SizeOf T} : Prop :=
  length_repr : ∀ x : T, Z.of_nat (length (repr x)) = size_of T.

Record Ipv6Addr := { ipv6_octets : vec u8 16 }.

#[export] Instance SizeOf_unit : SizeOf unit := {| size_of := 0; repr := λ _, [] |}.
#[export] Instance SizeOf_u8 : SizeOf u8 := {| size_of := 1; repr := λ b, [b] |}.
#[export] Instance SizeOf_arr2 : SizeOf (vec u8 2) := {| size_of := 2; repr := λ v, vec_to_list v |}.
#[export] Instance SizeOf_arr16 : SizeOf (vec u8 16) := {| size_of := 16; repr := λ v, vec_to_list v |}.
#[export] Instance SizeOf_Ipv6Addr : SizeOf Ipv6Addr :=
  {| size_of := 16; repr := λ a, vec_to_list (ipv6_octets a) |}.

(** ** Raw pointers into the buffer *)

(** [ptr.offset(k)] from [buf_addr]: defined inside the allocation and one
    past its end. *)
Definition ptr_offset (b : rte_mbuf) (k : Z) : outcome Z :=
  if (0 <=? k) && (k <=? Z.of_nat (length (m_buf b)))
  then Done (m_buf_addr b + k) else Undefined.

(** The [n] bytes at address [a] lie in the buffer. *)
Definition in_buf (b : rte_mbuf) (a n : Z) : bool :=
  (0 <=? a - m_buf_addr b) && (a - m_buf_addr b + n <=? Z.of_nat (length (m_buf b))).

(** Stores [bytes] at address [dst]. *)
Definition store_bytes (bytes : list u8) (dst : Z) : M rte_mbuf unit :=
  b ← get;
  if in_buf b dst (Z.of_nat (length bytes))
  then put (set_buf (splice (m_buf b) (Z.to_nat (dst - m_buf_addr b)) bytes) b)
  else undefined.

(** [ptr::copy(src, dst, n)] on [*mut u8]: a [memmove]. *)
Definition ptr_copy (src dst n : Z) : M rte_mbuf unit :=
  b ← get;
  if in_buf b src n
  then store_bytes (take (Z.to_nat n) (drop (Z.to_nat (src - m_buf_addr b)) (m_buf b))) dst
  else undefined.

(** [ptr::copy_nonoverlapping(slice.as_ptr(), dst, slice.len())]. *)
Definition copy_slice {T} `{SizeOf T} (slice : list T) (dst : Z) : M rte_mbuf unit :=
  store_bytes (slice ≫= repr) dst.

(** [slice::from_raw_parts_mut(a, n)] for elements of [size] bytes: undefined
    unless the whole range lies in the allocation. *)
Definition from_raw_parts_mut (b : rte_mbuf) (a n size : Z) : outcome slice_ptr :=
  if in_buf b a (n * size) then Done (SlicePtr a n) else Undefined.

(** ** Methods *)

Module Mbuf.
Section methods.
Context {prof : profile}.

(** [Mbuf::data_len]. *)
Definition data_len (b : rte_mbuf) : Z := m_data_len b.

(** [Mbuf::data_address]. *)
Definition data_address (b : rte_mbuf) (offset : Z) : outcome Z :=
  k ← sadd 64 (m_data_off b) (as_sint 64 offset);
  ptr_offset b k.

(** [Mbuf::tailroom]: the subtractions are on [u16]. *)
Definition tailroom (b : rte_mbuf) : outcome Z :=
  r ← usub 16 (m_buf_len b) (m_data_off b);
  usub 16 r (m_data_len b).

(** The record keeping at the end of [extend]. *)
Definition grow (len : Z) : M rte_mbuf unit :=
  b ← get;
  dl ← lift (uadd 16 (m_data_len b) (as_uint 16 len));
  put (set_data_len dl b) ;;
  b ← get;
  pl ← lift (uadd 32 (m_pkt_len b) (as_uint 32 len));
  put (set_pkt_len pl b).

(** [Mbuf::extend]. *)
Definition extend (offset len : Z) : M rte_mbuf (result unit BufError) :=
  b ← get;
  if (len <=? 0) || (offset >? data_len b) then mret (Err NotResized) else
  room ← lift (tailroom b);
  if len >? room then mret (Err NotResized) else
  to_copy ← lift (usub 64 (data_len b) offset);
  (if to_copy >? 0 then
     src ← lift (data_address b offset);
     at_ ← lift (uadd 64 offset len);
     dst ← lift (data_address b at_);
     ptr_copy src dst to_copy
   else mret tt) ;;
  grow len ;;
  mret (Ok tt).

(** The record keeping at the end of [shrink]. *)
Definition shorten (len : Z) : M rte_mbuf unit :=
  b ← get;
  dl ← lift (usub 16 (m_data_len b) (as_uint 16 len));
  put (set_data_len dl b) ;;
  b ← get;
  pl ← lift (usub 32 (m_pkt_len b) (as_uint 32 len));
  put (set_pkt_len pl b).

(** [Mbuf::shrink]. *)
Definition shrink (offset len : Z) : M rte_mbuf (result unit BufError) :=
  b ← get;
  if len <=? 0 then mret (Err NotResized) else
  last ← lift (uadd 64 offset len);
  if last >? data_len b then mret (Err NotResized) else
  rest ← lift (usub 64 (data_len b) offset);
  to_copy ← lift (usub 64 rest len);
  (if to_copy >? 0 then
     at_ ← lift (uadd 64 offset len);
     src ← lift (data_address b at_);
     dst ← lift (data_address b offset);
     ptr_copy src dst to_copy
   else mret tt) ;;
  shorten len ;;
  mret (Ok tt).

(** [Mbuf::resize]; [len] is an [isize]. *)
Definition resize (offset len : Z) : M rte_mbuf (result unit BufError) :=
  if len <? 0 then
    n ← lift (sneg 64 len);
    shrink offset (as_uint 64 n)
  else extend offset (as_uint 64 len).

(** [Mbuf::truncate]. *)
Definition truncate (to_len : Z) : M rte_mbuf (result unit BufError) :=
  b ← get;
  if to_len >=? data_len b then mret (Err NotResized) else
  modify (set_data_len (as_uint 16 to_len)) ;;
  modify (set_pkt_len (as_uint 32 to_len)) ;;
  mret (Ok tt).

(** [Mbuf::read_data]: the address of the [T] at [offset]. *)
Definition read_data (T : Type) `{SizeOf T} (b : rte_mbuf) (offset : Z)
    : outcome (result Z BufError) :=
  if offset >=? data_len b then mret (Err (BadOffset offset (data_len b))) else
  last ← uadd 64 offset (size_of T);
  if last >? data_len b then
    rest ← usub 64 (data_len b) offset;
    mret (Err (OutOfBuffer (size_of T) rest))
  else
    item ← data_address b offset;
    mret (Ok item).

(** [Mbuf::read_data_slice]. *)
Definition read_data_slice (T : Type) `{SizeOf T} (b : rte_mbuf) (offset count : Z)
    : outcome (result slice_ptr BufError) :=
  if offset >=? data_len b then mret (Err (BadOffset offset (data_len b))) else
  size ← umul 64 (size_of T) count;
  last ← uadd 64 offset size;
  rest ← usub 64 (data_len b) offset;
  if last >? rest then
    size ← umul 64 (size_of T) count;
    rest ← usub 64 (data_len b) offset;
    mret (Err (OutOfBuffer size rest))
  else
    item0 ← data_address b offset;
    slice ← from_raw_parts_mut b item0 count (size_of T);
    mret (Ok slice).

(** [Mbuf::write_data_slice]. *)
Definition write_data_slice {T : Type} `{SizeOf T} (offset : Z) (slice : list T)
    : M rte_mbuf (result slice_ptr BufError) :=
  let count := Z.of_nat (length slice) in
  b ← get;
  size ← lift (umul 64 (size_of T) count);
  last ← lift (uadd 64 offset size);
  if last >? data_len b then
    size ← lift (umul 64 (size_of T) count);
    rest ← lift (usub 64 (data_len b) offset);
    mret (Err (OutOfBuffer size rest))
  else
    dst ← lift (data_address b offset);
    copy_slice slice dst ;;
    b ← get;
    lift (read_data_slice T b offset count).
End methods.
End Mbuf.


(** ** Invariant and abstraction *)

(** A single-segment buffer as [rte_pktmbuf_alloc] makes it: the data lies
    between the headroom and the end of the memory. *)
Record mbuf_wf (b : rte_mbuf) : Prop := {
  wf_buf : Z.of_nat (length (m_buf b)) = m_buf_len b;
  wf_off : 0 ≤ m_data_off b;
  wf_len : 0 ≤ m_data_len b;
  wf_fits : m_data_off b + m_data_len b ≤ m_buf_len b;
  wf_u16 : m_buf_len b < 2 ^ 16;
  wf_pkt : m_pkt_len b = m_data_len b
}.

(** The packet: the bytes of the data region. *)
Definition data (b : rte_mbuf) : list u8 :=
  take (Z.to_nat (m_data_len b)) (drop (Z.to_nat (m_data_off b)) (m_buf b)).

(** The bytes left after the data. *)
Definition room (b : rte_mbuf) : Z := m_buf_len b - m_data_off b - m_data_len b.

(** [b'] is the same buffer with the same headroom. *)
Definition same_buffer (b b' : rte_mbuf) : Prop :=
  m_buf_addr b' = m_buf_addr b ∧ m_buf_len b' = m_buf_len b ∧
  m_data_off b' = m_data_off b ∧ m_pool b' = m_pool b ∧
  take (Z.to_nat (m_data_off b)) (m_buf b') = take (Z.to_nat (m_data_off b)) (m_buf b).

(** ** Lemmas *)

#[export] Instance SizeOf_unit_laws : SizeOfLaws unit.
Proof. by intros []. Qed.
#[export] Instance SizeOf_u8_laws : SizeOfLaws u8.
Proof. done. Qed.
#[export] Instance SizeOf_arr2_laws : SizeOfLaws (vec u8 2).
Proof. intros v. simpl. by rewrite length_vec_to_list. Qed.
#[export] Instance SizeOf_arr16_laws : SizeOfLaws (vec u8 16).
Proof. intros v. simpl. by rewrite length_vec_to_list. Qed.
#[export] Instance SizeOf_Ipv6Addr_laws : SizeOfLaws Ipv6Addr.
Proof. intros v. simpl. by rewrite length_vec_to_list. Qed.

Lemma same_buffer_refl b : same_buffer b b.
Proof. done. Qed.

Lemma same_buffer_trans b1 b2 b3 :
  same_buffer b1 b2 → same_buffer b2 b3 → same_buffer b1 b3.
Proof. unfold same_buffer. intros. destruct_and!. repeat split; congruence. Qed.

#[export] Instance same_buffer_preorder : PreOrder same_buffer.
Proof. split; [exact same_buffer_refl | exact same_buffer_trans]. Qed.

(** The three parts of the memory of a well-formed buffer. *)
Lemma wf_split b :
  mbuf_wf b → ∃ h t, m_buf b = h ++ data b ++ t ∧
    Z.of_nat (length h) = m_data_off b ∧ Z.of_nat (length (data b)) = m_data_len b ∧
    Z.of_nat (length t) = room b.
Proof.
  intros [H1 H2 H3 H4 H5 H6]. unfold data, room.
  exists (take (Z.to_nat (m_data_off b)) (m_buf b)),
    (drop (Z.to_nat (m_data_len b)) (drop (Z.to_nat (m_data_off b)) (m_buf b))).
  rewrite take_drop, take_drop, !length_take, !length_drop. repeat split; lia.
Qed.

(** Conversely, a decomposition gives the invariant and the data. *)
Lemma split_wf b h d t :
  m_buf b = h ++ d ++ t →
  Z.of_nat (length h) = m_data_off b → Z.of_nat (length d) = m_data_len b →
  Z.of_nat (length (h ++ d ++ t)) = m_buf_len b → m_buf_len b < 2 ^ 16 →
  m_pkt_len b = m_data_len b →
  mbuf_wf b ∧ data b = d.
Proof.
  intros E Hh Hd Hl Hu Hp. split.
  - rewrite !length_app in Hl. split; rewrite ?E, ?length_app; try lia.
  - unfold data. rewrite E, <- Hh, <- Hd, !Nat2Z.id.
    by rewrite drop_app_length, take_app_length.
Qed.

Lemma length_data b : mbuf_wf b → Z.of_nat (length (data b)) = m_data_len b.
Proof. intros (h & t & ? & ? & ? & ?)%wf_split. done. Qed.

Lemma splice_split {A} (l1 l2 l3 l2' : list A) n :
  n = length l1 → length l2' = length l2 →
  splice (l1 ++ l2 ++ l3) n l2' = l1 ++ l2' ++ l3.
Proof.
  intros -> E. unfold splice. rewrite take_app_length. do 2 f_equal.
  rewrite E, <- drop_drop, drop_app_length. apply drop_app_length.
Qed.

Lemma splice_nil {A} (l : list A) n : splice l n [] = l.
Proof. unfold splice. simpl. rewrite Nat.add_0_r. apply take_drop. Qed.

Section methods.
Context {prof : profile}.

Lemma data_address_ok b offset :
  mbuf_wf b → 0 ≤ offset → m_data_off b + offset ≤ m_buf_len b →
  Mbuf.data_address b offset = Done (m_buf_addr b + (m_data_off b + offset)).
Proof.
  intros [H1 H2 H3 H4 H5 H6] ??. unfold Mbuf.data_address.
  rewrite as_sint_id by (unfold is_sint; lia).
  autorewrite with vdp. unfold ptr_offset. bool_lia.
Qed.

Lemma tailroom_ok b : mbuf_wf b → Mbuf.tailroom b = Done (room b).
Proof.
  intros [H1 H2 H3 H4 H5 H6]. unfold Mbuf.tailroom, room.
  by autorewrite with vdp.
Qed.

(** A memmove of [n] bytes from index [i] to index [j]. *)
Lemma ptr_copy_ok b i j n :
  0 ≤ i → 0 ≤ j → 0 ≤ n → i + n ≤ Z.of_nat (length (m_buf b)) →
  j + n ≤ Z.of_nat (length (m_buf b)) →
  ptr_copy (m_buf_addr b + i) (m_buf_addr b + j) n b
  = Done (tt, set_buf (splice (m_buf b) (Z.to_nat j)
      (take (Z.to_nat n) (drop (Z.to_nat i) (m_buf b)))) b).
Proof.
  intros. unfold ptr_copy, store_bytes. autorewrite with vdp.
  unfold in_buf. rewrite !Z.add_simpl_l. bool_lia.
  autorewrite with vdp. rewrite length_take, length_drop. bool_lia.
  by rewrite Z.add_simpl_l.
Qed.

(** What a successful resize does to the memory: [h ++ d ++ t] becomes
    [h ++ d' ++ t'] with the header fields kept and the lengths updated. *)
Definition relayout (b : rte_mbuf) (h d' t' : list u8) : rte_mbuf :=
  set_pkt_len (Z.of_nat (length d')) (set_data_len (Z.of_nat (length d'))
    (set_buf (h ++ d' ++ t') b)).

Lemma relayout_wf b h d' t' :
  mbuf_wf b → Z.of_nat (length h) = m_data_off b →
  take (length h) (m_buf b) = h →
  length (h ++ d' ++ t') = length (m_buf b) →
  mbuf_wf (relayout b h d' t') ∧ data (relayout b h d' t') = d'
  ∧ same_buffer b (relayout b h d' t').
Proof.
  intros [H1 H2 H3 H4 H5 H6] Hh Hth Hl.
  destruct (split_wf (relayout b h d' t') h d' t'); simpl; try done; try lia.
  split_and!; try done. repeat split; simpl; try done.
  rewrite <- Hh, Nat2Z.id, take_app_length. done.
Qed.

(** Inserting [n] bytes of room after [d1] moves [d2] down. *)
Lemma splice_insert (h d1 d2 t : list u8) n :
  (n ≤ length t)%nat →
  splice (h ++ (d1 ++ d2) ++ t) (length h + length d1 + n) d2
  = h ++ (d1 ++ take n (d2 ++ t) ++ d2) ++ drop n t.
Proof.
  intros Hn.
  assert (E : d2 ++ t = take n (d2 ++ t) ++ take (length d2) (drop n (d2 ++ t)) ++ drop n t).
  { rewrite <- (take_drop n (d2 ++ t)) at 1. f_equal.
    rewrite <- (take_drop (length d2) (drop n (d2 ++ t))) at 1. f_equal.
    by rewrite drop_drop, Nat.add_comm, <- drop_drop, drop_app_length. }
  assert (E' : h ++ (d1 ++ d2) ++ t
    = (h ++ d1 ++ take n (d2 ++ t)) ++ take (length d2) (drop n (d2 ++ t)) ++ drop n t).
  { rewrite <- !app_assoc, E at 1. done. }
  rewrite E', splice_split; [by rewrite <- !app_assoc | |].
  - rewrite !length_app, length_take, length_app. lia.
  - rewrite length_take, length_drop, length_app. lia.
Qed.

(** Removing [n] bytes after [d1] moves [d2] up. *)
Lemma splice_remove (h d1 x d2 t : list u8) :
  ∃ t', length t' = (length x + length t)%nat ∧
  splice (h ++ (d1 ++ x ++ d2) ++ t) (length h + length d1) d2
  = h ++ (d1 ++ d2) ++ t'.
Proof.
  exists (drop (length d2) ((x ++ d2) ++ t)). split.
  { rewrite length_drop, !length_app. lia. }
  assert (E' : h ++ (d1 ++ x ++ d2) ++ t
    = (h ++ d1) ++ take (length d2) ((x ++ d2) ++ t) ++ drop (length d2) ((x ++ d2) ++ t)).
  { by rewrite take_drop, <- !app_assoc. }
  rewrite E', splice_split; [by rewrite <- !app_assoc | by rewrite length_app |].
  rewrite length_take, !length_app. lia.
Qed.

Lemma set_buf_id b : set_buf (m_buf b) b = b.
Proof. by destruct b. Qed.

Lemma extend_refused b offset len :
  mbuf_wf b → 0 ≤ offset → 0 ≤ len →
  ¬ (0 < len ∧ offset ≤ m_data_len b ∧ len ≤ room b) →
  Mbuf.extend offset len b = Done (Err NotResized, b).
Proof.
  intros Hwf ?? Hn. unfold Mbuf.extend, Mbuf.data_len. autorewrite with vdp.
  destruct (Z.leb_spec len 0); [done |]. rewrite Z.gtb_ltb.
  destruct (Z.ltb_spec (m_data_len b) offset); [done |]. simpl.
  autorewrite with vdp. rewrite tailroom_ok by done. autorewrite with vdp. rewrite Z.gtb_ltb.
  destruct (Z.ltb_spec (room b) len); [done | lia].
Qed.

Lemma grow_ok b len :
  mbuf_wf b → 0 ≤ len → m_data_len b + len < 2 ^ 16 →
  Mbuf.grow len b = Done (tt, set_pkt_len (m_data_len b + len)
                                (set_data_len (m_data_len b + len) b)).
Proof.
  intros [H1 H2 H3 H4 H5 H6] ??. unfold Mbuf.grow.
  rewrite !as_uint_id by (unfold is_uint; lia). autorewrite with vdp. simpl.
  autorewrite with vdp. by rewrite H6.
Qed.

Lemma shorten_ok b len :
  mbuf_wf b → 0 ≤ len → len ≤ m_data_len b →
  Mbuf.shorten len b = Done (tt, set_pkt_len (m_data_len b - len)
                                   (set_data_len (m_data_len b - len) b)).
Proof.
  intros [H1 H2 H3 H4 H5 H6] ??. unfold Mbuf.shorten.
  rewrite !as_uint_id by (unfold is_uint; lia). autorewrite with vdp. simpl.
  autorewrite with vdp. by rewrite H6.
Qed.

Lemma set_buf_wf b l : mbuf_wf b → length l = length (m_buf b) → mbuf_wf (set_buf l b).
Proof. intros [H1 H2 H3 H4 H5 H6] Hl. split; simpl; try done. by rewrite Hl. Qed.

(** The bytes between [offset] and [offset + len] after an [extend] are what
    the memory held there: nothing initialises them. *)
Lemma extend_done b h d1 d2 t offset len :
  mbuf_wf b → m_buf b = h ++ (d1 ++ d2) ++ t → data b = d1 ++ d2 →
  Z.of_nat (length h) = m_data_off b → offset = Z.of_nat (length d1) →
  0 < len → len ≤ Z.of_nat (length t) →
  Mbuf.extend offset len b =
  Done (Ok tt, relayout b h (d1 ++ take (Z.to_nat len) (d2 ++ t) ++ d2)
                 (drop (Z.to_nat len) t)).
Proof.
  intros Hwf E Ed Hh -> Hl Ht. pose proof (length_data b Hwf) as Hd.
  pose proof Hwf as [H1 H2 H3 H4 H5 H6].
  rewrite E, !length_app in H1. rewrite Ed, length_app in Hd.
  assert (Hroom : room b = Z.of_nat (length t)) by (unfold room; lia).
  unfold Mbuf.extend, Mbuf.data_len. autorewrite with vdp.
  destruct (Z.leb_spec len 0); [lia |]. rewrite !Z.gtb_ltb.
  destruct (Z.ltb_spec (m_data_len b) (Z.of_nat (length d1))); [lia |]. simpl.
  autorewrite with vdp. rewrite tailroom_ok by done. autorewrite with vdp. rewrite Z.gtb_ltb.
  destruct (Z.ltb_spec (room b) len); [lia |].
  autorewrite with vdp. rewrite Z.gtb_ltb.
  erewrite bind_done.
  2: { instantiate (1 := set_buf (splice (m_buf b) (length h + length d1 + Z.to_nat len) d2) b).
    instantiate (1 := tt).
    destruct (Z.ltb_spec 0 (m_data_len b - Z.of_nat (length d1))).
    - rewrite data_address_ok by (done || lia). autorewrite with vdp.
      rewrite data_address_ok by (done || lia). autorewrite with vdp.
      rewrite ptr_copy_ok by (rewrite ?E, ?length_app; lia).
      do 4 f_equal; [lia |]. rewrite E.
      replace (Z.to_nat _) with (length d2) by lia.
      replace (Z.to_nat (m_data_off b + _)) with (length h + length d1)%nat by lia.
      rewrite <- !app_assoc, <- drop_drop, drop_app_length, drop_app_length.
      by rewrite take_app_length.
    - assert (d2 = []) as -> by (apply length_zero_iff_nil; lia).
      by rewrite splice_nil, set_buf_id. }
  rewrite E, splice_insert by lia.
  erewrite bind_done; [| apply grow_ok; simpl; try lia; apply set_buf_wf; try done].
  2: { rewrite E, !length_app, length_take, length_drop, !length_app. lia. }
  unfold relayout. simpl. rewrite !length_app, length_take, length_app.
  unfold mret, M_ret. do 4 f_equal; [lia |]. unfold set_data_len. f_equal. lia.
Qed.

Lemma shrink_refused b offset len :
  mbuf_wf b → 0 ≤ offset → 0 ≤ len → offset + len < 2 ^ 64 →
  ¬ (0 < len ∧ offset + len ≤ m_data_len b) →
  Mbuf.shrink offset len b = Done (Err NotResized, b).
Proof.
  intros Hwf ??? Hn. unfold Mbuf.shrink, Mbuf.data_len. autorewrite with vdp.
  destruct (Z.leb_spec len 0); [done |]. autorewrite with vdp. rewrite Z.gtb_ltb.
  destruct (Z.ltb_spec (m_data_len b) (offset + len)); [done | lia].
Qed.

Lemma shrink_done b h d1 x d2 t offset len :
  mbuf_wf b → m_buf b = h ++ (d1 ++ x ++ d2) ++ t → data b = d1 ++ x ++ d2 →
  Z.of_nat (length h) = m_data_off b → offset = Z.of_nat (length d1) →
  len = Z.of_nat (length x) → 0 < len →
  ∃ t', length t' = (length x + length t)%nat ∧
  Mbuf.shrink offset len b = Done (Ok tt, relayout b h (d1 ++ d2) t').
Proof.
  intros Hwf E Ed Hh -> -> Hl. pose proof (length_data b Hwf) as Hd.
  pose proof Hwf as [H1 H2 H3 H4 H5 H6].
  rewrite E, !length_app in H1. rewrite Ed, !length_app in Hd.
  destruct (splice_remove h d1 x d2 t) as (t' & Ht' & Es). exists t'. split; [done |].
  unfold Mbuf.shrink, Mbuf.data_len. autorewrite with vdp.
  destruct (Z.leb_spec (Z.of_nat (length x)) 0); [lia |]. autorewrite with vdp.
  rewrite !Z.gtb_ltb.
  destruct (Z.ltb_spec (m_data_len b) (Z.of_nat (length d1) + Z.of_nat (length x))); [lia |].
  autorewrite with vdp. rewrite Z.gtb_ltb.
  erewrite bind_done.
  2: { instantiate (1 := set_buf (splice (m_buf b) (length h + length d1) d2) b).
    instantiate (1 := tt).
    destruct (Z.ltb_spec 0 (m_data_len b - Z.of_nat (length d1) - Z.of_nat (length x))).
    - autorewrite with vdp.
      rewrite data_address_ok by (done || lia). autorewrite with vdp.
      rewrite data_address_ok by (done || lia). autorewrite with vdp.
      rewrite ptr_copy_ok by (rewrite ?E, ?length_app; lia).
      do 4 f_equal; [lia |]. rewrite E.
      replace (Z.to_nat (_ - _ - _)) with (length d2) by lia.
      replace (Z.to_nat (m_data_off b + _)) with (length h + (length d1 + length x))%nat by lia.
      rewrite <- !app_assoc, <- !drop_drop, !drop_app_length.
      by rewrite take_app_length.
    - assert (d2 = []) as -> by (apply length_zero_iff_nil; lia).
      by rewrite splice_nil, set_buf_id. }
  rewrite E, Es.
  erewrite bind_done; [| apply shorten_ok; simpl; try lia; apply set_buf_wf; try done].
  2: { rewrite E, !length_app. lia. }
  unfold relayout. simpl. rewrite !length_app.
  unfold mret, M_ret. do 4 f_equal; [lia |]. unfold set_data_len. f_equal. lia.
Qed.
End methods.

(** Cuts a list of known length in two at an index. *)
Lemma cut {A} (l : list A) (n : Z) :
  0 ≤ n ≤ Z.of_nat (length l) →
  l = take (Z.to_nat n) l ++ drop (Z.to_nat n) l ∧
  n = Z.of_nat (length (take (Z.to_nat n) l)) ∧
  Z.of_nat (length (drop (Z.to_nat n) l)) = Z.of_nat (length l) - n.
Proof. intros. rewrite take_drop, length_take, length_drop. repeat split; lia. Qed.

Section spec.
Context {prof : profile}.

(** [extend] and [shrink] in terms of the data; [Q] receives the result. *)
Lemma extend_wp b offset len :
  mbuf_wf b → 0 ≤ offset ≤ m_data_len b → 0 < len ≤ room b →
  ∃ gap b', Mbuf.extend offset len b = Done (Ok tt, b') ∧ mbuf_wf b' ∧ same_buffer b b' ∧
    Z.of_nat (length gap) = len ∧ m_data_len b' = m_data_len b + len ∧
    data b' = take (Z.to_nat offset) (data b) ++ gap ++ drop (Z.to_nat offset) (data b).
Proof.
  intros Hwf Ho Hl. destruct (wf_split b Hwf) as (h & t & E & Hh & Hd & Ht).
  destruct (cut (data b) offset) as (Ec & El & Er); [lia |].
  pose proof (extend_done b h (take (Z.to_nat offset) (data b))
    (drop (Z.to_nat offset) (data b)) t offset len Hwf) as Hx.
  rewrite <- Ec in Hx. specialize (Hx E eq_refl Hh El ltac:(lia) ltac:(lia)).
  destruct (relayout_wf b h (take (Z.to_nat offset) (data b) ++
    take (Z.to_nat len) (drop (Z.to_nat offset) (data b) ++ t) ++
    drop (Z.to_nat offset) (data b)) (drop (Z.to_nat len) t)) as (W1 & W2 & W3).
  { done. } { done. } { by rewrite E, take_app_length. }
  { rewrite E. len. }
  do 2 eexists. split; [exact Hx |]. split; [done |]. split; [done |].
  split; [| split; [| exact W2]].
  - len.
  - unfold relayout; simpl. len.
Qed.

Lemma shrink_wp b offset len :
  mbuf_wf b → 0 ≤ offset → 0 < len → offset + len ≤ m_data_len b →
  ∃ b', Mbuf.shrink offset len b = Done (Ok tt, b') ∧ mbuf_wf b' ∧ same_buffer b b' ∧
    m_data_len b' = m_data_len b - len ∧
    data b' = take (Z.to_nat offset) (data b) ++ drop (Z.to_nat (offset + len)) (data b).
Proof.
  intros Hwf Ho Hl Hs. destruct (wf_split b Hwf) as (h & t & E & Hh & Hd & Ht).
  destruct (cut (data b) offset) as (Ec & El & Er); [lia |].
  destruct (cut (drop (Z.to_nat offset) (data b)) len) as (Ec' & El' & Er'); [lia |].
  assert (Ed : data b = take (Z.to_nat offset) (data b) ++
    take (Z.to_nat len) (drop (Z.to_nat offset) (data b)) ++
    drop (Z.to_nat len) (drop (Z.to_nat offset) (data b))) by (by rewrite <- Ec').
  destruct (shrink_done b h (take (Z.to_nat offset) (data b))
    (take (Z.to_nat len) (drop (Z.to_nat offset) (data b)))
    (drop (Z.to_nat len) (drop (Z.to_nat offset) (data b))) t offset len Hwf)
    as (t' & Hlt & Hx); rewrite <- ?Ed; try done.
  destruct (relayout_wf b h (take (Z.to_nat offset) (data b) ++
    drop (Z.to_nat len) (drop (Z.to_nat offset) (data b))) t') as (W1 & W2 & W3).
  { done. } { done. } { by rewrite E, take_app_length. }
  { rewrite E, Ed at 1. len. }
  eexists. split; [exact Hx |]. split; [done |]. split; [done |]. split.
  - unfold relayout; simpl. len.
  - rewrite W2, drop_drop. do 2 f_equal. lia.
Qed.

Lemma read_data_slice_run T `{SizeOfLaws T} b offset count :
  mbuf_wf b → 0 ≤ offset → 0 ≤ count → 0 ≤ size_of T →
  offset + size_of T * count < 2 ^ 64 →
  Mbuf.read_data_slice T b offset count = Done (
    if offset >=? m_data_len b then Err (BadOffset offset (m_data_len b))
    else if offset + size_of T * count >? m_data_len b - offset
    then Err (OutOfBuffer (size_of T * count) (m_data_len b - offset))
    else Ok (SlicePtr (m_buf_addr b + m_data_off b + offset) count)).
Proof.
  intros Hwf ??? Hs. pose proof Hwf as [W1 W2 W3 W4 W5 W6].
  unfold Mbuf.read_data_slice, Mbuf.data_len. rewrite Z.geb_leb.
  destruct (Z.leb_spec (m_data_len b) offset); [done |].
  assert (0 ≤ size_of T * count) by nia.
  autorewrite with vdp. rewrite Z.gtb_ltb.
  destruct (Z.ltb_spec (m_data_len b - offset) (offset + size_of T * count)); [done |].
  rewrite data_address_ok by (done || lia). autorewrite with vdp.
  unfold from_raw_parts_mut, in_buf. rewrite Z.add_simpl_l.
  replace (count * size_of T) with (size_of T * count) by lia.
  destruct (Z.leb_spec 0 (m_data_off b + offset)); [| lia].
  destruct (Z.leb_spec (m_data_off b + offset + size_of T * count)
    (Z.of_nat (length (m_buf b)))); [| lia].
  simpl. autorewrite with vdp. unfold mret, outcome_ret. by rewrite Z.add_assoc.
Qed.

(** Writing [bytes] over [x] in the middle of the data. *)
Lemma write_data_slice_run {T} `{SizeOfLaws T} b h d1 x d2 t offset (slice : list T) :
  mbuf_wf b → m_buf b = h ++ (d1 ++ x ++ d2) ++ t → data b = d1 ++ x ++ d2 →
  Z.of_nat (length h) = m_data_off b → offset = Z.of_nat (length d1) →
  length (slice ≫= repr) = length x →
  size_of T * Z.of_nat (length slice) = Z.of_nat (length x) →
  Mbuf.write_data_slice offset slice b =
  lift (Mbuf.read_data_slice T (relayout b h (d1 ++ (slice ≫= repr) ++ d2) t)
          offset (Z.of_nat (length slice)))
    (relayout b h (d1 ++ (slice ≫= repr) ++ d2) t).
Proof.
  intros Hwf E Ed Hh -> Hx Hs. pose proof (length_data b Hwf) as Hd.
  pose proof Hwf as [W1 W2 W3 W4 W5 W6].
  rewrite E, !length_app in W1. rewrite Ed, !length_app in Hd.
  unfold Mbuf.write_data_slice, Mbuf.data_len. cbv zeta.
  autorewrite with vdp. rewrite Hs. autorewrite with vdp.
  rewrite Z.gtb_ltb.
  destruct (Z.ltb_spec (m_data_len b) (Z.of_nat (length d1) + Z.of_nat (length x))); [lia |].
  autorewrite with vdp. rewrite data_address_ok by (done || lia). autorewrite with vdp.
  erewrite bind_done.
  2: { unfold copy_slice, store_bytes. autorewrite with vdp. rewrite Hx.
    unfold in_buf. rewrite Z.add_simpl_l, E, !length_app.
    destruct (Z.leb_spec 0 (m_data_off b + Z.of_nat (length d1))); [| lia].
    match goal with |- context [?a <=? ?b] => destruct (Z.leb_spec a b); [| lia] end.
    simpl. unfold put. reflexivity. }
  autorewrite with vdp.
  replace (h ++ (d1 ++ x ++ d2) ++ t) with ((h ++ d1) ++ x ++ (d2 ++ t))
    by (by rewrite <- !app_assoc).
  rewrite splice_split by len.
  replace ((h ++ d1) ++ (slice ≫= repr) ++ d2 ++ t)
    with (h ++ (d1 ++ (slice ≫= repr) ++ d2) ++ t) by (by rewrite <- !app_assoc).
  assert (Hr : set_buf (h ++ (d1 ++ (slice ≫= repr) ++ d2) ++ t) b
    = relayout b h (d1 ++ (slice ≫= repr) ++ d2) t); [| by rewrite Hr].
  unfold relayout, set_pkt_len, set_data_len, set_buf; simpl. f_equal; len.
Qed.

Lemma length_bytes {T} `{SizeOfLaws T} (slice : list T) :
  Z.of_nat (length (slice ≫= repr)) = size_of T * Z.of_nat (length slice).
Proof.
  induction slice as [| y slice IH]; [simpl; lia |].
  change ((y :: slice) ≫= repr) with (repr y ++ (slice ≫= repr)).
  rewrite length_app, Nat2Z.inj_add, length_repr, IH, length_cons. lia.
Qed.

Lemma write_data_slice_wp {T} `{SizeOfLaws T} b offset (slice : list T) :
  mbuf_wf b → 0 ≤ offset →
  offset + size_of T * Z.of_nat (length slice) ≤ m_data_len b →
  ∃ b', mbuf_wf b' ∧ same_buffer b b' ∧ m_data_len b' = m_data_len b ∧
    data b' = splice (data b) (Z.to_nat offset) (slice ≫= repr) ∧
    Mbuf.write_data_slice offset slice b
    = lift (Mbuf.read_data_slice T b' offset (Z.of_nat (length slice))) b'.
Proof.
  intros Hwf Ho Hs. rewrite <- length_bytes in Hs.
  destruct (wf_split b Hwf) as (h & t & E & Hh & Hd & Ht).
  destruct (cut (data b) offset) as (Ec & El & Er); [lia |].
  destruct (cut (drop (Z.to_nat offset) (data b)) (Z.of_nat (length (slice ≫= repr))))
    as (Ec' & El' & Er'); [lia |].
  set (d1 := take (Z.to_nat offset) (data b)) in *.
  set (rest := drop (Z.to_nat offset) (data b)) in *.
  set (x := take (Z.to_nat (Z.of_nat (length (slice ≫= repr)))) rest) in *.
  set (d2 := drop (Z.to_nat (Z.of_nat (length (slice ≫= repr)))) rest) in *.
  assert (Ed : data b = d1 ++ x ++ d2) by (by rewrite <- Ec').
  destruct (relayout_wf b h (d1 ++ (slice ≫= repr) ++ d2) t) as (V1 & V2 & V3).
  { done. } { done. } { by rewrite E, take_app_length. }
  { rewrite E, Ed. len. }
  exists (relayout b h (d1 ++ (slice ≫= repr) ++ d2) t). split_and!; try done.
  - unfold relayout; simpl. len.
  - rewrite V2, Ed, splice_split; [done | lia | lia].
  - apply write_data_slice_run with x; try done; [by rewrite <- Ed | lia |].
    rewrite <- length_bytes. lia.
Qed.
End spec.

(** A buffer of 16 bytes: 4 of headroom, the data [1;2;3;4], room for 8. *)
Definition sample_mbuf : rte_mbuf :=
  RteMbuf 4096 16 4 4 4 1
    ([x00; x00; x00; x00] ++ [x01; x02; x03; x04] ++ replicate 8 x00).

Lemma sample_mbuf_wf : mbuf_wf sample_mbuf.
Proof. by split; vm_compute. Qed.

(** ** Ends that wrap around *)

(** Moving bytes within the buffer in a release build. *)
Lemma move_release b o1 o2 n :
  let m := (src ← lift (Mbuf.data_address (prof := Release) b o1);
            dst ← lift (Mbuf.data_address (prof := Release) b o2);
            ptr_copy src dst n) in
  m b = Undefined ∨ ∃ b', m b = Done (tt, b') ∧ m_data_len b' = m_data_len b.
Proof.
  cbv zeta. unfold Mbuf.data_address.
  destruct (sadd_release 64 (m_data_off b) (as_sint 64 o1)) as [k1 ->].
  destruct (sadd_release 64 (m_data_off b) (as_sint 64 o2)) as [k2 ->].
  rewrite !outcome_bind_done, bind_lift. unfold ptr_offset.
  destruct (_ && _); [| by left]. rewrite bind_lift.
  destruct (_ && _); [| by left]. unfold ptr_copy. rewrite bind_get.
  destruct (in_buf _ _ _); [| by left]. unfold store_bytes. rewrite bind_get.
  destruct (in_buf _ _ _); [| by left]. right. by eexists.
Qed.

Lemma shorten_release b len :
  ∃ b', Mbuf.shorten (prof := Release) len b = Done (tt, b') ∧
    m_data_len b' = as_uint 16 (m_data_len b - len).
Proof.
  unfold Mbuf.shorten. rewrite bind_get, usub_release, bind_lift_done.
  unfold mbind, M_bind, put, get. rewrite usub_release.
  eexists. split; [reflexivity |]. simpl. apply as_uint_sub_r.
Qed.

(** [shrink] with an end that is no [usize], in a release build: the end wraps
    around, and the test is of the wrapped end. *)
Lemma shrink_wraps b offset len :
  mbuf_wf b → is_uint 64 offset → is_uint 64 len → 2 ^ 64 ≤ offset + len →
  let m := Mbuf.shrink (prof := Release) offset len b in
  (m_data_len b < offset + len - 2 ^ 64 → m = Done (Err NotResized, b)) ∧
  (offset + len - 2 ^ 64 ≤ m_data_len b →
   m = Undefined ∨ ∃ b', m = Done (Ok tt, b') ∧ m_data_len b' = as_uint 16 (m_data_len b - len)).
Proof.
  intros [W1 W2 W3 W4 W5 W6] [? ?] [? ?] Hs m. subst m. unfold Mbuf.shrink, Mbuf.data_len.
  rewrite bind_get. destruct (Z.leb_spec len 0); [lia |].
  rewrite uadd_release, bind_lift_done, as_uint_wrap_pos by (unfold is_uint; lia).
  rewrite Z.gtb_ltb. split; intros He; destruct (Z.ltb_spec (m_data_len b) (offset + len - 2 ^ 64)); try lia;
    [done |].
  rewrite usub_release, bind_lift_done, usub_release, bind_lift_done.
  destruct (_ >? 0); [| rewrite bind_ret].
  - rewrite bind_assoc, bind_lift_done.
    destruct (move_release b (offset + len - 2 ^ 64) offset
      (as_uint 64 (as_uint 64 (m_data_len b - offset) - len))) as [E | (b1 & E & L)].
    + left. by rewrite (bind_undefined _ _ _ E).
    + right. rewrite (bind_done _ _ _ _ _ E). destruct (shorten_release b1 len) as (b2 & E2 & L2).
      rewrite (bind_done _ _ _ _ _ E2). exists b2. by rewrite L2, L.
  - right. destruct (shorten_release b len) as (b2 & E2 & L2).
    rewrite (bind_done _ _ _ _ _ E2). by exists b2.
Qed.

(** ** Properties *)

Section properties.
Context {prof : profile}.

(** C8: [extend offset len] makes room for [len] bytes inside the data, in
    every build profile and without leaving the buffer: with a length between
    1 and the tailroom and an offset inside the data it succeeds, the bytes
    before [offset] stay, the bytes after it move down by [len], the headroom
    is not touched and the buffer stays well formed; any other request is
    refused with [NotResized] and changes nothing. *)
Theorem extend_spec b offset len :
  mbuf_wf b → is_uint 64 offset → is_uint 64 len →
  (0 < len ≤ room b ∧ offset ≤ m_data_len b →
   ∃ gap b', Mbuf.extend offset len b = Done (Ok tt, b') ∧ mbuf_wf b' ∧ same_buffer b b' ∧
     Z.of_nat (length gap) = len ∧
     data b' = take (Z.to_nat offset) (data b) ++ gap ++ drop (Z.to_nat offset) (data b)) ∧
  (¬ (0 < len ≤ room b ∧ offset ≤ m_data_len b) →
   Mbuf.extend offset len b = Done (Err NotResized, b)).
Proof.
  intros Hwf [? ?] [? ?]. split.
  - intros [? ?]. destruct (extend_wp b offset len) as (gap & b' & ?); [done | lia | lia |].
    exists gap, b'. destruct_and!. by split_and!.
  - intros Hn. apply extend_refused; try done. tauto.
Qed.

(** C9: [shrink offset len], on every pair of [usize] arguments.  When the [len]
    bytes at [offset] are in the data, it removes them and closes the gap.  When
    they are not and the end [offset + len] is a [usize], it answers [NotResized]
    and changes nothing.  When the end is no [usize], a build with overflow
    checks panics; a release build tests the wrapped end instead: if that is
    beyond the data, it refuses as well, and otherwise the request is not
    refused, although there are no such bytes: either the copy leaves the buffer,
    which is undefined, or the call reports success and sets [data_len] to
    [data_len - len] modulo [2 ^ 16]. *)
Theorem shrink_spec b offset len :
  mbuf_wf b → is_uint 64 offset → is_uint 64 len →
  (0 < len ∧ offset + len ≤ m_data_len b →
   ∃ b', Mbuf.shrink offset len b = Done (Ok tt, b') ∧ mbuf_wf b' ∧ same_buffer b b' ∧
     data b' = take (Z.to_nat offset) (data b) ++ drop (Z.to_nat (offset + len)) (data b)) ∧
  (offset + len < 2 ^ 64 → ¬ (0 < len ∧ offset + len ≤ m_data_len b) →
   Mbuf.shrink offset len b = Done (Err NotResized, b)) ∧
  (2 ^ 64 ≤ offset + len →
   match prof with
   | Debug => Mbuf.shrink offset len b = Panicked
   | Release =>
       let e := offset + len - 2 ^ 64 in
       (m_data_len b < e → Mbuf.shrink offset len b = Done (Err NotResized, b)) ∧
       (e ≤ m_data_len b → Mbuf.shrink offset len b = Undefined ∨
          ∃ b', Mbuf.shrink offset len b = Done (Ok tt, b') ∧
            m_data_len b' = (m_data_len b - len) mod 2 ^ 16)
   end).
Proof.
  intros Hwf Ho Hl. pose proof Ho as [? ?]. pose proof Hl as [? ?]. split_and!.
  - intros [? ?]. destruct (shrink_wp b offset len) as (b' & ?); try done.
    exists b'. destruct_and!. by split_and!.
  - intros Hs Hn. by apply shrink_refused.
  - intros Hs. destruct prof; [| by apply shrink_wraps].
    unfold Mbuf.shrink. rewrite bind_get. destruct (Z.leb_spec len 0); [lia |].
    by rewrite uadd_debug by done.
Qed.

(** Round trip of [resize]: growing the data by [n] bytes at [offset] and
    then resizing by [-n] at the same offset restores the packet, its length
    and the fields of the buffer. *)
Lemma resize_round_trip b offset n :
  mbuf_wf b → 0 ≤ offset ≤ m_data_len b → 0 < n ≤ room b →
  ∃ b1 b2, Mbuf.resize offset n b = Done (Ok tt, b1) ∧
    Mbuf.resize offset (- n) b1 = Done (Ok tt, b2) ∧
    mbuf_wf b2 ∧ same_buffer b b2 ∧ data b2 = data b ∧ m_data_len b2 = m_data_len b.
Proof.
  intros Hwf Ho Hn. pose proof Hwf as [W1 W2 W3 W4 W5 W6]. unfold room in Hn.
  destruct (extend_wp b offset n) as (gap & b1 & Hx & V1 & V2 & V3 & V4 & V5); try done.
  destruct (shrink_wp b1 offset n) as (b2 & Hs & U1 & U2 & U3 & U4); try lia; [done |].
  exists b1, b2. unfold Mbuf.resize. split; [| split].
  - destruct (Z.ltb_spec n 0); [lia |]. by rewrite as_uint_id by (unfold is_uint; lia).
  - destruct (Z.ltb_spec (- n) 0); [| lia]. autorewrite with vdp. rewrite Z.opp_involutive.
    by rewrite as_uint_id by (unfold is_uint; lia).
  - split_and!; [done | by transitivity b1 | | lia].
    rewrite U4, V5. pose proof (length_data b Hwf).
    destruct (cut (data b) offset) as (Ec & El & Er); [lia |].
    rewrite take_app_length' by lia.
    replace (Z.to_nat (offset + n)) with (length (take (Z.to_nat offset) (data b)) + length gap)%nat by lia.
    rewrite <- drop_drop, !drop_app_length. done.
Qed.

(** [truncate to_len] keeps the first [to_len] bytes of the packet; a
    length that is not smaller is refused and changes nothing. *)
Lemma truncate_spec b to_len :
  mbuf_wf b → is_uint 64 to_len →
  (to_len < m_data_len b →
   ∃ b', Mbuf.truncate to_len b = Done (Ok tt, b') ∧ mbuf_wf b' ∧ same_buffer b b' ∧
     m_buf b' = m_buf b ∧ data b' = take (Z.to_nat to_len) (data b)) ∧
  (m_data_len b ≤ to_len → Mbuf.truncate to_len b = Done (Err NotResized, b)).
Proof.
  intros Hwf [? ?]. pose proof Hwf as [W1 W2 W3 W4 W5 W6].
  unfold Mbuf.truncate, Mbuf.data_len. split; intros Hl; autorewrite with vdp;
    rewrite Z.geb_leb; destruct (Z.leb_spec (m_data_len b) to_len); try lia; [| done].
  rewrite !as_uint_id by (unfold is_uint; lia). autorewrite with vdp.
  eexists. split; [done |]. split; [| split; [done | split; [done |]]].
  - split; simpl; lia.
  - unfold data; simpl. rewrite take_take. f_equal. lia.
Qed.

(** [read_data] returns the address of a [T] exactly when the whole value
    lies in the data, and then the address is that of the byte at [offset] of
    the data; an offset past the data is [BadOffset], a value that would cross
    its end [OutOfBuffer] with the bytes that remain. *)
Lemma read_data_spec T `{SizeOfLaws T} b offset :
  mbuf_wf b → is_uint 64 offset → 0 ≤ size_of T ≤ 2 ^ 32 →
  Mbuf.read_data T b offset = Done (
    if offset >=? m_data_len b then Err (BadOffset offset (m_data_len b))
    else if offset + size_of T >? m_data_len b
    then Err (OutOfBuffer (size_of T) (m_data_len b - offset))
    else Ok (m_buf_addr b + m_data_off b + offset)).
Proof.
  intros Hwf [? ?] ?. pose proof Hwf as [W1 W2 W3 W4 W5 W6].
  unfold Mbuf.read_data, Mbuf.data_len. rewrite Z.geb_leb.
  destruct (Z.leb_spec (m_data_len b) offset); [done |]. autorewrite with vdp.
  rewrite Z.gtb_ltb. destruct (Z.ltb_spec (m_data_len b) (offset + size_of T)).
  - by autorewrite with vdp.
  - rewrite data_address_ok by (done || lia). autorewrite with vdp.
    unfold mret, outcome_ret. by rewrite Z.add_assoc.
Qed.

(** [write_data_slice] overwrites exactly the bytes of the slice at
    [offset] when they fit into the data; its answer then comes from
    [read_data_slice], which counts [offset] twice: the write is reported as
    [OutOfBuffer] whenever [2 * offset + size] exceeds the data, although it
    has been done.  A slice that does not fit is refused and writes
    nothing. *)
Lemma write_data_slice_spec {T} `{SizeOfLaws T} b offset (slice : list T) :
  mbuf_wf b → 0 ≤ offset → 0 ≤ size_of T →
  let size := size_of T * Z.of_nat (length slice) in
  offset + size < 2 ^ 64 →
  (offset + size ≤ m_data_len b →
   ∃ b', mbuf_wf b' ∧ same_buffer b b' ∧
     data b' = splice (data b) (Z.to_nat offset) (slice ≫= repr) ∧
     Mbuf.write_data_slice offset slice b = Done (
       if offset >=? m_data_len b then Err (BadOffset offset (m_data_len b))
       else if offset + size >? m_data_len b - offset
       then Err (OutOfBuffer size (m_data_len b - offset))
       else Ok (SlicePtr (m_buf_addr b + m_data_off b + offset) (Z.of_nat (length slice))), b')) ∧
  (m_data_len b < offset + size → offset ≤ m_data_len b →
   Mbuf.write_data_slice offset slice b
   = Done (Err (OutOfBuffer size (m_data_len b - offset)), b)).
Proof.
  intros Hwf Ho Hsz size Hs. pose proof Hwf as [W1 W2 W3 W4 W5 W6].
  assert (0 ≤ size) by (unfold size; nia). split.
  - intros Hf. destruct (write_data_slice_wp b offset slice) as (b' & V1 & V2 & V3 & V4 & ->); try done.
    exists b'. split_and!; try done. rewrite read_data_slice_run by (done || lia).
    destruct V2 as (-> & _ & -> & _). by rewrite V3.
  - intros Hf Ho'. unfold Mbuf.write_data_slice, Mbuf.data_len. cbv zeta.
    autorewrite with vdp. fold size. autorewrite with vdp. rewrite Z.gtb_ltb.
    destruct (Z.ltb_spec (m_data_len b) (offset + size)); [| lia]. by autorewrite with vdp.
Qed.
End properties.

Lemma shrink_end_wraps b :
  mbuf_wf b → 0 < m_data_len b →
  Mbuf.shrink (prof := Release) (2 ^ 63) (2 ^ 63) b = Undefined.
Proof.
  intros Hwf Hl. pose proof Hwf as [W1 W2 W3 W4 W5 W6].
  unfold Mbuf.shrink, Mbuf.data_len. autorewrite with vdp.
  change (2 ^ 63 <=? 0) with false. cbv match.
  change (uadd (prof := Release) 64 (2 ^ 63) (2 ^ 63)) with (Done 0). autorewrite with vdp.
  rewrite Z.gtb_ltb. destruct (Z.ltb_spec (m_data_len b) 0); [lia |].
  assert (usub (prof := Release) 64 (m_data_len b) (2 ^ 63) = Done (m_data_len b + 2 ^ 63)) as ->.
  { unfold usub, arith. rewrite in_uint_false by (unfold is_uint; lia).
    rewrite as_uint_wrap_neg by (unfold is_uint; lia). f_equal. lia. }
  autorewrite with vdp. rewrite Z.gtb_ltb.
  destruct (Z.ltb_spec 0 (m_data_len b + 2 ^ 63 - 2 ^ 63)); [| lia].
  erewrite bind_undefined; [done |]. autorewrite with vdp.
  rewrite (data_address_ok b 0) by (done || lia). autorewrite with vdp.
  unfold Mbuf.data_address. change (as_sint 64 (2 ^ 63)) with (- 2 ^ 63).
  autorewrite with vdp. unfold ptr_offset.
  destruct (Z.leb_spec 0 (m_data_off b + - 2 ^ 63)); [lia | done].
Qed.

Lemma write_end_wraps b (x : u8) :
  mbuf_wf b → 0 < m_data_off b →
  Mbuf.write_data_slice (prof := Release) (2 ^ 64 - 1) [x] b
  = Done (Err (BadOffset (2 ^ 64 - 1) (m_data_len b)),
      set_buf (splice (m_buf b) (Z.to_nat (m_data_off b - 1)) [x]) b).
Proof.
  intros [W1 W2 W3 W4 W5 W6] Ho. unfold Mbuf.write_data_slice, Mbuf.data_len. cbv zeta.
  autorewrite with vdp.
  change (umul (prof := Release) 64 (size_of u8) (Z.of_nat (length [x]))) with (Done 1).
  autorewrite with vdp.
  change (uadd (prof := Release) 64 (2 ^ 64 - 1) 1) with (Done 0). autorewrite with vdp.
  rewrite Z.gtb_ltb. destruct (Z.ltb_spec (m_data_len b) 0); [lia |].
  unfold Mbuf.data_address. change (as_sint 64 (2 ^ 64 - 1)) with (-1).
  autorewrite with vdp. unfold ptr_offset.
  destruct (Z.leb_spec 0 (m_data_off b + -1)); [| lia].
  destruct (Z.leb_spec (m_data_off b + -1) (Z.of_nat (length (m_buf b)))); [| lia].
  simpl. autorewrite with vdp. unfold copy_slice, store_bytes, in_buf. simpl.
  rewrite bind_assoc. autorewrite with vdp. rewrite Z.add_simpl_l.
  destruct (Z.leb_spec 0 (m_data_off b + -1)); [| lia].
  destruct (Z.leb_spec (m_data_off b + -1 + Z.of_nat 1) (Z.of_nat (length (m_buf b)))); [| lia].
  change (true && true) with true. cbv match. autorewrite with vdp.
  unfold Mbuf.read_data_slice, Mbuf.data_len. rewrite Z.geb_leb. simpl m_data_len.
  destruct (Z.leb_spec (m_data_len b) (2 ^ 64 - 1)); [done | lia].
Qed.

(** The end [offset + len] of [shrink] and of [write_data_slice] is
    computed with an unchecked [usize] addition.  A build with overflow checks
    panics; a release build wraps: the safe call [shrink(2^63, 2^63)] copies
    outside the buffer, [write_data_slice(usize::MAX, [x])] overwrites the last
    byte of the headroom before it answers [BadOffset], and
    [read_data_slice::<[u8; 16]>(0, 2^60)] makes a slice of [2^64] bytes. *)
Lemma unchecked_ends b x :
  mbuf_wf b → 0 < m_data_len b → 0 < m_data_off b →
  Mbuf.shrink (prof := Debug) (2 ^ 63) (2 ^ 63) b = Panicked ∧
  Mbuf.shrink (prof := Release) (2 ^ 63) (2 ^ 63) b = Undefined ∧
  Mbuf.write_data_slice (prof := Debug) (2 ^ 64 - 1) [x : u8] b = Panicked ∧
  Mbuf.write_data_slice (prof := Release) (2 ^ 64 - 1) [x : u8] b
  = Done (Err (BadOffset (2 ^ 64 - 1) (m_data_len b)),
      set_buf (splice (m_buf b) (Z.to_nat (m_data_off b - 1)) [x]) b) ∧
  Mbuf.read_data_slice (prof := Debug) (vec u8 16) b 0 (2 ^ 60) = Panicked ∧
  Mbuf.read_data_slice (prof := Release) (vec u8 16) b 0 (2 ^ 60) = Undefined.
Proof.
  intros Hwf Hl Ho. pose proof Hwf as [W1 W2 W3 W4 W5 W6]. split_and!.
  - done.
  - by apply shrink_end_wraps.
  - done.
  - by apply write_end_wraps.
  - unfold Mbuf.read_data_slice, Mbuf.data_len. rewrite Z.geb_leb.
    destruct (Z.leb_spec (m_data_len b) 0); [lia | done].
  - unfold Mbuf.read_data_slice, Mbuf.data_len. rewrite Z.geb_leb.
    destruct (Z.leb_spec (m_data_len b) 0); [lia |].
    change (umul (prof := Release) 64 (size_of (vec u8 16)) (2 ^ 60)) with (Done 0).
    autorewrite with vdp. rewrite Z.gtb_ltb.
    destruct (Z.ltb_spec (m_data_len b - 0) (0 + 0)); [lia |].
    rewrite data_address_ok by (done || lia). autorewrite with vdp.
    unfold from_raw_parts_mut, in_buf. rewrite Z.add_simpl_l.
    destruct (Z.leb_spec (m_data_off b + 0 + 2 ^ 60 * size_of (vec u8 16))
      (Z.of_nat (length (m_buf b)))); [simpl size_of in *; lia |].
    by rewrite andb_false_r.
Qed.

(** ** Witnesses *)

Lemma extend_spec_witness :
  ∃ gap b', Mbuf.extend (prof := Debug) 2 3 sample_mbuf = Done (Ok tt, b') ∧ mbuf_wf b' ∧
    same_buffer sample_mbuf b' ∧ Z.of_nat (length gap) = 3 ∧
    data b' = [x01; x02] ++ gap ++ [x03; x04].
Proof.
  apply (extend_spec (prof := Debug) sample_mbuf 2 3 sample_mbuf_wf); unfold is_uint;
    vm_compute; intuition discriminate.
Defined.

Lemma shrink_spec_witness :
  (∃ b', Mbuf.shrink (prof := Debug) 1 2 sample_mbuf = Done (Ok tt, b') ∧ mbuf_wf b' ∧
    same_buffer sample_mbuf b' ∧ data b' = [x01] ++ [x04]) ∧
  Mbuf.shrink (prof := Release) 3 2 sample_mbuf = Done (Err NotResized, sample_mbuf) ∧
  Mbuf.shrink (prof := Debug) (2 ^ 64 - 1) 5 sample_mbuf = Panicked ∧
  (Mbuf.shrink (prof := Release) (2 ^ 64 - 1) 5 sample_mbuf = Undefined ∨
   ∃ b', Mbuf.shrink (prof := Release) (2 ^ 64 - 1) 5 sample_mbuf = Done (Ok tt, b') ∧
     m_data_len b' = 65535).
Proof.
  split_and!.
  - refine (proj1 (shrink_spec (prof := Debug) sample_mbuf 1 2 sample_mbuf_wf _ _) _);
      unfold is_uint; vm_compute; intuition discriminate.
  - refine (proj1 (proj2 (shrink_spec (prof := Release) sample_mbuf 3 2 sample_mbuf_wf _ _)) _ _);
      unfold is_uint; vm_compute; intuition discriminate.
  - refine (proj2 (proj2 (shrink_spec (prof := Debug) sample_mbuf (2 ^ 64 - 1) 5 sample_mbuf_wf _ _)) _);
      unfold is_uint; vm_compute; intuition discriminate.
  - refine (proj2 (proj2 (proj2 (shrink_spec (prof := Release) sample_mbuf (2 ^ 64 - 1) 5
      sample_mbuf_wf _ _)) _) _); unfold is_uint; vm_compute; intuition discriminate.
Defined.

Lemma resize_round_trip_witness :
  ∃ b1 b2, Mbuf.resize (prof := Release) 1 8 sample_mbuf = Done (Ok tt, b1) ∧
    Mbuf.resize (prof := Release) 1 (-8) b1 = Done (Ok tt, b2) ∧ mbuf_wf b2 ∧
    same_buffer sample_mbuf b2 ∧ data b2 = data sample_mbuf ∧
    m_data_len b2 = m_data_len sample_mbuf.
Proof.
  apply (resize_round_trip (prof := Release) sample_mbuf 1 8 sample_mbuf_wf);
    vm_compute; intuition discriminate.
Defined.

Lemma truncate_spec_witness :
  ∃ b', Mbuf.truncate 3 sample_mbuf = Done (Ok tt, b') ∧ mbuf_wf b' ∧
    same_buffer sample_mbuf b' ∧ m_buf b' = m_buf sample_mbuf ∧ data b' = [x01; x02; x03].
Proof.
  apply (truncate_spec sample_mbuf 3 sample_mbuf_wf); unfold is_uint;
    vm_compute; intuition discriminate.
Defined.

Lemma read_data_spec_witness :
  Mbuf.read_data (prof := Debug) (vec u8 2) sample_mbuf 1 = Done (Ok 4101).
Proof.
  rewrite (read_data_spec (prof := Debug) (vec u8 2) sample_mbuf 1 sample_mbuf_wf);
    [reflexivity | | ]; vm_compute; intuition discriminate.
Defined.

(** A write at offset 2 of 4 bytes of data is done and reported as an error. *)
Lemma write_data_slice_spec_witness :
  ∃ b', mbuf_wf b' ∧ same_buffer sample_mbuf b' ∧
    data b' = [x01; x02; x0a; x0b] ∧
    Mbuf.write_data_slice (prof := Debug) 2 [x0a; x0b] sample_mbuf
    = Done (Err (OutOfBuffer 2 2), b').
Proof.
  refine (proj1 (write_data_slice_spec (prof := Debug) sample_mbuf 2 [x0a; x0b]
    sample_mbuf_wf _ _ _) _); vm_compute; intuition discriminate.
Defined.

Lemma unchecked_ends_witness :
  Mbuf.shrink (prof := Release) (2 ^ 63) (2 ^ 63) sample_mbuf = Undefined.
Proof. apply (unchecked_ends sample_mbuf x00 sample_mbuf_wf); reflexivity. Defined.

