(* ===== verification/MbufType.v ===== *)
(** * The invariant of a packet buffer under any use ([apis/mbuf.rs])

    Sequences of calls of the methods of [Mbuf] that change the buffer, and
    the well-formedness of the buffer ([mbuf_wf]: the data lies in the memory,
    and the lengths agree) as a type invariant of them. *)

From S2P Require Import Prelude Errors Mbuf.

(** A call with its arguments. *)
Inductive mbuf_op :=
  | Extend (offset len : Z) | Shrink (offset len : Z) | Resize (offset len : Z)
  | Truncate (to_len : Z) | WriteDataSlice (offset : Z) (slice : list u8).

(** The arguments are of their types: [usize], and [isize] for the length of
    [resize]. *)
Definition op_typed (o : mbuf_op) : Prop :=
  match o with
  | Extend offset len | Shrink offset len => is_uint 64 offset ∧ is_uint 64 len
  | Resize offset len => is_uint 64 offset ∧ is_sint 64 len
  | Truncate to_len => is_uint 64 to_len
  | WriteDataSlice offset slice => is_uint 64 offset ∧ is_uint 64 (Z.of_nat (length slice))
  end.

(** The end of the range that [shrink] removes is a [usize]. *)
Definition op_ends (o : mbuf_op) : Prop :=
  match o with
  | Shrink offset len => offset + len < 2 ^ 64
  | Resize offset len => offset - len < 2 ^ 64
  | _ => True
  end.

Section ops.
Context {prof : profile}.

Definition mbuf_step (o : mbuf_op) : M rte_mbuf (result unit BufError) :=
  match o with
  | Extend offset len => Mbuf.extend offset len
  | Shrink offset len => Mbuf.shrink offset len
  | Resize offset len => Mbuf.resize offset len
  | Truncate to_len => Mbuf.truncate to_len
  | WriteDataSlice offset slice =>
      r ← Mbuf.write_data_slice offset slice;
      mret (match r with Ok _ => Ok tt | Err e => Err e end)
  end.

Fixpoint mbuf_run (os : list mbuf_op) : M rte_mbuf (list (result unit BufError)) :=
  match os with
  | [] => mret []
  | o :: os => r ← mbuf_step o; rs ← mbuf_run os; mret (r :: rs)
  end.
End ops.

(** The fields no method changes. *)
Definition same_memory (b b' : rte_mbuf) : Prop :=
  m_buf_addr b' = m_buf_addr b ∧ m_buf_len b' = m_buf_len b ∧ m_data_off b' = m_data_off b ∧
  m_pool b' = m_pool b.

#[export] Instance same_memory_preorder : PreOrder same_memory.
Proof.
  split; [done |]. intros b1 b2 b3 (? & ? & ? & ?) (? & ? & ? & ?). unfold same_memory. by split_and!; etrans.
Qed.

(** ** Lemmas *)

Lemma same_buffer_memory b b' : same_buffer b b' → same_memory b b'.
Proof. intros (? & ? & ? & ? & _). by split_and!. Qed.

(** What a call leaves: a well-formed buffer over the same memory. *)
Definition keeps_type (b b' : rte_mbuf) : Prop := mbuf_wf b' ∧ same_memory b b'.

Lemma keeps_refl b : mbuf_wf b → keeps_type b b.
Proof. by split. Qed.

Lemma extend_keeps {prof : profile} b offset len r b' :
  mbuf_wf b → 0 ≤ offset → 0 ≤ len → Mbuf.extend offset len b = Done (r, b') → keeps_type b b'.
Proof.
  intros W Ho Hl E. destruct (decide (0 < len ∧ offset ≤ m_data_len b ∧ len ≤ room b)) as [Hok | Hno].
  - destruct (extend_wp b offset len) as (gap & b1 & E1 & W1 & S1 & _); [done | lia | lia |].
    rewrite E1 in E. injection E as <- <-. split; [done | by apply same_buffer_memory].
  - rewrite extend_refused in E by done. injection E as <- <-. by apply keeps_refl.
Qed.

Lemma shrink_keeps {prof : profile} b offset len r b' :
  mbuf_wf b → is_uint 64 offset → is_uint 64 len → prof = Debug ∨ offset + len < 2 ^ 64 →
  Mbuf.shrink offset len b = Done (r, b') → keeps_type b b'.
Proof.
  intros W Ho Hl Hend E. unfold is_uint in *. destruct (decide (offset + len < 2 ^ 64)) as [Hs | Hs].
  - destruct (decide (0 < len ∧ offset + len ≤ m_data_len b)) as [Hok | Hno].
    + destruct (shrink_wp b offset len) as (b1 & E1 & W1 & S1 & _); [done | lia | lia | lia |].
      rewrite E1 in E. injection E as <- <-. split; [done | by apply same_buffer_memory].
    + rewrite shrink_refused in E by (done || lia). injection E as <- <-. by apply keeps_refl.
  - destruct Hend as [-> | ?]; [| done]. unfold Mbuf.shrink in E. rewrite bind_get in E.
    destruct (Z.leb_spec len 0); [lia |]. unfold uadd, arith in E.
    by rewrite in_uint_false in E by (unfold is_uint; lia).
Qed.

Lemma truncate_keeps b to_len r b' :
  mbuf_wf b → is_uint 64 to_len → Mbuf.truncate to_len b = Done (r, b') → keeps_type b b'.
Proof.
  intros W [? ?] E. destruct (truncate_spec b to_len W) as [T1 T2]; [done |].
  destruct (decide (to_len < m_data_len b)) as [Hlt | Hge].
  - destruct (T1 Hlt) as (b1 & E1 & W1 & S1 & _). rewrite E1 in E. injection E as <- <-.
    split; [done | by apply same_buffer_memory].
  - rewrite T2 in E by lia. injection E as <- <-. by apply keeps_refl.
Qed.

(** A store changes bytes of the memory only. *)
Lemma store_bytes_keeps bytes dst b u b' :
  mbuf_wf b → store_bytes bytes dst b = Done (u, b') → keeps_type b b'.
Proof.
  intros W. unfold store_bytes. rewrite bind_get. destruct (in_buf _ _ _) eqn:Ei; [| done].
  intros [= _ <-]. unfold in_buf in Ei. apply andb_true_iff in Ei as [E1 E2].
  apply Z.leb_le in E1, E2. split; [| by split_and!]. apply set_buf_wf; [done |]. unfold splice. len.
Qed.

Lemma write_keeps {prof : profile} b offset (slice : list u8) r b' :
  mbuf_wf b → Mbuf.write_data_slice offset slice b = Done (r, b') → keeps_type b b'.
Proof.
  intros W. unfold Mbuf.write_data_slice. cbv zeta. rewrite bind_get, bind_lift.
  destruct (umul _ _ _); try done. rewrite bind_lift. destruct (uadd _ _ _) as [last| |]; try done.
  destruct (last >? Mbuf.data_len b).
  - rewrite bind_lift_done, bind_lift.
    destruct (usub _ _ _); try done. intros [= _ <-]. by apply keeps_refl.
  - rewrite bind_lift. destruct (Mbuf.data_address b offset); try done.
    intros ([] & b1 & E1 & E2)%bind_inv. rewrite bind_get in E2.
    assert (b' = b1) as ->.
    { unfold lift in E2. destruct (Mbuf.read_data_slice u8 b1 offset _); by simplify_eq. }
    by eapply store_bytes_keeps.
Qed.

Lemma step_keeps {prof : profile} o b r b' :
  mbuf_wf b → op_typed o → prof = Debug ∨ op_ends o → mbuf_step o b = Done (r, b') → keeps_type b b'.
Proof.
  intros W Ht He. destruct o as [offset len | offset len | offset len | to_len | offset slice]; simpl in *.
  - destruct Ht as [[? ?] [? ?]]. by apply extend_keeps.
  - destruct Ht as [? ?]. by apply shrink_keeps.
  - destruct Ht as [Ho [Hl1 Hl2]]. unfold Mbuf.resize. destruct (Z.ltb_spec len 0).
    + rewrite bind_lift. unfold sneg, arith. destruct (in_sint 64 (- len)) eqn:Ei.
      * rewrite as_uint_id by (unfold is_uint; lia).
        apply shrink_keeps; [done | done | unfold is_uint; lia |]. destruct He; [by left | right; lia].
      * assert (len = - 2 ^ 63) as ->.
        { unfold in_sint in Ei. apply andb_false_iff in Ei as [Ei | Ei]; lia. }
        destruct prof; [done |]. change (as_uint 64 _) with (2 ^ 63).
        apply shrink_keeps; [done | done | unfold is_uint; lia |]. destruct He; [done | right; lia].
    + destruct Ho. apply extend_keeps; [done | lia |]. rewrite as_uint_id; [lia | unfold is_uint; lia].
  - by apply truncate_keeps.
  - intros (r1 & b1 & E1 & E2)%bind_inv. injection E2 as <- <-. by eapply write_keeps.
Qed.
(** ** Properties *)

(** C10: well-formedness is a type invariant of [Mbuf]: whatever sequence of
    [extend], [shrink], [resize], [truncate] and [write_data_slice] is called,
    with arguments of their types, accepted or refused, if it returns then the
    data still lies in the memory of the buffer, [pkt_len] agrees with
    [data_len], and the memory, the headroom and the pool are those of the
    buffer.  In a release build this needs the ends of the ranges given to
    [shrink] not to overflow; a build with overflow checks needs nothing. *)
Theorem methods_preserve_wf {prof : profile} os b rs b' :
  mbuf_wf b → Forall op_typed os → prof = Debug ∨ Forall op_ends os →
  mbuf_run os b = Done (rs, b') → mbuf_wf b' ∧ same_memory b b'.
Proof.
  intros W. revert b rs W. induction os as [|o os IH]; intros b rs W Ht He E; simpl in E.
  { injection E as <- <-. by split. }
  apply Forall_cons in Ht as [Ht1 Ht2]. apply bind_inv in E as (r & b1 & E1 & E).
  apply bind_inv in E as (rs1 & b2 & E2 & E). injection E as <- <-.
  rewrite Forall_cons in He. destruct (step_keeps o b r b1) as [W1 S1]; [done | done | tauto | done |].
  destruct (IH b1 rs1) as [W2 S2]; [done | done | tauto | done |]. split; [done | by trans b1].
Qed.

(** C35: in a release build [shrink] breaks every well-formed buffer without any
    fault: the safe call [shrink(usize::MAX, data_len + 1)] wraps around to the
    end of the data, copies nothing, reports success, and leaves a [data_len] of
    65535 with a [pkt_len] of [2 ^ 32 - 1], so that the buffer is no longer well
    formed.  When the memory behind the headroom has less than 65534 bytes, the
    checks of [read_data] then let through an access outside the buffer. *)
Theorem release_shrink_breaks_wf b :
  mbuf_wf b →
  ∃ b', Mbuf.shrink (prof := Release) (2 ^ 64 - 1) (m_data_len b + 1) b = Done (Ok tt, b') ∧
    m_data_len b' = 65535 ∧ m_pkt_len b' = 2 ^ 32 - 1 ∧ same_memory b b' ∧ ¬ mbuf_wf b' ∧
    (m_buf_len b - m_data_off b < 65534 →
     Mbuf.read_data (prof := Release) u8 b' 65534 = Undefined).
Proof.
  intros W. pose proof W as [W1 W2 W3 W4 W5 W6].
  set (b' := set_pkt_len (2 ^ 32 - 1) (set_data_len 65535 b)).
  exists b'. split; [| split_and!; try done].
  - unfold Mbuf.shrink, Mbuf.data_len. rewrite bind_get.
    destruct (Z.leb_spec (m_data_len b + 1) 0); [lia |].
    rewrite uadd_release, bind_lift_done, as_uint_wrap_pos by (unfold is_uint; lia).
    replace (2 ^ 64 - 1 + (m_data_len b + 1) - 2 ^ 64) with (m_data_len b) by lia.
    rewrite Z.gtb_ltb, Z.ltb_irrefl, usub_release, bind_lift_done, usub_release, bind_lift_done.
    rewrite as_uint_sub by lia.
    rewrite (as_uint_wrap_neg 64 (_ - _ - _)) by (unfold is_uint; lia).
    replace (m_data_len b - (2 ^ 64 - 1) - (m_data_len b + 1) + 2 ^ 64) with 0 by lia.
    cbn [Z.gtb Z.compare]. rewrite bind_ret. unfold Mbuf.shorten. rewrite bind_assoc, bind_get.
    rewrite usub_release, bind_assoc, bind_lift_done, bind_assoc, as_uint_sub_r.
    unfold mbind, M_bind, put, get. simpl m_pkt_len. rewrite W6, usub_release, as_uint_sub_r.
    replace (m_data_len b - (m_data_len b + 1)) with (-1) by lia. reflexivity.
  - intros [_ _ _ _ _ W6']. simpl in W6'. lia.
  - intros Hs. unfold Mbuf.read_data, Mbuf.data_len. simpl m_data_len. change (65534 >=? 65535) with false.
    change (uadd (prof := Release) 64 65534 (size_of u8)) with (Done 65535). cbv match.
    rewrite outcome_bind_done. change (65535 >? 65535) with false. cbv match.
    unfold Mbuf.data_address. change (as_sint 64 65534) with 65534.
    rewrite sadd_exact by (unfold is_sint; simpl; lia). rewrite outcome_bind_done. unfold ptr_offset.
    simpl m_data_off. simpl m_buf.
    destruct (Z.leb_spec (m_data_off b + 65534) (Z.of_nat (length (m_buf b)))); [lia |].
    by rewrite andb_false_r.
Qed.

(** ** Witnesses *)

Lemma methods_preserve_wf_witness :
  ∃ rs b', mbuf_run (prof := Debug) [Extend 2 3; WriteDataSlice 1 [x0a; x0b]; Shrink 0 2;
      Resize 0 (-1); Truncate 1; Truncate 100] sample_mbuf = Done (rs, b') ∧
    mbuf_wf b' ∧ same_memory sample_mbuf b'.
Proof.
  eexists _, _. split; [vm_compute; reflexivity |].
  apply (methods_preserve_wf (prof := Debug) [Extend 2 3; WriteDataSlice 1 [x0a; x0b]; Shrink 0 2;
      Resize 0 (-1); Truncate 1; Truncate 100] sample_mbuf
      [Ok tt; Ok tt; Ok tt; Ok tt; Ok tt; Err NotResized]).
  - exact sample_mbuf_wf.
  - repeat constructor; vm_compute; congruence.
  - by left.
  - vm_compute. reflexivity.
Defined.

Lemma release_shrink_breaks_wf_witness :
  ∃ b', Mbuf.shrink (prof := Release) (2 ^ 64 - 1) (m_data_len sample_mbuf + 1) sample_mbuf
      = Done (Ok tt, b') ∧ m_data_len b' = 65535 ∧ ¬ mbuf_wf b' ∧
    Mbuf.read_data (prof := Release) u8 b' 65534 = Undefined.
Proof.
  destruct (release_shrink_breaks_wf sample_mbuf sample_mbuf_wf) as (b' & E & L & _ & _ & W & R).
  exists b'. split_and!; [exact E | exact L | exact W |]. apply R. simpl. lia.
Defined.
