(* ===== verification/MbufSpec.v ===== *)
(** * What a packet buffer promises ([apis/mbuf.rs])

    The contract of [Mbuf] without memory, addresses or machine integers: a
    packet is its bytes and the room that is left after them, and each method
    is a step of a relation between packets.  The methods of [Mbuf.v] refine
    it for every sequence of calls whose sums of arguments do not overflow. *)

From S2P Require Import Prelude Errors Mbuf MbufType.

(** ** The specification *)

Record packet := Packet { pk_data : list u8; pk_room : Z }.

Definition size (p : packet) : Z := Z.of_nat (length (pk_data p)).

(** What [write_data_slice] reports after it has written [n] bytes. *)
Definition write_report (p : packet) (offset n : Z) : result unit BufError :=
  if offset >=? size p then Err (BadOffset offset (size p))
  else if offset + n >? size p - offset then Err (OutOfBuffer n (size p - offset))
  else Ok tt.

(** The bytes of a gap that [extend] opens are not specified, and neither is the
    room that a write reports when it starts beyond the data. *)
Inductive packet_step : mbuf_op → packet → result unit BufError → packet → Prop :=
  | ps_extend p offset len gap :
      0 < len ≤ pk_room p → offset ≤ size p → Z.of_nat (length gap) = len →
      packet_step (Extend offset len) p (Ok tt)
        (Packet (take (Z.to_nat offset) (pk_data p) ++ gap ++ drop (Z.to_nat offset) (pk_data p))
           (pk_room p - len))
  | ps_extend_no p offset len : ¬ (0 < len ≤ pk_room p ∧ offset ≤ size p) →
      packet_step (Extend offset len) p (Err NotResized) p
  | ps_shrink p offset len : 0 < len → offset + len ≤ size p →
      packet_step (Shrink offset len) p (Ok tt)
        (Packet (take (Z.to_nat offset) (pk_data p) ++ drop (Z.to_nat (offset + len)) (pk_data p))
           (pk_room p + len))
  | ps_shrink_no p offset len : ¬ (0 < len ∧ offset + len ≤ size p) →
      packet_step (Shrink offset len) p (Err NotResized) p
  | ps_grow p offset len r p' : 0 ≤ len → packet_step (Extend offset len) p r p' →
      packet_step (Resize offset len) p r p'
  | ps_cut p offset len r p' : len < 0 → packet_step (Shrink offset (- len)) p r p' →
      packet_step (Resize offset len) p r p'
  | ps_truncate p to_len : to_len < size p →
      packet_step (Truncate to_len) p (Ok tt)
        (Packet (take (Z.to_nat to_len) (pk_data p)) (pk_room p + (size p - to_len)))
  | ps_truncate_no p to_len : size p ≤ to_len → packet_step (Truncate to_len) p (Err NotResized) p
  | ps_write p offset slice : offset + Z.of_nat (length slice) ≤ size p →
      packet_step (WriteDataSlice offset slice) p
        (write_report p offset (Z.of_nat (length slice)))
        (Packet (splice (pk_data p) (Z.to_nat offset) slice) (pk_room p))
  | ps_write_no p offset slice rest : size p < offset + Z.of_nat (length slice) →
      (offset ≤ size p → rest = size p - offset) →
      packet_step (WriteDataSlice offset slice) p
        (Err (OutOfBuffer (Z.of_nat (length slice)) rest)) p.

Inductive packet_run : list mbuf_op → packet → list (result unit BufError) →
    packet → Prop :=
  | pr_nil p : packet_run [] p [] p
  | pr_cons o os p r p1 rs p2 : packet_step o p r p1 → packet_run os p1 rs p2 →
      packet_run (o :: os) p (r :: rs) p2.

(** The abstraction of a buffer. *)
Definition packet_of (b : rte_mbuf) : packet := Packet (data b) (room b).

(** The sums of the arguments are machine integers. *)
Definition op_fits (o : mbuf_op) : Prop :=
  match o with
  | Shrink offset len => offset + len < 2 ^ 64
  | Resize offset len => - 2 ^ 63 < len ∧ offset - len < 2 ^ 64
  | WriteDataSlice offset slice => offset + Z.of_nat (length slice) < 2 ^ 64
  | _ => True
  end.

(** A write that starts beyond the data. *)
Definition beyond (o : mbuf_op) (p : packet) : Prop :=
  match o with WriteDataSlice offset _ => size p < offset | _ => False end.

(** ** Lemmas *)

Section refinement.
Context {prof : profile}.

Lemma size_packet b : mbuf_wf b → size (packet_of b) = m_data_len b.
Proof. intros W. unfold size. simpl. pose proof (length_data b W). lia. Qed.

(** The abstraction after a step that keeps the memory. *)
Lemma packet_of_eq b b' d n : same_buffer b b' → data b' = d → m_data_len b' = m_data_len b + n →
  packet_of b' = Packet d (room b - n).
Proof.
  intros (_ & E2 & E3 & _) <- E. unfold packet_of, room. rewrite E2, E3, E. f_equal. lia.
Qed.

(** A step of [Mbuf] that returns, and what it does to the packet. *)
Definition refines_call (o : mbuf_op) (b : rte_mbuf) : Prop :=
  ∃ r b', mbuf_step o b = Done (r, b') ∧ packet_step o (packet_of b) r (packet_of b') ∧ mbuf_wf b'.

Lemma refines_extend offset len b : mbuf_wf b → is_uint 64 offset → is_uint 64 len →
  refines_call (Extend offset len) b.
Proof.
  intros W [? ?] [? ?]. destruct (decide (0 < len ≤ room b ∧ offset ≤ m_data_len b)) as [Hok | Hno].
  - destruct (extend_wp b offset len W) as (gap & b' & E & W' & S & Lg & Ld & D); [lia | lia |].
    exists (Ok tt), b'. split; [done |]. split; [| done].
    rewrite (packet_of_eq b b' _ len S D Ld). apply (ps_extend (packet_of b)); [tauto | | done].
    rewrite size_packet by done. tauto.
  - exists (Err NotResized), b. split; [apply extend_refused; solve [done | tauto] |].
    split; [| done]. apply ps_extend_no. by rewrite size_packet.
Qed.

Lemma refines_shrink offset len b : mbuf_wf b → is_uint 64 offset → is_uint 64 len →
  offset + len < 2 ^ 64 → refines_call (Shrink offset len) b.
Proof.
  intros W [? ?] [? ?] Hs. destruct (decide (0 < len ∧ offset + len ≤ m_data_len b)) as [[? ?] | Hno].
  - destruct (shrink_wp b offset len W) as (b' & E & W' & S & Ld & D); [lia | lia | lia |].
    exists (Ok tt), b'. split; [done |]. split; [| done].
    rewrite (packet_of_eq b b' _ (- len) S D) by lia. rewrite Z.sub_opp_r.
    apply (ps_shrink (packet_of b)); [done |]. by rewrite size_packet.
  - exists (Err NotResized), b. split; [by apply shrink_refused |].
    split; [| done]. apply ps_shrink_no. by rewrite size_packet.
Qed.

Lemma refines_resize offset len b : mbuf_wf b → is_uint 64 offset → is_sint 64 len →
  - 2 ^ 63 < len → offset - len < 2 ^ 64 → refines_call (Resize offset len) b.
Proof.
  intros W Ho [Hl1 Hl2] Hl Hs. unfold refines_call. simpl mbuf_step. unfold Mbuf.resize.
  destruct (Z.ltb_spec len 0).
  - rewrite sneg_exact, bind_lift_done, as_uint_id by (unfold is_sint, is_uint; lia).
    destruct (refines_shrink offset (- len) b) as (r & b' & E & P & W'); try done;
      [unfold is_uint; lia |].
    exists r, b'. split; [done |]. split; [by apply ps_cut | done].
  - rewrite as_uint_id by (unfold is_uint; lia).
    destruct (refines_extend offset len b) as (r & b' & E & P & W'); try done; [unfold is_uint; lia |].
    exists r, b'. split; [done |]. split; [by apply ps_grow | done].
Qed.

Lemma refines_truncate to_len b : mbuf_wf b → is_uint 64 to_len → refines_call (Truncate to_len) b.
Proof.
  intros W U. destruct (truncate_spec b to_len W U) as [R1 R2]. unfold is_uint in U.
  destruct (decide (to_len < m_data_len b)) as [Hlt | Hge].
  - destruct (R1 Hlt) as (b' & E & W' & S & _ & D). exists (Ok tt), b'. split; [done |].
    split; [| done]. pose proof (length_data b' W') as L'. pose proof (length_data b W) as L.
    rewrite D, length_take in L'.
    rewrite (packet_of_eq b b' _ (to_len - m_data_len b) S D) by lia.
    replace (room b - _) with (pk_room (packet_of b) + (size (packet_of b) - to_len))
      by (rewrite size_packet by done; simpl; lia).
    apply ps_truncate. by rewrite size_packet.
  - exists (Err NotResized), b. split; [apply R2; lia |]. split; [| done].
    apply ps_truncate_no. rewrite size_packet by done. lia.
Qed.

Lemma write_bytes_size (slice : list u8) : size_of u8 * Z.of_nat (length slice) = Z.of_nat (length slice).
Proof. simpl. lia. Qed.

(** A write that fits is done, whatever it reports. *)
Lemma refines_write_fits offset slice b : mbuf_wf b → is_uint 64 offset →
  offset + Z.of_nat (length slice) ≤ m_data_len b → refines_call (WriteDataSlice offset slice) b.
Proof.
  intros W [Ho1 Ho2] Hf. unfold refines_call. simpl mbuf_step. pose proof W as [W1 W2 W3 W4 W5 W6].
  pose proof (write_bytes_size slice) as En. set (n := Z.of_nat (length slice)) in *.
  destruct (write_data_slice_wp b offset slice W Ho1) as (b' & V1 & V2 & V3 & V4 & E).
  { fold n. by rewrite En. }
  exists (write_report (packet_of b) offset n), b'. split; [| split; [| done]].
  - rewrite read_data_slice_run in E by (fold n; rewrite ?En; done || simpl; lia).
    rewrite (bind_done _ _ _ _ _ E). fold n. unfold write_report.
    rewrite size_packet, En, V3 by done.
    destruct (offset >=? m_data_len b); [done |].
    by destruct (offset + n >? m_data_len b - offset).
  - assert (R : slice ≫= repr = slice).
    { clear. induction slice as [|x l IH]; [done |]. cbn. by f_equal. }
    rewrite (packet_of_eq b b' _ 0 V2 V4) by lia. rewrite R, Z.sub_0_r.
    apply (ps_write (packet_of b)). by rewrite size_packet.
Qed.

(** A write that does not fit computes the room that is left, which a build
    with overflow checks can do only when the write starts in the data. *)
Lemma refines_write_long offset slice b : mbuf_wf b → is_uint 64 offset →
  m_data_len b < offset + Z.of_nat (length slice) < 2 ^ 64 →
  offset ≤ m_data_len b ∨ prof = Release → refines_call (WriteDataSlice offset slice) b.
Proof.
  intros W [Ho1 Ho2] [Hf Hs] Hp. unfold refines_call. simpl mbuf_step. pose proof W as [W1 W2 W3 W4 W5 W6].
  pose proof (write_bytes_size slice) as En. set (n := Z.of_nat (length slice)) in *.
  unfold Mbuf.write_data_slice, Mbuf.data_len. fold n. cbv zeta. rewrite !bind_assoc, bind_get.
  assert (Em : umul 64 (size_of u8) n = Done n) by (rewrite umul_exact; [by rewrite En | unfold is_uint; lia]).
  rewrite Em, bind_assoc, bind_lift_done, uadd_exact, bind_assoc, bind_lift_done by (unfold is_uint; lia).
  destruct (Z.gtb_spec (offset + n) (m_data_len b)); [| lia].
  assert (∃ rest, usub 64 (m_data_len b) offset = Done rest ∧
    (offset ≤ m_data_len b → rest = m_data_len b - offset)) as (rest & Er & Hr).
  { destruct (decide (offset ≤ m_data_len b)).
    - eexists. split; [| done]. apply usub_exact. unfold is_uint. lia.
    - destruct Hp as [? | ->]; [done |]. eexists. split; [apply usub_release | done]. }
  rewrite !bind_assoc, bind_lift_done, Er, bind_assoc, bind_lift_done.
  exists (Err (OutOfBuffer n rest)), b. split; [done |]. split; [| done].
  apply ps_write_no; by rewrite size_packet.
Qed.
End refinement.

(** In a build with overflow checks a call whose sum is no machine integer, or
    a write beyond the data, panics. *)
Lemma bad_call_panics o b : mbuf_wf b → op_typed o → ¬ op_fits o ∨ beyond o (packet_of b) →
  mbuf_step (prof := Debug) o b = Panicked.
Proof.
  intros W T B. pose proof W as [W1 W2 W3 W4 W5 W6].
  assert (Hshrink : ∀ offset len, is_uint 64 offset → is_uint 64 len → 2 ^ 64 ≤ offset + len →
    Mbuf.shrink (prof := Debug) offset len b = Panicked).
  { unfold is_uint. intros offset len ? ? ?. unfold Mbuf.shrink. rewrite bind_get.
    destruct (Z.leb_spec len 0); [lia |]. by rewrite uadd_debug by lia. }
  destruct o as [offset len | offset len | offset len | to_len | offset slice]; simpl in T, B; try tauto.
  - destruct B as [B | []], T. apply Hshrink; solve [done | lia].
  - destruct B as [B | []], T as [? [? ?]]. simpl mbuf_step. unfold Mbuf.resize, is_uint in *.
    destruct (Z.ltb_spec len 0); [| lia]. destruct (decide (len = - 2 ^ 63)) as [-> | Hne]; [done |].
    rewrite sneg_exact, bind_lift_done, as_uint_id by (unfold is_sint, is_uint; lia).
    apply Hshrink; unfold is_uint; lia.
  - rewrite size_packet in B by done. destruct T as [[? ?] ?]. simpl mbuf_step.
    pose proof (write_bytes_size slice) as En. set (n := Z.of_nat (length slice)) in *.
    unfold Mbuf.write_data_slice, Mbuf.data_len. fold n. cbv zeta. rewrite !bind_assoc, bind_get.
    assert (Em : umul (prof := Debug) 64 (size_of u8) n = Done n) by (rewrite umul_exact; by rewrite En).
    rewrite Em, bind_assoc, bind_lift_done.
    destruct (decide (2 ^ 64 ≤ offset + n)) as [Hbig | Hsmall]; [by rewrite uadd_debug |].
    destruct B as [? | B]; [lia |]. rewrite uadd_exact, bind_assoc, bind_lift_done by (unfold is_uint; lia).
    destruct (Z.gtb_spec (offset + n) (m_data_len b)); [| lia].
    rewrite !bind_assoc, bind_lift_done, bind_assoc, bind_lift. unfold usub, arith.
    by rewrite in_uint_false by (unfold is_uint; lia).
Qed.

(** Every other call does what the specification says. *)
Lemma good_call_refines {prof : profile} o b : mbuf_wf b → op_typed o → op_fits o →
  prof = Release ∨ ¬ beyond o (packet_of b) → refines_call o b.
Proof.
  intros W T F B. destruct o as [offset len | offset len | offset len | to_len | offset slice];
    simpl in T, F; destruct_and?.
  - by apply refines_extend.
  - by apply refines_shrink.
  - by apply refines_resize.
  - by apply refines_truncate.
  - destruct (decide (offset + Z.of_nat (length slice) ≤ m_data_len b)); [by apply refines_write_fits |].
    apply refines_write_long; [done | done | lia |]. simpl in B. rewrite size_packet in B by done.
    destruct B; [by right | left; lia].
Qed.

#[export] Instance op_fits_dec o : Decision (op_fits o).
Proof. destruct o; simpl; apply _. Defined.

#[export] Instance beyond_dec o p : Decision (beyond o p).
Proof. destruct o; simpl; apply _. Defined.

Lemma method_refines {prof : profile} o b :
  mbuf_wf b → op_typed o → prof = Debug ∨ op_fits o →
  refines_call o b ∨
  prof = Debug ∧ mbuf_step o b = Panicked ∧ (¬ op_fits o ∨ beyond o (packet_of b)).
Proof.
  intros W T F.
  destruct (decide (prof = Debug ∧ (¬ op_fits o ∨ beyond o (packet_of b)))) as [[-> B] | Hn].
  - right. split; [done |]. split; [by apply bad_call_panics | done].
  - left. apply good_call_refines; [done | done | |].
    + destruct F as [-> | ?]; [| done]. destruct (decide (op_fits o)); [done | tauto].
    + destruct prof; [right; tauto | by left].
Qed.

(** ** Properties *)

(** C5: [Mbuf] refines its specification.  In a build with overflow checks, for
    every sequence of calls with arguments of their types: either all return,
    accepted or refused, with the results and the packet of the specification;
    or the calls up to some point do, and the next one panics, which is a call
    whose sum of arguments is no machine integer or a write that starts beyond
    the data.  In a release build, for the sequences whose sums are machine
    integers, all calls return as specified.  In neither case is there an access
    outside the buffer. *)
Theorem mbuf_refines {prof : profile} os b :
  mbuf_wf b → Forall op_typed os → prof = Debug ∨ Forall op_fits os →
  (∃ rs b', mbuf_run os b = Done (rs, b') ∧ packet_run os (packet_of b) rs (packet_of b') ∧
     mbuf_wf b') ∨
  (prof = Debug ∧ mbuf_run os b = Panicked ∧
   ∃ os1 o os2 rs1 p1, os = os1 ++ o :: os2 ∧ packet_run os1 (packet_of b) rs1 p1 ∧
     (¬ op_fits o ∨ beyond o p1)).
Proof.
  intros W T F. revert b W. induction T as [|o os To T IH]; intros b W; simpl.
  { left. exists [], b. split; [done |]. split; [constructor | done]. }
  rewrite Forall_cons in F.
  destruct (method_refines o b W To ltac:(tauto)) as [(r & b1 & E & P & W1) | (-> & E & B)].
  2: { right. split; [done |]. split; [unfold mbind, M_bind; by rewrite E |].
    exists [], o, os, [], (packet_of b). split; [done |]. by split; [constructor |]. }
  rewrite (bind_done _ _ _ _ _ E).
  destruct (IH ltac:(tauto) b1 W1)
    as [(rs & b' & E' & P' & W') | (Hp & E' & os1 & o' & os2 & rs1 & p1 & -> & P' & B)].
  - left. exists (r :: rs), b'. rewrite (bind_done _ _ _ _ _ E'). split; [done |].
    by split; [econstructor |].
  - right. split; [done |]. split; [unfold mbind at 1, M_bind at 1; by rewrite E' |].
    exists (o :: os1), o', os2, (r :: rs1), p1. split; [done |]. by split; [econstructor |].
Qed.

(** ** Witnesses *)

(** A call of every method on the sample buffer; two are refused. *)
Definition sample_ops : list mbuf_op :=
  [Extend 2 3; WriteDataSlice 2 [x0a; x0b; x0c]; Resize 0 (-1); Shrink 5 9; Truncate 3; Extend 0 90].

(** A write beyond the data at the end. *)
Lemma mbuf_refines_witness :
  (∃ rs b', mbuf_run (prof := Release) sample_ops sample_mbuf = Done (rs, b') ∧
    packet_run sample_ops (packet_of sample_mbuf) rs (packet_of b') ∧ mbuf_wf b') ∧
  ∃ os1 o os2 rs1 p1, sample_ops ++ [WriteDataSlice 4 [x0d]] = os1 ++ o :: os2 ∧
    packet_run os1 (packet_of sample_mbuf) rs1 p1 ∧ (¬ op_fits o ∨ beyond o p1).
Proof.
  split.
  - destruct (mbuf_refines (prof := Release) sample_ops sample_mbuf) as [R | (E & _)].
    + exact sample_mbuf_wf.
    + repeat constructor; simpl; lia.
    + right. repeat constructor; simpl; lia.
    + exact R.
    + discriminate E.
  - destruct (mbuf_refines (prof := Debug) (sample_ops ++ [WriteDataSlice 4 [x0d]]) sample_mbuf)
      as [(rs & b' & E & _) | (_ & _ & R)].
    + exact sample_mbuf_wf.
    + repeat constructor; simpl; lia.
    + by left.
    + vm_compute in E. discriminate E.
    + exact R.
Defined.
