(* ===== verification/Dpdk.v ===== *)
(** * The interface to DPDK

    DPDK is a C library the code calls through [dpdk-sys] (bindings made by
    bindgen and the one-line wrappers [_rte_*] of [dpdk-sys/src/shim.c]).  Its
    functions are the fields of the class [Dpdk], parameters of every
    definition that calls them.  What its documentation says of them, as far
    as the code relies on it, are the laws of [MempoolLaws], [RingLaws] and
    [EthLaws], stated over the observable state [dpdk].  [Sim.v] gives a
    concrete instance that satisfies all the laws. *)

From S2P Require Import Prelude Errors Mbuf.

(** Addresses of C objects; [null] is 0. *)
Abbreviation ptr := Z.
Abbreviation null := 0 (only parsing).

(** ** Observable state *)

(** An [rte_ring]: [rg_cap] is the usable size. *)
Record rte_ring := RteRing { rg_cap : Z; rg_items : list ptr }.

(** An Ethernet device: the numbers of queues given to
    [rte_eth_dev_configure], the queues set up since, the flags and the
    packets that [rte_eth_tx_burst] took over and the driver has not freed. *)
Record eth_port := EthPort {
  ep_nb_rx : Z;
  ep_nb_tx : Z;
  ep_rxq : list Z;
  ep_txq : list Z;
  ep_promisc : bool;
  ep_started : bool;
  ep_inflight : gmultiset ptr
}.

(** [d_pools] maps a mempool to the multiset of the objects it has free: an
    object that is freed twice is in it twice. *)
Record dpdk := MkDpdk {
  d_mbufs : gmap ptr rte_mbuf;
  d_pools : gmap ptr (gmultiset ptr);
  d_pool_names : gmap string ptr;
  d_rings : gmap ptr rte_ring;
  d_ring_names : gmap string ptr;
  d_ports : gmap Z eth_port
}.

Definition set_mbufs (m : gmap ptr rte_mbuf) (o : dpdk) : dpdk :=
  MkDpdk m (d_pools o) (d_pool_names o) (d_rings o) (d_ring_names o) (d_ports o).
Definition set_pools (m : gmap ptr (gmultiset ptr)) (o : dpdk) : dpdk :=
  MkDpdk (d_mbufs o) m (d_pool_names o) (d_rings o) (d_ring_names o) (d_ports o).
Definition set_pool_names (m : gmap string ptr) (o : dpdk) : dpdk :=
  MkDpdk (d_mbufs o) (d_pools o) m (d_rings o) (d_ring_names o) (d_ports o).
Definition set_rings (m : gmap ptr rte_ring) (o : dpdk) : dpdk :=
  MkDpdk (d_mbufs o) (d_pools o) (d_pool_names o) m (d_ring_names o) (d_ports o).
Definition set_ring_names (m : gmap string ptr) (o : dpdk) : dpdk :=
  MkDpdk (d_mbufs o) (d_pools o) (d_pool_names o) (d_rings o) m (d_ports o).
Definition set_ports (m : gmap Z eth_port) (o : dpdk) : dpdk :=
  MkDpdk (d_mbufs o) (d_pools o) (d_pool_names o) (d_rings o) (d_ring_names o) m.

(** The state of a process: what is observable, [rte_errno] and the rest of
    DPDK, the drivers and the hardware. *)
Record world (H : Type) := World { obs : dpdk; rte_errno : Z; hw : H }.
Arguments World {H}.
Arguments obs {H}.
Arguments rte_errno {H}.
Arguments hw {H}.

Definition set_obs {H} (o : dpdk) (w : world H) : world H :=
  World o (rte_errno w) (hw w).

(** Adding objects to the free ones of a mempool. *)
Definition add_to_pool (mp : ptr) (x : gmultiset ptr) (o : dpdk) : dpdk :=
  set_pools (alter (λ s, x ⊎ s) mp (d_pools o)) o.

(** Returning one object to the mempool its mbuf belongs to. *)
Definition put_one (p : ptr) (o : dpdk) : dpdk :=
  match d_mbufs o !! p with
  | Some b => add_to_pool (m_pool b) {[+ p +]} o
  | None => o
  end.

(** ** Arguments of the configuration calls *)

Record eth_conf := EthConf {
  rx_mq_mode : Z; max_rx_pkt_len : Z; split_hdr_size : Z; rx_offloads : Z;
  rss_hf : Z; rss_key : list Z; tx_mq_mode : Z; tx_offloads : Z }.

(** [rte_eth_conf::default()]: all zero, with a null key. *)
Definition eth_conf_default : eth_conf := EthConf 0 0 0 0 0 [] 0 0.

(** The fields of [rte_eth_dev_info] the code reads; the two queue
    configurations are passed on unread. *)
Record rte_eth_dev_info := EthDevInfo {
  flow_type_rss_offloads : Z; tx_offload_capa : Z;
  default_rxconf : list u8; default_txconf : list u8 }.

Definition eth_dev_info_default : rte_eth_dev_info := EthDevInfo 0 0 [] [].

Record mempool_args := MempoolArgs {
  mp_name : string; mp_n : Z; mp_elt_size : Z; mp_cache_size : Z;
  mp_private_data_size : Z; mp_socket : Z; mp_flags : Z }.

(** ** Functions *)

(** A table argument ([void **]) is the list of its entries; a function that
    fills a table returns the new entries.  A pair [(r, w')] is the value
    returned and the state after the call. *)
Class Dpdk (H : Type) := {
  (* sizes and constants of the generated bindings *)
  sizeof_rte_mbuf : Z;
  sizeof_pool_private : Z;
  ETH_RSS_IP : Z; ETH_RSS_TCP : Z; ETH_RSS_UDP : Z; ETH_RSS_SCTP : Z;
  ETH_RSS_L2_PAYLOAD : Z; ETH_MQ_RX_RSS : Z; RTE_ETHER_MAX_LEN : Z;
  DEV_RX_OFFLOAD_CHECKSUM : Z; DEV_TX_OFFLOAD_MBUF_FAST_FREE : Z;
  (* environment *)
  rte_eal_init : list string → world H → Z * world H;
  rte_eal_cleanup : world H → Z * world H;
  rte_socket_id : world H → Z;
  rte_lcore_id : world H → Z;
  (* mempools and mbufs *)
  rte_mempool_create : mempool_args → world H → ptr * world H;
  rte_mempool_lookup : string → world H → ptr * world H;
  rte_mempool_free : ptr → world H → world H;
  rte_mempool_put_bulk : ptr → list ptr → Z → world H → world H;
  rte_pktmbuf_alloc : ptr → world H → ptr * world H;
  rte_pktmbuf_free : ptr → world H → world H;
  rte_pktmbuf_alloc_bulk : ptr → Z → world H → (Z * list ptr) * world H;
  (* rings *)
  rte_ring_create : string → Z → Z → Z → world H → ptr * world H;
  rte_ring_lookup : string → world H → ptr * world H;
  rte_ring_free : ptr → world H → world H;
  rte_ring_enqueue : ptr → ptr → world H → Z * world H;
  rte_ring_dequeue : ptr → ptr → world H → (Z * ptr) * world H;
  rte_ring_enqueue_bulk : ptr → list ptr → Z → world H → Z * world H;
  rte_ring_dequeue_burst : ptr → list ptr → Z → world H → (Z * list ptr) * world H;
  (* Ethernet devices *)
  rte_eth_dev_info_get : Z → rte_eth_dev_info → world H → (Z * rte_eth_dev_info) * world H;
  rte_eth_dev_configure : Z → Z → Z → eth_conf → world H → Z * world H;
  rte_eth_dev_socket_id : Z → world H → Z;
  rte_eth_rx_queue_setup : Z → Z → Z → Z → list u8 → ptr → world H → Z * world H;
  rte_eth_tx_queue_setup : Z → Z → Z → Z → list u8 → world H → Z * world H;
  rte_eth_promiscuous_enable : Z → world H → Z * world H;
  rte_eth_dev_start : Z → world H → Z * world H;
  rte_eth_rx_burst : Z → Z → Z → world H → list ptr * world H;
  rte_eth_tx_burst : Z → Z → list ptr → Z → world H → Z * world H;
  rte_eth_dev_stop : Z → world H → world H;
  rte_eth_dev_close : Z → world H → world H;
  (* [RTE_ETH_FOREACH_DEV] goes from the first device that is not below its
     argument to the next, as long as it is below the maximum *)
  RTE_MAX_ETHPORTS : Z;
  rte_eth_find_next : Z → world H → Z
}.

(** ** Laws *)

(** A buffer as [rte_pktmbuf_alloc] returns it: one empty segment of the pool
    [mp]. *)
Definition fresh_mbuf (mp : ptr) (b : rte_mbuf) : Prop :=
  mbuf_wf b ∧ m_data_len b = 0 ∧ m_pool b = mp.

(** [rte_mbuf.h], [rte_mempool.h]. *)
Class MempoolLaws H `{Dpdk H} : Prop := {
  (* "The pointer to the new mbuf on success, NULL if allocation failed"; the
     new mbuf has one segment, which has a length of 0 *)
  pktmbuf_alloc_ok mp w p w' : rte_pktmbuf_alloc mp w = (p, w') → p ≠ null →
    ∃ s b, d_pools (obs w) !! mp = Some s ∧ p ∈ s ∧ fresh_mbuf mp b ∧
      obs w' = set_mbufs (<[p := b]> (d_mbufs (obs w)))
        (set_pools (<[mp := s ∖ {[+ p +]}]> (d_pools (obs w))) (obs w));
  pktmbuf_alloc_null mp w w' : rte_pktmbuf_alloc mp w = (null, w') → obs w' = obs w;
  (* "Free a packet mbuf back into its original mempool" *)
  pktmbuf_free_ok p w : is_Some (d_mbufs (obs w) !! p) →
    obs (rte_pktmbuf_free p w) = put_one p (obs w);
  (* "0: Success; -ENOENT: Not enough entries in the mempool; no mbufs are
     retrieved"; the new mbufs are as [rte_pktmbuf_alloc]'s *)
  pktmbuf_alloc_bulk_ok mp n w tbl w' :
    rte_pktmbuf_alloc_bulk mp n w = ((0, tbl), w') →
    ∃ s bs, d_pools (obs w) !! mp = Some s ∧ Z.of_nat (length tbl) = n ∧
      list_to_set_disj tbl ⊆ s ∧ Forall (λ p, p ≠ null) tbl ∧
      length bs = length tbl ∧ Forall (fresh_mbuf mp) bs ∧
      obs w' = set_mbufs (list_to_map (zip tbl bs) ∪ d_mbufs (obs w))
        (set_pools (<[mp := s ∖ list_to_set_disj tbl]> (d_pools (obs w))) (obs w));
  pktmbuf_alloc_bulk_fail mp n w rc tbl w' :
    rte_pktmbuf_alloc_bulk mp n w = ((rc, tbl), w') → rc ≠ 0 → obs w' = obs w;
  (* "Put several objects back in the mempool": the first [n] of the table *)
  mempool_put_bulk_ok mp tbl n w : Z.of_nat (length tbl) = n →
    obs (rte_mempool_put_bulk mp tbl n w)
    = add_to_pool mp (list_to_set_disj tbl) (obs w);
  (* "The pointer to the new allocated mempool, on success. NULL on error" *)
  mempool_create_ok args w p w' : rte_mempool_create args w = (p, w') → p ≠ null →
    d_pools (obs w) !! p = None ∧ d_pool_names (obs w) !! mp_name args = None ∧
    ∃ s, size s = Z.to_nat (mp_n args) ∧
      obs w' = set_pool_names (<[mp_name args := p]> (d_pool_names (obs w)))
        (set_pools (<[p := s]> (d_pools (obs w))) (obs w));
  mempool_create_null args w w' : rte_mempool_create args w = (null, w') → obs w' = obs w;
  (* "The pointer to the mempool matching the name, or NULL if not found" *)
  mempool_lookup_ok name w :
    (rte_mempool_lookup name w).1 = default null (d_pool_names (obs w) !! name) ∧
    obs (rte_mempool_lookup name w).2 = obs w;
  (* "Unlink the mempool from global list, free the memory chunks, and all
     memory referenced by the mempool": its objects are gone *)
  mempool_free_ok mp w : is_Some (d_pools (obs w) !! mp) →
    obs (rte_mempool_free mp w)
    = set_mbufs (filter (λ kv, m_pool kv.2 ≠ mp) (d_mbufs (obs w)))
        (set_pool_names (filter (λ kv, kv.2 ≠ mp) (d_pool_names (obs w)))
           (set_pools (delete mp (d_pools (obs w))) (obs w)))
}.

(** [rte_ring.h]. *)
Class RingLaws H `{Dpdk H} : Prop := {
  (* "The real usable ring size is count-1"; the name must be new *)
  ring_create_ok name count socket flags w r w' :
    rte_ring_create name count socket flags w = (r, w') → r ≠ null →
    d_rings (obs w) !! r = None ∧ d_ring_names (obs w) !! name = None ∧
    obs w' = set_ring_names (<[name := r]> (d_ring_names (obs w)))
      (set_rings (<[r := RteRing (count - 1) []]> (d_rings (obs w))) (obs w));
  ring_create_null name count socket flags w w' :
    rte_ring_create name count socket flags w = (null, w') → obs w' = obs w;
  (* "The pointer to the ring matching the name, or NULL if not found" *)
  ring_lookup_ok name w :
    (rte_ring_lookup name w).1 = default null (d_ring_names (obs w) !! name) ∧
    obs (rte_ring_lookup name w).2 = obs w;
  (* "0: Success; objects enqueued. -ENOBUFS: Not enough room in the ring to
     enqueue; no object is enqueued" *)
  ring_enqueue_ok r rg p w : d_rings (obs w) !! r = Some rg →
    Z.of_nat (length (rg_items rg)) < rg_cap rg →
    (rte_ring_enqueue r p w).1 = 0 ∧
    obs (rte_ring_enqueue r p w).2
    = set_rings (<[r := RteRing (rg_cap rg) (rg_items rg ++ [p])]> (d_rings (obs w))) (obs w);
  ring_enqueue_full r rg p w : d_rings (obs w) !! r = Some rg →
    rg_cap rg ≤ Z.of_nat (length (rg_items rg)) →
    (rte_ring_enqueue r p w).1 ≠ 0 ∧ obs (rte_ring_enqueue r p w).2 = obs w;
  (* "0: Success, objects dequeued. -ENOENT: Not enough entries in the ring to
     dequeue; no object is dequeued"; the object goes to [*obj_p] *)
  ring_dequeue_ok r cap p items slot w : d_rings (obs w) !! r = Some (RteRing cap (p :: items)) →
    (rte_ring_dequeue r slot w).1 = (0, p) ∧
    obs (rte_ring_dequeue r slot w).2
    = set_rings (<[r := RteRing cap items]> (d_rings (obs w))) (obs w);
  ring_dequeue_empty r cap slot w : d_rings (obs w) !! r = Some (RteRing cap []) →
    (rte_ring_dequeue r slot w).1.1 ≠ 0 ∧ (rte_ring_dequeue r slot w).1.2 = slot ∧
    obs (rte_ring_dequeue r slot w).2 = obs w;
  (* "The number of objects enqueued, either 0 or n" *)
  ring_enqueue_bulk_ok r rg tbl n w : d_rings (obs w) !! r = Some rg →
    0 ≤ n ≤ Z.of_nat (length tbl) →
    Z.of_nat (length (rg_items rg)) + n ≤ rg_cap rg →
    (rte_ring_enqueue_bulk r tbl n w).1 = n ∧
    obs (rte_ring_enqueue_bulk r tbl n w).2
    = set_rings (<[r := RteRing (rg_cap rg) (rg_items rg ++ take (Z.to_nat n) tbl)]>
        (d_rings (obs w))) (obs w);
  ring_enqueue_bulk_full r rg tbl n w : d_rings (obs w) !! r = Some rg →
    0 ≤ n ≤ Z.of_nat (length tbl) →
    rg_cap rg < Z.of_nat (length (rg_items rg)) + n →
    (rte_ring_enqueue_bulk r tbl n w).1 = 0 ∧ obs (rte_ring_enqueue_bulk r tbl n w).2 = obs w;
  (* "Number of objects dequeued, or 0 if ring is empty": up to n objects,
     stored in the first entries of the table *)
  ring_dequeue_burst_ok r rg tbl n w : d_rings (obs w) !! r = Some rg →
    0 ≤ n ≤ Z.of_nat (length tbl) →
    let k := Nat.min (Z.to_nat n) (length (rg_items rg)) in
    (rte_ring_dequeue_burst r tbl n w).1
    = (Z.of_nat k, take k (rg_items rg) ++ drop k tbl) ∧
    obs (rte_ring_dequeue_burst r tbl n w).2
    = set_rings (<[r := RteRing (rg_cap rg) (drop k (rg_items rg))]> (d_rings (obs w))) (obs w);
  ring_free_ok r w : is_Some (d_rings (obs w) !! r) →
    obs (rte_ring_free r w)
    = set_ring_names (filter (λ kv, kv.2 ≠ r) (d_ring_names (obs w)))
        (set_rings (delete r (d_rings (obs w))) (obs w))
}.

(** The multi-process guide: "secondary processes, which cannot initialize
    shared memory, but can attach to pre-initialized shared memory". *)
Class EalLaws H `{Dpdk H} : Prop := {
  eal_init_secondary args w : "--proc-type=secondary" ∈ args →
    obs (rte_eal_init args w).2 = obs w
}.

(** A device after [rte_eth_dev_configure]: its queues must be set up anew. *)
Definition configured (nrx ntx : Z) (e : eth_port) : eth_port :=
  EthPort nrx ntx [] [] (ep_promisc e) (ep_started e) (ep_inflight e).
Definition add_rxq (q : Z) (e : eth_port) : eth_port :=
  EthPort (ep_nb_rx e) (ep_nb_tx e) (ep_rxq e ++ [q]) (ep_txq e) (ep_promisc e)
    (ep_started e) (ep_inflight e).
Definition add_txq (q : Z) (e : eth_port) : eth_port :=
  EthPort (ep_nb_rx e) (ep_nb_tx e) (ep_rxq e) (ep_txq e ++ [q]) (ep_promisc e)
    (ep_started e) (ep_inflight e).
Definition set_promisc (e : eth_port) : eth_port :=
  EthPort (ep_nb_rx e) (ep_nb_tx e) (ep_rxq e) (ep_txq e) true (ep_started e) (ep_inflight e).
Definition set_started (e : eth_port) : eth_port :=
  EthPort (ep_nb_rx e) (ep_nb_tx e) (ep_rxq e) (ep_txq e) (ep_promisc e) true (ep_inflight e).
Definition set_stopped (e : eth_port) : eth_port :=
  EthPort (ep_nb_rx e) (ep_nb_tx e) (ep_rxq e) (ep_txq e) (ep_promisc e) false (ep_inflight e).
Definition set_inflight (s : gmultiset ptr) (e : eth_port) : eth_port :=
  EthPort (ep_nb_rx e) (ep_nb_tx e) (ep_rxq e) (ep_txq e) (ep_promisc e) (ep_started e) s.

(** Updating one device. *)
Definition on_port (id : Z) (f : eth_port → eth_port) (o : dpdk) : dpdk :=
  set_ports (alter f id (d_ports o)) o.

(** [rte_ethdev.h]. *)
Class EthLaws H `{Dpdk H} : Prop := {
  eth_configure_ok id nrx ntx conf w w' :
    rte_eth_dev_configure id nrx ntx conf w = (0, w') →
    obs w' = on_port id (configured nrx ntx) (obs w);
  eth_configure_fail id nrx ntx conf w rc w' :
    rte_eth_dev_configure id nrx ntx conf w = (rc, w') → rc ≠ 0 → obs w' = obs w;
  (* "rx_queue_id: ... The value must be in the range [0, nb_rx_queue - 1]
     previously supplied to rte_eth_dev_configure()" *)
  eth_rx_queue_setup_range id q nd so c mp w w' e :
    d_ports (obs w) !! id = Some e →
    rte_eth_rx_queue_setup id q nd so c mp w = (0, w') →
    0 ≤ q < ep_nb_rx e ∧ obs w' = on_port id (add_rxq q) (obs w);
  eth_rx_queue_setup_fail id q nd so c mp w rc w' :
    rte_eth_rx_queue_setup id q nd so c mp w = (rc, w') → rc ≠ 0 → obs w' = obs w;
  eth_tx_queue_setup_range id q nd so c w w' e :
    d_ports (obs w) !! id = Some e →
    rte_eth_tx_queue_setup id q nd so c w = (0, w') →
    0 ≤ q < ep_nb_tx e ∧ obs w' = on_port id (add_txq q) (obs w);
  eth_tx_queue_setup_fail id q nd so c w rc w' :
    rte_eth_tx_queue_setup id q nd so c w = (rc, w') → rc ≠ 0 → obs w' = obs w;
  eth_promiscuous_ok id w rc w' : rte_eth_promiscuous_enable id w = (rc, w') →
    obs w' = if rc =? 0 then on_port id set_promisc (obs w) else obs w;
  eth_start_ok id w rc w' : rte_eth_dev_start id w = (rc, w') →
    obs w' = if rc =? 0 then on_port id set_started (obs w) else obs w;
  (* "0: Success; -ENODEV: if port_id is invalid" *)
  eth_dev_info_get_ok id i w : obs (rte_eth_dev_info_get id i w).2 = obs w ∧
    ((rte_eth_dev_info_get id i w).1.1 = 0 → is_Some (d_ports (obs w) !! id));
  (* "The number of packets actually retrieved", at most [n]; each packet is
     in an mbuf of the queue's mempool that the driver gives away *)
  eth_rx_burst_ok id q n w ps w' : rte_eth_rx_burst id q n w = (ps, w') →
    0 ≤ n → Z.of_nat (length ps) ≤ n ∧ NoDup ps ∧
    d_rings (obs w') = d_rings (obs w) ∧ d_ports (obs w') = d_ports (obs w) ∧
    d_ring_names (obs w') = d_ring_names (obs w) ∧
    (∀ p, p ∈ ps → p ≠ null ∧ (∃ b, d_mbufs (obs w') !! p = Some b ∧ mbuf_wf b) ∧
       ∀ mp s, d_pools (obs w') !! mp = Some s → p ∉ s);
  (* "The number of output packets actually stored in transmit descriptors":
     a prefix of the table, which the driver owns from then on; "transparently
     frees the memory buffers of packets previously sent" *)
  eth_tx_burst_ok id q tbl n w e : d_ports (obs w) !! id = Some e →
    0 ≤ n ≤ Z.of_nat (length tbl) →
    ∃ k sent, (rte_eth_tx_burst id q tbl n w).1 = Z.of_nat k ∧ Z.of_nat k ≤ n ∧
      list_to_set_disj sent ⊆ ep_inflight e ∧
      obs (rte_eth_tx_burst id q tbl n w).2
      = on_port id (set_inflight ((ep_inflight e ∖ list_to_set_disj sent)
          ⊎ list_to_set_disj (take k tbl))) (foldr put_one (obs w) sent);
  (* "Stop an Ethernet device"; "Close a stopped Ethernet device", which
     releases it if the driver does; both may free buffers of the driver *)
  eth_stop_ok id w e : d_ports (obs w) !! id = Some e →
    ∃ e', ep_started e' = false ∧
      d_ports (obs (rte_eth_dev_stop id w)) = <[id := e']> (d_ports (obs w));
  eth_close_ok id w e : d_ports (obs w) !! id = Some e → ep_started e = false →
    d_ports (obs (rte_eth_dev_close id w)) = delete id (d_ports (obs w)) ∨
    ∃ e', ep_started e' = false ∧
      d_ports (obs (rte_eth_dev_close id w)) = <[id := e']> (d_ports (obs w));
  (* "Macro to iterate over all valid ethdev ports" *)
  eth_find_next_ok id w : 0 ≤ id →
    let next := rte_eth_find_next id w in
    id ≤ next ∧ (∀ i, id ≤ i < next → i < RTE_MAX_ETHPORTS → d_ports (obs w) !! i = None) ∧
    (next < RTE_MAX_ETHPORTS → is_Some (d_ports (obs w) !! next))
}.

(** ** Lemmas on the observable state *)

Lemma add_to_pool_lookup mp x o q :
  d_pools (add_to_pool mp x o) !! q
  = if decide (mp = q) then (λ s, x ⊎ s) <$> d_pools o !! mp else d_pools o !! q.
Proof. unfold add_to_pool. simpl. apply lookup_alter. Qed.

Lemma add_to_pool_empty mp o : add_to_pool mp ∅ o = o.
Proof.
  unfold add_to_pool. rewrite alter_id; [by destruct o |].
  intros s _. multiset_solver.
Qed.

Lemma add_to_pool_add mp x y o :
  add_to_pool mp x (add_to_pool mp y o) = add_to_pool mp (x ⊎ y) o.
Proof.
  unfold add_to_pool, set_pools. simpl. f_equal. apply map_eq. intros q.
  rewrite !lookup_alter. case_decide; [| done].
  rewrite decide_True by done. destruct (d_pools o !! mp); simpl; [| done].
  f_equal. multiset_solver.
Qed.

Lemma put_one_frame p o :
  d_mbufs (put_one p o) = d_mbufs o ∧ d_rings (put_one p o) = d_rings o ∧
  d_ports (put_one p o) = d_ports o ∧ d_ring_names (put_one p o) = d_ring_names o ∧
  d_pool_names (put_one p o) = d_pool_names o.
Proof. unfold put_one. by destruct (d_mbufs o !! p). Qed.

(** ** Rust's side: calls and accesses through raw pointers *)

Section rust.
Context {H : Type}.

(** A method of [Mbuf] called on the buffer at [p]; a dangling pointer is
    undefined behaviour. *)
Definition with_mbuf {A} (p : ptr) (m : M rte_mbuf A) : M (world H) A := λ w,
  match d_mbufs (obs w) !! p with
  | None => Undefined
  | Some b =>
      match m b with
      | Done (a, b') =>
          Done (a, set_obs (set_mbufs (<[p := b']> (d_mbufs (obs w))) (obs w)) w)
      | Panicked => Panicked
      | Undefined => Undefined
      end
  end.

(** [from_raw_parts_mut(_pkt_raw_addr(p), n)]: [n] bytes from the start of the
    packet, which must lie in the buffer. *)
Definition pkt_slice (p : ptr) (n : Z) : M (world H) (list u8) := λ w,
  match d_mbufs (obs w) !! p with
  | None => Undefined
  | Some b =>
      if m_data_off b + n <=? Z.of_nat (length (m_buf b))
      then Done (take (Z.to_nat n) (drop (Z.to_nat (m_data_off b)) (m_buf b)), w)
      else Undefined
  end.

(** A C function without a result, and one that only reads. *)
Definition call_ (f : world H → world H) : M (world H) unit := λ w, Done (tt, f w).
Definition ask {A} (f : world H → A) : M (world H) A := λ w, Done (f w, w).
End rust.

Lemma bind_ask {H A B} (f : world H → A) (k : A → M (world H) B) w :
  (ask f ≫= k) w = k (f w) w.
Proof. done. Qed.

Lemma bind_call_ {H B} (f : world H → world H) (k : unit → M (world H) B) w :
  (call_ f ≫= k) w = k tt (f w).
Proof. done. Qed.

Lemma with_mbuf_done {H A} p (m : M rte_mbuf A) (w : world H) b a b' :
  d_mbufs (obs w) !! p = Some b → m b = Done (a, b') →
  with_mbuf p m w = Done (a, set_obs (set_mbufs (<[p := b']> (d_mbufs (obs w))) (obs w)) w).
Proof. intros E Em. unfold with_mbuf. by rewrite E, Em. Qed.

#[export] Hint Rewrite @bind_ask @bind_call_ : vdp.
