(* ===== verification/Sim.v ===== *)
(** * A concrete DPDK

    An executable instance of the interface of [Dpdk.v] that satisfies its
    laws.  The witnesses of the theorems run on it; nothing else uses it. *)

From S2P Require Import Prelude Errors Mbuf Dpdk.

(** The hardware: the packets that have arrived and the free transmit
    descriptors. *)
Record sim_hw := SimHw { sim_rx : list (ptr * rte_mbuf); sim_tx_room : nat }.

Abbreviation sim := (world sim_hw).

(** A buffer of 192 bytes, 128 of them headroom. *)
Definition sim_fresh (mp : ptr) : rte_mbuf :=
  RteMbuf 65536 192 128 0 0 mp (replicate 192 x00).

Definition sim_fail {A} (a : A) (code : Z) (w : sim) : A * sim :=
  (a, World (obs w) code (hw w)).

Definition sim_alloc (mp : ptr) (w : sim) : ptr * sim :=
  match d_pools (obs w) !! mp with
  | Some s =>
      match elements (s : gmultiset ptr) with
      | p :: _ =>
          if p =? 0 then sim_fail null 12 w
          else (p, set_obs (set_mbufs (<[p := sim_fresh mp]> (d_mbufs (obs w)))
                 (set_pools (<[mp := s ∖ {[+ p +]}]> (d_pools (obs w))) (obs w))) w)
      | [] => sim_fail null 12 w
      end
  | None => sim_fail null 12 w
  end.

Definition sim_alloc_bulk (mp : ptr) (n : Z) (w : sim) : (Z * list ptr) * sim :=
  match d_pools (obs w) !! mp with
  | Some s =>
      let tbl := take (Z.to_nat n) (elements (s : gmultiset ptr)) in
      if (Z.of_nat (length tbl) =? n) && forallb (λ p, negb (p =? 0)) tbl
      then ((0, tbl), set_obs (set_mbufs
             (list_to_map (zip tbl (replicate (length tbl) (sim_fresh mp))) ∪ d_mbufs (obs w))
             (set_pools (<[mp := s ∖ list_to_set_disj tbl]> (d_pools (obs w))) (obs w))) w)
      else sim_fail (-2, []) 2 w
  | None => sim_fail (-2, []) 2 w
  end.

Definition sim_create (args : mempool_args) (w : sim) : ptr * sim :=
  let p := 1 + Z.of_nat (size (d_pools (obs w))) in
  match d_pools (obs w) !! p, d_pool_names (obs w) !! mp_name args with
  | None, None =>
      let s := list_to_set_disj (seqZ (1000 * p) (Z.of_nat (Z.to_nat (mp_n args)))) in
      (p, set_obs (set_pool_names (<[mp_name args := p]> (d_pool_names (obs w)))
            (set_pools (<[p := s]> (d_pools (obs w))) (obs w))) w)
  | _, _ => sim_fail null 17 w
  end.

Definition sim_ring_create (name : string) (count socket flags : Z) (w : sim) : ptr * sim :=
  let r := 1 + Z.of_nat (size (d_rings (obs w))) in
  match d_rings (obs w) !! r, d_ring_names (obs w) !! name with
  | None, None =>
      (r, set_obs (set_ring_names (<[name := r]> (d_ring_names (obs w)))
            (set_rings (<[r := RteRing (count - 1) []]> (d_rings (obs w))) (obs w))) w)
  | _, _ => sim_fail null 17 w
  end.

Definition sim_set_ring (r : ptr) (rg : rte_ring) (w : sim) : sim :=
  set_obs (set_rings (<[r := rg]> (d_rings (obs w))) (obs w)) w.

Definition sim_enqueue_bulk (r : ptr) (tbl : list ptr) (n : Z) (w : sim) : Z * sim :=
  match d_rings (obs w) !! r with
  | Some rg =>
      if Z.of_nat (length (rg_items rg)) + n <=? rg_cap rg
      then (n, sim_set_ring r (RteRing (rg_cap rg) (rg_items rg ++ take (Z.to_nat n) tbl)) w)
      else (0, w)
  | None => (0, w)
  end.

Definition sim_enqueue (r p : ptr) (w : sim) : Z * sim :=
  match d_rings (obs w) !! r with
  | Some rg =>
      if Z.of_nat (length (rg_items rg)) <? rg_cap rg
      then (0, sim_set_ring r (RteRing (rg_cap rg) (rg_items rg ++ [p])) w)
      else (-105, w)
  | None => (-105, w)
  end.

Definition sim_dequeue (r slot : ptr) (w : sim) : (Z * ptr) * sim :=
  match d_rings (obs w) !! r with
  | Some (RteRing cap (p :: items)) => ((0, p), sim_set_ring r (RteRing cap items) w)
  | _ => ((-2, slot), w)
  end.

Definition sim_dequeue_burst (r : ptr) (tbl : list ptr) (n : Z) (w : sim)
    : (Z * list ptr) * sim :=
  match d_rings (obs w) !! r with
  | Some rg =>
      let k := Nat.min (Z.to_nat n) (length (rg_items rg)) in
      ((Z.of_nat k, take k (rg_items rg) ++ drop k tbl),
       sim_set_ring r (RteRing (rg_cap rg) (drop k (rg_items rg))) w)
  | None => ((0, tbl), w)
  end.

Definition sim_ring_free (r : ptr) (w : sim) : sim :=
  set_obs (set_ring_names (filter (λ kv, kv.2 ≠ r) (d_ring_names (obs w)))
    (set_rings (delete r (d_rings (obs w))) (obs w))) w.

(** An operation on a device that exists and passes the test [ok]. *)
Definition sim_port (id : Z) (ok : eth_port → bool) (f : eth_port → eth_port) (w : sim)
    : Z * sim :=
  match d_ports (obs w) !! id with
  | Some e => if ok e then (0, set_obs (on_port id f (obs w)) w) else sim_fail (-22) 22 w
  | None => sim_fail (-19) 19 w
  end.

#[export] Instance mbuf_wf_dec b : Decision (mbuf_wf b).
Proof.
  refine (cast_if (decide (Z.of_nat (length (m_buf b)) = m_buf_len b ∧ 0 ≤ m_data_off b ∧
    0 ≤ m_data_len b ∧ m_data_off b + m_data_len b ≤ m_buf_len b ∧ m_buf_len b < 2 ^ 16 ∧
    m_pkt_len b = m_data_len b))).
  - abstract (by destruct_and!; split).
  - abstract (intros [????]; naive_solver).
Defined.

Definition sim_rx_burst (id q n : Z) (w : sim) : list ptr * sim :=
  let now := take (Z.to_nat n) (sim_rx (hw w)) in
  let ps := now.*1 in
  if bool_decide (NoDup ps ∧ Forall (λ p, p ≠ null) ps ∧ Forall mbuf_wf now.*2 ∧
       map_Forall (λ _ s, Forall (λ p, p ∉ (s : gmultiset ptr)) ps) (d_pools (obs w)))
  then (ps, World (set_mbufs (list_to_map now ∪ d_mbufs (obs w)) (obs w)) (rte_errno w)
             (SimHw (drop (Z.to_nat n) (sim_rx (hw w))) (sim_tx_room (hw w))))
  else ([], w).

Definition sim_tx_burst (id q : Z) (tbl : list ptr) (n : Z) (w : sim) : Z * sim :=
  let k := Nat.min (Z.to_nat n) (sim_tx_room (hw w)) in
  (Z.of_nat k,
   World (match d_ports (obs w) !! id with
     | Some e => on_port id (set_inflight (ep_inflight e ⊎ list_to_set_disj (take k tbl))) (obs w)
     | None => obs w end) (rte_errno w) (SimHw (sim_rx (hw w)) (sim_tx_room (hw w) - k))).

(** The first of [n] devices from [id] on, or the number after them. *)
Fixpoint sim_find_next (n : nat) (id : Z) (w : sim) : Z :=
  match n with
  | O => id
  | S n => match d_ports (obs w) !! id with Some _ => id | None => sim_find_next n (id + 1) w end
  end.

#[export] Instance sim_dpdk : Dpdk sim_hw := {|
  sizeof_rte_mbuf := 128; sizeof_pool_private := 64;
  ETH_RSS_IP := 0x2; ETH_RSS_TCP := 0x4; ETH_RSS_UDP := 0x8; ETH_RSS_SCTP := 0x10;
  ETH_RSS_L2_PAYLOAD := 0x20; ETH_MQ_RX_RSS := 1; RTE_ETHER_MAX_LEN := 1518;
  DEV_RX_OFFLOAD_CHECKSUM := 0xe; DEV_TX_OFFLOAD_MBUF_FAST_FREE := 0x10000;
  rte_eal_init := λ _ w, (0, w);
  rte_eal_cleanup := λ w, (0, w);
  rte_socket_id := λ _, 0;
  rte_lcore_id := λ _, 0;
  rte_mempool_create := sim_create;
  rte_mempool_lookup := λ name w, (default null (d_pool_names (obs w) !! name), w);
  rte_mempool_free := λ mp w,
    set_obs (set_mbufs (filter (λ kv, m_pool kv.2 ≠ mp) (d_mbufs (obs w)))
      (set_pool_names (filter (λ kv, kv.2 ≠ mp) (d_pool_names (obs w)))
         (set_pools (delete mp (d_pools (obs w))) (obs w)))) w;
  rte_mempool_put_bulk := λ mp tbl n w,
    set_obs (add_to_pool mp (list_to_set_disj (take (Z.to_nat n) tbl)) (obs w)) w;
  rte_pktmbuf_alloc := sim_alloc;
  rte_pktmbuf_free := λ p w, set_obs (put_one p (obs w)) w;
  rte_pktmbuf_alloc_bulk := sim_alloc_bulk;
  rte_ring_create := sim_ring_create;
  rte_ring_lookup := λ name w, (default null (d_ring_names (obs w) !! name), w);
  rte_ring_free := sim_ring_free;
  rte_ring_enqueue := sim_enqueue;
  rte_ring_dequeue := sim_dequeue;
  rte_ring_enqueue_bulk := sim_enqueue_bulk;
  rte_ring_dequeue_burst := sim_dequeue_burst;
  rte_eth_dev_info_get := λ id i w,
    match d_ports (obs w) !! id with
    | Some _ => ((0, EthDevInfo 0x2e 0x10000 [] []), w)
    | None => sim_fail (-19, i) 19 w
    end;
  rte_eth_dev_configure := λ id nrx ntx _, sim_port id (λ _, true) (configured nrx ntx);
  rte_eth_dev_socket_id := λ _ _, 0;
  rte_eth_rx_queue_setup := λ id q _ _ _ _,
    sim_port id (λ e, (0 <=? q) && (q <? ep_nb_rx e)) (add_rxq q);
  rte_eth_tx_queue_setup := λ id q _ _ _,
    sim_port id (λ e, (0 <=? q) && (q <? ep_nb_tx e)) (add_txq q);
  rte_eth_promiscuous_enable := λ id, sim_port id (λ _, true) set_promisc;
  rte_eth_dev_start := λ id, sim_port id (λ _, true) set_started;
  rte_eth_rx_burst := sim_rx_burst;
  rte_eth_tx_burst := sim_tx_burst;
  rte_eth_dev_stop := λ id w, set_obs (on_port id set_stopped (obs w)) w;
  rte_eth_dev_close := λ id w, set_obs (set_ports (delete id (d_ports (obs w))) (obs w)) w;
  RTE_MAX_ETHPORTS := 32;
  rte_eth_find_next := λ id w, sim_find_next (Z.to_nat (32 - id)) id w
|}.

(** ** The laws hold *)

Lemma sim_fresh_ok mp : fresh_mbuf mp (sim_fresh mp).
Proof. split_and!; [| done | done]. by split; vm_compute. Qed.

#[export] Instance sim_eal_laws : EalLaws sim_hw.
Proof. by split. Defined.

#[export] Instance sim_mempool_laws : MempoolLaws sim_hw.
Proof.
  split; simpl.
  - intros mp w p w'. unfold sim_alloc, sim_fail.
    destruct (d_pools (obs w) !! mp) as [s|] eqn:Es; [| congruence].
    destruct (elements s) as [|x l] eqn:El; [congruence |].
    destruct (Z.eqb_spec x 0); [congruence |]. intros [= <- <-] _.
    exists s, (sim_fresh mp).
    split; [done | split; [| split; [apply sim_fresh_ok | done]]].
    apply gmultiset_elem_of_elements. rewrite El. left.
  - intros mp w w'. unfold sim_alloc, sim_fail.
    destruct (d_pools (obs w) !! mp) as [s|] eqn:Es; [| by intros [= <-]].
    destruct (elements s) as [|x l] eqn:El; [by intros [= <-] |].
    destruct (Z.eqb_spec x 0); [by intros [= <-] | congruence].
  - done.
  - intros mp n w tbl w'. unfold sim_alloc_bulk, sim_fail.
    destruct (d_pools (obs w) !! mp) as [s|] eqn:Es; [| congruence].
    destruct (Z.eqb_spec (Z.of_nat (length (take (Z.to_nat n) (elements s)))) n); [| simpl; by intros [=]].
    destruct (forallb _ _) eqn:Ef; simpl; [| by intros [=]]. intros [= <- <-].
    exists s, (replicate (length (take (Z.to_nat n) (elements s))) (sim_fresh mp)).
    rewrite length_replicate. split_and!; try done.
    + rewrite <- (list_to_set_disj_elements s) at 2.
      rewrite <- (take_drop (Z.to_nat n) (elements s)) at 2.
      rewrite list_to_set_disj_app. multiset_solver.
    + apply Forall_forall. intros p Hp. rewrite forallb_forall in Ef.
      apply list_elem_of_In in Hp. apply Ef in Hp. destruct (Z.eqb_spec p 0); done.
    + apply Forall_replicate, sim_fresh_ok.
  - intros mp n w rc tbl w'. unfold sim_alloc_bulk, sim_fail.
    repeat case_match; by intros [= <- <- <-].
  - intros mp tbl n w <-. by rewrite Nat2Z.id, take_ge by lia.
  - intros args w p w'. unfold sim_create, sim_fail.
    destruct (d_pools (obs w) !! (1 + Z.of_nat (size (d_pools (obs w))))) eqn:E1; [congruence |].
    destruct (d_pool_names (obs w) !! mp_name args) eqn:E2; [congruence |].
    intros [= <- <-] _. split_and!; try done. eexists. split; [| reflexivity].
    rewrite size_list_to_set_disj, length_seqZ. lia.
  - intros args w w'. unfold sim_create, sim_fail.
    repeat case_match; intros [=]; subst; solve [done | lia].
  - done.
  - done.
Qed.

#[export] Instance sim_ring_laws : RingLaws sim_hw.
Proof.
  split; simpl.
  - intros name count so fl w r w'. unfold sim_ring_create, sim_fail.
    destruct (d_rings (obs w) !! _) eqn:E1; [congruence |].
    destruct (d_ring_names (obs w) !! name) eqn:E2; [congruence |].
    by intros [= <- <-].
  - intros name count so fl w w'. unfold sim_ring_create, sim_fail.
    repeat case_match; intros [=]; subst; solve [done | lia].
  - done.
  - intros r rg p w E Hl. unfold sim_enqueue. rewrite E.
    destruct (Z.ltb_spec (Z.of_nat (length (rg_items rg))) (rg_cap rg)); [done | lia].
  - intros r rg p w E Hl. unfold sim_enqueue. rewrite E.
    destruct (Z.ltb_spec (Z.of_nat (length (rg_items rg))) (rg_cap rg)); [lia | done].
  - intros r cap p items slot w E. unfold sim_dequeue. by rewrite E.
  - intros r cap slot w E. unfold sim_dequeue. by rewrite E.
  - intros r rg tbl n w E Hn Hl. unfold sim_enqueue_bulk. rewrite E.
    destruct (Z.leb_spec (Z.of_nat (length (rg_items rg)) + n) (rg_cap rg)); [done | lia].
  - intros r rg tbl n w E Hn Hl. unfold sim_enqueue_bulk. rewrite E.
    destruct (Z.leb_spec (Z.of_nat (length (rg_items rg)) + n) (rg_cap rg)); [lia | done].
  - intros r rg tbl n w E Hn. unfold sim_dequeue_burst. by rewrite E.
  - done.
Qed.

Lemma sim_port_ok id ok f w w' :
  sim_port id ok f w = (0, w') →
  ∃ e, d_ports (obs w) !! id = Some e ∧ ok e = true ∧ obs w' = on_port id f (obs w).
Proof. unfold sim_port, sim_fail. repeat case_match; intros [= <-]; eauto. Qed.

Lemma sim_port_fail id ok f w rc w' :
  sim_port id ok f w = (rc, w') → rc ≠ 0 → obs w' = obs w.
Proof. unfold sim_port, sim_fail. by repeat case_match; intros [= <- <-]. Qed.

Lemma sim_port_code id ok f w rc w' :
  (∀ e, ok e = true) → sim_port id ok f w = (rc, w') →
  obs w' = if rc =? 0 then on_port id f (obs w) else obs w.
Proof.
  intros Hok. unfold sim_port, sim_fail. case_match; [rewrite Hok |]; by intros [= <- <-].
Qed.

Lemma sim_find_next_ok n id w :
  let next := sim_find_next n id w in
  id ≤ next ≤ id + Z.of_nat n ∧ (∀ i, id ≤ i < next → d_ports (obs w) !! i = None) ∧
  (next < id + Z.of_nat n → is_Some (d_ports (obs w) !! next)).
Proof.
  revert id. induction n as [|n IH]; intros id; cbn [sim_find_next].
  { split_and!; lia. }
  destruct (d_ports (obs w) !! id) as [e|] eqn:E; cbv zeta.
  { split_and!; [lia | lia | intros; lia | intros _; eauto]. }
  destruct (IH (id + 1)) as (H1 & H2 & H3). split; [lia |]. split; [| intros ?; apply H3; lia].
  intros i Hi. destruct (decide (i = id)) as [-> |]; [done | apply H2; lia].
Qed.

#[export] Instance sim_eth_laws : EthLaws sim_hw.
Proof.
  split; simpl.
  - intros id nrx ntx conf w w' (e & ? & ? & ?)%sim_port_ok. done.
  - intros. by eapply sim_port_fail.
  - intros id q nd so c mp w w' e E (e' & E' & Hok & ?)%sim_port_ok. simplify_eq. split; [lia | done].
  - intros. by eapply sim_port_fail.
  - intros id q nd so c w w' e E (e' & E' & Hok & ?)%sim_port_ok. simplify_eq. split; [lia | done].
  - intros. by eapply sim_port_fail.
  - intros. by eapply sim_port_code.
  - intros. by eapply sim_port_code.
  - intros id i w. case_match; simpl; [by eauto | done].
  - intros id q n w ps w'. unfold sim_rx_burst.
    case_bool_decide as Hd; intros [= <- <-] ?; simpl.
    2: { split_and!; try done. { constructor. } intros p []%elem_of_nil. }
    destruct Hd as (H1 & H2 & H3 & H4). split_and!; try done.
    { rewrite length_fmap, length_take. lia. }
    intros p Hp. rewrite Forall_forall in H2. split_and!; [by apply H2 | |].
    + apply list_elem_of_fmap in Hp as ([p' b] & -> & Hp). exists b. split.
      * rewrite lookup_union. rewrite (elem_of_list_to_map_1 _ p' b); [by rewrite union_Some_l | done | done].
      * rewrite Forall_forall in H3. apply H3. apply list_elem_of_fmap. by exists (p', b).
    + intros mp s Hs. specialize (H4 mp s Hs). rewrite Forall_forall in H4. by apply H4.
  - intros id q tbl n w e E Hn. unfold sim_tx_burst. rewrite E. simpl.
    eexists _, []. split_and!; [done | lia | simpl; multiset_solver |].
    simpl. do 3 f_equal. multiset_solver.
  - intros id w e E. exists (set_stopped e). split; [done |]. apply map_eq. intros i.
    rewrite lookup_alter. case_decide as Hd; [subst; by rewrite E, lookup_insert_eq |].
    by rewrite lookup_insert_ne.
  - intros id w e E _. by left.
  - intros id w Hid. destruct (sim_find_next_ok (Z.to_nat (32 - id)) id w) as (H1 & H2 & H3).
    split; [lia |]. split; [intros; by apply H2 |]. intros Hl. apply H3. lia.
Qed.

(** ** A sample state

    Pool 1 ("GLOBAL_MEMPOOL") has the free objects 1000, 1001 and 1002; the
    buffers 1500 and 1501 of pool 1 and 2500 of pool 2 are in use; rings 1 and
    2 are the two rings of the channel; device 0 exists and is not configured;
    packet 1600 has arrived, and there is one free transmit descriptor. *)
Definition sample_buf (mp : ptr) : rte_mbuf :=
  RteMbuf 65536 192 128 4 4 mp (replicate 128 x00 ++ [x01; x02; x03; x04] ++ replicate 60 x00).

Definition sample_obs : dpdk := MkDpdk
  (<[1500 := sample_buf 1]> (<[1501 := sample_buf 1]> (<[2500 := sample_buf 2]> ∅)))
  (<[1 := {[+ 1000; 1001; 1002 +]}]> (<[2 := {[+ 2000 +]}]> ∅))
  {["GLOBAL_MEMPOOL" := 1]}
  (<[1 := RteRing 511 []]> (<[2 := RteRing 511 [1500]]> ∅))
  (<["C2E" := 1]> {["E2C" := 2]})
  {[0 := EthPort 0 0 [] [] false false ∅]}.

Definition sample_world : sim := World sample_obs 0 (SimHw [(1600, sample_buf 1)] 1).
