(* ===== verification/Shim.v ===== *)
(** * The C side of the bindings ([dpdk-sys/src/shim.c])

    The functions of [shim.c] that are more than a call of one DPDK function:
    the headers of a packet, the detection and the answer of ARP requests, and
    [_pkt_stop_and_close_ports], with which the engines end.  A pointer into
    the packet [pkt] is an address; a load or store through it must lie in the
    memory of the buffer.  (The checksum is in [Checksum.v], addresses as text
    in [IpText.v].) *)

From S2P Require Import Prelude Errors Mbuf Dpdk Sim.

(** ** Wire formats

    Offsets of the fields of [rte_ether_hdr], [rte_ipv4_hdr] and [rte_arp_hdr],
    and values of RFC 894, 791 and 826. *)

Create HintDb wire.

Definition sizeof_ether_hdr : Z := 14.
Definition d_addr : Z := 0.
Definition s_addr : Z := 6.
Definition ether_type : Z := 12.

Definition sizeof_ipv4_hdr : Z := 20.
Definition version_ihl : Z := 0.
Definition next_proto_id : Z := 9.

Definition sizeof_arp_hdr : Z := 28.
Definition arp_hardware : Z := 0.
Definition arp_protocol : Z := 2.
Definition arp_hlen : Z := 4.
Definition arp_plen : Z := 5.
Definition arp_opcode : Z := 6.
Definition arp_sha : Z := 8.
Definition arp_sip : Z := 14.
Definition arp_tha : Z := 18.
Definition arp_tip : Z := 24.

#[export] Hint Unfold sizeof_ether_hdr d_addr s_addr ether_type sizeof_ipv4_hdr next_proto_id
  sizeof_arp_hdr arp_hardware arp_protocol arp_hlen arp_plen arp_opcode arp_sha arp_sip arp_tha
  arp_tip : wire.

Definition RTE_ETHER_TYPE_IPV4 : Z := 0x0800.
Definition RTE_ETHER_TYPE_ARP : Z := 0x0806.
Definition RTE_ARP_HRD_ETHER : Z := 1.
Definition RTE_ARP_OP_REQUEST : Z := 1.
Definition RTE_ARP_OP_REPLY : Z := 2.
Definition RTE_ETHER_ADDR_LEN : Z := 6.

Definition IP_PROTOCOL_ICMP : Z := 1.
Definition IP_PROTOCOL_TCP : Z := 6.
Definition IP_PROTOCOL_UDP : Z := 17.

(** Little-endian integers in memory; [rte_cpu_to_be_16] and
    [rte_be_to_cpu_32] swap. *)
Fixpoint le_value (l : list u8) : Z :=
  match l with [] => 0 | b :: l => u8_to_Z b + 256 * le_value l end.
Definition le16 (z : Z) : list u8 := [u8_of_Z z; u8_of_Z (z / 256)].
Definition be_value (l : list u8) : Z := le_value (rev l).
Definition rte_cpu_to_be_16 (z : Z) : Z := u16_to_be z.

(** How a program ends: the C function [exit], or a return from [main]. *)
Inductive ending := Exited (code : Z) | Returned.

Module Shim.
Section shim.
Context {H : Type} {DP : Dpdk H}.

(** ** Accesses *)

(** [rte_pktmbuf_mtod]: the address of the start of the data. *)
Definition rte_pktmbuf_mtod (pkt : ptr) : M (world H) ptr := λ w,
  match d_mbufs (obs w) !! pkt with
  | Some b => Done (m_buf_addr b + m_data_off b, w)
  | None => Undefined
  end.

(** [n] bytes at address [a] of the buffer of [pkt]. *)
Definition load (pkt a n : Z) : M (world H) (list u8) := λ w,
  match d_mbufs (obs w) !! pkt with
  | Some b =>
      if in_buf b a n
      then Done (take (Z.to_nat n) (drop (Z.to_nat (a - m_buf_addr b)) (m_buf b)), w)
      else Undefined
  | None => Undefined
  end.
Definition load_u8 (pkt a : Z) : M (world H) Z := l ← load pkt a 1; mret (le_value l).
Definition load_u16 (pkt a : Z) : M (world H) Z := l ← load pkt a 2; mret (le_value l).
Definition store (pkt a : Z) (bytes : list u8) : M (world H) unit := with_mbuf pkt (store_bytes bytes a).

(** [rte_ether_addr_copy] between two packets. *)
Definition rte_ether_addr_copy (pkt from out to : Z) : M (world H) unit :=
  l ← load pkt from RTE_ETHER_ADDR_LEN; store out to l.

(** ** Headers *)

Definition _pkt_ether_hdr (pkt : ptr) : M (world H) ptr :=
  if pkt =? null then mret null else rte_pktmbuf_mtod pkt.

(** The type is compared as it is in memory. *)
Definition _pkt_ipv4_hdr (pkt : ptr) : M (world H) ptr :=
  eth_hdr ← _pkt_ether_hdr pkt;
  let ipv4 := eth_hdr + sizeof_ether_hdr in
  if ipv4 =? null then mret null else
  t ← load_u16 pkt (eth_hdr + ether_type);
  if t =? 8 then mret ipv4 else mret null.

(** The common body of [_pkt_tcp_hdr], [_pkt_udp_hdr] and [_pkt_icmp_hdr]. *)
Definition transport_hdr (protocol : Z) (pkt : ptr) : M (world H) ptr :=
  ipv4 ← _pkt_ipv4_hdr pkt;
  if ipv4 =? null then mret null else
  p ← load_u8 pkt (ipv4 + next_proto_id);
  if negb (p =? protocol) then mret null else
  pkt_data ← rte_pktmbuf_mtod pkt;
  mret (pkt_data + sizeof_ether_hdr + sizeof_ipv4_hdr).

Definition _pkt_tcp_hdr : ptr → M (world H) ptr := transport_hdr IP_PROTOCOL_TCP.
Definition _pkt_udp_hdr : ptr → M (world H) ptr := transport_hdr IP_PROTOCOL_UDP.
Definition _pkt_icmp_hdr : ptr → M (world H) ptr := transport_hdr IP_PROTOCOL_ICMP.

Definition _pkt_arp_hdr (pkt : ptr) : M (world H) ptr :=
  p ← rte_pktmbuf_mtod pkt; mret (p + sizeof_ether_hdr).

Definition _pkt_raw_addr (pkt : ptr) : M (world H) ptr := rte_pktmbuf_mtod pkt.

(** ** ARP *)

Definition _pkt_detect_arp (pkt : ptr) (local_ip : Z) : M (world H) Z :=
  ether_hdr ← _pkt_ether_hdr pkt;
  t ← load_u16 pkt (ether_hdr + ether_type);
  if rte_cpu_to_be_16 t =? RTE_ETHER_TYPE_ARP then
    arp_hdr ← _pkt_arp_hdr pkt;
    op ← load_u16 pkt (arp_hdr + arp_opcode);
    if rte_cpu_to_be_16 op =? RTE_ARP_OP_REQUEST then
      tip ← load pkt (arp_hdr + arp_tip) 4;
      if be_value tip =? local_ip then mret 1 else mret 0
    else mret 0
  else mret 0.

(** The part of [_pkt_arp_response] that writes the two headers of the answer. *)
Definition fill_reply (pkt frm tha : ptr) (sip tip : list u8) (out_pkt : ptr) : M (world H) unit :=
  eth_hdr ← _pkt_ether_hdr out_pkt;
  rte_ether_addr_copy pkt frm out_pkt (eth_hdr + s_addr) ;;
  store out_pkt (eth_hdr + ether_type) (le16 (rte_cpu_to_be_16 RTE_ETHER_TYPE_ARP)) ;;
  rte_ether_addr_copy pkt tha out_pkt (eth_hdr + d_addr) ;;
  out_arp_hdr ← _pkt_arp_hdr out_pkt;
  store out_pkt (out_arp_hdr + arp_hardware) (le16 (rte_cpu_to_be_16 RTE_ARP_HRD_ETHER)) ;;
  store out_pkt (out_arp_hdr + arp_protocol) (le16 (rte_cpu_to_be_16 RTE_ETHER_TYPE_IPV4)) ;;
  store out_pkt (out_arp_hdr + arp_hlen) [u8_of_Z RTE_ETHER_ADDR_LEN] ;;
  store out_pkt (out_arp_hdr + arp_plen) [u8_of_Z 4] ;;
  store out_pkt (out_arp_hdr + arp_opcode) (le16 (rte_cpu_to_be_16 RTE_ARP_OP_REPLY)) ;;
  rte_ether_addr_copy pkt frm out_pkt (out_arp_hdr + arp_sha) ;;
  store out_pkt (out_arp_hdr + arp_sip) sip ;;
  rte_ether_addr_copy pkt tha out_pkt (out_arp_hdr + arp_tha) ;;
  store out_pkt (out_arp_hdr + arp_tip) tip.

Definition _pkt_arp_response (pkt mp : ptr) : M (world H) ptr :=
  ether_hdr ← _pkt_ether_hdr pkt;
  t ← load_u16 pkt (ether_hdr + ether_type);
  if negb (rte_cpu_to_be_16 t =? RTE_ETHER_TYPE_ARP) then mret null else
  arp_hdr ← _pkt_arp_hdr pkt;
  op ← load_u16 pkt (arp_hdr + arp_opcode);
  if negb (rte_cpu_to_be_16 op =? RTE_ARP_OP_REQUEST) then mret null else
  let tha := ether_hdr + d_addr in
  let frm := ether_hdr + s_addr in
  arp_hdr ← _pkt_arp_hdr pkt;
  tip ← load pkt (arp_hdr + arp_sip) 4;
  sip ← load pkt (arp_hdr + arp_tip) 4;
  out_pkt ← call (rte_pktmbuf_alloc mp);
  if out_pkt =? null then mret null else
  let pkt_size := sizeof_ether_hdr + sizeof_arp_hdr in
  with_mbuf out_pkt (modify (set_data_len (as_uint 16 pkt_size)) ;;
                     modify (set_pkt_len (as_uint 32 pkt_size))) ;;
  fill_reply pkt frm tha sip tip out_pkt ;;
  mret out_pkt.

(** ** The end of an engine *)

(** The loop of [RTE_ETH_FOREACH_DEV] with [port_id] as its variable; the end
    of the fuel, which [close_from_run] excludes, is no result of the C code. *)
Fixpoint close_from (fuel : nat) (port_id : Z) : M (world H) unit :=
  match fuel with
  | O => undefined
  | S fuel =>
      if port_id <? RTE_MAX_ETHPORTS then
        call_ (rte_eth_dev_stop port_id) ;;
        call_ (rte_eth_dev_close port_id) ;;
        next ← ask (rte_eth_find_next (port_id + 1));
        close_from fuel next
      else mret tt
  end.

Definition _pkt_stop_and_close_ports : M (world H) ending :=
  first ← ask (rte_eth_find_next 0);
  close_from (S (Z.to_nat RTE_MAX_ETHPORTS)) first ;;
  mret (Exited 0).
End shim.
End Shim.

(** ** The fields of a frame *)

(** An Ethernet frame with an ARP packet, a list of bytes for each field. *)
Record arp_frame := ArpFrame {
  fr_dst : list u8; fr_src : list u8; fr_type : list u8;
  fr_hrd : list u8; fr_pro : list u8; fr_hln : list u8; fr_pln : list u8; fr_op : list u8;
  fr_sha : list u8; fr_spa : list u8; fr_tha : list u8; fr_tpa : list u8 }.

Definition fields (f : arp_frame) : list (list u8) :=
  [fr_dst f; fr_src f; fr_type f; fr_hrd f; fr_pro f; fr_hln f; fr_pln f; fr_op f;
   fr_sha f; fr_spa f; fr_tha f; fr_tpa f].
Definition arp_layout : list nat := [6; 6; 2; 2; 2; 1; 1; 2; 6; 4; 6; 4]%nat.

(** A buffer whose packet starts with the fields [fs]. *)
Definition starts_with (b : rte_mbuf) (fs : list (list u8)) : Prop :=
  ∃ h t, m_buf b = h ++ concat fs ++ t ∧ Z.of_nat (length h) = m_data_off b.

(** The position of field [i]. *)
Definition position (fs : list (list u8)) (i : nat) : Z :=
  Z.of_nat (length (concat (take i fs))).

(** The reply that RFC 826 asks of the host with the address [mac]. *)
Definition rfc826_reply (mac : list u8) (f : arp_frame) : arp_frame :=
  ArpFrame (fr_sha f) mac [x08; x06] [x00; x01] [x08; x00] [x06] [x04] [x00; x02]
    mac (fr_tpa f) (fr_sha f) (fr_spa f).

(** The reply of [_pkt_arp_response]. *)
Definition shim_reply (f : arp_frame) : arp_frame :=
  ArpFrame (fr_dst f) (fr_src f) [x08; x06] [x00; x01] [x08; x00] [x06] [x04] [x00; x02]
    (fr_src f) (fr_tpa f) (fr_dst f) (fr_spa f).

Definition arp_request (f : arp_frame) : bool :=
  bool_decide (fr_type f = [x08; x06]) && bool_decide (fr_op f = [x00; x01]).

(** ** Lemmas *)

Lemma field_split (fs : list (list u8)) i x : fs !! i = Some x →
  concat fs = concat (take i fs) ++ x ++ concat (drop (S i) fs).
Proof.
  intros E. rewrite <- (take_drop_middle fs i x E) at 1. by rewrite concat_app.
Qed.

Lemma field_update (fs : list (list u8)) i x y : fs !! i = Some x →
  concat (<[i := y]> fs) = concat (take i fs) ++ y ++ concat (drop (S i) fs).
Proof.
  intros E. assert (i < length fs)%nat by (by eapply lookup_lt_Some).
  rewrite (field_split (<[i := y]> fs) i y) by (by apply list_lookup_insert_eq).
  by rewrite take_insert_ge, drop_insert_lt by lia.
Qed.

(** A list of bytes can be cut into fields of given lengths. *)
Lemma cut_fields (ls : list nat) (l : list u8) : length l = sum_list ls →
  ∃ fs, l = concat fs ∧ length <$> fs = ls.
Proof.
  revert l. induction ls as [|n ls IH]; intros l Hl; simpl in Hl.
  { exists []. by destruct l. }
  destruct (IH (drop n l)) as (fs & E & L); [rewrite length_drop; lia |].
  exists (take n l :: fs). split; [simpl; by rewrite <- E, take_drop |].
  rewrite fmap_cons, L, length_take. f_equal. lia.
Qed.

Lemma be_field_iff a b a' b' :
  rte_cpu_to_be_16 (le_value [a; b]) = u8_to_Z a' * 256 + u8_to_Z b' ↔ [a; b] = [a'; b'].
Proof.
  unfold rte_cpu_to_be_16. simpl le_value. rewrite Z.mul_0_r, Z.add_0_r, u16_to_be_load.
  pose proof (u8_range a). pose proof (u8_range b). pose proof (u8_range a'). pose proof (u8_range b').
  split; [| by intros [= -> ->]].
  intros E. rewrite (u8_to_Z_inj a a'), (u8_to_Z_inj b b') by lia. done.
Qed.

(** A field of two bytes. *)
Lemma be_field_test (l : list u8) z a b : length l = 2%nat → z = u8_to_Z a * 256 + u8_to_Z b →
  (rte_cpu_to_be_16 (le_value l) =? z) = bool_decide (l = [a; b]).
Proof.
  intros Hl ->. destruct l as [|x [|y [|]]]; try done. apply eq_true_iff_eq.
  by rewrite Z.eqb_eq, bool_decide_eq_true, be_field_iff.
Qed.

Section lemmas.
Context {H : Type} {DP : Dpdk H}.
Implicit Types w : world H.

(** The state with another buffer at [p]. *)
Definition upd (p : ptr) (b : rte_mbuf) w : world H :=
  set_obs (set_mbufs (<[p := b]> (d_mbufs (obs w))) (obs w)) w.

Lemma upd_lookup p b w : d_mbufs (obs (upd p b w)) !! p = Some b.
Proof. apply lookup_insert_eq. Qed.
Lemma upd_lookup_ne p q b w : p ≠ q → d_mbufs (obs (upd p b w)) !! q = d_mbufs (obs w) !! q.
Proof. intros. by apply lookup_insert_ne. Qed.
Lemma upd_upd p b b' w : upd p b' (upd p b w) = upd p b' w.
Proof. unfold upd, set_obs, set_mbufs. simpl. by rewrite insert_insert_eq. Qed.

Lemma mtod_run pkt b w : d_mbufs (obs w) !! pkt = Some b →
  Shim.rte_pktmbuf_mtod pkt w = Done (m_buf_addr b + m_data_off b, w).
Proof. intros E. unfold Shim.rte_pktmbuf_mtod. by rewrite E. Qed.

Lemma ether_hdr_run pkt b w : pkt ≠ null → d_mbufs (obs w) !! pkt = Some b →
  Shim._pkt_ether_hdr pkt w = Done (m_buf_addr b + m_data_off b, w).
Proof.
  intros Hp E. unfold Shim._pkt_ether_hdr. rewrite (proj2 (Z.eqb_neq _ _) Hp). by apply mtod_run.
Qed.

Lemma arp_hdr_run pkt b w : d_mbufs (obs w) !! pkt = Some b →
  Shim._pkt_arp_hdr pkt w = Done (m_buf_addr b + m_data_off b + sizeof_ether_hdr, w).
Proof. intros E. unfold Shim._pkt_arp_hdr. by rewrite (bind_done _ _ _ _ _ (mtod_run _ _ _ E)). Qed.

(** Loads and stores of whole fields. *)
Lemma load_field pkt b fs i x a n w :
  d_mbufs (obs w) !! pkt = Some b → starts_with b fs → fs !! i = Some x →
  a = m_buf_addr b + m_data_off b + position fs i → n = Z.of_nat (length x) →
  Shim.load pkt a n w = Done (x, w).
Proof.
  intros E (h & t & Eb & Eh) Ei -> ->. unfold Shim.load. rewrite E. unfold position.
  assert (L : m_buf b = (h ++ concat (take i fs)) ++ x ++ (concat (drop (S i) fs) ++ t)).
  { rewrite Eb, (field_split fs i x Ei). by rewrite <- !app_assoc. }
  replace (in_buf _ _ _) with true.
  2: { symmetry. unfold in_buf. apply andb_true_intro. split; apply Z.leb_le; [lia |]. rewrite L. len. }
  replace (Z.to_nat _) with (length x) by lia.
  replace (Z.to_nat (_ - m_buf_addr b)) with (length (h ++ concat (take i fs))) by len.
  by rewrite L, drop_app_length, take_app_length.
Qed.

Lemma store_field out b h t fs i x y a w :
  m_buf b = h ++ concat fs ++ t → Z.of_nat (length h) = m_data_off b → fs !! i = Some x →
  a = m_buf_addr b + m_data_off b + position fs i → length y = length x →
  Shim.store out a y (upd out b w)
  = Done (tt, upd out (set_buf (h ++ concat (<[i := y]> fs) ++ t) b) w).
Proof.
  intros Eb Eh Ei -> Ly. unfold Shim.store, with_mbuf. rewrite upd_lookup. unfold position.
  assert (L : m_buf b = (h ++ concat (take i fs)) ++ x ++ (concat (drop (S i) fs) ++ t)).
  { rewrite Eb, (field_split fs i x Ei). by rewrite <- !app_assoc. }
  unfold store_bytes. rewrite bind_get. replace (in_buf _ _ _) with true.
  2: { symmetry. unfold in_buf. apply andb_true_intro. split; apply Z.leb_le; [lia |]. rewrite L. len. }
  cbv [put]. replace (Z.to_nat _) with (length (h ++ concat (take i fs))) by len.
  rewrite L, splice_split by done. rewrite (field_update fs i x y Ei), <- !app_assoc.
  do 2 f_equal. apply upd_upd.
Qed.

Lemma copy_field pkt b fs i x from out bo h t fo j y to w :
  pkt ≠ out → d_mbufs (obs w) !! pkt = Some b → starts_with b fs → fs !! i = Some x →
  from = m_buf_addr b + m_data_off b + position fs i → length x = 6%nat →
  m_buf bo = h ++ concat fo ++ t → Z.of_nat (length h) = m_data_off bo → fo !! j = Some y →
  to = m_buf_addr bo + m_data_off bo + position fo j → length y = 6%nat →
  Shim.rte_ether_addr_copy pkt from out to (upd out bo w)
  = Done (tt, upd out (set_buf (h ++ concat (<[j := x]> fo) ++ t) bo) w).
Proof.
  intros Hne E S Ei Ef Lx Eb Eh Ej Et Ly. unfold Shim.rte_ether_addr_copy.
  erewrite bind_done.
  2: { eapply (load_field pkt b fs i x); try done; [by rewrite upd_lookup_ne | by rewrite Lx]. }
  eapply store_field; try done. by rewrite Lx, Ly.
Qed.

(** Positions in a frame of the layout. *)
Lemma position_layout fs i : length <$> fs = arp_layout →
  position fs i = Z.of_nat (sum_list (take i arp_layout)).
Proof.
  intros <-. unfold position. f_equal. rewrite <- fmap_take. generalize (take i fs). clear.
  intros fs. induction fs as [|x fs IH]; [done |]. rewrite fmap_cons. simpl. by rewrite length_app, IH.
Qed.
End lemmas.

(** Closes the address of a field: the offset of the structure is the position. *)
Ltac field_addr := rewrite position_layout by done; autounfold with wire; simpl; lia.

Section arp.
Context {H : Type} {DP : Dpdk H}.
Implicit Types w : world H.
Variables (pkt : ptr) (b : rte_mbuf) (f : arp_frame).
Hypothesis Hpkt : pkt ≠ null.
Hypothesis Hf : length <$> fields f = arp_layout.
Hypothesis Hb : starts_with b (fields f).

Lemma field_length i x n : fields f !! i = Some x → arp_layout !! i = Some n → length x = n.
Proof. intros E. rewrite <- Hf, list_lookup_fmap, E. by intros [= <-]. Qed.

(** Reading field [i] at an offset of the packet. *)
Lemma read_field i x n off w :
  d_mbufs (obs w) !! pkt = Some b → fields f !! i = Some x → arp_layout !! i = Some n →
  off = Z.of_nat (sum_list (take i arp_layout)) →
  Shim.load pkt (m_buf_addr b + m_data_off b + off) (Z.of_nat n) w = Done (x, w).
Proof.
  intros E Ei En ->. eapply load_field; try done; [by rewrite position_layout |].
  by rewrite (field_length i x n).
Qed.

Lemma read_type w : d_mbufs (obs w) !! pkt = Some b →
  Shim.load_u16 pkt (m_buf_addr b + m_data_off b + ether_type) w = Done (le_value (fr_type f), w).
Proof.
  intros E. unfold Shim.load_u16.
  by rewrite (bind_done _ _ _ _ _ (read_field 2 _ 2 ether_type w E eq_refl eq_refl eq_refl)).
Qed.

Lemma read_arp i x n off w :
  d_mbufs (obs w) !! pkt = Some b → fields f !! i = Some x → arp_layout !! i = Some n →
  sizeof_ether_hdr + off = Z.of_nat (sum_list (take i arp_layout)) →
  Shim.load pkt (m_buf_addr b + m_data_off b + sizeof_ether_hdr + off) (Z.of_nat n) w = Done (x, w).
Proof. intros E Ei En Eo. rewrite <- Z.add_assoc. by apply (read_field i). Qed.

Lemma read_op w : d_mbufs (obs w) !! pkt = Some b →
  Shim.load_u16 pkt (m_buf_addr b + m_data_off b + sizeof_ether_hdr + arp_opcode) w
  = Done (le_value (fr_op f), w).
Proof.
  intros E. unfold Shim.load_u16.
  by rewrite (bind_done _ _ _ _ _ (read_arp 7 _ 2 arp_opcode w E eq_refl eq_refl eq_refl)).
Qed.

Lemma test_type : (rte_cpu_to_be_16 (le_value (fr_type f)) =? RTE_ETHER_TYPE_ARP)
  = bool_decide (fr_type f = [x08; x06]).
Proof. apply be_field_test; [by apply (field_length 2) | done]. Qed.

Lemma test_op : (rte_cpu_to_be_16 (le_value (fr_op f)) =? RTE_ARP_OP_REQUEST)
  = bool_decide (fr_op f = [x00; x01]).
Proof. apply be_field_test; [by apply (field_length 7) | done]. Qed.

Lemma detect_run ip w : d_mbufs (obs w) !! pkt = Some b →
  Shim._pkt_detect_arp pkt ip w
  = Done (if arp_request f && (be_value (fr_tpa f) =? ip) then 1 else 0, w).
Proof.
  intros E. unfold Shim._pkt_detect_arp, arp_request.
  rewrite (bind_done _ _ _ _ _ (ether_hdr_run _ _ _ Hpkt E)), (bind_done _ _ _ _ _ (read_type w E)).
  rewrite test_type. case_bool_decide; [| done].
  rewrite (bind_done _ _ _ _ _ (arp_hdr_run _ _ _ E)), (bind_done _ _ _ _ _ (read_op w E)).
  rewrite test_op. case_bool_decide; [| done].
  rewrite (bind_done _ _ _ _ _ (read_arp 11 _ 4 arp_tip w E eq_refl eq_refl eq_refl)).
  simpl. by destruct (be_value _ =? ip).
Qed.

(** ** Writing the answer

    The new buffer [bo] with the packet cut into the fields [fo]. *)

Variables (out : ptr) (bo : rte_mbuf) (h t : list u8).
Hypothesis Hout : out ≠ null.
Hypothesis Hne : pkt ≠ out.
Hypothesis Hh : Z.of_nat (length h) = m_data_off bo.

Definition filled (fo : list (list u8)) w : world H :=
  upd out (set_buf (h ++ concat fo ++ t) bo) w.

Lemma filled_lookup fo w :
  d_mbufs (obs (filled fo w)) !! out = Some (set_buf (h ++ concat fo ++ t) bo).
Proof. apply upd_lookup. Qed.

Lemma put_layout (fo : list (list u8)) i y : length <$> fo = arp_layout →
  arp_layout !! i = Some (length y) → length <$> <[i := y]> fo = arp_layout.
Proof. intros <- E. rewrite list_fmap_insert. by apply list_insert_id. Qed.

Lemma put_run fo i y off w : length <$> fo = arp_layout → arp_layout !! i = Some (length y) →
  off = Z.of_nat (sum_list (take i arp_layout)) →
  Shim.store out (m_buf_addr bo + m_data_off bo + off) y (filled fo w)
  = Done (tt, filled (<[i := y]> fo) w).
Proof.
  intros L Ey ->. rewrite <- L, list_lookup_fmap in Ey. destruct (fo !! i) as [x|] eqn:Ei; [| done].
  injection Ey as Ey. unfold filled.
  rewrite (store_field out (set_buf (h ++ concat fo ++ t) bo) h t fo i x); try done.
  simpl. by rewrite position_layout.
Qed.

Lemma put_copy fo i j x off1 off2 w : d_mbufs (obs w) !! pkt = Some b →
  length <$> fo = arp_layout → fields f !! i = Some x → arp_layout !! i = Some 6%nat →
  arp_layout !! j = Some 6%nat →
  off1 = Z.of_nat (sum_list (take i arp_layout)) → off2 = Z.of_nat (sum_list (take j arp_layout)) →
  Shim.rte_ether_addr_copy pkt (m_buf_addr b + m_data_off b + off1) out
    (m_buf_addr bo + m_data_off bo + off2) (filled fo w)
  = Done (tt, filled (<[j := x]> fo) w).
Proof.
  intros E L Ei Li Lj E1 E2. unfold Shim.rte_ether_addr_copy.
  rewrite (bind_done _ _ (filled fo w) x (filled fo w)).
  2: { apply (read_field i x 6 off1); try done. unfold filled. by rewrite upd_lookup_ne. }
  apply put_run; [done | | done]. by rewrite (field_length i x 6 Ei Li).
Qed.

Ltac layout :=
  repeat apply put_layout; try done;
  repeat match goal with L : length _ = _ |- _ => rewrite L end; done.

Lemma fill_run fo w : d_mbufs (obs w) !! pkt = Some b → length <$> fo = arp_layout →
  Shim.fill_reply pkt (m_buf_addr b + m_data_off b + s_addr) (m_buf_addr b + m_data_off b + d_addr)
    (fr_tpa f) (fr_spa f) out (filled fo w)
  = Done (tt, filled (fields (shim_reply f)) w).
Proof.
  intros E L. unfold Shim.fill_reply.
  pose proof (field_length 0 _ 6 eq_refl eq_refl) as L1.
  pose proof (field_length 1 _ 6 eq_refl eq_refl) as L2.
  pose proof (field_length 9 _ 4 eq_refl eq_refl) as L3.
  pose proof (field_length 11 _ 4 eq_refl eq_refl) as L4.
  rewrite (bind_done _ _ _ _ _ (ether_hdr_run _ _ _ Hout (filled_lookup fo w))).
  cbn [m_buf_addr m_data_off set_buf].
  erewrite bind_done by (eapply (put_copy fo 1 1 _ s_addr s_addr); done).
  erewrite bind_done by (eapply (put_run _ 2); layout).
  erewrite bind_done by (eapply (put_copy _ 0 0 _ d_addr d_addr); layout).
  rewrite (bind_done _ _ _ _ _ (arp_hdr_run _ _ _ (filled_lookup _ w))).
  cbn [m_buf_addr m_data_off set_buf]. rewrite <- !Z.add_assoc, !(Z.add_assoc (m_buf_addr bo)), !(Z.add_assoc (m_buf_addr b)).
  erewrite bind_done by (eapply (put_run _ 3); layout).
  erewrite bind_done by (eapply (put_run _ 4); layout).
  erewrite bind_done by (eapply (put_run _ 5); layout).
  erewrite bind_done by (eapply (put_run _ 6); layout).
  erewrite bind_done by (eapply (put_run _ 7); layout).
  erewrite bind_done by (eapply (put_copy _ 1 8 _ s_addr (sizeof_ether_hdr + arp_sha)); layout).
  erewrite bind_done by (eapply (put_run _ 9); layout).
  erewrite bind_done by (eapply (put_copy _ 0 10 _ d_addr (sizeof_ether_hdr + arp_tha)); layout).
  erewrite (put_run _ 11) by layout.
  do 12 (destruct fo as [|? fo]; [discriminate L |]). destruct fo; [| discriminate L]. done.
Qed.
End arp.

(** ** Lemmas on headers and devices *)

Definition ip_layout : list nat := [12; 2; 1; 8; 1; 10]%nat.

Lemma type_test (l : list u8) : length l = 2%nat → (le_value l =? 8) = bool_decide (l = [x08; x00]).
Proof.
  intros Hl. destruct l as [|a [|b [|]]]; try done. apply eq_true_iff_eq.
  rewrite Z.eqb_eq, bool_decide_eq_true. simpl. pose proof (u8_range a). pose proof (u8_range b).
  split; [| by intros [= -> ->]]. intros E.
  rewrite (u8_to_Z_inj a x08), (u8_to_Z_inj b x00); [done | |]; simpl; change (u8_to_Z x08) with 8;
    change (u8_to_Z x00) with 0; lia.
Qed.

Section devices.
Context {H : Type} {DP : Dpdk H} {EL : EthLaws H}.
Implicit Types w : world H.

(** The devices below [id] are stopped. *)
Definition stopped_below (id : Z) (o : dpdk) : Prop :=
  ∀ i e, 0 ≤ i < id → i < RTE_MAX_ETHPORTS → d_ports o !! i = Some e → ep_started e = false.

Lemma close_one id w e : d_ports (obs w) !! id = Some e → stopped_below id (obs w) →
  stopped_below (id + 1) (obs (rte_eth_dev_close id (rte_eth_dev_stop id w))).
Proof.
  intros E St. destruct (eth_stop_ok id w e E) as (e1 & S1 & E1).
  set (w1 := rte_eth_dev_stop id w) in *.
  assert (L1 : d_ports (obs w1) !! id = Some e1) by (rewrite E1; apply lookup_insert_eq).
  assert (St1 : stopped_below (id + 1) (obs w1)).
  { intros i x Hi Hm. rewrite E1. destruct (decide (i = id)) as [-> |].
    - rewrite lookup_insert_eq. by intros [= <-].
    - rewrite lookup_insert_ne by done. apply St; [lia | done]. }
  intros i x Hi Hm. destruct (eth_close_ok id w1 e1 L1 S1) as [-> | (e2 & S2 & ->)].
  - intros [_ Hx]%lookup_delete_Some. by eapply St1.
  - intros [[_ <-] | [_ Hx]]%lookup_insert_Some; [done | by eapply St1].
Qed.

Lemma close_from_run fuel id w : 0 ≤ id → RTE_MAX_ETHPORTS - id < Z.of_nat fuel → (0 < fuel)%nat →
  (id < RTE_MAX_ETHPORTS → is_Some (d_ports (obs w) !! id)) → stopped_below id (obs w) →
  ∃ w', Shim.close_from fuel id w = Done (tt, w') ∧ stopped_below RTE_MAX_ETHPORTS (obs w').
Proof.
  revert id w. induction fuel as [|fuel IH]; intros id w Hid Hf H0 Hd St; simpl.
  { lia. }
  destruct (Z.ltb_spec id RTE_MAX_ETHPORTS) as [Hlt | Hge].
  2: { exists w. split; [done |]. intros i e Hi Hm. apply St; [lia | done]. }
  destruct (Hd Hlt) as [e E]. pose proof (close_one id w e E St) as St1.
  rewrite !bind_call_, bind_ask. set (w1 := rte_eth_dev_close _ _) in *.
  destruct (eth_find_next_ok (id + 1) w1 ltac:(lia)) as (N1 & N2 & N3).
  apply IH; [lia | lia | lia | done |].
  intros i x Hi Hm Hx. destruct (decide (i < id + 1)); [by eapply (St1 i); [lia | |] |].
  by rewrite N2 in Hx by lia.
Qed.

(** No device is started. *)
Definition all_stopped (o : dpdk) : Prop :=
  ∀ i e, 0 ≤ i < RTE_MAX_ETHPORTS → d_ports o !! i = Some e → ep_started e = false.

(** [_pkt_stop_and_close_ports] ends, whether or not the devices are released
    when they are closed, and leaves none of them started. *)
Lemma stop_and_close_run w :
  ∃ w', Shim._pkt_stop_and_close_ports w = Done (Exited 0, w') ∧ all_stopped (obs w').
Proof.
  unfold Shim._pkt_stop_and_close_ports. rewrite bind_ask.
  destruct (eth_find_next_ok 0 w ltac:(lia)) as (N1 & N2 & N3).
  destruct (close_from_run (S (Z.to_nat RTE_MAX_ETHPORTS)) (rte_eth_find_next 0 w) w)
    as (w' & E & St); [lia | lia | lia | done | |].
  - intros i e Hi Hm He. by rewrite N2 in He by lia.
  - exists w'. rewrite (bind_done _ _ _ _ _ E). split; [done |].
    intros i e Hi. apply St; [done | lia].
Qed.
End devices.

Lemma reply_layout f : length <$> fields f = arp_layout →
  length (concat (fields (shim_reply f))) = 42%nat.
Proof.
  intros Hf. pose proof (field_length f Hf 0 _ 6 eq_refl eq_refl) as L1.
  pose proof (field_length f Hf 1 _ 6 eq_refl eq_refl) as L2.
  pose proof (field_length f Hf 9 _ 4 eq_refl eq_refl) as L3.
  pose proof (field_length f Hf 11 _ 4 eq_refl eq_refl) as L4.
  unfold fields, shim_reply. simpl. len.
Qed.

(** The answer, written into an empty buffer with room for it. *)
Lemma reply_run {H : Type} {DP : Dpdk H} pkt b f p b0 (w : world H) :
  pkt ≠ null → d_mbufs (obs w) !! pkt = Some b → starts_with b (fields f) →
  length <$> fields f = arp_layout → p ≠ null → p ≠ pkt → mbuf_wf b0 → m_data_len b0 = 0 →
  42 ≤ room b0 →
  let b1 := set_pkt_len 42 (set_data_len 42 b0) in
  ∃ b', Shim.fill_reply pkt (m_buf_addr b + m_data_off b + s_addr)
      (m_buf_addr b + m_data_off b + d_addr) (fr_tpa f) (fr_spa f) p (upd p b1 w)
    = Done (tt, upd p b' w) ∧ data b' = concat (fields (shim_reply f)) ∧ m_pkt_len b' = 42.
Proof.
  intros Hp E Hb Hf Hp0 Hne [W1 W2 W3 W4 W5 W6] L0 Hroom b1. unfold room in Hroom.
  set (h := take (Z.to_nat (m_data_off b0)) (m_buf b0)).
  set (d := drop (Z.to_nat (m_data_off b0)) (m_buf b0)).
  destruct (cut_fields arp_layout (take 42 d)) as (fo & Ed & Lo).
  { change (sum_list arp_layout) with 42%nat. unfold d. rewrite length_take, length_drop. lia. }
  assert (Eb : upd p b1 w = filled p b1 h (drop 42 d) fo w).
  { unfold filled. f_equal. rewrite <- Ed, take_drop. unfold h, d. by rewrite take_drop. }
  assert (Hh : Z.of_nat (length h) = m_data_off b1)
    by (change (m_data_off b1) with (m_data_off b0); unfold h; rewrite length_take; lia).
  rewrite Eb, (fill_run pkt b f Hf Hb p b1 h (drop 42 d) Hp0 (not_eq_sym Hne) Hh fo w E Lo).
  eexists. split; [reflexivity |]. split; [| done].
  unfold data. cbn [m_data_len m_data_off m_buf set_buf b1 set_pkt_len set_data_len].
  replace (Z.to_nat (m_data_off b0)) with (length h) by (cbn in Hh; lia).
  pose proof (reply_layout f Hf) as L. change (Z.to_nat 42) with 42%nat.
  by rewrite drop_app_length, <- L, take_app_length.
Qed.

Section properties.
Context {H : Type} {DP : Dpdk H}.
Implicit Types w : world H.

Context {ML : MempoolLaws H}.

(** C13: [_pkt_arp_response] answers ARP requests, and nothing else, with a new
    buffer that holds exactly one frame of 42 bytes; but it exchanges no
    hardware address: the frame goes from the requester to the destination of
    the request, and tells that the requester's own hardware address belongs
    to the address asked for.  It is the reply of RFC 826 only for a host that
    asks itself.  [NULL] is returned when the pool is empty. *)
Theorem arp_response_spec pkt b f mp w p w1 :
  pkt ≠ null → d_mbufs (obs w) !! pkt = Some b → starts_with b (fields f) →
  length <$> fields f = arp_layout → rte_pktmbuf_alloc mp w = (p, w1) → p ≠ pkt →
  (∀ b0, d_mbufs (obs w1) !! p = Some b0 → 42 ≤ room b0) →
  (if arp_request f then
     if p =? null then Shim._pkt_arp_response pkt mp w = Done (null, w1)
     else ∃ b', Shim._pkt_arp_response pkt mp w = Done (p, upd p b' w1) ∧
       data b' = concat (fields (shim_reply f)) ∧ m_pkt_len b' = 42
   else Shim._pkt_arp_response pkt mp w = Done (null, w)) ∧
  (∀ mac, shim_reply f = rfc826_reply mac f ↔ mac = fr_src f ∧ fr_dst f = fr_sha f).
Proof.
  intros Hp E Hb Hf Ea Hne Hroom. split.
  2: { intros mac. unfold shim_reply, rfc826_reply. split; [by intros [= -> -> _ _] | by intros [-> ->]]. }
  unfold Shim._pkt_arp_response, arp_request.
  rewrite (bind_done _ _ _ _ _ (ether_hdr_run _ _ _ Hp E)).
  rewrite (bind_done _ _ _ _ _ (read_type pkt b f Hf Hb w E)), (test_type f Hf).
  case_bool_decide; [| done]. cbn [negb andb].
  rewrite (bind_done _ _ _ _ _ (arp_hdr_run _ _ _ E)).
  rewrite (bind_done _ _ _ _ _ (read_op pkt b f Hf Hb w E)), (test_op f Hf).
  case_bool_decide; [| done]. cbn [negb]. cbv zeta. rewrite (bind_done _ _ _ _ _ (arp_hdr_run _ _ _ E)).
  rewrite (bind_done _ _ _ _ _ (read_arp pkt b f Hf Hb 9 _ 4 arp_sip w E eq_refl eq_refl eq_refl)).
  rewrite (bind_done _ _ _ _ _ (read_arp pkt b f Hf Hb 11 _ 4 arp_tip w E eq_refl eq_refl eq_refl)).
  rewrite bind_call, Ea. cbn [fst snd]. destruct (Z.eqb_spec p null) as [-> | Hp0]; [done |].
  destruct (pktmbuf_alloc_ok mp w p w1 Ea Hp0) as (s & b0 & Es & Hin & (W & L0 & _) & Eo).
  assert (Ep : d_mbufs (obs w1) !! p = Some b0) by (rewrite Eo; apply lookup_insert_eq).
  assert (E1 : d_mbufs (obs w1) !! pkt = Some b) by (rewrite Eo; simpl; by rewrite lookup_insert_ne).
  rewrite (bind_done _ _ _ tt (upd p (set_pkt_len 42 (set_data_len 42 b0)) w1)).
  2: { by rewrite (with_mbuf_done p _ w1 b0 tt (set_pkt_len 42 (set_data_len 42 b0))). }
  destruct (reply_run pkt b f p b0 w1) as (b' & Ef & Db & Pb); try done; [by apply Hroom |].
  rewrite (bind_done _ _ _ _ _ Ef). eauto.
Qed.

(** [_pkt_detect_arp] returns 1 exactly for an ARP request for the local
    address, and reads but does not change the packet.  The test for a null
    pointer in [_pkt_ether_hdr] protects none of its callers: they read through
    the null pointer it returns. *)
Lemma detect_arp_spec pkt b f ip w :
  pkt ≠ null → d_mbufs (obs w) !! pkt = Some b → starts_with b (fields f) →
  length <$> fields f = arp_layout → d_mbufs (obs w) !! null = None →
  Shim._pkt_detect_arp pkt ip w
    = Done (if arp_request f && (be_value (fr_tpa f) =? ip) then 1 else 0, w) ∧
  Shim._pkt_ether_hdr null w = Done (null, w) ∧ Shim._pkt_detect_arp null ip w = Undefined ∧
  Shim._pkt_ipv4_hdr null w = Undefined ∧ (∀ mp, Shim._pkt_arp_response null mp w = Undefined).
Proof.
  intros Hp E Hb Hf H0. split; [by apply (detect_run pkt b) |]. split; [done |].
  unfold Shim._pkt_detect_arp, Shim._pkt_ipv4_hdr, Shim._pkt_arp_response.
  assert (N : Shim._pkt_ether_hdr null w = Done (null, w)) by done.
  rewrite !(bind_done _ _ _ _ _ N). change (null + sizeof_ether_hdr =? null) with false. cbv match.
  unfold Shim.load_u16, Shim.load, mbind, M_bind. rewrite H0.
  split_and!; try done. intros mp. by rewrite N, H0.
Qed.

(** C33: the transport headers are found behind an IP header of 20 bytes.  The
    answer is not [NULL] exactly for a packet of type IPv4 with the protocol,
    and it is then the address after the Ethernet header and 20 bytes; this is
    the transport header only if the header length of the packet is 5 words,
    and for packets with IP options it is not.  The length of the packet plays
    no part. *)
Theorem transport_hdr_spec protocol pkt b eth t v x p y w :
  pkt ≠ null → d_mbufs (obs w) !! pkt = Some b → 0 ≤ m_buf_addr b →
  starts_with b [eth; t; [v]; x; [p]; y] → length <$> [eth; t; [v]; x; [p]; y] = ip_layout →
  ∃ r, Shim.transport_hdr protocol pkt w = Done (r, w) ∧
    (r ≠ null ↔ t = [x08; x00] ∧ u8_to_Z p = protocol) ∧
    (r ≠ null → r = m_buf_addr b + m_data_off b + 34) ∧
    (r ≠ null → r = m_buf_addr b + m_data_off b + 14 + 4 * (u8_to_Z v mod 16) ↔
       u8_to_Z v mod 16 = 5).
Proof.
  intros Hp E Ha Hb Hl. assert (Ho : 0 ≤ m_data_off b) by (destruct Hb as (h & r & _ & <-); lia).
  unfold ip_layout in Hl. injection Hl as L1 L2 L3 L4.
  assert (R1 : Shim.load pkt (m_buf_addr b + m_data_off b + ether_type) 2 w = Done (t, w)).
  { eapply (load_field pkt b _ 1); try done; [| by rewrite L2]. unfold position. simpl.
    rewrite app_nil_r, L1. done. }
  assert (R2 : Shim.load pkt (m_buf_addr b + m_data_off b + sizeof_ether_hdr + next_proto_id) 1 w
    = Done ([p], w)).
  { eapply (load_field pkt b _ 4); try done. unfold position. simpl. len.
    unfold sizeof_ether_hdr, next_proto_id. lia. }
  assert (R3 : Shim._pkt_ipv4_hdr pkt w
    = Done (if bool_decide (t = [x08; x00]) then m_buf_addr b + m_data_off b + sizeof_ether_hdr
            else null, w)).
  { unfold Shim._pkt_ipv4_hdr. rewrite (bind_done _ _ _ _ _ (ether_hdr_run _ _ _ Hp E)). cbv zeta.
    rewrite (proj2 (Z.eqb_neq _ _)) by (unfold sizeof_ether_hdr; lia).
    unfold Shim.load_u16. rewrite bind_assoc, (bind_done _ _ _ _ _ R1), bind_ret, type_test by done.
    by case_bool_decide. }
  unfold Shim.transport_hdr. rewrite (bind_done _ _ _ _ _ R3). case_bool_decide as Ht.
  2: { exists null. split; [done |]. split; [| by split]. split; [done | by intros [? _]]. }
  rewrite (proj2 (Z.eqb_neq _ _)) by (unfold sizeof_ether_hdr; lia).
  unfold Shim.load_u8. rewrite bind_assoc, (bind_done _ _ _ _ _ R2), bind_ret.
  replace (le_value [p]) with (u8_to_Z p) by (simpl; lia). destruct (Z.eqb_spec (u8_to_Z p) protocol) as [Hq | Hq]; cbn [negb].
  2: { exists null. split; [done |]. split; [| by split]. split; [done | by intros [_ ?]]. }
  rewrite (bind_done _ _ _ _ _ (mtod_run _ _ _ E)). eexists. split; [reflexivity |].
  unfold sizeof_ether_hdr, sizeof_ipv4_hdr. split; [by split; [| lia] |]. split; lia.
Qed.
End properties.

(** ** Witnesses *)

(** An ARP request of 02:00:00:00:00:01 (10.10.1.2) for 10.10.1.1, in a buffer of
    the sample state. *)
Definition sample_request : arp_frame :=
  ArpFrame (replicate 6 xff) [x02; x00; x00; x00; x00; x01] [x08; x06]
    [x00; x01] [x08; x00] [x06] [x04] [x00; x01]
    [x02; x00; x00; x00; x00; x01] [x0a; x0a; x01; x02] (replicate 6 x00) [x0a; x0a; x01; x01].

Definition request_buf : rte_mbuf :=
  RteMbuf 65536 192 128 42 42 1
    (replicate 128 x00 ++ concat (fields sample_request) ++ replicate 22 x00).

Definition with_buf (p : ptr) (b : rte_mbuf) : sim :=
  set_obs (set_mbufs (<[p := b]> (d_mbufs sample_obs)) sample_obs) sample_world.

Definition request_world : sim := with_buf 1600 request_buf.

Lemma arp_response_spec_witness :
  ∃ p b', Shim._pkt_arp_response 1600 1 request_world
      = Done (p, upd p b' (rte_pktmbuf_alloc 1 request_world).2) ∧
    data b' = concat (fields (shim_reply sample_request)) ∧
    shim_reply sample_request ≠ rfc826_reply [x02; x00; x00; x00; x00; x0a] sample_request.
Proof.
  destruct (arp_response_spec 1600 request_buf sample_request 1 request_world
    (rte_pktmbuf_alloc 1 request_world).1 (rte_pktmbuf_alloc 1 request_world).2) as [R I].
  - discriminate.
  - reflexivity.
  - by exists (replicate 128 x00), (replicate 22 x00).
  - reflexivity.
  - reflexivity.
  - vm_compute. discriminate.
  - intros b0 E. assert (E' : Some b0 = Some (sim_fresh 1)) by (rewrite <- E; vm_compute; reflexivity).
    injection E' as ->. vm_compute. discriminate.
  - change (arp_request sample_request) with true in R. cbv match in R.
    change ((rte_pktmbuf_alloc 1 request_world).1 =? null) with false in R. cbv match in R.
    destruct R as (b' & R1 & R2 & _). eexists _, b'. split; [exact R1 |]. split; [exact R2 |].
    intros [E _]%I. discriminate E.
Defined.

Lemma detect_arp_spec_witness :
  Shim._pkt_detect_arp 1600 0x0a0a0101 request_world = Done (1, request_world) ∧
  Shim._pkt_detect_arp null 0x0a0a0101 request_world = Undefined.
Proof.
  destruct (detect_arp_spec 1600 request_buf sample_request 0x0a0a0101 request_world)
    as (R1 & _ & R2 & _).
  - discriminate.
  - reflexivity.
  - by exists (replicate 128 x00), (replicate 22 x00).
  - reflexivity.
  - reflexivity.
  - split; [exact R1 | exact R2].
Defined.

(** An IPv4 header of 6 words, with the protocol UDP. *)
Definition options_buf : rte_mbuf :=
  RteMbuf 65536 192 128 42 42 1
    (replicate 128 x00 ++ concat [replicate 12 x00; [x08; x00]; [x46]; replicate 8 x00; [x11];
      replicate 10 x00] ++ replicate 30 x00).

Lemma transport_hdr_spec_witness :
  ∃ r, Shim._pkt_udp_hdr 1600 (with_buf 1600 options_buf) = Done (r, with_buf 1600 options_buf) ∧
    r ≠ null ∧ r ≠ 65536 + 128 + 14 + 4 * (0x46 mod 16).
Proof.
  destruct (transport_hdr_spec IP_PROTOCOL_UDP 1600 options_buf (replicate 12 x00) [x08; x00] x46
    (replicate 8 x00) x11 (replicate 10 x00) (with_buf 1600 options_buf)) as (r & R1 & R2 & _ & R3).
  - discriminate.
  - reflexivity.
  - discriminate.
  - by exists (replicate 128 x00), (replicate 30 x00).
  - reflexivity.
  - exists r. assert (N : r ≠ null) by (by apply R2). split; [exact R1 |]. split; [exact N |].
    intros E. apply (R3 N) in E. discriminate E.
Defined.
