(* ===== verification/Checksum.v ===== *)
(** * The checksum of an ICMP echo reply ([dpdk-sys/src/shim.c])

    [_pkt_icmp_checksum] turns the checksum of an echo request into the one of
    the reply, which differs in its type only.  The reference is the sum of
    RFC 1071, in one's complement arithmetic, over the 16-bit words of the
    message as a little-endian machine loads them. *)

From S2P Require Import Prelude.

Definition RTE_IP_ICMP_ECHO_REQUEST : Z := 8.
Definition RTE_IP_ICMP_ECHO_REPLY : Z := 0.

(** [htons] on x86 swaps the bytes. *)
Definition htons (x : Z) : Z := u16_to_be x.

(** The operands are promoted to [int]; each assignment is to a [uint16_t]. *)
Definition _pkt_icmp_checksum (cksum : Z) : Z :=
  let cksum := as_uint 16 (Z.land (Z.lnot cksum) 0xffff) in
  let cksum :=
    as_uint 16 (cksum + Z.land (Z.lnot (htons (Z.shiftl RTE_IP_ICMP_ECHO_REQUEST 8))) 0xffff) in
  let cksum := as_uint 16 (cksum + htons (Z.shiftl RTE_IP_ICMP_ECHO_REPLY 8)) in
  let cksum := as_uint 16 (Z.land cksum 0xffff + Z.shiftr cksum 16) in
  let cksum := as_uint 16 (Z.land cksum 0xffff + Z.shiftr cksum 16) in
  as_uint 16 (Z.lnot cksum).

(** ** The reference *)

(** Addition with the carry added back, and the sum of a message.  A receiver
    accepts a message when the sum, the checksum field included, is all ones. *)
Definition oc_add (a b : Z) : Z := (a + b) mod 2 ^ 16 + (a + b) / 2 ^ 16.
Definition oc_sum (words : list Z) : Z := foldr oc_add 0 words.
Definition accepted (words : list Z) : bool := oc_sum words =? 0xffff.

(** The words of an echo message: type and code 0, checksum, and the rest. *)
Definition echo (type cksum : Z) (rest : list Z) : list Z := type :: cksum :: rest.

(** ** Lemmas *)

Lemma oc_add_cases a b : is_uint 16 a → is_uint 16 b →
  (a + b < 2 ^ 16 ∧ oc_add a b = a + b) ∨ (2 ^ 16 ≤ a + b ∧ oc_add a b = a + b - (2 ^ 16 - 1)).
Proof.
  unfold is_uint, oc_add. intros Ha Hb. destruct (Z.lt_ge_cases (a + b) (2 ^ 16)) as [Hl | Hl].
  - left. split; [done |]. rewrite Z.mod_small, Z.div_small by lia. lia.
  - right. split; [done |]. replace (a + b) with (a + b - 2 ^ 16 + 1 * 2 ^ 16) by lia.
    rewrite Z_mod_plus_full, Z.div_add, Z.mod_small, Z.div_small by lia. lia.
Qed.

Lemma oc_add_uint a b : is_uint 16 a → is_uint 16 b → is_uint 16 (oc_add a b).
Proof. intros Ha Hb. destruct (oc_add_cases a b Ha Hb); unfold is_uint in *; lia. Qed.

(** The sum is a 16-bit word with the residue of the plain sum modulo
    [2^16 - 1], and 0 only for a message of zeros. *)
Lemma oc_sum_spec ws : Forall (is_uint 16) ws →
  is_uint 16 (oc_sum ws) ∧ oc_sum ws mod 65535 = foldr Z.add 0 ws mod 65535 ∧
  (oc_sum ws = 0 ↔ Forall (λ x, x = 0) ws).
Proof.
  induction 1 as [|x ws Hx Hws (U & M & N)]; simpl.
  { split; [unfold is_uint; lia |]. split; [done |]. split; [by constructor | done]. }
  split; [by apply oc_add_uint |]. rewrite Forall_cons, <- N.
  split; [| unfold is_uint in *; destruct (oc_add_cases x (oc_sum ws) Hx U); lia].
  rewrite (Z.add_mod x (foldr Z.add 0 ws)), <- M, <- Z.add_mod by done.
  destruct (oc_add_cases x (oc_sum ws) Hx U) as [[_ ->] | [_ ->]]; [done |].
  replace (x + oc_sum ws - (2 ^ 16 - 1)) with (x + oc_sum ws + (-1) * 65535) by lia.
  apply Z_mod_plus_full.
Qed.

Lemma accepted_iff ws : Forall (is_uint 16) ws →
  accepted ws = true ↔ foldr Z.add 0 ws mod 65535 = 0 ∧ ¬ Forall (λ x, x = 0) ws.
Proof.
  intros Hws. destruct (oc_sum_spec ws Hws) as (U & <- & <-). unfold accepted, is_uint in *.
  rewrite Z.eqb_eq. split; [intros ->; by split |]. intros [M N].
  destruct (Z.eq_dec (oc_sum ws) 65535) as [-> | Hne]; [done |].
  rewrite Z.mod_small in M by lia. done.
Qed.

(** What the function computes. *)
Lemma icmp_checksum_run c : is_uint 16 c →
  _pkt_icmp_checksum c = if c <? 65527 then c + 9 else c - 65527.
Proof.
  unfold is_uint. intros Hc.
  assert (L : Z.land (Z.lnot c) 0xffff = 65535 - c).
  { rewrite (Z.land_ones _ 16) by lia. unfold Z.lnot.
    replace (Z.pred (- c)) with (65535 - c + (-1) * 2 ^ 16) by lia.
    rewrite Z_mod_plus_full. apply Z.mod_small. lia. }
  assert (F : ∀ x, is_uint 16 x → as_uint 16 (Z.land x 0xffff + Z.shiftr x 16) = x).
  { intros x Hx. unfold is_uint in Hx.
    rewrite (Z.land_ones _ 16), Z.shiftr_div_pow2, Z.mod_small, Z.div_small by lia.
    rewrite Z.add_0_r. by apply as_uint_id. }
  unfold _pkt_icmp_checksum. rewrite L.
  change (Z.land (Z.lnot (htons (Z.shiftl RTE_IP_ICMP_ECHO_REQUEST 8))) 0xffff) with 0xfff7.
  change (htons (Z.shiftl RTE_IP_ICMP_ECHO_REPLY 8)) with 0.
  rewrite (as_uint_id 16 (65535 - c)) by (unfold is_uint; lia). rewrite Z.add_0_r.
  cbv zeta. set (x := as_uint 16 (65535 - c + 0xfff7)).
  assert (Hx : is_uint 16 x) by (apply as_uint_range; lia).
  rewrite !(as_uint_id 16 x) by done. rewrite !(F x) by done.
  assert (Ex : x = if c <? 65527 then 65526 - c else 131062 - c).
  { unfold x, as_uint. destruct (Z.ltb_spec c 65527).
    - replace (65535 - c + 0xfff7) with (65526 - c + 1 * 2 ^ 16) by lia.
      rewrite Z_mod_plus_full. apply Z.mod_small. lia.
    - rewrite Z.mod_small; lia. }
  unfold Z.lnot, as_uint. replace (Z.pred (- x)) with (65535 - x + (-1) * 2 ^ 16) by lia.
  rewrite Z_mod_plus_full, Z.mod_small by (unfold is_uint in Hx; lia).
  destruct (Z.ltb_spec c 65527); lia.
Qed.

(** ** Properties *)

(** C14: the checksum of the replies is wrong for nearly every request.  The
    carries of the two additions are lost in a [uint16_t] before they are added
    back: for every message that a receiver accepts as an echo request, the
    reply with the checksum of [_pkt_icmp_checksum] is accepted only if the
    checksum of the request is one of the nine largest values; adding 8 in one's
    complement arithmetic would be right for all. *)
Theorem icmp_reply_checksum c rest :
  is_uint 16 c → Forall (is_uint 16) rest → ¬ Forall (λ x, x = 0) rest →
  accepted (echo RTE_IP_ICMP_ECHO_REQUEST c rest) = true →
  (accepted (echo RTE_IP_ICMP_ECHO_REPLY (_pkt_icmp_checksum c) rest) = true ↔ 65527 ≤ c) ∧
  accepted (echo RTE_IP_ICMP_ECHO_REPLY (oc_add c RTE_IP_ICMP_ECHO_REQUEST) rest) = true.
Proof.
  intros Hc Hr Hn Ha. unfold echo in *.
  assert (U8 : is_uint 16 8) by (unfold is_uint; lia).
  assert (A : ∀ t x, is_uint 16 t → is_uint 16 x →
    accepted (t :: x :: rest) = true ↔ (t + (x + foldr Z.add 0 rest)) mod 65535 = 0).
  { intros t x Ht Hx. rewrite accepted_iff by (constructor; [done | by constructor]). rewrite !Forall_cons.
    simpl. tauto. }
  apply A in Ha; [| done | done]. rewrite icmp_checksum_run by done.
  apply Z.mod_divide in Ha as [q Hq]; [| done].
  unfold RTE_IP_ICMP_ECHO_REQUEST, RTE_IP_ICMP_ECHO_REPLY in *.
  assert (U0 : is_uint 16 0) by (unfold is_uint; lia).
  split; [| rewrite A by (done || by apply oc_add_uint)].
  - rewrite A by (done || (unfold is_uint in *; destruct (Z.ltb_spec c 65527); lia)).
    destruct (Z.ltb_spec c 65527).
    + replace (0 + _) with (1 + q * 65535) by lia. rewrite Z_mod_plus_full.
      change (1 mod 65535) with 1. lia.
    + replace (0 + _) with ((q - 1) * 65535) by lia. rewrite Z_mod_mult. lia.
  - apply Z.mod_divide; [done |].
    destruct (oc_add_cases c 8 Hc U8) as [[_ ->] | [_ ->]]; [exists q | exists (q - 1)]; lia.
Qed.

(** ** Witnesses *)

(** An echo request with identifier 0x0100 and sequence number 1. *)
Lemma icmp_reply_checksum_witness :
  (accepted (echo RTE_IP_ICMP_ECHO_REPLY (_pkt_icmp_checksum 0xfef6) [0x0100; 0x0001]) = true
   ↔ 65527 ≤ 0xfef6) ∧
  accepted (echo RTE_IP_ICMP_ECHO_REPLY (oc_add 0xfef6 RTE_IP_ICMP_ECHO_REQUEST) [0x0100; 0x0001])
  = true.
Proof.
  refine (icmp_reply_checksum 0xfef6 [0x0100; 0x0001] _ _ _ _).
  - unfold is_uint. lia.
  - repeat constructor; unfold is_uint; lia.
  - intros [E _]%Forall_cons. discriminate E.
  - reflexivity.
Defined.
