(* ===== verification/IpText.v ===== *)
(** * IPv4 addresses as text ([dpdk-sys/src/shim.c])

    [_pkt_parse_char_ip] prints an address with [snprintf] and [_pkt_parse_ip]
    reads one with [sscanf]; of these functions of the C library, the
    conversion [%u] and literal characters are modelled.  [RTE_IPV4] is a macro
    of DPDK and a parameter. *)

From Stdlib Require Import Ascii.
From stdpp Require Import pretty.
From S2P Require Import Prelude.

(** ** The C library *)

(** [snprintf] into [n] bytes: the text is cut to leave room for the zero. *)
Fixpoint take_string (n : nat) (s : string) : string :=
  match n, s with
  | S n, String c s => String c (take_string n s)
  | _, _ => ""
  end.
Definition snprintf (n : nat) (s : string) : string := take_string (n - 1) s.

(** [%u] prints an [unsigned int] in decimal. *)
Definition print_u (z : Z) : string := pretty (Z.to_N z).

(** [%u] of [sscanf]: white space, an optional sign, decimal digits; [None] is
    a matching failure.  A value that the object cannot represent is undefined
    behaviour. *)
Fixpoint skip_space (s : string) : string :=
  match s with
  | String c s' => if Ascii.is_space c then skip_space s' else s
  | EmptyString => EmptyString
  end.

Fixpoint scan_digits (acc : Z) (s : string) : Z * string :=
  match s with
  | String c s' =>
      match Ascii.is_nat c with
      | Some d => scan_digits (10 * acc + Z.of_nat d) s'
      | None => (acc, s)
      end
  | EmptyString => (acc, s)
  end.

Definition scan_sign (s : string) : bool * string :=
  match s with
  | String "-" s' => (true, s')
  | String "+" s' => (false, s')
  | _ => (false, s)
  end.

Definition scan_u (s : string) : outcome (option (Z * string)) :=
  let '(neg, s) := scan_sign (skip_space s) in
  match s with
  | String c _ =>
      match Ascii.is_nat c with
      | None => Done None
      | Some _ =>
          let '(v, rest) := scan_digits 0 s in
          if (v <? 2 ^ 32) && (negb neg || (v =? 0)) then Done (Some (v, rest)) else Undefined
      end
  | EmptyString => Done None
  end.

(** A format is a sequence of conversions and characters; the result are the
    values assigned (when the input ends before the first, [sscanf] returns
    [EOF] instead of their number, 0). *)
Inductive directive := ConvU | Lit (c : ascii).

Fixpoint sscanf (format : list directive) (s : string) : outcome (list Z) :=
  match format with
  | [] => Done []
  | Lit c :: format =>
      match s with
      | String c' s => if bool_decide (c = c') then sscanf format s else Done []
      | EmptyString => Done []
      end
  | ConvU :: format =>
      r ← scan_u s;
      match r with
      | None => Done []
      | Some (v, s) => l ← sscanf format s; Done (v :: l)
      end
  end.

(** ** The two functions *)

(** "Create IPv4 address": the macro [RTE_IPV4(a, b, c, d)]. *)
Class RteIp := RTE_IPV4 : Z → Z → Z → Z → Z.
Definition ipv4_value (a b c d : Z) : Z := a * 2 ^ 24 + b * 2 ^ 16 + c * 2 ^ 8 + d.
Class RteIpLaws `{RteIp} : Prop :=
  rte_ipv4_ok a b c d : is_uint 8 a → is_uint 8 b → is_uint 8 c → is_uint 8 d →
    RTE_IPV4 a b c d = ipv4_value a b c d.

(** The format ["%u.%u.%u.%u"]. *)
Definition dot : ascii := ".".
Definition ip_format : list directive :=
  [ConvU; Lit dot; ConvU; Lit dot; ConvU; Lit dot; ConvU].

(** What is written to [ip_dest], an array of 16 bytes. *)
Definition _pkt_parse_char_ip (ip_src : Z) : string :=
  snprintf 16 (print_u (Z.land (Z.shiftr ip_src 24) 0xff) +:+ String dot
    (print_u (Z.land (Z.shiftr ip_src 16) 0xff) +:+ String dot
    (print_u (Z.land (Z.shiftr ip_src 8) 0xff) +:+ String dot
    (print_u (Z.land ip_src 0xff))))).

(** The arguments are pointers: [None] is NULL; the second component of the
    result is what [dest] points to afterwards.  The variables are [int]s. *)
Definition _pkt_parse_ip `{RteIp} (ip_str : option string) (dest : option Z)
    : outcome (Z * option Z) :=
  match ip_str, dest with
  | Some s, Some _ =>
      ip ← sscanf ip_format s;
      match ip with
      | [a; b; c; d] =>
          Done (0, Some (as_uint 32
            (RTE_IPV4 (as_sint 32 a) (as_sint 32 b) (as_sint 32 c) (as_sint 32 d))))
      | _ => Done (-1, dest)
      end
  | _, _ => Done (-1, dest)
  end.

(** ** Lemmas *)

Lemma take_string_ge n s : (String.length s ≤ n)%nat → take_string n s = s.
Proof.
  revert s. induction n as [|n IH]; intros [|c s] Hl; simpl in *; try done; [lia |].
  f_equal. apply IH. lia.
Qed.

(** A decimal digit is a digit for [sscanf], and no space or sign. *)
Lemma digit_cases x : (x < 10)%N →
  Ascii.is_nat (pretty_N_char x) = Some (N.to_nat x) ∧
  Ascii.is_space (pretty_N_char x) = false ∧
  ∀ t, scan_sign (String (pretty_N_char x) t) = (false, String (pretty_N_char x) t).
Proof.
  intros Hx. assert (x = 0 ∨ x = 1 ∨ x = 2 ∨ x = 3 ∨ x = 4 ∨ x = 5 ∨ x = 6 ∨ x = 7 ∨ x = 8 ∨ x = 9)%N
    as E by lia.
  destruct_or! E; by rewrite E.
Qed.

Lemma pretty_go_append x s t : pretty_N_go x s +:+ t = pretty_N_go x (s +:+ t).
Proof.
  revert s. induction (N.lt_wf_0 x) as [x _ IH]; intros s.
  destruct (decide (x = 0%N)) as [-> | Hx]; [by rewrite !pretty_N_go_0 |].
  rewrite !(pretty_N_go_step x) by lia. by rewrite IH by (apply N.div_lt; lia).
Qed.

(** Scanning the digits of [x] in front of [s]. *)
Lemma scan_pretty_go x s : ∃ k, ∀ acc,
  scan_digits acc (pretty_N_go x s) = scan_digits (acc * 10 ^ Z.of_nat k + Z.of_N x) s.
Proof.
  revert s. induction (N.lt_wf_0 x) as [x _ IH]; intros s.
  destruct (decide (x = 0%N)) as [-> | Hx].
  { exists 0%nat. intros acc. rewrite pretty_N_go_0. f_equal. lia. }
  rewrite pretty_N_go_step by lia.
  destruct (IH (x `div` 10)%N ltac:(apply N.div_lt; lia)
    (String (pretty_N_char (x `mod` 10)) s)) as [k Hk].
  exists (S k). intros acc. rewrite Hk. cbn [scan_digits].
  rewrite (proj1 (digit_cases _ (N.mod_lt x 10 ltac:(done)))). f_equal.
  rewrite Nat2Z.inj_succ, Z.pow_succ_r by lia. pose proof (N.div_mod x 10 ltac:(done)). lia.
Qed.

Lemma pretty_go_head x s : (0 < x)%N →
  ∃ d t, (d < 10)%N ∧ pretty_N_go x s = String (pretty_N_char d) t.
Proof.
  revert s. induction (N.lt_wf_0 x) as [x _ IH]; intros s Hx. rewrite pretty_N_go_step by done.
  destruct (decide (x `div` 10 = 0)%N) as [-> | Hd].
  - rewrite pretty_N_go_0. exists (x `mod` 10)%N, s. split; [by apply N.mod_lt | done].
  - apply IH; [by apply N.div_lt | by apply N.neq_0_lt_0].
Qed.

(** What [print_u] writes is what [%u] reads. *)
Lemma scan_print_u z s : 0 ≤ z < 2 ^ 32 →
  (∀ c t, s = String c t → Ascii.is_nat c = None) →
  scan_u (print_u z +:+ s) = Done (Some (z, s)).
Proof.
  intros Hz Hs. unfold print_u, pretty, pretty_N.
  assert (Hrest : ∀ v, scan_digits v s = (v, s)).
  { intros v. destruct s as [|c t]; [done |]. simpl. by rewrite (Hs c t). }
  case_decide as H0.
  { assert (z = 0) as -> by lia. unfold scan_u. simpl. by rewrite Hrest. }
  destruct (scan_pretty_go (Z.to_N z) s) as [k Hk].
  destruct (pretty_go_head (Z.to_N z) s ltac:(lia)) as (d & t & Hd & E).
  destruct (digit_cases d Hd) as (D1 & D2 & D3).
  rewrite pretty_go_append. change ("" +:+ s) with s. unfold scan_u.
  specialize (Hk 0). rewrite Hrest in Hk. rewrite E in Hk |- *.
  cbn [skip_space]. rewrite D2, D3, D1. rewrite Hk. replace (0 * _ + Z.of_N (Z.to_N z)) with z by lia.
  cbn [negb orb]. rewrite andb_true_r. by destruct (Z.ltb_spec z (2 ^ 32)); [| lia].
Qed.

Lemma string_app_nil s : s +:+ "" = s.
Proof. induction s as [|c s IH]; [done |]. change (String c (s +:+ "") = String c s). by rewrite IH. Qed.

(** One field and the dot after it. *)
Lemma sscanf_field z fmt s : 0 ≤ z < 2 ^ 32 →
  sscanf (ConvU :: Lit dot :: fmt) (print_u z +:+ String dot s)
  = (l ← sscanf fmt s; Done (z :: l)).
Proof.
  intros Hz. cbn [sscanf]. rewrite scan_print_u by (done || by intros ? ? [= <- <-]).
  rewrite outcome_bind_done. by rewrite bool_decide_true.
Qed.

Lemma sscanf_last z : 0 ≤ z < 2 ^ 32 → sscanf [ConvU] (print_u z) = Done [z].
Proof.
  intros Hz. rewrite <- (string_app_nil (print_u z)). cbn [sscanf].
  by rewrite scan_print_u.
Qed.

Lemma length_print_u z : is_uint 8 z → (String.length (print_u z) ≤ 3)%nat.
Proof.
  intros Hz. assert (E : z ∈ seqZ 0 256) by (apply elem_of_seqZ; unfold is_uint in Hz; lia).
  clear Hz. revert z E. apply Forall_forall. apply (bool_decide_unpack _). vm_compute. exact I.
Qed.

Lemma string_length_app s t : String.length (s +:+ t) = (String.length s + String.length t)%nat.
Proof. induction s as [|c s IH]; [done |]. cbn. by rewrite <- IH. Qed.

(** The octets of an address, and the address of its octets. *)
Lemma octets ip : is_uint 32 ip →
  is_uint 8 (Z.land (Z.shiftr ip 24) 0xff) ∧ is_uint 8 (Z.land (Z.shiftr ip 16) 0xff) ∧
  is_uint 8 (Z.land (Z.shiftr ip 8) 0xff) ∧ is_uint 8 (Z.land ip 0xff) ∧
  ipv4_value (Z.land (Z.shiftr ip 24) 0xff) (Z.land (Z.shiftr ip 16) 0xff)
    (Z.land (Z.shiftr ip 8) 0xff) (Z.land ip 0xff) = ip.
Proof.
  intros Hip. unfold is_uint, ipv4_value in *. rewrite !(Z.land_ones _ 8), !Z.shiftr_div_pow2 by lia.
  split_and!; try (apply Z.mod_pos_bound; lia).
  all: pose proof (Z.mod_pos_bound ip (2 ^ 8) ltac:(lia)); Z.div_mod_to_equations; lia.
Qed.

(** ** Properties *)

(** C32: printing and reading an address are inverse: [_pkt_parse_ip] reads what
    [_pkt_parse_char_ip] prints, for every 32-bit address, and the text with
    its final zero always fits the 16 bytes. *)
Theorem ip_text_round_trip `{RteIpLaws} ip old :
  is_uint 32 ip →
  _pkt_parse_ip (Some (_pkt_parse_char_ip ip)) (Some old) = Done (0, Some ip) ∧
  (String.length (_pkt_parse_char_ip ip) < 16)%nat.
Proof.
  intros Hip. destruct (octets ip Hip) as (U1 & U2 & U3 & U4 & E). unfold _pkt_parse_char_ip.
  set (a := Z.land (Z.shiftr ip 24) 0xff) in *. set (b := Z.land (Z.shiftr ip 16) 0xff) in *.
  set (c := Z.land (Z.shiftr ip 8) 0xff) in *. set (d := Z.land ip 0xff) in *.
  set (s := _ +:+ _). assert (L : (String.length s ≤ 15)%nat).
  { unfold s. repeat (rewrite string_length_app; cbn [String.length]).
    pose proof (length_print_u a U1). pose proof (length_print_u b U2).
    pose proof (length_print_u c U3). pose proof (length_print_u d U4). lia. }
  unfold snprintf. rewrite take_string_ge by done. split; [| lia].
  assert (S : ∀ z, 0 ≤ z < 2 ^ 8 → as_sint 32 z = z)
    by (intros z Hz; apply as_sint_id; unfold is_sint; lia).
  unfold _pkt_parse_ip, s, ip_format. unfold is_uint in *.
  rewrite !sscanf_field, sscanf_last, !outcome_bind_done by lia.
  rewrite !S, rte_ipv4_ok, E by done. by rewrite as_uint_id.
Qed.

Example print_ip_sample : _pkt_parse_char_ip 0x0a0a0101 = "10.10.1.1".
Proof. vm_compute. reflexivity. Qed.

(** Octets are not checked: a macro that masks its arguments, as DPDK's does,
    maps a text with an octet above 255 to another address. *)
Example parse_ip_masks :
  let H : RteIp := λ a b c d, ipv4_value (Z.land a 255) (Z.land b 255) (Z.land c 255) (Z.land d 255) in
  _pkt_parse_ip (Some "300.1.2.3 and more") (Some 0) = Done (0, Some (ipv4_value 44 1 2 3)).
Proof. vm_compute. reflexivity. Qed.

(** ** Witnesses *)

Definition rte_ipv4 : RteIp := λ a b c d,
  ipv4_value (Z.land a 255) (Z.land b 255) (Z.land c 255) (Z.land d 255).

Lemma rte_ipv4_laws : RteIpLaws (H := rte_ipv4).
Proof.
  intros a b c d Ha Hb Hc Hd. unfold RTE_IPV4, rte_ipv4.
  by rewrite !(Z.land_ones _ 8), !Z.mod_small.
Qed.

Lemma ip_text_round_trip_witness :
  _pkt_parse_ip (H := rte_ipv4) (Some (_pkt_parse_char_ip 0x0a0a0101)) (Some 0)
  = Done (0, Some 0x0a0a0101) ∧
  (String.length (_pkt_parse_char_ip 0x0a0a0101) < 16)%nat.
Proof.
  apply (ip_text_round_trip (H0 := rte_ipv4_laws) 0x0a0a0101 0). unfold is_uint. lia.
Defined.
