(* ===== verification/Mempool.v ===== *)
(** * Mempools and the life of an [Mbuf]
    ([l3enginelib/src/apis/mempool.rs], [mbuf.rs], [mod.rs])

    [Mempool::new] and [lookup]; the allocation and release of buffers:
    [Mbuf::new], [from_bytes], [alloc_bulk], [free_bulk], [mbuf_free_bulk],
    [into_ptr] and [Drop].  An owned [Mempool] or [Mbuf] is its non-null raw
    pointer. *)

From S2P Require Import Prelude Errors Mbuf Dpdk Sim.

(** [NonNull::new]. *)
Definition NonNull_new (p : ptr) : option ptr := if p =? null then None else Some p.

Module Mempool.
Section mempool.
Context {EN : Errno} {H : Type} {DP : Dpdk H}.

Definition RX_MBUF_DATA_SIZE : Z := 2048.
Definition RTE_PKTMBUF_HEADROOM : Z := 128.
Definition MBUF_OVERHEAD : Z := as_uint 32 sizeof_rte_mbuf + RTE_PKTMBUF_HEADROOM.
Definition NUM_MBUFS : Z := 32767.
Definition MBUF_SIZE : Z := RX_MBUF_DATA_SIZE + MBUF_OVERHEAD.
Definition MBUF_CACHE_SIZE : Z := 512.
Definition NO_FLAGS : Z := 0.

(** [Mempool::new]. *)
Definition new (name : string) : M (world H) (result ptr MemoryError) :=
  match to_cstring name with
  | Err e => mret (Err (MemoryError_from_nul e))
  | Ok n =>
      socket ← ask rte_socket_id;
      raw ← call (rte_mempool_create (MempoolArgs n NUM_MBUFS MBUF_SIZE MBUF_CACHE_SIZE
        (as_uint 32 sizeof_pool_private) (as_sint 32 socket) NO_FLAGS));
      match NonNull_new raw with
      | Some mem => mret (Ok mem)
      | None => e ← ask rte_errno; mret (Err (MemoryError_new e))
      end
  end.

(** [Mempool::lookup]. *)
Definition lookup (name : string) : M (world H) (result ptr MemoryError) :=
  match to_cstring name with
  | Err e => mret (Err (MemoryError_from_nul e))
  | Ok nm =>
      r ← call (rte_mempool_lookup nm);
      match NonNull_new r with
      | Some raw => mret (Ok raw)
      | None => mret (Err NoEntries)
      end
  end.

(** [impl Drop for Mempool]. *)
Definition drop (mp : ptr) : M (world H) unit := call_ (rte_mempool_free mp).
End mempool.
End Mempool.

Module MbufPool.
Section mbuf.
Context {prof : profile} {H : Type} {DP : Dpdk H}.

(** [Mbuf::new]. *)
Definition new (mp : ptr) : M (world H) (result ptr MemoryError) :=
  r ← call (rte_pktmbuf_alloc mp);
  match NonNull_new r with
  | Some raw => mret (Ok raw)
  | None => mret (Err NoBuf)
  end.

(** [impl Drop for Mbuf], and the drop of a vector of them. *)
Definition drop (p : ptr) : M (world H) unit := call_ (rte_pktmbuf_free p).
Definition drop_all (ps : list ptr) : M (world H) unit := for_each drop ps.

(** [Mbuf::from_bytes]: the error is a [Box<dyn Error>] around a [MemoryError]
    or a [BufError]; an early return drops the new buffer. *)
Definition from_bytes (data : list u8) (mp : ptr)
    : M (world H) (result ptr (MemoryError + BufError)) :=
  r ← new mp;
  match r with
  | Err e => mret (Err (inl e))
  | Ok mbuf =>
      r ← with_mbuf mbuf (Mbuf.extend 0 (Z.of_nat (length data)));
      match r with
      | Err e => drop mbuf ;; mret (Err (inr e))
      | Ok _ =>
          r ← with_mbuf mbuf (Mbuf.write_data_slice 0 data);
          match r with
          | Err e => drop mbuf ;; mret (Err (inr e))
          | Ok _ => mret (Ok mbuf)
          end
      end
  end.

(** [Mbuf::alloc_bulk]: [Vec::with_capacity] panics beyond [isize::MAX] bytes;
    [set_len] past the pointers DPDK wrote exposes uninitialised memory. *)
Definition alloc_bulk (len : Z) (mp : ptr) : M (world H) (result (list ptr) MemoryError) :=
  if len * 8 >? 2 ^ 63 - 1 then panic else
  r ← call (rte_pktmbuf_alloc_bulk mp (as_uint 32 len));
  let '(rb, ptrs) := r in
  if rb =? 0 then
    if len >? Z.of_nat (length ptrs) then undefined
    else mret (Ok (take (Z.to_nat len) ptrs))
  else mret (Err NoBuf).

(** The field [pool] read through the pointer [mbuf]. *)
Definition pool_of (p : ptr) : M (world H) ptr := λ w,
  match d_mbufs (obs w) !! p with
  | Some b => Done (m_pool b, w)
  | None => Undefined
  end.

Definition put_bulk (pool : ptr) (to_free : list ptr) : M (world H) unit :=
  call_ (rte_mempool_put_bulk pool to_free (as_uint 32 (Z.of_nat (length to_free)))).

(** The [for] loop of [mbuf_free_bulk]; the result is [to_free] at its end. *)
Fixpoint free_loop (pool : ptr) (to_free mbufs : list ptr) : M (world H) (list ptr) :=
  match mbufs with
  | [] => mret to_free
  | mbuf :: rest =>
      q ← pool_of mbuf;
      if pool =? q then free_loop pool (to_free ++ [mbuf]) rest
      else put_bulk pool to_free ;; free_loop pool [mbuf] rest
  end.

(** [Mbuf::mbuf_free_bulk]. *)
Definition mbuf_free_bulk (mbufs : list ptr) : M (world H) unit :=
  match mbufs with
  | [] => mret tt
  | first :: _ =>
      pool ← pool_of first;
      to_free ← free_loop pool [] mbufs;
      put_bulk pool to_free
  end.

(** The function [mbuf_free_bulk] of [mod.rs]: it asserts that there is a
    buffer. *)
Definition mod_mbuf_free_bulk (mbufs : list ptr) : M (world H) unit :=
  assert_ (negb (bool_decide (mbufs = []))) ;;
  mbuf_free_bulk mbufs.

(** [Mbuf::free_bulk]: [into_ptr] consumes each buffer without a [Drop]. *)
Definition free_bulk (mbufs : list ptr) : M (world H) unit := mbuf_free_bulk mbufs.
End mbuf.
End MbufPool.

(** ** Lemmas *)

Section lemmas.
Context {prof : profile} {H : Type} {DP : Dpdk H} {ML : MempoolLaws H}.
Implicit Types w : world H.

Lemma set_pools_id (o : dpdk) : set_pools (d_pools o) o = o.
Proof. by destruct o. Qed.

Lemma set_obs_id w : set_obs (obs w) w = w.
Proof. by destruct w. Qed.

Lemma NonNull_new_Some p q : NonNull_new p = Some q ↔ p = q ∧ p ≠ null.
Proof. unfold NonNull_new. destruct (Z.eqb_spec p 0); split; try done; intros; destruct_and?; simplify_eq; done. Qed.

(** The two ways [Mbuf::new] returns. *)
Lemma new_cases mp w :
  (∃ w', MbufPool.new mp w = Done (Err NoBuf, w') ∧ obs w' = obs w) ∨
  (∃ p w' s b, MbufPool.new mp w = Done (Ok p, w') ∧
     d_pools (obs w) !! mp = Some s ∧ p ∈ s ∧ p ≠ null ∧ fresh_mbuf mp b ∧
     obs w' = set_mbufs (<[p := b]> (d_mbufs (obs w)))
       (set_pools (<[mp := s ∖ {[+ p +]}]> (d_pools (obs w))) (obs w))).
Proof.
  unfold MbufPool.new. rewrite bind_call.
  destruct (rte_pktmbuf_alloc mp w) as [p w'] eqn:E. simpl. unfold NonNull_new.
  destruct (Z.eqb_spec p 0) as [-> | Hp].
  - left. exists w'. split; [done |]. by eapply pktmbuf_alloc_null.
  - right. destruct (pktmbuf_alloc_ok mp w p w' E Hp) as (s & b & ? & ? & ? & ?).
    by exists p, w', s, b.
Qed.

(** Dropping a buffer that was taken from its pool puts it back. *)
Lemma put_one_back p b mp (s : gmultiset ptr) (o : dpdk) :
  d_mbufs o !! p = Some b → m_pool b = mp → p ∈ s →
  d_pools o !! mp = Some (s ∖ {[+ p +]}) →
  put_one p o = set_pools (<[mp := s]> (d_pools o)) o.
Proof.
  intros E1 E2 Hp E3. unfold put_one, add_to_pool. rewrite E1, E2. f_equal.
  apply map_eq. intros q. rewrite lookup_alter, lookup_insert.
  destruct (decide (mp = q)) as [<- |]; [| done].
  rewrite E3. simpl. f_equal. multiset_solver.
Qed.

Lemma splice_whole {A} (l l' : list A) : length l = length l' → splice l 0 l' = l'.
Proof. intros E. unfold splice. simpl. rewrite drop_ge by lia. apply app_nil_r. Qed.

(** Writing the whole packet of a fresh buffer. *)
Lemma fill_fresh mp b (bytes : list u8) :
  fresh_mbuf mp b → 0 < Z.of_nat (length bytes) ≤ room b →
  ∃ b1 b2 sp, Mbuf.extend 0 (Z.of_nat (length bytes)) b = Done (Ok tt, b1) ∧
    Mbuf.write_data_slice 0 bytes b1 = Done (Ok sp, b2) ∧
    mbuf_wf b2 ∧ same_buffer b b2 ∧ data b2 = bytes.
Proof.
  intros (Hwf & Hd & Hp) Hl.
  assert (Hsmall : Z.of_nat (length bytes) < 2 ^ 16).
  { unfold room in Hl. destruct Hwf as [W1 W2 W3 W4 W5 W6]. lia. }
  destruct (extend_wp b 0 (Z.of_nat (length bytes)))
    as (gap & b1 & Hx & V1 & V2 & V3 & V4 & V5); [done | lia | done |].
  assert (Hlb : length (bytes ≫= repr) = length bytes).
  { apply Nat2Z.inj. rewrite length_bytes. simpl size_of. lia. }
  assert (Hb : bytes ≫= repr = bytes).
  { clear. induction bytes as [|x l IH]; [done |]. simpl. f_equal. exact IH. }
  destruct (write_data_slice_wp b1 0 bytes) as (b2 & U1 & U2 & U3 & U4 & U5);
    [done | done | simpl size_of; lia |].
  exists b1, b2, (SlicePtr (m_buf_addr b2 + m_data_off b2 + 0) (Z.of_nat (length bytes))).
  split; [done |]. split; [| split; [done | split; [by transitivity b1 |]]].
  - rewrite U5, read_data_slice_run by (simpl size_of; try done; lia).
    simpl size_of. rewrite Z.geb_leb, Z.gtb_ltb.
    destruct (Z.leb_spec (m_data_len b2) 0); [lia |].
    destruct (Z.ltb_spec (m_data_len b2 - 0) (0 + 1 * Z.of_nat (length bytes))); [lia | done].
  - rewrite U4. simpl Z.to_nat. rewrite Hb. apply splice_whole.
    apply Nat2Z.inj. rewrite length_data by done. lia.
Qed.

(** The pool of every buffer of a list is read without fault. *)
Definition all_mapped (ps : list ptr) (o : dpdk) : Prop :=
  Forall (λ p, is_Some (d_mbufs o !! p)) ps.

(** [free_loop] flushes to the pool of the first buffer, whatever the pools of
    the others: all but the objects it returns have been put there. *)
Lemma free_loop_run pool to_free l w :
  all_mapped l (obs w) → Z.of_nat (length to_free + length l) < 2 ^ 32 →
  ∃ rest put w', MbufPool.free_loop pool to_free l w = Done (rest, w') ∧
    to_free ++ l = put ++ rest ∧
    obs w' = add_to_pool pool (list_to_set_disj put) (obs w).
Proof.
  revert to_free w. induction l as [|p l IH]; intros to_free w Hm Hl; simpl in *.
  - exists to_free, [], w. split_and!; [done | by rewrite app_nil_r |].
    by rewrite add_to_pool_empty.
  - apply Forall_cons in Hm as [[b Hb] Hm].
    erewrite bind_done by (unfold MbufPool.pool_of; by rewrite Hb).
    destruct (Z.eqb_spec pool (m_pool b)).
    + destruct (IH (to_free ++ [p]) w) as (rest & put & w' & ? & E & ?); [done | len |].
      exists rest, put, w'. by rewrite <- app_assoc in E.
    + unfold MbufPool.put_bulk.
      erewrite bind_done by done.
      rewrite as_uint_id by (unfold is_uint; lia).
      set (w1 := rte_mempool_put_bulk _ _ _ w).
      assert (Ew1 : obs w1 = add_to_pool pool (list_to_set_disj to_free) (obs w))
        by (by apply mempool_put_bulk_ok).
      destruct (IH [p] w1) as (rest & put & w' & Er & E & Eo);
        [unfold all_mapped; by rewrite Ew1 | simpl; lia |].
      exists rest, (to_free ++ put), w'. split_and!; [done | by rewrite <- app_assoc, <- E |].
      rewrite Eo, Ew1, add_to_pool_add, list_to_set_disj_app. f_equal. multiset_solver.
Qed.

Lemma mbuf_free_bulk_run p b l w :
  all_mapped (p :: l) (obs w) → d_mbufs (obs w) !! p = Some b →
  Z.of_nat (length (p :: l)) < 2 ^ 32 →
  ∃ w', MbufPool.mbuf_free_bulk (p :: l) w = Done (tt, w') ∧
    obs w' = add_to_pool (m_pool b) (list_to_set_disj (p :: l)) (obs w).
Proof.
  intros Hm Hb Hl. unfold MbufPool.mbuf_free_bulk.
  erewrite bind_done by (unfold MbufPool.pool_of; by rewrite Hb).
  destruct (free_loop_run (m_pool b) [] (p :: l) w) as (rest & put & w1 & E & El & Eo);
    [done | simpl in *; lia |].
  rewrite (bind_done _ _ _ _ _ E). unfold MbufPool.put_bulk. eexists. split; [done |].
  rewrite as_uint_id, mempool_put_bulk_ok.
  - rewrite Eo, add_to_pool_add. change (p :: l) with ([] ++ p :: l).
    rewrite El, list_to_set_disj_app. f_equal. multiset_solver.
  - done.
  - apply (f_equal length) in El. unfold is_uint. len.
Qed.
End lemmas.

(** ** Properties *)

(** What [Mbuf::from_bytes] may do to the state, given the buffer [b] and the
    free objects [s] of the pool before the call. *)
Inductive from_bytes_result {H} (bytes : list u8) (mp : ptr) (w w' : world H)
    : result ptr (MemoryError + BufError) → Prop :=
  | fb_no_buf : obs w' = obs w → from_bytes_result bytes mp w w' (Err (inl NoBuf))
  | fb_refused p b s :
      (* the buffer was allocated, did not fit and went back to its pool *)
      d_pools (obs w) !! mp = Some s → p ∈ s → fresh_mbuf mp b →
      ¬ (0 < Z.of_nat (length bytes) ≤ room b) →
      obs w' = set_mbufs (<[p := b]> (d_mbufs (obs w))) (obs w) →
      from_bytes_result bytes mp w w' (Err (inr NotResized))
  | fb_ok p b b' s :
      d_pools (obs w) !! mp = Some s → p ∈ s → p ≠ null → fresh_mbuf mp b →
      0 < Z.of_nat (length bytes) ≤ room b →
      mbuf_wf b' → same_buffer b b' → data b' = bytes →
      obs w' = set_mbufs (<[p := b']> (d_mbufs (obs w)))
        (set_pools (<[mp := s ∖ {[+ p +]}]> (d_pools (obs w))) (obs w)) →
      from_bytes_result bytes mp w w' (Ok p).

Section properties.
Context {prof : profile} {H : Type} {DP : Dpdk H} {ML : MempoolLaws H}.
Implicit Types w : world H.

(** The three ways [from_bytes] returns. *)
Lemma from_bytes_run bytes mp w :
  Z.of_nat (length bytes) < 2 ^ 64 →
  ∃ r w', MbufPool.from_bytes bytes mp w = Done (r, w') ∧ from_bytes_result bytes mp w w' r.
Proof.
  intros Hlen. unfold MbufPool.from_bytes.
  destruct (new_cases mp w) as [(w' & E & Eo) | (p & w' & s & b & E & Hs & Hp & Hn & Hf & Eo)];
    rewrite (bind_done _ _ _ _ _ E).
  { exists (Err (inl NoBuf)), w'. split; [done | by constructor]. }
  pose proof Hf as (Hwf & Hd0 & Hpool).
  assert (Hb : d_mbufs (obs w') !! p = Some b) by (rewrite Eo; simpl; apply lookup_insert_eq).
  destruct (decide (0 < Z.of_nat (length bytes) ≤ room b)) as [Hl | Hl].
  - destruct (fill_fresh mp b bytes Hf Hl) as (b1 & b2 & sp & E1 & E2 & V1 & V2 & V3).
    rewrite (bind_done _ _ _ _ _ (with_mbuf_done _ _ _ _ _ _ Hb E1)).
    assert (Hb1 : d_mbufs (obs (set_obs (set_mbufs (<[p := b1]> (d_mbufs (obs w'))) (obs w')) w'))
      !! p = Some b1) by apply lookup_insert_eq.
    rewrite (bind_done _ _ _ _ _ (with_mbuf_done _ _ _ _ _ _ Hb1 E2)).
    eexists _, _. split; [done |]. eapply fb_ok; try done.
    simpl. rewrite Eo. simpl. unfold set_mbufs. simpl. by rewrite !insert_insert_eq.
  - assert (E1 : Mbuf.extend 0 (Z.of_nat (length bytes)) b = Done (Err NotResized, b)).
    { apply extend_refused; solve [done | lia]. }
    rewrite (bind_done _ _ _ _ _ (with_mbuf_done _ _ _ _ _ _ Hb E1)).
    erewrite bind_done by done. eexists _, _. split; [done |]. eapply fb_refused; try done.
    set (w1 := set_obs _ w').
    assert (Ew1 : obs w1 = obs w').
    { unfold w1. simpl. rewrite Eo. unfold set_mbufs. simpl. by rewrite insert_insert_eq. }
    rewrite pktmbuf_free_ok by (rewrite Ew1, Hb; done).
    rewrite Ew1. erewrite (put_one_back p b mp s); try done.
    + rewrite Eo. unfold set_pools, set_mbufs. simpl. f_equal.
      rewrite insert_insert_eq. by apply insert_id.
    + rewrite Eo. simpl. apply lookup_insert_eq.
Qed.

(** C12: [Mbuf::from_bytes] always returns (no panic, no memory error, in both
    build profiles) and is all or nothing: either the pool had no buffer and
    nothing changed; or the bytes are empty or longer than the room of the
    buffer, the answer is [NotResized] and the pool has the same free objects
    as before, the early return having dropped the buffer; or the answer is a
    buffer of the pool that holds exactly the bytes, and the pool has lost that
    one object. *)
Theorem from_bytes_spec bytes mp w :
  Z.of_nat (length bytes) < 2 ^ 64 →
  ∃ r w', MbufPool.from_bytes bytes mp w = Done (r, w') ∧ from_bytes_result bytes mp w w' r.
Proof. apply from_bytes_run. Qed.

(** [Mbuf::mbuf_free_bulk] (and [free_bulk]) never faults on live
    buffers and puts every one of them into the mempool of the first: [pool]
    is read once and is not updated when a buffer of another pool is met, so a
    buffer of another pool ends up in a pool it does not belong to.  An empty
    vector is left alone. *)
Lemma mbuf_free_bulk_one_pool w :
  MbufPool.mbuf_free_bulk [] w = Done (tt, w) ∧
  (∀ p b l, all_mapped (p :: l) (obs w) → d_mbufs (obs w) !! p = Some b →
   Z.of_nat (length (p :: l)) < 2 ^ 32 →
   ∃ w', MbufPool.mbuf_free_bulk (p :: l) w = Done (tt, w') ∧
     MbufPool.mod_mbuf_free_bulk (p :: l) w = Done (tt, w') ∧
     obs w' = add_to_pool (m_pool b) (list_to_set_disj (p :: l)) (obs w)).
Proof.
  split; [done |]. intros p b l Hm Hb Hl.
  destruct (mbuf_free_bulk_run p b l w) as (w' & E & Eo); try done.
  exists w'. by split_and!.
Qed.

(** [Mbuf::alloc_bulk] hands out [len] distinct-by-count objects of the
    pool with fresh buffers, or none; but the count passed to DPDK is
    truncated to 32 bits while the vector's length is set to all of [len]: a
    success with [len >= 2^32] is undefined behaviour. *)
Lemma alloc_bulk_spec len mp w :
  is_uint 64 len → len * 8 < 2 ^ 63 →
  (len < 2 ^ 32 →
   (∃ w', MbufPool.alloc_bulk len mp w = Done (Err NoBuf, w') ∧ obs w' = obs w) ∨
   (∃ ps w' s, MbufPool.alloc_bulk len mp w = Done (Ok ps, w') ∧
     d_pools (obs w) !! mp = Some s ∧ Z.of_nat (length ps) = len ∧
     list_to_set_disj ps ⊆ s ∧ Forall (λ p, p ≠ null) ps ∧
     d_pools (obs w') = <[mp := s ∖ list_to_set_disj ps]> (d_pools (obs w)))) ∧
  (2 ^ 32 ≤ len →
   (∃ w', MbufPool.alloc_bulk len mp w = Done (Err NoBuf, w') ∧ obs w' = obs w) ∨
   MbufPool.alloc_bulk len mp w = Undefined).
Proof.
  intros [? ?] ?. unfold MbufPool.alloc_bulk. rewrite Z.gtb_ltb.
  destruct (Z.ltb_spec (2 ^ 63 - 1) (len * 8)); [lia |]. rewrite bind_call.
  pose proof (as_uint_range 32 len ltac:(lia)) as Hr. unfold is_uint in Hr.
  destruct (rte_pktmbuf_alloc_bulk mp (as_uint 32 len) w) as [[rb tbl] w'] eqn:E. simpl.
  destruct (Z.eqb_spec rb 0) as [-> | Hrb].
  - destruct (pktmbuf_alloc_bulk_ok _ _ _ _ _ E) as (s & bs & P1 & P2 & P3 & P4 & P5 & P6 & P7).
    split; intros Hlen; right.
    + rewrite as_uint_id in P2 by done. exists tbl, w', s. rewrite Z.gtb_ltb.
      destruct (Z.ltb_spec (Z.of_nat (length tbl)) len); [lia |].
      rewrite take_ge by lia. split_and!; try done. by rewrite P7.
    + rewrite Z.gtb_ltb. destruct (Z.ltb_spec (Z.of_nat (length tbl)) len); [done | lia].
  - split; intros Hlen; left; exists w'; (split; [done |]);
      by eapply pktmbuf_alloc_bulk_fail.
Qed.
End properties.

Section names.
Context {EN : Errno} {H : Type} {DP : Dpdk H} {ML : MempoolLaws H}.
Implicit Types w : world H.

(** A successful [Mempool::new] registers, under the new name, a pool of
    the 32767 objects that [NUM_MBUFS] asks for, and [Mempool::lookup] of the
    same name then finds that pool; a failure leaves the mempools as they
    were and reports the decoded [rte_errno]; a name with a NUL byte is
    [BadVal] before DPDK is called. *)
Lemma mempool_new_lookup name w :
  match to_cstring name with
  | Err _ => Mempool.new name w = Done (Err BadVal, w) ∧
             Mempool.lookup name w = Done (Err BadVal, w)
  | Ok _ =>
      (∃ w', Mempool.new name w = Done (Err (MemoryError_new (rte_errno w')), w') ∧
         obs w' = obs w) ∨
      (∃ mp w' s w'', Mempool.new name w = Done (Ok mp, w') ∧ mp ≠ null ∧
         d_pools (obs w) !! mp = None ∧ d_pools (obs w') !! mp = Some s ∧
         size s = Z.to_nat Mempool.NUM_MBUFS ∧
         Mempool.lookup name w' = Done (Ok mp, w'') ∧ obs w'' = obs w')
  end.
Proof.
  destruct (to_cstring name) as [n | e] eqn:En.
  2: { unfold Mempool.new, Mempool.lookup. by rewrite En. }
  assert (n = name) as ->.
  { pose proof (to_cstring_spec name) as Hs. rewrite En in Hs. by destruct Hs. }
  unfold Mempool.new. rewrite En, bind_ask, bind_call. set (args := MempoolArgs _ _ _ _ _ _ _).
  destruct (rte_mempool_create args w) as [p w'] eqn:E. simpl. unfold NonNull_new.
  destruct (Z.eqb_spec p 0) as [-> | Hp].
  - left. exists w'. split; [done |]. by eapply mempool_create_null.
  - right. destruct (mempool_create_ok _ _ _ _ E Hp) as (H1 & H2 & s & H3 & H4).
    destruct (mempool_lookup_ok name w') as [L1 L2].
    exists p, w', s, (rte_mempool_lookup name w').2.
    split_and!; try done.
    + rewrite H4. simpl. apply lookup_insert_eq.
    + unfold Mempool.lookup. rewrite En, bind_call, L1, H4. simpl.
      rewrite lookup_insert_eq. simpl. unfold NonNull_new.
      by destruct (Z.eqb_spec p 0).
Qed.
End names.

(** ** Witnesses *)

Lemma from_bytes_spec_witness :
  ∃ r w', MbufPool.from_bytes (prof := Debug) [x0a; x0b; x0c] 1 sample_world = Done (r, w') ∧
    from_bytes_result [x0a; x0b; x0c] 1 sample_world w' r.
Proof. apply (from_bytes_spec (prof := Debug) [x0a; x0b; x0c] 1 sample_world). reflexivity. Defined.

(** Buffers 1500 (pool 1) and 2500 (pool 2) freed together both go to pool 1. *)
Lemma mbuf_free_bulk_one_pool_witness :
  ∃ w', MbufPool.mbuf_free_bulk [1500; 2500] sample_world = Done (tt, w') ∧
    MbufPool.mod_mbuf_free_bulk [1500; 2500] sample_world = Done (tt, w') ∧
    obs w' = add_to_pool 1 {[+ 1500; 2500 +]} (obs sample_world).
Proof.
  apply (proj2 (mbuf_free_bulk_one_pool sample_world) 1500 (sample_buf 1) [2500]);
    [| reflexivity | reflexivity].
  apply Forall_cons; split; [eexists; vm_compute; reflexivity |].
  apply Forall_cons; split; [eexists; vm_compute; reflexivity | apply Forall_nil; exact I].
Defined.

Lemma alloc_bulk_spec_witness :
  (∃ w', MbufPool.alloc_bulk 2 1 sample_world = Done (Err NoBuf, w') ∧
     obs w' = obs sample_world) ∨
  (∃ ps w' s, MbufPool.alloc_bulk 2 1 sample_world = Done (Ok ps, w') ∧
     d_pools (obs sample_world) !! 1 = Some s ∧ Z.of_nat (length ps) = 2 ∧
     list_to_set_disj ps ⊆ s ∧ Forall (λ p, p ≠ null) ps ∧
     d_pools (obs w') = <[1 := s ∖ list_to_set_disj ps]> (d_pools (obs sample_world))).
Proof. apply (alloc_bulk_spec 2 1 sample_world); [split |  |]; vm_compute; congruence. Defined.

(** On the sample state the three calls succeed. *)
Example from_bytes_sample :
  match MbufPool.from_bytes (prof := Release) [x0a; x0b; x0c] 1 sample_world with
  | Done (Ok p, w') => data <$> d_mbufs (obs w') !! p
  | _ => None
  end = Some [x0a; x0b; x0c].
Proof. vm_compute. reflexivity. Qed.

Example alloc_bulk_sample :
  match MbufPool.alloc_bulk 2 1 sample_world with Done (Ok ps, _) => length ps | _ => 0%nat end
  = 2%nat.
Proof. vm_compute. reflexivity. Qed.

Lemma mempool_new_lookup_witness :
  (∃ w', Mempool.new (EN := linux_errno) "POOL" sample_world
     = Done (Err (MemoryError_new (EN := linux_errno) (rte_errno w')), w') ∧
     obs w' = obs sample_world) ∨
  (∃ mp w' s w'', Mempool.new (EN := linux_errno) "POOL" sample_world = Done (Ok mp, w') ∧
     mp ≠ null ∧ d_pools (obs sample_world) !! mp = None ∧
     d_pools (obs w') !! mp = Some s ∧ size s = Z.to_nat Mempool.NUM_MBUFS ∧
     Mempool.lookup "POOL" w' = Done (Ok mp, w'') ∧ obs w'' = obs w').
Proof. exact (mempool_new_lookup (EN := linux_errno) "POOL" sample_world). Defined.
