(* ===== verification/Memring.v ===== *)
(** * Rings and channels ([l3enginelib/src/apis/memring.rs])

    A [Ring] wraps an [rte_ring]; a [Channel] is the pair of rings between the
    engine (the primary process) and the packetiser (the secondary).  A
    [&mut Mbuf] or [&mut Vec<Mbuf>] argument is passed in and returned. *)

From S2P Require Import Prelude Errors Mbuf Dpdk Sim Mempool.

Inductive RingType := P2E | E2P.

#[export] Instance RingType_eq_dec : EqDecision RingType.
Proof. solve_decision. Defined.

Record Ring_t := MkRing { rtype : RingType; ring_raw : ptr }.

Module Ring.
Section ring.
Context {EN : Errno} {H : Type} {DP : Dpdk H}.

Definition RING_F_SP_ENQ : Z := 0x0001.
Definition RING_F_SC_DEQ : Z := 0x0002.
Definition RING_FLAGS : Z := Z.lor RING_F_SP_ENQ RING_F_SC_DEQ.
Definition RING_CAPACITY : Z := 512.

(** [Ring::from_ptr]. *)
Definition from_ptr (rtype : RingType) (r : ptr) : result Ring_t MemoryError :=
  match NonNull_new r with
  | Some raw => Ok (MkRing rtype raw)
  | None => Err NoBuf
  end.

(** [Ring::name]. *)
Definition name_of (rtype : RingType) : string :=
  match rtype with P2E => "C2E" | E2P => "E2C" end.
Definition name (r : Ring_t) : string := name_of (rtype r).

(** [Ring::new]. *)
Definition new (rtype : RingType) (socket_id : Z) : M (world H) (result Ring_t MemoryError) :=
  match to_cstring (name_of rtype) with
  | Err e => mret (Err (MemoryError_from_nul e))
  | Ok nm =>
      r ← call (rte_ring_create nm RING_CAPACITY socket_id RING_FLAGS);
      match NonNull_new r with
      | Some raw => mret (Ok (MkRing rtype raw))
      | None => e ← ask rte_errno; mret (Err (MemoryError_new e))
      end
  end.

(** [Ring::lookup]. *)
Definition lookup (rtype : RingType) : M (world H) (result Ring_t MemoryError) :=
  match to_cstring (name_of rtype) with
  | Err e => mret (Err (MemoryError_from_nul e))
  | Ok nm =>
      raw ← call (rte_ring_lookup nm);
      if raw =? null then mret (Err NoEntries) else mret (from_ptr rtype raw)
  end.

(** [Ring::enqueue]: [pkt.into_ptr()] gives the buffer up whatever happens. *)
Definition enqueue (r : Ring_t) (pkt : ptr) : M (world H) (result unit MemoryError) :=
  rc ← call (rte_ring_enqueue (ring_raw r) pkt);
  if rc =? 0 then mret (Ok tt)
  else e ← ask rte_errno; mret (Err (MemoryError_new e)).

(** [Ring::dequeue]: DPDK stores the object in a temporary that was
    initialised with the buffer's pointer; the temporary is dropped. *)
Definition dequeue (r : Ring_t) (pkt : ptr) : M (world H) (result unit MemoryError * ptr) :=
  out ← call (rte_ring_dequeue (ring_raw r) pkt);
  let '(rc, _temporary) := out in
  if rc =? 0 then mret (Ok tt, pkt)
  else e ← ask rte_errno; mret (Err (MemoryError_new e), pkt).

(** [Ring::enqueue_bulk]: the vector is drained before its length is read. *)
Definition enqueue_bulk (r : Ring_t) (pkts : list ptr) : M (world H) (Z * list ptr) :=
  let ptrs := pkts in
  let pkts := [] in
  n ← call (rte_ring_enqueue_bulk (ring_raw r) ptrs
              (as_uint 32 (Z.of_nat (length (pkts : list ptr)))));
  mret (n, pkts).

(** [Ring::dequeue_burst]: the table [ptrs] has the pointers of the buffers in
    [pkts]; what DPDK writes to it is dropped with it. *)
Definition dequeue_burst (r : Ring_t) (pkts : list ptr) (rx_burst_max : Z)
    : M (world H) (Z * list ptr) :=
  if rx_burst_max * 8 >? 2 ^ 63 - 1 then panic else
  let ptrs := pkts in
  out ← call (rte_ring_dequeue_burst (ring_raw r) ptrs
                (as_uint 32 (Z.of_nat (length ptrs))));
  let '(cnt, _ptrs) := out in
  mret (cnt, pkts).

(** [impl Drop for Ring]. *)
Definition drop (r : Ring_t) : M (world H) unit := call_ (rte_ring_free (ring_raw r)).
End ring.
End Ring.

Record Channel_t := MkChannel { to_engine : Ring_t; to_packetiser : Ring_t }.

Module Channel.
Section channel.
Context {EN : Errno} {H : Type} {DP : Dpdk H}.

(** [Channel::new]: an error of the second ring drops the first. *)
Definition new : M (world H) (result Channel_t MemoryError) :=
  socket_id ← ask rte_socket_id;
  r ← Ring.new E2P (as_sint 32 socket_id);
  match r with
  | Err e => mret (Err e)
  | Ok engine_to_client =>
      r ← Ring.new P2E (as_sint 32 socket_id);
      match r with
      | Err e => Ring.drop engine_to_client ;; mret (Err e)
      | Ok client_to_engine => mret (Ok (MkChannel client_to_engine engine_to_client))
      end
  end.

(** [Channel::lookup]: likewise. *)
Definition lookup : M (world H) (result Channel_t MemoryError) :=
  r ← Ring.lookup E2P;
  match r with
  | Err e => mret (Err e)
  | Ok to_packetiser =>
      r ← Ring.lookup P2E;
      match r with
      | Err e => Ring.drop to_packetiser ;; mret (Err e)
      | Ok to_engine => mret (Ok (MkChannel to_engine to_packetiser))
      end
  end.

Definition send_to_engine (c : Channel_t) (pkt : ptr) := Ring.enqueue (to_engine c) pkt.
Definition receive_from_engine (c : Channel_t) (pkt : ptr) := Ring.dequeue (to_packetiser c) pkt.
Definition send_to_packetiser (c : Channel_t) (pkt : ptr) := Ring.enqueue (to_packetiser c) pkt.
Definition receive_from_packetiser (c : Channel_t) (pkt : ptr) := Ring.dequeue (to_engine c) pkt.
Definition send_to_packetiser_bulk (c : Channel_t) (pkts : list ptr) :=
  Ring.enqueue_bulk (to_packetiser c) pkts.
Definition recv_from_packetiser_bulk (c : Channel_t) (pkts : list ptr) (rx_burst_max : Z) :=
  Ring.dequeue_burst (to_engine c) pkts rx_burst_max.
Definition send_to_engine_bulk (c : Channel_t) (pkts : list ptr) :=
  Ring.enqueue_bulk (to_engine c) pkts.
Definition recv_from_engine_burst (c : Channel_t) (pkts : list ptr) (rx_burst_max : Z) :=
  Ring.dequeue_burst (to_packetiser c) pkts rx_burst_max.

(** Dropping a channel drops its rings, in the order of the fields. *)
Definition drop (c : Channel_t) : M (world H) unit :=
  Ring.drop (to_engine c) ;; Ring.drop (to_packetiser c).
End channel.
End Channel.

(** ** Lemmas *)

(** Replacing the objects of a ring. *)
Definition set_items (r : ptr) (rg : rte_ring) (items : list ptr) (o : dpdk) : dpdk :=
  set_rings (<[r := RteRing (rg_cap rg) items]> (d_rings o)) o.

Lemma set_items_id r rg o :
  d_rings o !! r = Some rg → set_items r rg (rg_items rg) o = o.
Proof.
  intros E. unfold set_items. rewrite insert_id; [by destruct o | by destruct rg].
Qed.

Section lemmas.
Context {EN : Errno} {H : Type} {DP : Dpdk H} {RL : RingLaws H}.
Implicit Types w : world H.

Lemma name_cstring t : to_cstring (Ring.name_of t) = Ok (Ring.name_of t).
Proof. by destruct t. Qed.

(** [enqueue_bulk] calls DPDK with a count of zero. *)
Lemma enqueue_bulk_run r rg pkts w :
  d_rings (obs w) !! ring_raw r = Some rg →
  Z.of_nat (length (rg_items rg)) ≤ rg_cap rg →
  ∃ w', Ring.enqueue_bulk r pkts w = Done ((0, []), w') ∧ obs w' = obs w.
Proof.
  intros E Hl. unfold Ring.enqueue_bulk. rewrite bind_call. change (as_uint 32 _) with 0.
  destruct (ring_enqueue_bulk_ok (ring_raw r) rg pkts 0 w E) as [H1 H2]; [lia | lia |].
  rewrite H1. eexists. split; [done |]. rewrite H2. change (Z.to_nat 0) with 0%nat.
  rewrite take_0, app_nil_r. by apply set_items_id.
Qed.

Lemma dequeue_burst_run r rg pkts n w :
  d_rings (obs w) !! ring_raw r = Some rg → 0 ≤ n → n * 8 < 2 ^ 63 →
  Z.of_nat (length pkts) < 2 ^ 32 →
  let k := Nat.min (length pkts) (length (rg_items rg)) in
  ∃ w', Ring.dequeue_burst r pkts n w = Done ((Z.of_nat k, pkts), w') ∧
    obs w' = set_items (ring_raw r) rg (skipn k (rg_items rg)) (obs w).
Proof.
  intros E Hn1 Hn2 Hl k. unfold Ring.dequeue_burst. rewrite Z.gtb_ltb.
  destruct (Z.ltb_spec (2 ^ 63 - 1) (n * 8)); [lia |]. cbv zeta.
  rewrite as_uint_id by (unfold is_uint; lia). rewrite bind_call.
  destruct (ring_dequeue_burst_ok (ring_raw r) rg pkts (Z.of_nat (length pkts)) w E)
    as [H1 H2]; [lia |].
  rewrite Nat2Z.id in H1, H2. rewrite H1. eexists. split; [done |]. exact H2.
Qed.

Lemma lookup_run t w :
  ∃ w', Ring.lookup t w = Done (match d_ring_names (obs w) !! Ring.name_of t with
      | Some r => if r =? null then Err NoEntries else Ok (MkRing t r)
      | None => Err NoEntries end, w') ∧ obs w' = obs w.
Proof.
  unfold Ring.lookup. rewrite name_cstring, bind_call.
  destruct (ring_lookup_ok (Ring.name_of t) w) as [H1 H2]. rewrite H1.
  destruct (d_ring_names (obs w) !! Ring.name_of t) as [r|]; simpl; [| eauto].
  unfold Ring.from_ptr, NonNull_new.
  destruct (Z.eqb_spec r 0); eauto.
Qed.

(** The rings of [ch] are registered under their names. *)
Definition channel_named (ch : Channel_t) (o : dpdk) : Prop :=
  ∃ r1 r2, ch = MkChannel (MkRing P2E r1) (MkRing E2P r2) ∧ r1 ≠ null ∧ r2 ≠ null ∧
    d_ring_names o !! Ring.name_of P2E = Some r1 ∧ d_ring_names o !! Ring.name_of E2P = Some r2.

(** What [Channel::lookup] finds depends on the names only. *)
Lemma channel_lookup_named ch w :
  channel_named ch (obs w) → ∃ w', Channel.lookup w = Done (Ok ch, w') ∧ obs w' = obs w.
Proof.
  intros (r1 & r2 & -> & N1 & N2 & E1 & E2). unfold Channel.lookup.
  destruct (lookup_run E2P w) as (w1 & L1 & O1). rewrite (bind_done _ _ _ _ _ L1), E2.
  destruct (Z.eqb_spec r2 0); [done |].
  destruct (lookup_run P2E w1) as (w2 & L2 & O2). rewrite (bind_done _ _ _ _ _ L2), O1, E1.
  destruct (Z.eqb_spec r1 0); [done |]. exists w2. split; [done |]. congruence.
Qed.

Lemma new_ring_cases t so w :
  (∃ w', Ring.new t so w = Done (Err (MemoryError_new (rte_errno w')), w') ∧ obs w' = obs w) ∨
  (∃ r w', Ring.new t so w = Done (Ok (MkRing t r), w') ∧ r ≠ null ∧
     d_rings (obs w) !! r = None ∧ d_ring_names (obs w) !! Ring.name_of t = None ∧
     obs w' = set_ring_names (<[Ring.name_of t := r]> (d_ring_names (obs w)))
       (set_rings (<[r := RteRing 511 []]> (d_rings (obs w))) (obs w))).
Proof.
  unfold Ring.new. rewrite name_cstring, bind_call.
  destruct (rte_ring_create _ _ _ _ w) as [r w'] eqn:E. simpl. unfold NonNull_new.
  destruct (Z.eqb_spec r 0) as [-> | Hr].
  - left. exists w'. split; [done |]. by eapply ring_create_null.
  - right. exists r, w'. destruct (ring_create_ok _ _ _ _ _ _ _ E Hr) as (? & ? & ?).
    by split_and!.
Qed.
End lemmas.

(** ** Properties *)

Section properties.
Context {EN : Errno} {H : Type} {DP : Dpdk H} {RL : RingLaws H}.
Implicit Types w : world H.

(** [Ring::enqueue] appends the buffer when the ring has room and reports
    success; on a full ring it reports the decoded [rte_errno] and changes
    nothing, although it has consumed the buffer: the buffer is in no ring and
    in no pool that did not have it before. *)
Lemma enqueue_spec r rg p w :
  d_rings (obs w) !! ring_raw r = Some rg →
  (Z.of_nat (length (rg_items rg)) < rg_cap rg →
   ∃ w', Ring.enqueue r p w = Done (Ok tt, w') ∧
     obs w' = set_items (ring_raw r) rg (rg_items rg ++ [p]) (obs w)) ∧
  (rg_cap rg ≤ Z.of_nat (length (rg_items rg)) →
   ∃ w', Ring.enqueue r p w = Done (Err (MemoryError_new (rte_errno w')), w') ∧
     obs w' = obs w).
Proof.
  intros E. unfold Ring.enqueue. rewrite bind_call. split; intros Hl.
  - destruct (ring_enqueue_ok (ring_raw r) rg p w E Hl) as [-> Ho]. eauto.
  - destruct (ring_enqueue_full (ring_raw r) rg p w E Hl) as [Hrc Ho].
    destruct (Z.eqb_spec (rte_ring_enqueue (ring_raw r) p w).1 0); [done |]. eauto.
Qed.

(** [Ring::dequeue] removes the oldest object of the ring and reports
    success, but the caller's buffer is the one it passed in: the object goes
    to a temporary and is lost.  On an empty ring it fails and changes
    nothing. *)
Lemma dequeue_spec r cap items pkt w :
  d_rings (obs w) !! ring_raw r = Some (RteRing cap items) →
  match items with
  | _lost :: rest =>
      ∃ w', Ring.dequeue r pkt w = Done ((Ok tt, pkt), w') ∧
        obs w' = set_items (ring_raw r) (RteRing cap items) rest (obs w)
  | [] =>
      ∃ w', Ring.dequeue r pkt w = Done ((Err (MemoryError_new (rte_errno w')), pkt), w') ∧
        obs w' = obs w
  end.
Proof.
  intros E. unfold Ring.dequeue. rewrite bind_call. destruct items as [|p rest].
  - destruct (ring_dequeue_empty (ring_raw r) cap pkt w E) as (Hrc & _ & Ho).
    destruct (rte_ring_dequeue _ _ w) as [[rc slot] w']. simpl in *.
    destruct (Z.eqb_spec rc 0); [done |]. eauto.
  - destruct (ring_dequeue_ok (ring_raw r) cap p rest pkt w E) as (Hrc & Ho).
    destruct (rte_ring_dequeue _ _ w) as [[rc slot] w']. simpl in *. simplify_eq. eauto.
Qed.

(** [Ring::enqueue_bulk] never enqueues anything: it empties the vector
    before it reads the vector's length, so DPDK is asked for zero objects, the
    answer is 0 and every buffer of the vector is leaked. *)
Lemma enqueue_bulk_spec r rg pkts w :
  d_rings (obs w) !! ring_raw r = Some rg →
  Z.of_nat (length (rg_items rg)) ≤ rg_cap rg →
  ∃ w', Ring.enqueue_bulk r pkts w = Done ((0, []), w') ∧ obs w' = obs w.
Proof. apply enqueue_bulk_run. Qed.

(** [Ring::dequeue_burst] asks for as many objects as the vector already
    has buffers, whatever [rx_burst_max] is: it takes that many (or all) from
    the ring in order, reports their number and leaves the vector as it was,
    so the objects are lost; with an empty vector it takes nothing. *)
Lemma dequeue_burst_spec r rg pkts n w :
  d_rings (obs w) !! ring_raw r = Some rg → 0 ≤ n → n * 8 < 2 ^ 63 →
  Z.of_nat (length pkts) < 2 ^ 32 →
  ∃ k lost kept w', rg_items rg = lost ++ kept ∧ length lost = k ∧
    k = Nat.min (length pkts) (length (rg_items rg)) ∧
    Ring.dequeue_burst r pkts n w = Done ((Z.of_nat k, pkts), w') ∧
    obs w' = set_items (ring_raw r) rg kept (obs w).
Proof.
  intros E Hn1 Hn2 Hl. destruct (dequeue_burst_run r rg pkts n w E Hn1 Hn2 Hl) as (w' & Er & Eo).
  do 4 eexists. split_and!; [symmetry; apply take_drop | | done | exact Er | exact Eo].
  rewrite length_take. lia.
Qed.

(** The two ways [Channel::new] returns, with a [lookup] after it. *)
Lemma channel_new_run w :
  (∃ e w', Channel.new w = Done (Err e, w') ∧ d_rings (obs w') = d_rings (obs w)) ∨
  (∃ c w' w'', Channel.new w = Done (Ok c, w') ∧
     ring_raw (to_engine c) ≠ ring_raw (to_packetiser c) ∧
     d_rings (obs w') !! ring_raw (to_engine c) = Some (RteRing 511 []) ∧
     d_rings (obs w') !! ring_raw (to_packetiser c) = Some (RteRing 511 []) ∧
     Channel.lookup w' = Done (Ok c, w'') ∧ obs w'' = obs w' ∧
     d_ports (obs w') = d_ports (obs w) ∧ d_pool_names (obs w') = d_pool_names (obs w) ∧
     channel_named c (obs w')).
Proof.
  unfold Channel.new. rewrite bind_ask.
  destruct (new_ring_cases E2P (as_sint 32 (rte_socket_id w)) w)
    as [(w1 & E1 & O1) | (r1 & w1 & E1 & N1 & F1 & G1 & O1)];
    rewrite (bind_done _ _ _ _ _ E1).
  { left. exists (MemoryError_new (rte_errno w1)), w1. by rewrite O1. }
  destruct (new_ring_cases P2E (as_sint 32 (rte_socket_id w)) w1)
    as [(w2 & E2 & O2) | (r2 & w2 & E2 & N2 & F2 & G2 & O2)];
    rewrite (bind_done _ _ _ _ _ E2).
  - left. unfold Ring.drop. rewrite bind_call_.
    eexists _, _. split; [done |]. simpl ring_raw.
    rewrite ring_free_ok by (rewrite O2, O1; simpl; by rewrite lookup_insert_eq).
    rewrite O2, O1. simpl. by apply delete_insert_id.
  - right. rewrite O1 in F2, G2. simpl in F2, G2. rewrite lookup_insert in F2.
    case_decide as Hne; [done |].
    destruct (lookup_run E2P w2) as (w3 & E3 & O3).
    destruct (lookup_run P2E w3) as (w4 & E4 & O4).
    exists (MkChannel (MkRing P2E r2) (MkRing E2P r1)), w2, w4. simpl.
    split; [done |]. split; [done |]. rewrite O2, O1. simpl.
    split; [by rewrite lookup_insert_eq |].
    split; [by rewrite lookup_insert_ne, lookup_insert_eq by done |].
    unfold Channel.lookup. rewrite (bind_done _ _ _ _ _ E3), O2, O1. simpl.
    rewrite lookup_insert_ne, lookup_insert_eq by done.
    destruct (Z.eqb_spec r1 0); [done |]. rewrite (bind_done _ _ _ _ _ E4), O3, O2, O1. simpl.
    rewrite lookup_insert_eq. destruct (Z.eqb_spec r2 0); [done |].
    split; [done |]. rewrite O4, O3, O2, O1. split; [done |]. split; [done |]. split; [done |].
    exists r2, r1. simpl. rewrite lookup_insert_eq, lookup_insert_ne, lookup_insert_eq by done. done.
Qed.

(** C36: [Channel::new] either leaves the rings as they were, the ring it had
    already created being freed when the second cannot be, or creates two
    distinct empty rings; [Channel::lookup], run after it by another process
    or the same, finds the same two rings in the same roles. *)
Theorem channel_new_lookup w :
  (∃ e w', Channel.new w = Done (Err e, w') ∧ d_rings (obs w') = d_rings (obs w)) ∨
  (∃ c w' w'', Channel.new w = Done (Ok c, w') ∧
     ring_raw (to_engine c) ≠ ring_raw (to_packetiser c) ∧
     d_rings (obs w') !! ring_raw (to_engine c) = Some (RteRing 511 []) ∧
     d_rings (obs w') !! ring_raw (to_packetiser c) = Some (RteRing 511 []) ∧
     Channel.lookup w' = Done (Ok c, w'') ∧ obs w'' = obs w').
Proof.
  destruct (channel_new_run w) as [? | (c & w' & w'' & ? & ? & ? & ? & ? & ? & _)]; [by left |].
  right. by exists c, w', w''.
Qed.

(** A [Channel::lookup] that fails half-way destroys the primary process's
    ring: the [Ring] found first is dropped by the early return, and its [Drop]
    frees the shared [rte_ring] with everything in it. *)
Lemma channel_lookup_frees w r :
  d_ring_names (obs w) !! "E2C" = Some r → r ≠ null → is_Some (d_rings (obs w) !! r) →
  d_ring_names (obs w) !! "C2E" = None →
  ∃ w', Channel.lookup w = Done (Err NoEntries, w') ∧
    d_rings (obs w') = delete r (d_rings (obs w)).
Proof.
  intros E Hr Hs N. unfold Channel.lookup.
  destruct (lookup_run E2P w) as (w1 & E1 & O1). rewrite (bind_done _ _ _ _ _ E1).
  simpl. rewrite E. destruct (Z.eqb_spec r 0); [done |].
  destruct (lookup_run P2E w1) as (w2 & E2 & O2). rewrite (bind_done _ _ _ _ _ E2).
  simpl. rewrite O1, N. unfold Ring.drop. rewrite bind_call_. simpl.
  eexists. split; [done |]. by rewrite ring_free_ok; rewrite O2, O1.
Qed.
End properties.

(** ** Witnesses *)

Definition sample_channel : Channel_t := MkChannel (MkRing P2E 1) (MkRing E2P 2).

Lemma enqueue_spec_witness :
  ∃ w', Ring.enqueue (EN := linux_errno) (to_engine sample_channel) 1501 sample_world
    = Done (Ok tt, w') ∧ obs w' = set_items 1 (RteRing 511 []) [1501] (obs sample_world).
Proof.
  apply (enqueue_spec (EN := linux_errno) (to_engine sample_channel) (RteRing 511 []));
    reflexivity.
Defined.

(** Object 1500 is in ring 2; the receiver keeps its own buffer 1501. *)
Lemma dequeue_spec_witness :
  ∃ w', Ring.dequeue (EN := linux_errno) (to_packetiser sample_channel) 1501 sample_world
    = Done ((Ok tt, 1501), w') ∧
    obs w' = set_items 2 (RteRing 511 [1500]) [] (obs sample_world).
Proof.
  apply (dequeue_spec (EN := linux_errno) (to_packetiser sample_channel) 511 [1500]).
  reflexivity.
Defined.

Lemma enqueue_bulk_spec_witness :
  ∃ w', Ring.enqueue_bulk (to_engine sample_channel) [1500; 1501] sample_world
    = Done ((0, []), w') ∧ obs w' = obs sample_world.
Proof.
  apply (enqueue_bulk_spec (to_engine sample_channel) (RteRing 511 [])); [reflexivity |].
  vm_compute. discriminate.
Defined.

Lemma dequeue_burst_spec_witness :
  ∃ k lost kept w', [1500] = lost ++ kept ∧ length lost = k ∧ k = 1%nat ∧
    Ring.dequeue_burst (to_packetiser sample_channel) [1501; 2500] 32 sample_world
    = Done ((Z.of_nat k, [1501; 2500]), w') ∧
    obs w' = set_items 2 (RteRing 511 [1500]) kept (obs sample_world).
Proof.
  refine (dequeue_burst_spec (to_packetiser sample_channel)
    (RteRing 511 [1500]) [1501; 2500] 32 sample_world _ _ _ _);
    vm_compute; congruence.
Defined.

Lemma channel_new_lookup_witness :
  (∃ e w', Channel.new (EN := linux_errno) sample_world = Done (Err e, w') ∧
     d_rings (obs w') = d_rings (obs sample_world)) ∨
  (∃ c w' w'', Channel.new (EN := linux_errno) sample_world = Done (Ok c, w') ∧
     ring_raw (to_engine c) ≠ ring_raw (to_packetiser c) ∧
     d_rings (obs w') !! ring_raw (to_engine c) = Some (RteRing 511 []) ∧
     d_rings (obs w') !! ring_raw (to_packetiser c) = Some (RteRing 511 []) ∧
     Channel.lookup w' = Done (Ok c, w'') ∧ obs w'' = obs w').
Proof. exact (channel_new_lookup (EN := linux_errno) sample_world). Defined.

(** The state of a primary process that has created its first ring only. *)
Definition half_world : sim :=
  set_obs (set_ring_names {["E2C" := 2]} sample_obs) sample_world.

Lemma channel_lookup_frees_witness :
  ∃ w', Channel.lookup half_world = Done (Err NoEntries, w') ∧
    d_rings (obs w') = delete 2 (d_rings (obs half_world)).
Proof.
  apply (channel_lookup_frees half_world 2);
    [reflexivity | discriminate | eexists; vm_compute; reflexivity | reflexivity].
Defined.
