(* ===== verification/Port.v ===== *)
(** * Ethernet ports ([l3enginelib/src/apis/port.rs] and the copy in
    [dpdk_loop/l3engine/src/apis/port.rs])

    Both crates have the same [Port] except for [configure]: the library passes
    [num_cores] to [rte_eth_dev_configure] and sets up the number rounded up to
    even of queues, the copy in [dpdk_loop] rounds first ([configure_loop]). *)

From S2P Require Import Prelude Errors Mbuf Dpdk Sim Mempool.

Record Port_t := MkPort { id : Z; device : string; dev_info : rte_eth_dev_info }.

Module Port.
Section port.
Context {prof : profile} {EN : Errno} {H : Type} {DP : Dpdk H}.

Definition DEFAULT_RSS_HF : Z :=
  Z.lor (Z.lor (Z.lor (Z.lor ETH_RSS_IP ETH_RSS_TCP) ETH_RSS_UDP) ETH_RSS_SCTP)
    ETH_RSS_L2_PAYLOAD.
Definition RTE_MP_RX_DESC_DEFAULT : Z := 512.
Definition RTE_MP_TX_DESC_DEFAULT : Z := 512.

(** The 40 bytes 6d 5a 6d 5a ... *)
Definition RSS_SYMMETRIC_KEY : list Z :=
  [0x6d; 0x5a; 0x6d; 0x5a; 0x6d; 0x5a; 0x6d; 0x5a; 0x6d; 0x5a; 0x6d; 0x5a; 0x6d; 0x5a; 0x6d;
   0x5a; 0x6d; 0x5a; 0x6d; 0x5a; 0x6d; 0x5a; 0x6d; 0x5a; 0x6d; 0x5a; 0x6d; 0x5a; 0x6d; 0x5a;
   0x6d; 0x5a; 0x6d; 0x5a; 0x6d; 0x5a; 0x6d; 0x5a; 0x6d; 0x5a].

(** [return Err(PortError::new())]. *)
Definition fail {A} : M (world H) (result A PortError) :=
  e ← ask rte_errno; mret (Err (PortError_new e)).

(** [match f() { 0 => {}, _ => return Err(PortError::new()) }]. *)
Definition check (f : world H → Z * world H) : M (world H) (result unit PortError) :=
  rc ← call f;
  if rc =? 0 then mret (Ok tt) else fail.

(** [Port::new]. *)
Definition new (device : string) (id : Z) : M (world H) (result Port_t PortError) :=
  out ← call (rte_eth_dev_info_get id eth_dev_info_default);
  let '(rc, dev_info) := out in
  if rc =? 0 then mret (Ok (MkPort id device dev_info)) else fail.

(** The device configuration [configure] builds. *)
Definition conf_of (self : Port_t) : eth_conf :=
  let offloads := Z.lor (Z.lor 0x2 0x4) 0x8 in
  let fast_free := DEV_TX_OFFLOAD_MBUF_FAST_FREE in
  {| rx_mq_mode := ETH_MQ_RX_RSS;
     max_rx_pkt_len := RTE_ETHER_MAX_LEN;
     split_hdr_size := 0;
     rx_offloads := DEV_RX_OFFLOAD_CHECKSUM;
     rss_hf := Z.land DEFAULT_RSS_HF (flow_type_rss_offloads (dev_info self));
     rss_key := RSS_SYMMETRIC_KEY;
     tx_mq_mode := 0;
     tx_offloads :=
       if Z.land (tx_offload_capa (dev_info self)) fast_free >? 0
       then Z.lor offloads fast_free else offloads |}.

(** [n_cores]: [num_cores] rounded up to even, in [u16]. *)
Definition even_cores (num_cores : Z) : outcome Z :=
  if num_cores mod 2 =? 1 then uadd 16 num_cores 1 else Done num_cores.

(** One turn of the loop over the queues. *)
Definition setup_queue (self : Port_t) (mempool : ptr) (i : Z)
    : M (world H) (result unit PortError) :=
  socket ← ask (rte_eth_dev_socket_id (id self));
  try_bind (λ e, e) (check (rte_eth_rx_queue_setup (id self) i RTE_MP_RX_DESC_DEFAULT
    (as_uint 32 socket) (default_rxconf (dev_info self)) mempool)) (λ _,
  socket ← ask (rte_eth_dev_socket_id (id self));
  check (rte_eth_tx_queue_setup (id self) i RTE_MP_TX_DESC_DEFAULT
    (as_uint 32 socket) (default_txconf (dev_info self)))).

(** The loop and the end of [configure]. *)
Definition setup_queues (self : Port_t) (mempool : ptr) (n_cores : Z)
    : M (world H) (result unit PortError) :=
  try_bind (λ e, e) (try_for (setup_queue self mempool) (seqZ 0 n_cores)) (λ _,
  check (rte_eth_promiscuous_enable (id self))).

(** [Port::configure] of [l3enginelib]. *)
Definition configure (self : Port_t) (num_cores : Z) (mempool : ptr)
    : M (world H) (result unit PortError) :=
  try_bind (λ e, e)
    (check (rte_eth_dev_configure (id self) num_cores num_cores (conf_of self))) (λ _,
  n_cores ← lift (even_cores num_cores);
  setup_queues self mempool n_cores).

(** [Port::configure] of [dpdk_loop]. *)
Definition configure_loop (self : Port_t) (num_cores : Z) (mempool : ptr)
    : M (world H) (result unit PortError) :=
  n_cores ← lift (even_cores num_cores);
  try_bind (λ e, e)
    (check (rte_eth_dev_configure (id self) n_cores n_cores (conf_of self))) (λ _,
  setup_queues self mempool n_cores).

(** [Port::start]. *)
Definition start (self : Port_t) : M (world H) (result unit PortError) :=
  check (rte_eth_dev_start (id self)).

(** [Port::get_name]. *)
Definition get_name (self : Port_t) : string := device self.

(** [Port::receive]: [set_len] beyond the capacity is undefined. *)
Definition receive (self : Port_t) (queue_id sz : Z) : M (world H) (list ptr) :=
  if sz * 8 >? 2 ^ 63 - 1 then panic else
  ptrs ← call (rte_eth_rx_burst (id self) queue_id (as_uint 16 sz));
  if Z.of_nat (length ptrs) >? sz then undefined else mret ptrs.

(** [Port::send]. *)
Definition send (self : Port_t) (pkts : list ptr) (queue_id : Z) : M (world H) Z :=
  let len := Z.of_nat (length pkts) in
  let ptrs := pkts in
  count ← call (rte_eth_tx_burst (id self) queue_id ptrs (as_uint 16 (Z.of_nat (length ptrs))));
  (if count <? len then MbufPool.mod_mbuf_free_bulk ptrs else mret tt) ;;
  mret count.
End port.
End Port.

(** ** Lemmas *)

Section lemmas.
Context {EN : Errno} {H : Type} {DP : Dpdk H} {EL : EthLaws H}.
Implicit Types w : world H.

Lemma check_cases (f : world H → Z * world H) w :
  (∃ w', f w = (0, w') ∧ Port.check f w = Done (Ok tt, w')) ∨
  (∃ rc w', f w = (rc, w') ∧ rc ≠ 0 ∧
     Port.check f w = Done (Err (PortError_new (rte_errno w')), w')).
Proof.
  unfold Port.check. rewrite bind_call. destruct (f w) as [rc w'] eqn:E. simpl.
  destruct (Z.eqb_spec rc 0) as [-> |]; [left | right]; eauto.
Qed.

Lemma try_bind_ok {A B E E'} (f : E → E') (m : M (world H) (result A E))
    (k : A → M (world H) (result B E')) w a w' :
  m w = Done (Ok a, w') → try_bind f m k w = k a w'.
Proof. intros Em. unfold try_bind. by rewrite (bind_done _ _ _ _ _ Em). Qed.

Lemma try_bind_err {A B E E'} (f : E → E') (m : M (world H) (result A E))
    (k : A → M (world H) (result B E')) w e w' :
  m w = Done (Err e, w') → try_bind f m k w = Done (Err (f e), w').
Proof. intros Em. unfold try_bind. by rewrite (bind_done _ _ _ _ _ Em). Qed.

Lemma on_port_lookup i f o e :
  d_ports o !! i = Some e → d_ports (on_port i f o) !! i = Some (f e).
Proof. intros E. unfold on_port. simpl. by rewrite lookup_alter_eq, E. Qed.

(** A queue set up with success is in the configured range. *)
Lemma setup_queue_cases self mp i w e :
  d_ports (obs w) !! id self = Some e →
  (∃ w', Port.setup_queue self mp i w = Done (Ok tt, w') ∧ 0 ≤ i < ep_nb_rx e ∧
     i < ep_nb_tx e ∧ d_ports (obs w') !! id self = Some (add_txq i (add_rxq i e))) ∨
  (∃ err w', Port.setup_queue self mp i w = Done (Err err, w')).
Proof.
  intros E. unfold Port.setup_queue. rewrite bind_ask.
  match goal with |- context [try_bind _ (Port.check ?f)] =>
    destruct (check_cases f w) as [(w1 & F1 & C1) | (rc & w1 & _ & _ & C1)] end.
  2: { right. erewrite try_bind_err by exact C1. eauto. }
  erewrite try_bind_ok by exact C1. rewrite bind_ask.
  destruct (eth_rx_queue_setup_range _ _ _ _ _ _ _ _ e E F1) as [Hr O1].
  assert (E1 : d_ports (obs w1) !! id self = Some (add_rxq i e))
    by (rewrite O1; by apply on_port_lookup).
  match goal with |- context [Port.check ?f] =>
    destruct (check_cases f w1) as [(w2 & F2 & C2) | (rc & w2 & _ & _ & C2)] end.
  2: { right. eauto. }
  left. exists w2. destruct (eth_tx_queue_setup_range _ _ _ _ _ _ _ _ E1 F2) as [Ht O2].
  simpl in Ht. split; [done |]. split; [done |]. split; [lia |].
  rewrite O2. by apply on_port_lookup.
Qed.

(** The queues added by the whole loop. *)
Definition add_queues (l : list Z) (e : eth_port) : eth_port :=
  EthPort (ep_nb_rx e) (ep_nb_tx e) (ep_rxq e ++ l) (ep_txq e ++ l) (ep_promisc e)
    (ep_started e) (ep_inflight e).

Lemma setup_loop_cases self mp l w e :
  d_ports (obs w) !! id self = Some e →
  (∃ w', try_for (Port.setup_queue self mp) l w = Done (Ok tt, w') ∧
     Forall (λ i, 0 ≤ i < ep_nb_rx e) l ∧
     d_ports (obs w') !! id self = Some (add_queues l e)) ∨
  (∃ err w', try_for (Port.setup_queue self mp) l w = Done (Err err, w')).
Proof.
  revert w e. induction l as [|i l IH]; intros w e E; simpl.
  - left. exists w. split_and!; [done | done |]. rewrite E. f_equal.
    unfold add_queues. destruct e. simpl. by rewrite !app_nil_r.
  - destruct (setup_queue_cases self mp i w e E) as [(w1 & C1 & R1 & _ & E1) | (err & w1 & C1)];
      rewrite (bind_done _ _ _ _ _ C1); [| right; eauto].
    destruct (IH w1 _ E1) as [(w2 & C2 & R2 & E2) | (err & w2 & C2)]; [| right; eauto].
    left. exists w2. split_and!; [done | by constructor |]. rewrite E2. f_equal.
    unfold add_queues, add_txq, add_rxq. simpl. by rewrite <- !app_assoc.
Qed.

Lemma setup_queues_cases self mp n w e :
  d_ports (obs w) !! id self = Some e → 0 ≤ n →
  (∃ w', Port.setup_queues self mp n w = Done (Ok tt, w') ∧ (0 < n → n ≤ ep_nb_rx e) ∧
     d_ports (obs w') !! id self = Some (set_promisc (add_queues (seqZ 0 n) e))) ∨
  (∃ err w', Port.setup_queues self mp n w = Done (Err err, w')).
Proof.
  intros E Hn. unfold Port.setup_queues.
  destruct (setup_loop_cases self mp (seqZ 0 n) w e E) as [(w1 & C1 & R1 & E1) | (err & w1 & C1)].
  2: { right. erewrite try_bind_err by exact C1. eauto. }
  erewrite try_bind_ok by exact C1.
  match goal with |- context [Port.check ?f] =>
    destruct (check_cases f w1) as [(w2 & F2 & C2) | (rc & w2 & _ & _ & C2)] end; [| right; eauto].
  left. exists w2. split_and!; [done | |].
  - intros Hp. rewrite Forall_forall in R1.
    assert (n - 1 ∈ seqZ 0 n) as Hin%R1 by (apply elem_of_seqZ; lia). lia.
  - pose proof (eth_promiscuous_ok _ _ _ _ F2) as O2. simpl in O2. rewrite O2.
    by apply on_port_lookup.
Qed.
End lemmas.

(** ** Properties *)

Section properties.
Context {prof : profile} {EN : Errno} {H : Type} {DP : Dpdk H} {EL : EthLaws H}.
Implicit Types w : world H.

Lemma even_cores_ok n :
  is_uint 16 n → n ≠ 65535 → Port.even_cores n = Done (n + n mod 2).
Proof.
  intros [? ?] ?. unfold Port.even_cores.
  pose proof (Z.mod_pos_bound n 2 ltac:(lia)).
  destruct (Z.eqb_spec (n mod 2) 1) as [-> |].
  - autorewrite with vdp. done.
  - replace (n mod 2) with 0 by lia. by rewrite Z.add_0_r.
Qed.

(** The library's [configure] with an odd number of cores. *)
Lemma configure_odd_run self n mp w :
  is_Some (d_ports (obs w) !! id self) → is_uint 16 n → n ≠ 65535 → n mod 2 = 1 →
  ∃ err w', Port.configure self n mp w = Done (Err err, w').
Proof.
  intros [e E] Hn Hb Ho. unfold Port.configure.
  match goal with |- context [try_bind _ (Port.check ?f)] =>
    destruct (check_cases f w) as [(w1 & F1 & C1) | (rc & w1 & _ & _ & C1)] end.
  2: { erewrite try_bind_err by exact C1. eauto. }
  erewrite try_bind_ok by exact C1. rewrite even_cores_ok, Ho by done. autorewrite with vdp.
  assert (E1 : d_ports (obs w1) !! id self = Some (configured n n e)).
  { rewrite (eth_configure_ok _ _ _ _ _ _ F1). by apply on_port_lookup. }
  destruct Hn as [? ?].
  destruct (setup_queues_cases self mp (n + 1) w1 _ E1) as [(w2 & C2 & R2 & E2) |];
    [lia | simpl in R2; lia | done].
Qed.

(** With an odd number of cores [Port::configure] of the library can never
    succeed on a device that exists: it gives [rte_eth_dev_configure] the odd
    number of queues and then sets up one queue more, whose index is outside
    the configured range.  (The engine calls it with one core and unwraps the
    result.) *)
Lemma configure_odd_fails self n mp w :
  is_Some (d_ports (obs w) !! id self) → is_uint 16 n → n ≠ 65535 → n mod 2 = 1 →
  ∃ err w', Port.configure self n mp w = Done (Err err, w').
Proof. apply configure_odd_run. Qed.

(** C38: with an even number of cores the two versions of [configure] are the
    same function, and when it succeeds the device has that many receive and
    transmit queues, each set up exactly once and in order, and is in
    promiscuous mode. *)
Theorem configure_even self n mp w e :
  d_ports (obs w) !! id self = Some e → is_uint 16 n → n mod 2 = 0 →
  Port.configure self n mp w = Port.configure_loop self n mp w ∧
  ((∃ w', Port.configure self n mp w = Done (Ok tt, w') ∧
     d_ports (obs w') !! id self
     = Some (set_promisc (add_queues (seqZ 0 n) (configured n n e)))) ∨
   (∃ err w', Port.configure self n mp w = Done (Err err, w'))).
Proof.
  intros E Hn He.
  assert (Hc : Port.even_cores n = Done n) by (unfold Port.even_cores; by rewrite He).
  unfold Port.configure, Port.configure_loop. rewrite Hc. autorewrite with vdp. split.
  { unfold try_bind, mbind, M_bind, lift. by destruct (Port.check _ w) as [[[] ?] | |]. }
  match goal with |- context [try_bind _ (Port.check ?f)] =>
    destruct (check_cases f w) as [(w1 & F1 & C1) | (rc & w1 & _ & _ & C1)] end.
  2: { right. erewrite try_bind_err by exact C1. eauto. }
  erewrite !try_bind_ok by exact C1. autorewrite with vdp.
  assert (E1 : d_ports (obs w1) !! id self = Some (configured n n e)).
  { rewrite (eth_configure_ok _ _ _ _ _ _ F1). by apply on_port_lookup. }
  destruct Hn as [? ?].
  destruct (setup_queues_cases self mp n w1 _ E1) as [(w2 & C2 & _ & E2) |]; eauto.
Qed.

Lemma configure_loop_cases self n mp w e :
  d_ports (obs w) !! id self = Some e → is_uint 16 n → n ≠ 65535 →
  (∃ w', Port.configure_loop self n mp w = Done (Ok tt, w') ∧
     d_ports (obs w') !! id self = Some (set_promisc (add_queues (seqZ 0 (n + n mod 2))
       (configured (n + n mod 2) (n + n mod 2) e)))) ∨
  (∃ err w', Port.configure_loop self n mp w = Done (Err err, w')).
Proof.
  intros E Hn Hb. set (m := n + n mod 2).
  unfold Port.configure_loop. rewrite even_cores_ok by done. fold m. autorewrite with vdp.
  match goal with |- context [try_bind _ (Port.check ?f)] =>
    destruct (check_cases f w) as [(w1 & F1 & C1) | (rc & w1 & _ & _ & C1)] end.
  2: { right. erewrite try_bind_err by exact C1. eauto. }
  erewrite !try_bind_ok by exact C1.
  assert (E1 : d_ports (obs w1) !! id self = Some (configured m m e)).
  { rewrite (eth_configure_ok _ _ _ _ _ _ F1). by apply on_port_lookup. }
  destruct Hn as [? ?]. pose proof (Z.mod_pos_bound n 2 ltac:(lia)).
  destruct (setup_queues_cases self mp m w1 _ E1) as [(w2 & C2 & _ & E2) |];
    [unfold m; lia | eauto | eauto].
Qed.

(** [configure] of [dpdk_loop] rounds the number of cores up first: when it
    succeeds the device has an even number of queues, all of them configured
    and set up; with 65535 cores the rounding overflows [u16], which panics in
    a build with overflow checks. *)
Lemma configure_loop_spec self n mp w e :
  d_ports (obs w) !! id self = Some e → is_uint 16 n →
  (n ≠ 65535 → let m := n + n mod 2 in m mod 2 = 0 ∧
   ((∃ w', Port.configure_loop self n mp w = Done (Ok tt, w') ∧
      d_ports (obs w') !! id self
      = Some (set_promisc (add_queues (seqZ 0 m) (configured m m e)))) ∨
    (∃ err w', Port.configure_loop self n mp w = Done (Err err, w')))) ∧
  (n = 65535 → prof = Debug → Port.configure_loop self n mp w = Panicked).
Proof.
  intros E Hn. split; [| by intros -> ->].
  intros Hb m. split.
  { unfold m. rewrite Z.add_mod_idemp_r by lia. replace (n + n) with (n * 2) by lia.
    by apply Z.mod_mul. }
  by apply configure_loop_cases.
Qed.

(** [receive] returns what the law of [rte_eth_rx_burst] promises. *)
Lemma receive_run self q sz w :
  0 ≤ sz → sz * 8 < 2 ^ 63 →
  ∃ ps w', Port.receive self q sz w = Done (ps, w') ∧
    Z.of_nat (length ps) ≤ sz mod 2 ^ 16 ≤ sz ∧ NoDup ps ∧
    d_rings (obs w') = d_rings (obs w) ∧
    d_ports (obs w') = d_ports (obs w) ∧
    (∀ p, p ∈ ps → p ≠ null ∧ (∃ b, d_mbufs (obs w') !! p = Some b ∧ mbuf_wf b) ∧
       ∀ mp s, d_pools (obs w') !! mp = Some s → p ∉ s) ∧
    d_ring_names (obs w') = d_ring_names (obs w).
Proof.
  intros H1 H2. unfold Port.receive. rewrite Z.gtb_ltb.
  destruct (Z.ltb_spec (2 ^ 63 - 1) (sz * 8)); [lia |]. rewrite bind_call.
  pose proof (as_uint_range 16 sz ltac:(lia)) as [? ?].
  assert (as_uint 16 sz ≤ sz) by (by apply Z.mod_le).
  destruct (rte_eth_rx_burst _ _ _ w) as [ps w'] eqn:E. simpl.
  destruct (eth_rx_burst_ok _ _ _ _ _ _ E) as (L1 & L2 & L3 & L4 & L5 & L6); [done |].
  rewrite Z.gtb_ltb. destruct (Z.ltb_spec sz (Z.of_nat (length ps))); [lia |].
  exists ps, w'. by split_and!.
Qed.

(** [Port::receive] never faults and returns at most [sz] distinct live
    buffers, which no mempool counts as free; because the size is cast to
    [u16], a request for 65536 packets asks the device for none. *)
Lemma receive_spec self q sz w :
  0 ≤ sz → sz * 8 < 2 ^ 63 →
  ∃ ps w', Port.receive self q sz w = Done (ps, w') ∧
    Z.of_nat (length ps) ≤ sz mod 2 ^ 16 ≤ sz ∧ NoDup ps ∧
    d_rings (obs w') = d_rings (obs w) ∧
    (∀ p, p ∈ ps → p ≠ null ∧ (∃ b, d_mbufs (obs w') !! p = Some b ∧ mbuf_wf b) ∧
       ∀ mp s, d_pools (obs w') !! mp = Some s → p ∉ s).
Proof.
  intros H1 H2. destruct (receive_run self q sz w H1 H2) as (ps & w' & ? & ? & ? & ? & _ & ? & _).
  by exists ps, w'.
Qed.

(** Sending no packet asks the driver for nothing: it may only release packets
    it has sent before. *)
Lemma send_nothing_run self q w e :
  d_ports (obs w) !! id self = Some e →
  ∃ w', Port.send self [] q w = Done (0, w') ∧ d_rings (obs w') = d_rings (obs w) ∧
    d_ring_names (obs w') = d_ring_names (obs w) ∧
    ∃ e', d_ports (obs w') !! id self = Some e' ∧ ep_inflight e' ⊆ ep_inflight e.
Proof.
  intros E. unfold Port.send. cbv zeta. rewrite bind_call.
  change (as_uint 16 _) with 0. destruct (eth_tx_burst_ok (id self) q [] 0 w e E)
    as (k & sent & R & Hk & Hs & O); [simpl; lia |].
  rewrite R. assert (k = 0%nat) as -> by lia. change (Z.of_nat 0 <? Z.of_nat (length [])) with false.
  eexists. split; [done |]. rewrite O. unfold on_port. simpl.
  assert (F : ∀ l, d_rings (foldr put_one (obs w) l) = d_rings (obs w) ∧
    d_ports (foldr put_one (obs w) l) = d_ports (obs w) ∧
    d_ring_names (foldr put_one (obs w) l) = d_ring_names (obs w)).
  { induction l as [|x l (IH1 & IH2 & IH3)]; [done |]. simpl.
    destruct (put_one_frame x (foldr put_one (obs w) l)) as (_ & -> & -> & -> & _). done. }
  destruct (F sent) as (-> & -> & ->). split; [done |]. split; [done |]. eexists. rewrite lookup_alter_eq, E. split; [done |].
  simpl. multiset_solver.
Qed.

Context {ML : MempoolLaws H}.

(** Releasing sent packets does not change the devices. *)
Lemma on_port_lookup_foldr i f o e l :
  d_ports o !! i = Some e → d_ports (on_port i f (foldr put_one o l)) !! i = Some (f e).
Proof.
  intros E. apply on_port_lookup. induction l as [|x l IH]; [done |]. simpl.
  by destruct (put_one_frame x (foldr put_one o l)) as (_ & _ & -> & _).
Qed.

(** [send] of at least one packet. *)
Lemma send_run self q p b l w e :
  d_ports (obs w) !! id self = Some e → Z.of_nat (length (p :: l)) < 2 ^ 16 →
  all_mapped (p :: l) (obs w) → d_mbufs (obs w) !! p = Some b →
  ∃ k sent o1 w', Port.send self (p :: l) q w = Done (Z.of_nat k, w') ∧
    (k ≤ length (p :: l))%nat ∧
    (* what the driver did *)
    o1 = on_port (id self) (set_inflight ((ep_inflight e ∖ list_to_set_disj sent)
           ⊎ list_to_set_disj (take k (p :: l)))) (foldr put_one (obs w) sent) ∧
    (* what the code does on top *)
    obs w' = (if decide (k < length (p :: l))%nat
              then add_to_pool (m_pool b) (list_to_set_disj (p :: l)) o1 else o1).
Proof.
  intros E Hl Hm Hb. unfold Port.send. cbv zeta. rewrite bind_call.
  rewrite as_uint_id by (unfold is_uint; lia).
  destruct (eth_tx_burst_ok (id self) q (p :: l) (Z.of_nat (length (p :: l))) w e E)
    as (k & sent & R & Hk & _ & O); [lia |].
  rewrite R. set (w1 := (rte_eth_tx_burst _ _ _ _ w).2) in *.
  assert (Hmb : d_mbufs (obs w1) = d_mbufs (obs w)).
  { rewrite O. unfold on_port. simpl. clear. induction sent as [|x sent IH]; [done |].
    simpl. by rewrite (proj1 (put_one_frame x _)). }
  exists k, sent, (obs w1). destruct (Z.ltb_spec (Z.of_nat k) (Z.of_nat (length (p :: l)))).
  - destruct (mbuf_free_bulk_run p b l w1) as (w2 & E2 & O2);
      [unfold all_mapped; by rewrite Hmb | by rewrite Hmb | lia |].
    exists w2. erewrite bind_done by exact E2. rewrite decide_True by lia.
    split_and!; [done | lia | done | done].
  - exists w1. rewrite decide_False by lia. split_and!; [done | lia | done | done].
Qed.

(** C37: [Port::send] gives a prefix of the packets to the driver and answers
    its length [k]; when [k] is smaller than the number of packets it puts all
    of the packets, the [k] sent ones included, into the mempool of the first:
    a packet that was sent is then owned by the driver and free at the same
    time.  When all are sent nothing is freed. *)
Theorem send_spec self q p b l w e :
  d_ports (obs w) !! id self = Some e → Z.of_nat (length (p :: l)) < 2 ^ 16 →
  all_mapped (p :: l) (obs w) → d_mbufs (obs w) !! p = Some b →
  ∃ k sent o1 w', Port.send self (p :: l) q w = Done (Z.of_nat k, w') ∧
    (k ≤ length (p :: l))%nat ∧
    (* what the driver did *)
    o1 = on_port (id self) (set_inflight ((ep_inflight e ∖ list_to_set_disj sent)
           ⊎ list_to_set_disj (take k (p :: l)))) (foldr put_one (obs w) sent) ∧
    (* what the code does on top *)
    obs w' = (if decide (k < length (p :: l))%nat
              then add_to_pool (m_pool b) (list_to_set_disj (p :: l)) o1 else o1).
Proof. apply send_run. Qed.
End properties.

(** ** Witnesses *)

Definition sample_port : Port_t := MkPort 0 "port0" (EthDevInfo 0x2e 0x10000 [] []).

Lemma configure_odd_fails_witness :
  ∃ err w', Port.configure (prof := Debug) (EN := linux_errno) sample_port 1 1 sample_world
    = Done (Err err, w').
Proof.
  apply (configure_odd_fails (prof := Debug) (EN := linux_errno) sample_port 1 1 sample_world);
    [eexists; vm_compute; reflexivity | unfold is_uint; lia | lia | reflexivity].
Defined.

Lemma configure_even_witness :
  Port.configure (prof := Debug) (EN := linux_errno) sample_port 2 1 sample_world
  = Port.configure_loop (prof := Debug) (EN := linux_errno) sample_port 2 1 sample_world.
Proof.
  apply (configure_even (prof := Debug) (EN := linux_errno) sample_port 2 1 sample_world
    (EthPort 0 0 [] [] false false ∅)); [reflexivity | unfold is_uint; lia | reflexivity].
Defined.

Lemma configure_loop_spec_witness :
  (∃ w', Port.configure_loop (prof := Debug) (EN := linux_errno) sample_port 1 1 sample_world
     = Done (Ok tt, w') ∧ d_ports (obs w') !! 0
     = Some (set_promisc (add_queues [0; 1] (configured 2 2 (EthPort 0 0 [] [] false false ∅))))) ∨
  (∃ err w', Port.configure_loop (prof := Debug) (EN := linux_errno) sample_port 1 1 sample_world
     = Done (Err err, w')).
Proof.
  refine (proj2 (proj1 (configure_loop_spec (prof := Debug) (EN := linux_errno) sample_port 1 1
    sample_world (EthPort 0 0 [] [] false false ∅) _ _) _));
    [reflexivity | unfold is_uint; lia | lia].
Defined.

(** On the sample device the copy of [dpdk_loop] succeeds with one core. *)
Example configure_loop_sample :
  match Port.configure_loop (prof := Debug) (EN := linux_errno) sample_port 1 1 sample_world with
  | Done (Ok _, _) => true | _ => false end = true.
Proof. vm_compute. reflexivity. Qed.

Lemma receive_spec_witness :
  ∃ ps w', Port.receive sample_port 0 32 sample_world = Done (ps, w') ∧
    Z.of_nat (length ps) ≤ 32 mod 2 ^ 16 ≤ 32 ∧ NoDup ps ∧
    d_rings (obs w') = d_rings (obs sample_world) ∧
    (∀ p, p ∈ ps → p ≠ null ∧ (∃ b, d_mbufs (obs w') !! p = Some b ∧ mbuf_wf b) ∧
       ∀ mp s, d_pools (obs w') !! mp = Some s → p ∉ s).
Proof. apply (receive_spec sample_port 0 32 sample_world); lia. Defined.

Lemma send_spec_witness :
  ∃ k sent o1 w', Port.send sample_port [1500; 1501] 1 sample_world = Done (Z.of_nat k, w') ∧
    (k ≤ 2)%nat ∧
    o1 = on_port 0 (set_inflight ((∅ ∖ list_to_set_disj sent)
           ⊎ list_to_set_disj (take k [1500; 1501]))) (foldr put_one (obs sample_world) sent) ∧
    obs w' = (if decide (k < 2)%nat
              then add_to_pool 1 (list_to_set_disj [1500; 1501]) o1 else o1).
Proof.
  refine (send_spec sample_port 1 1500 (sample_buf 1) [1501] sample_world
    (EthPort 0 0 [] [] false false ∅) _ _ _ _); [reflexivity | simpl; lia | | reflexivity].
  apply Forall_cons; split; [eexists; vm_compute; reflexivity |].
  apply Forall_cons; split; [eexists; vm_compute; reflexivity | apply Forall_nil; exact I].
Defined.

(** The double ownership: after sending two packets to a device with room for
    one, packet 1500 is in flight and free in its pool. *)
Example send_double_owner :
  match Port.send sample_port [1500; 1501] 1 sample_world with
  | Done (k, w') =>
      (k, bool_decide (1500 ∈ default ∅ (ep_inflight <$> d_ports (obs w') !! 0)),
       bool_decide (1500 ∈ default ∅ (d_pools (obs w') !! 1)))
  | _ => (0, false, false)
  end = (1, true, true).
Proof. vm_compute. reflexivity. Qed.
