(* ===== verification/Engine.v ===== *)
(** * The engine ([l3enginelib/src/main.rs], [eal_init] and [eal_cleanup] of
    [apis/mod.rs])

    The primary process: start-up, one turn of the receive and transmit loop,
    and the program.  [Vec<Mbuf>] is modelled with its capacity, which the
    loop reads. *)

From S2P Require Import Prelude Errors Mbuf Dpdk Sim Shim Mempool Memring Port.

(** A vector of owned buffers. *)
Record vec := Vec { v_items : list ptr; v_cap : Z }.

Definition vec_with_capacity (n : Z) : vec := Vec [] n.

(** [Vec::extend]: the capacity grows when the elements do not fit. *)
Definition vec_extend (v : vec) (l : list ptr) : vec :=
  Vec (v_items v ++ l) (Z.max (v_cap v) (Z.of_nat (length (v_items v ++ l)))).

(** The crates [zmq] and [ctrlc]: [false] is an error.  A socket has one owner
    and is part of the state. *)
Class Zmq (H : Type) := {
  zmq_socket : world H → bool * world H;
  zmq_bind : string → world H → bool * world H;
  zmq_recv : world H → bool * world H
}.

Class CtrlC (H : Type) := {
  set_handler : world H → bool * world H
}.

Module Eal.
Section eal.
Context {EN : Errno} {H : Type} {DP : Dpdk H}.

(** [CString::new(s).unwrap()] for every argument. *)
Fixpoint cstrings (args : list string) : outcome (list string) :=
  match args with
  | [] => Done []
  | s :: rest =>
      match to_cstring s with
      | Err _ => Panicked
      | Ok c => cs ← cstrings rest; Done (c :: cs)
      end
  end.

(** [eal_init]; the count of the arguments is the length of the list. *)
Definition eal_init (args : list string) : M (world H) (result unit EALErrors) :=
  args ← lift (cstrings args);
  rc ← call (rte_eal_init args);
  if rc =? -1 then e ← ask rte_errno; mret (Err (EALErrors_new e)) else mret (Ok tt).

(** [eal_cleanup]. *)
Definition eal_cleanup (mempool : ptr) : M (world H) (result unit EALErrors) :=
  call_ (rte_mempool_free mempool) ;;
  rc ← call rte_eal_cleanup;
  if rc =? 0 then mret (Ok tt) else mret (Err Fault).
End eal.
End Eal.

Module Engine.
Section engine.
Context {prof : profile} {EN : Errno} {H : Type} {DP : Dpdk H}.

Definition G_MEMPOOL_NAME : string := "GLOBAL_MEMPOOL".
Definition QUEUE_SZ : Z := 32.
Definition PACKETISER_ZMQ_PORT : string := "tcp://*:5555".

(** [handle_signal]: once it is installed, the handler clears [keep_running]. *)
Definition handle_signal `{CtrlC H} : M (world H) unit :=
  ok ← call set_handler; assert_ ok.

(** [recv_pkts]; [in_pkts] is passed in and returned. *)
Definition recv_pkts (port : Port_t) (in_pkts : vec) (ch : Channel_t) : M (world H) (Z * vec) :=
  len ← lift (usub 64 (v_cap in_pkts) (Z.of_nat (length (v_items in_pkts))));
  if len =? 0 then mret (0, in_pkts) else
  queue_id ← ask rte_lcore_id;
  ps ← Port.receive port (as_uint 16 queue_id) len;
  let in_pkts := vec_extend in_pkts ps in
  out ← Channel.send_to_packetiser_bulk ch (v_items in_pkts);
  let '(len, rest) := out in
  mret (len, Vec rest (v_cap in_pkts)).

(** [xmit_pkts]. *)
Definition xmit_pkts (port : Port_t) (out_pkts : vec) (ch : Channel_t) : M (world H) (Z * vec) :=
  len ← lift (usub 64 (v_cap out_pkts) (Z.of_nat (length (v_items out_pkts))));
  out_pkts ← (if len >? 0 then
      r ← Channel.recv_from_packetiser_bulk ch (v_items (vec_with_capacity len)) len;
      let '(_, pkts) := r in
      mret (vec_extend out_pkts pkts)
    else mret out_pkts);
  queue_id ← ask rte_lcore_id;
  num ← Port.send port (v_items out_pkts) (Z.lxor (as_uint 16 queue_id) 1);
  MbufPool.drop_all (v_items out_pkts) ;;
  mret (num, Vec [] (v_cap out_pkts)).

(** [n] turns of the [while] loop of [main]: Ctrl+C clears [keep_running]
    during the last one. *)
Fixpoint engine_loop (n : nat) (port : Port_t) (in_pkts out_pkts : vec) (ch : Channel_t)
    : M (world H) (vec * vec) :=
  match n with
  | O => mret (in_pkts, out_pkts)
  | S n =>
      r ← recv_pkts port in_pkts ch;
      t ← xmit_pkts port out_pkts ch;
      engine_loop n port r.2 t.2 ch
  end.

Definition args : list string :=
  ["-l 0-1"; "-n 4"; "--proc-type=primary"; "--base-virtaddr=0x7f000000000"; "--"; "-p 3"; "-n 2"].

(** The wait for the secondary process. *)
Definition wait_secondary `{Zmq H} : M (world H) unit :=
  ok ← call zmq_socket; assert_ ok ;;
  ok ← call (zmq_bind PACKETISER_ZMQ_PORT); assert_ ok ;;
  ok ← call zmq_recv; assert_ ok.

(** [main]: the environment, the mempool, the device, the channel, [n] turns of the
    loop, the end. *)
Definition main `{Zmq H} `{CtrlC H} (n : nat) : M (world H) ending :=
  r ← Eal.eal_init args; _ ← unwrap r;
  let cores := [0] in
  r ← Mempool.new G_MEMPOOL_NAME; mempool ← unwrap r;
  r ← Port.new "port0" 0; port ← unwrap r;
  r ← Port.configure port (as_uint 16 (Z.of_nat (length cores))) mempool; _ ← unwrap r;
  r ← Port.start port; _ ← unwrap r;
  wait_secondary ;;
  r ← Channel.new; channel ← unwrap r;
  handle_signal ;;
  engine_loop n port (vec_with_capacity QUEUE_SZ) (vec_with_capacity QUEUE_SZ) channel ;;
  e ← Shim._pkt_stop_and_close_ports;
  match e with
  | Exited c => mret (Exited c)
  | Returned => r ← Eal.eal_cleanup mempool; _ ← unwrap r; mret Returned
  end.
End engine.
End Engine.

(** ** Lemmas *)

(** The two rings of a channel exist and are not overfull. *)
Definition channel_ok (ch : Channel_t) (o : dpdk) : Prop :=
  ∃ rp re, d_rings o !! ring_raw (to_packetiser ch) = Some rp ∧
    d_rings o !! ring_raw (to_engine ch) = Some re ∧
    Z.of_nat (length (rg_items rp)) ≤ rg_cap rp ∧ Z.of_nat (length (rg_items re)) ≤ rg_cap re.

(** A vector whose elements fit its capacity, and that could be allocated. *)
Definition vec_ok (v : vec) : Prop :=
  Z.of_nat (length (v_items v)) ≤ v_cap v ∧ v_cap v * 8 < 2 ^ 63.

Section lemmas.
Context {prof : profile} {EN : Errno} {H : Type} {DP : Dpdk H} {RL : RingLaws H} {EL : EthLaws H}.
Implicit Types w : world H.

Lemma cstrings_ok args : Forall (λ s, to_cstring s = Ok s) args → Eal.cstrings args = Done args.
Proof. induction 1 as [|s l E _ IH]; simpl; [done |]. by rewrite E, IH. Qed.

Lemma mempool_new_returns name w : ∃ r w', Mempool.new name w = Done (r, w').
Proof.
  unfold Mempool.new. destruct (to_cstring name); [| by eauto].
  rewrite bind_ask, bind_call. destruct (NonNull_new _); [by eauto |].
  rewrite bind_ask. eauto.
Qed.

(** One call of [recv_pkts]: [ps] are the packets it took from the device. *)
Lemma recv_pkts_run port v ch w :
  vec_ok v → channel_ok ch (obs w) →
  ∃ ps w', Engine.recv_pkts port v ch w
      = Done ((0, if decide (Z.of_nat (length (v_items v)) = v_cap v)
                  then v else Vec [] (v_cap v)), w') ∧
    d_rings (obs w') = d_rings (obs w) ∧ d_ports (obs w') = d_ports (obs w) ∧
    Z.of_nat (length ps) ≤ v_cap v - Z.of_nat (length (v_items v)) ∧
    (∀ p, p ∈ ps → ∀ mp s, d_pools (obs w') !! mp = Some s → p ∉ s) ∧
    d_ring_names (obs w') = d_ring_names (obs w).
Proof.
  intros [V1 V2] (rp & re & E1 & _ & L1 & _). unfold Engine.recv_pkts.
  rewrite usub_exact, bind_lift_done by (unfold is_uint; lia).
  destruct (Z.eqb_spec (v_cap v - Z.of_nat (length (v_items v))) 0); cbv match.
  { exists [], w. rewrite decide_True by lia. split_and!; try done; [simpl; lia |].
    intros p []%elem_of_nil. }
  rewrite bind_ask.
  destruct (receive_run port (as_uint 16 (rte_lcore_id w))
    (v_cap v - Z.of_nat (length (v_items v))) w) as (ps & w1 & R1 & R2 & _ & R3 & R4 & R5 & R6);
    [lia | lia |].
  rewrite (bind_done _ _ _ _ _ R1). cbv zeta.
  destruct (enqueue_bulk_run (to_packetiser ch) rp (v_items (vec_extend v ps)) w1)
    as (w2 & Q1 & Q2); [by rewrite R3 | done |].
  rewrite (bind_done _ _ _ _ _ Q1). rewrite decide_False by lia.
  exists ps, w2. rewrite Q2. split_and!; try done; [| lia |].
  - unfold vec_extend, mret, M_ret. simpl. do 4 f_equal. len.
  - intros p Hp. by apply R5.
Qed.

(** One call of [xmit_pkts] with nothing held back. *)
Lemma xmit_pkts_run port cap ch w e :
  vec_ok (Vec [] cap) → channel_ok ch (obs w) → d_ports (obs w) !! id port = Some e →
  ∃ w', Engine.xmit_pkts port (Vec [] cap) ch w = Done ((0, Vec [] cap), w') ∧
    d_rings (obs w') = d_rings (obs w) ∧ d_ring_names (obs w') = d_ring_names (obs w) ∧
    ∃ e', d_ports (obs w') !! id port = Some e' ∧ ep_inflight e' ⊆ ep_inflight e.
Proof.
  intros [V1 V2] (rp & re & _ & E2 & _ & _) Ep. simpl in V1, V2. unfold Engine.xmit_pkts.
  cbn [v_items v_cap length]. rewrite usub_exact, bind_lift_done by (unfold is_uint; lia).
  rewrite Z.gtb_ltb.
  assert (∃ w1, (if 0 <? cap - Z.of_nat 0 then
      r ← Channel.recv_from_packetiser_bulk ch (v_items (vec_with_capacity (cap - Z.of_nat 0)))
            (cap - Z.of_nat 0);
      let '(_, pkts) := r in mret (vec_extend (Vec [] cap) pkts)
    else mret (Vec [] cap)) w = Done (Vec [] cap, w1) ∧ obs w1 = obs w) as (w1 & A1 & A2).
  { destruct (Z.ltb_spec 0 (cap - Z.of_nat 0)); [| by exists w].
    destruct (dequeue_burst_run (to_engine ch) re [] (cap - Z.of_nat 0) w E2)
      as (w1 & B1 & B2); [lia | lia | simpl; lia |].
    exists w1. erewrite bind_done by exact B1. split.
    - unfold vec_extend, mret, M_ret. simpl. do 3 f_equal. lia.
    - rewrite B2. simpl. by apply set_items_id. }
  rewrite (bind_done _ _ _ _ _ A1), bind_ask. cbn [v_items].
  destruct (send_nothing_run port (Z.lxor (as_uint 16 (rte_lcore_id w1)) 1) w1 e)
    as (w2 & S1 & S2 & S3 & S4); [by rewrite A2 |].
  rewrite (bind_done _ _ _ _ _ S1). exists w2. rewrite S2, S3, A2. done.
Qed.
End lemmas.

(** ** Properties *)

Section properties.
Context {prof : profile} {EN : Errno} {H : Type} {DP : Dpdk H} {RL : RingLaws H} {EL : EthLaws H}.
Implicit Types w : world H.

(** [recv_pkts] never forwards a packet: it reports 0, leaves both rings
    of the channel as they were and empties its vector (unless the vector was
    full), while up to the room of the vector packets have been taken from the
    device; these are in no ring and free in no mempool. *)
Lemma recv_pkts_forwards_nothing port v ch w :
  vec_ok v → channel_ok ch (obs w) →
  ∃ ps w', Engine.recv_pkts port v ch w
      = Done ((0, if decide (Z.of_nat (length (v_items v)) = v_cap v)
                  then v else Vec [] (v_cap v)), w') ∧
    d_rings (obs w') = d_rings (obs w) ∧
    Z.of_nat (length ps) ≤ v_cap v - Z.of_nat (length (v_items v)) ∧
    (∀ p, p ∈ ps → ∀ mp s, d_pools (obs w') !! mp = Some s → p ∉ s).
Proof.
  intros V C. destruct (recv_pkts_run port v ch w V C) as (ps & w' & ? & ? & _ & ? & ? & _). eauto 6.
Qed.

(** C25: the loop of the engine runs any number of turns without a panic or a
    memory error and is a packet sink: after [n] turns the two rings hold what
    they held before, nothing has been handed to the driver for transmission,
    and both vectors are empty with the capacity they had. *)
Theorem engine_loop_is_a_sink n port c1 c2 ch w e :
  vec_ok (Vec [] c1) → vec_ok (Vec [] c2) → channel_ok ch (obs w) →
  d_ports (obs w) !! id port = Some e →
  ∃ w', Engine.engine_loop n port (Vec [] c1) (Vec [] c2) ch w
      = Done ((Vec [] c1, Vec [] c2), w') ∧
    d_rings (obs w') = d_rings (obs w) ∧
    ∃ e', d_ports (obs w') !! id port = Some e' ∧ ep_inflight e' ⊆ ep_inflight e.
Proof.
  intros V1 V2. revert w e. induction n as [|n IH]; intros w e C E; simpl.
  { exists w. split_and!; eauto. }
  destruct (recv_pkts_run port (Vec [] c1) ch w V1 C) as (ps & w1 & R1 & R2 & R3 & _).
  rewrite (bind_done _ _ _ _ _ R1).
  assert (C1 : channel_ok ch (obs w1)) by (unfold channel_ok; by rewrite R2).
  destruct (xmit_pkts_run port c2 ch w1 e V2 C1) as (w2 & X1 & X2 & _ & e2 & X3 & X4);
    [by rewrite R3 |].
  rewrite (bind_done _ _ _ _ _ X1). cbn [snd].
  assert (C2 : channel_ok ch (obs w2)) by (unfold channel_ok; by rewrite X2, R2).
  destruct (IH w2 e2 C2 X3) as (w3 & L1 & L2 & e3 & L3 & L4).
  exists w3. rewrite L2, X2, R2. split; [| split; [done | exists e3; split; [done | multiset_solver]]].
  case_decide; exact L1.
Qed.

(** C26: the engine never gets as far as its loop: whatever the state of the
    machine, [main] panics before it, because it configures the device with
    one core and unwraps the error that an odd number of cores always gives
    (unless the environment, the mempool or the device fail earlier, which
    panics too). *)
Theorem engine_main_panics `{Zmq H} `{CtrlC H} n w :
  Engine.main n w = Panicked.
Proof.
  unfold Engine.main, Eal.eal_init. rewrite cstrings_ok by (by repeat constructor).
  rewrite bind_assoc, bind_lift_done, bind_assoc, bind_call.
  set (w1 := (rte_eal_init Engine.args w).2).
  destruct (_ =? -1); cbv match; [done |]. rewrite bind_ret. rewrite bind_unwrap_ok.
  cbv zeta. destruct (mempool_new_returns Engine.G_MEMPOOL_NAME w1) as (r & w2 & E2).
  rewrite (bind_done _ _ _ _ _ E2). destruct r as [mp|e]; [| done].
  rewrite bind_unwrap_ok. unfold Port.new. rewrite bind_assoc, bind_call.
  destruct (eth_dev_info_get_ok 0 eth_dev_info_default w2) as [O3 D3].
  destruct (rte_eth_dev_info_get 0 eth_dev_info_default w2) as [[rc info] w3]. simpl in O3, D3.
  cbn [fst snd]. destruct (Z.eqb_spec rc 0) as [-> |]; cbv match; [| done].
  rewrite bind_ret. rewrite bind_unwrap_ok.
  destruct (configure_odd_run (MkPort 0 "port0" info) 1 mp w3) as (err & w4 & E4);
    [simpl; rewrite O3; by apply D3 | unfold is_uint; lia | done | done |].
  by rewrite (bind_done _ _ _ _ _ E4).
Qed.
End properties.

(** ** Witnesses *)

Lemma sample_channel_ok : channel_ok sample_channel (obs sample_world).
Proof.
  exists (RteRing 511 [1500]), (RteRing 511 []). split; [reflexivity |]. split; [reflexivity |].
  simpl. lia.
Qed.

Lemma recv_pkts_forwards_nothing_witness :
  ∃ ps w', Engine.recv_pkts (prof := Debug) sample_port (Vec [] 32) sample_channel sample_world
      = Done ((0, Vec [] 32), w') ∧
    d_rings (obs w') = d_rings (obs sample_world) ∧ Z.of_nat (length ps) ≤ 32 - Z.of_nat 0 ∧
    (∀ p, p ∈ ps → ∀ mp s, d_pools (obs w') !! mp = Some s → p ∉ s).
Proof.
  refine (recv_pkts_forwards_nothing (prof := Debug) sample_port (Vec [] 32) sample_channel
    sample_world _ _); [split; simpl; lia | exact sample_channel_ok].
Defined.

Lemma engine_loop_is_a_sink_witness :
  ∃ w', Engine.engine_loop (prof := Debug) 5 sample_port (Vec [] 32) (Vec [] 32) sample_channel
      sample_world = Done ((Vec [] 32, Vec [] 32), w') ∧
    d_rings (obs w') = d_rings (obs sample_world) ∧
    ∃ e', d_ports (obs w') !! 0 = Some e' ∧ ep_inflight e' ⊆ ∅.
Proof.
  refine (engine_loop_is_a_sink (prof := Debug) 5 sample_port 32 32 sample_channel sample_world
    (EthPort 0 0 [] [] false false ∅) _ _ _ _);
    [split; simpl; lia | split; simpl; lia | exact sample_channel_ok | reflexivity].
Defined.

#[export] Instance sample_zmq : Zmq sim_hw :=
  {| zmq_socket w := (true, w); zmq_bind _ w := (true, w); zmq_recv w := (true, w) |}.
#[export] Instance sample_ctrlc : CtrlC sim_hw := {| set_handler w := (true, w) |}.

Lemma engine_main_panics_witness :
  Engine.main (prof := Release) (EN := linux_errno) 3 sample_world = Panicked.
Proof.
  exact (engine_main_panics (prof := Release) (EN := linux_errno) 3 sample_world).
Defined.
