(* ===== verification/RingBuf.v ===== *)
(** * The queue in shared memory ([ipc-queue/src/lib.rs])

    A [RingBuf<T>] is a capacity, a base pointer into a mapping and two atomic
    indices; the elements live in the mapping.  Here the operations run one
    after the other; [RingBufConc.v] runs a producer and a consumer at the
    same time. *)

From S2P Require Import Prelude.

(** ** Shared memory

    A mapping of [shm_size] bytes.  [shm_cells] are the elements stored since,
    by byte offset; elsewhere it holds [shm_init].  All the elements of one
    mapping have the same size and lie on one grid, so that stores at distinct
    offsets do not overlap. *)
Record shm (T : Type) := Shm { shm_size : Z; shm_init : Z → T; shm_cells : gmap Z T }.
Arguments Shm {T}.
Arguments shm_size {T}.
Arguments shm_init {T}.
Arguments shm_cells {T}.

Definition shm_load {T} (m : shm T) (a : Z) : T := default (shm_init m a) (shm_cells m !! a).
Definition shm_store {T} (a : Z) (x : T) (m : shm T) : shm T :=
  Shm (shm_size m) (shm_init m) (<[a := x]> (shm_cells m)).

(** An access of [n] bytes at [a] inside the mapping. *)
Definition mapped {T} (m : shm T) (a n : Z) : bool := (0 <=? a) && (a + n <=? shm_size m).

(** ** The queue *)

(** [io::Error::new(ErrorKind::Other, "Buf full")]. *)
Inductive io_error := BufFull.

Record ringbuf := RingBuf { capacity : Z; base : Z; write : Z; read : Z }.

Definition set_write (i : Z) (r : ringbuf) : ringbuf := RingBuf (capacity r) (base r) i (read r).
Definition set_read (i : Z) (r : ringbuf) : ringbuf := RingBuf (capacity r) (base r) (write r) i.

Module RingBuf.
Section ringbuf.
Context {prof : profile} {T : Type}.

(** The size of an element. *)
Variable esz : Z.

(** [RingBuf::new]. *)
Definition new (bs cap : Z) : ringbuf := RingBuf (as_sint 64 cap) bs 0 0.

(** [RingBuf::pointers]. *)
Definition pointers (r : ringbuf) : list Z := [as_uint 8 (write r); as_uint 8 (read r)].

(** [(cur_ind + 1) % self.capacity] in [isize]. *)
Definition next_ind (capacity cur_ind : Z) : outcome Z :=
  n ← sadd 64 cur_ind 1; srem 64 n capacity.

(** [self.base.offset(i)]. *)
Definition slot (r : ringbuf) (i : Z) : Z := base r + i * esz.

(** [ptr::write] and [ptr::read]. *)
Definition ptr_write (a : Z) (elem : T) : M (ringbuf * shm T) unit := λ s,
  if mapped s.2 a esz then Done (tt, (s.1, shm_store a elem s.2)) else Undefined.
Definition ptr_read (a : Z) : M (ringbuf * shm T) T := λ s,
  if mapped s.2 a esz then Done (shm_load s.2 a, s) else Undefined.

(** Stores to the atomic indices. *)
Definition store_write (i : Z) : M (ringbuf * shm T) unit := modify (λ s, (set_write i s.1, s.2)).
Definition store_read (i : Z) : M (ringbuf * shm T) unit := modify (λ s, (set_read i s.1, s.2)).

(** [RingBuf::push]. *)
Definition push (elem : T) : M (ringbuf * shm T) (result unit io_error) :=
  s ← get;
  let cur_ind := as_sint 64 (write s.1) in
  cur_ind ← lift (next_ind (capacity s.1) cur_ind);
  if cur_ind =? as_sint 64 (read s.1) then mret (Err BufFull) else
  store_write (as_uint 64 cur_ind) ;;
  ptr_write (slot s.1 cur_ind) elem ;;
  mret (Ok tt).

(** [RingBuf::pop]. *)
Definition pop : M (ringbuf * shm T) (option T) :=
  s ← get;
  let cur_ind := as_sint 64 (read s.1) in
  if cur_ind =? as_sint 64 (write s.1) then mret None else
  cur_ind ← lift (next_ind (capacity s.1) cur_ind);
  store_read (as_uint 64 cur_ind) ;;
  elem ← ptr_read (slot s.1 cur_ind);
  mret (Some elem).
End ringbuf.
End RingBuf.

(** ** Specification: a bounded FIFO *)

Inductive op (T : Type) := OPush (x : T) | OPop.
Arguments OPush {T} x.
Arguments OPop {T}.

Inductive response (T : Type) := RPush (r : result unit io_error) | RPop (r : option T).
Arguments RPush {T} r.
Arguments RPop {T} r.

Definition fifo_step {T} (bound : Z) (o : op T) (q : list T) : response T * list T :=
  match o with
  | OPush x =>
      if Z.of_nat (length q) <? bound then (RPush (Ok tt), q ++ [x])
      else (RPush (Err BufFull), q)
  | OPop =>
      match q with
      | [] => (RPop None, [])
      | x :: q' => (RPop (Some x), q')
      end
  end.

Fixpoint fifo_run {T} (bound : Z) (os : list (op T)) (q : list T) : list (response T) * list T :=
  match os with
  | [] => ([], q)
  | o :: os' =>
      let '(r, q1) := fifo_step bound o q in
      let '(rs, q2) := fifo_run bound os' q1 in (r :: rs, q2)
  end.

Section run.
Context {prof : profile} {T : Type} (esz : Z).

Definition ring_step (o : op T) : M (ringbuf * shm T) (response T) :=
  match o with
  | OPush x => r ← RingBuf.push esz x; mret (RPush r)
  | OPop => r ← RingBuf.pop esz; mret (RPop r)
  end.

Fixpoint ring_run (os : list (op T)) : M (ringbuf * shm T) (list (response T)) :=
  match os with
  | [] => mret []
  | o :: os' => r ← ring_step o; rs ← ring_run os'; mret (r :: rs)
  end.
End run.

(** ** Invariant and abstraction *)

(** The slots [base + i * esz], [0 <= i < capacity], lie in the mapping. *)
Record ring_wf {T} (esz : Z) (r : ringbuf) (m : shm T) : Prop := {
  wf_cap : 1 ≤ capacity r < 2 ^ 63;
  wf_write : 0 ≤ write r < capacity r;
  wf_read : 0 ≤ read r < capacity r;
  wf_size : 0 < esz;
  wf_base : 0 ≤ base r;
  wf_mapped : base r + capacity r * esz ≤ shm_size m
}.

Definition count (r : ringbuf) : Z := (write r - read r) mod capacity r.

(** The queue is the elements of the slots after [read], up to [write]. *)
Definition contents {T} (esz : Z) (r : ringbuf) (m : shm T) : list T :=
  (λ k, shm_load m (RingBuf.slot esz r ((read r + k) mod capacity r))) <$> seqZ 1 (count r).

(** ** Lemmas *)

(** Numbers less than [n] apart with the same residue are equal. *)
Lemma mod_inj n a b : 0 < n → a mod n = b mod n → - n < a - b < n → a = b.
Proof.
  intros Hn E Hab. assert (a - b = 0); [| lia].
  assert ((a - b) mod n = 0) as Hd by (rewrite Zminus_mod, E, Z.sub_diag; apply Zmod_0_l).
  apply Z.mod_divide in Hd as [k Hk]; [| lia].
  destruct (Z.lt_trichotomy k 0) as [? | [-> | ?]]; [nia | lia | nia].
Qed.

Lemma shm_load_store_eq {T} a (x : T) m : shm_load (shm_store a x m) a = x.
Proof. unfold shm_load. simpl. by rewrite lookup_insert_eq. Qed.

Lemma shm_load_store_ne {T} a b (x : T) m : a ≠ b → shm_load (shm_store a x m) b = shm_load m b.
Proof. intros. unfold shm_load. simpl. by rewrite lookup_insert_ne. Qed.

Section lemmas.
Context {prof : profile} {T : Type} (esz : Z).
Implicit Types (r : ringbuf) (m : shm T).

Lemma next_ind_ok n i : 0 ≤ i < n → n < 2 ^ 63 → RingBuf.next_ind n i = Done ((i + 1) mod n).
Proof.
  intros. unfold RingBuf.next_ind. rewrite sadd_exact by (unfold is_sint; lia).
  rewrite outcome_bind_done. unfold srem.
  destruct (Z.eqb_spec n 0); [lia |]. destruct (Z.eqb_spec n (-1)); [lia |].
  rewrite andb_false_r. by rewrite Z.rem_mod_nonneg by lia.
Qed.

Lemma next_ind_range n i : 0 < n → 0 ≤ (i + 1) mod n < n.
Proof. intros. by apply Z.mod_pos_bound. Qed.

Lemma slot_mapped r m i : ring_wf esz r m → 0 ≤ i < capacity r →
  mapped m (RingBuf.slot esz r i) esz = true.
Proof.
  intros [] ?. unfold mapped, RingBuf.slot.
  apply andb_true_intro. split; [apply Z.leb_le | apply Z.leb_le]; nia.
Qed.

Lemma slot_inj r i j : 0 < esz → RingBuf.slot esz r i = RingBuf.slot esz r j → i = j.
Proof. unfold RingBuf.slot. nia. Qed.

Lemma count_range r : 1 ≤ capacity r → 0 ≤ count r < capacity r.
Proof. intros. apply Z.mod_pos_bound. lia. Qed.

Lemma length_contents r m : 1 ≤ capacity r → Z.of_nat (length (contents esz r m)) = count r.
Proof.
  intros H. pose proof (count_range r H). unfold contents.
  rewrite length_fmap, length_seqZ. lia.
Qed.

Lemma write_count r m : ring_wf esz r m → write r = (read r + count r) mod capacity r.
Proof.
  intros []. unfold count. rewrite Zplus_mod_idemp_r.
  replace (read r + (write r - read r)) with (write r) by lia. by rewrite Z.mod_small.
Qed.

(** The full test of [push]. *)
Lemma full_iff r m : ring_wf esz r m →
  (write r + 1) mod capacity r = read r ↔ count r = capacity r - 1.
Proof.
  intros W. pose proof W as []. pose proof (count_range r ltac:(lia)).
  rewrite (write_count r m W), Zplus_mod_idemp_l.
  rewrite <- (Z.mod_small (read r) (capacity r)) at 2 by done. split.
  - intros E. assert (read r + count r + 1 - capacity r = read r); [| lia].
    apply (mod_inj (capacity r)); [lia | | lia].
    rewrite <- E. replace (read r + count r + 1 - capacity r)
      with (read r + count r + 1 + (-1) * capacity r) by lia. by apply Z_mod_plus_full.
  - intros E. rewrite E. replace (read r + (capacity r - 1) + 1)
      with (read r + 1 * capacity r) by lia. by apply Z_mod_plus_full.
Qed.

(** The empty test of [pop]. *)
Lemma empty_iff r m : ring_wf esz r m → read r = write r ↔ count r = 0.
Proof.
  intros W. pose proof W as []. unfold count. split.
  - intros ->. rewrite Z.sub_diag. apply Zmod_0_l.
  - intros E. symmetry. apply (mod_inj (capacity r)); [lia | | lia].
    apply Z.mod_divide in E as [k Hk]; [| lia].
    replace (write r) with (read r + k * capacity r) by lia. by apply Z_mod_plus_full.
Qed.

Lemma push_step r m x :
  ring_wf esz r m →
  RingBuf.push esz x (r, m) =
  if count r =? capacity r - 1 then Done (Err BufFull, (r, m))
  else Done (Ok tt, (set_write ((write r + 1) mod capacity r) r,
                     shm_store (RingBuf.slot esz r ((write r + 1) mod capacity r)) x m)).
Proof.
  intros W. pose proof W as []. pose proof (full_iff r m W) as F.
  pose proof (next_ind_range (capacity r) (write r) ltac:(lia)) as N.
  unfold RingBuf.push. rewrite bind_get. cbn [fst snd].
  rewrite !as_sint_id by (unfold is_sint; lia). rewrite next_ind_ok by lia.
  rewrite bind_lift_done.
  destruct (Z.eqb_spec ((write r + 1) mod capacity r) (read r));
    destruct (Z.eqb_spec (count r) (capacity r - 1)); try tauto; cbv match.
  unfold RingBuf.store_write. rewrite bind_modify.
  erewrite bind_done by (unfold RingBuf.ptr_write; rewrite slot_mapped by done; reflexivity).
  by rewrite as_uint_id by (unfold is_uint; lia).
Qed.

Lemma pop_step r m :
  ring_wf esz r m →
  RingBuf.pop esz (r, m) =
  if count r =? 0 then Done (None, (r, m))
  else Done (Some (shm_load m (RingBuf.slot esz r ((read r + 1) mod capacity r))),
             (set_read ((read r + 1) mod capacity r) r, m)).
Proof.
  intros W. pose proof W as []. pose proof (empty_iff r m W) as F.
  pose proof (next_ind_range (capacity r) (read r) ltac:(lia)) as N.
  unfold RingBuf.pop. rewrite bind_get. cbn [fst snd].
  rewrite (as_sint_id 64 (read r)), (as_sint_id 64 (write r)) by (unfold is_sint; lia).
  destruct (Z.eqb_spec (read r) (write r)); destruct (Z.eqb_spec (count r) 0); try tauto; cbv match.
  rewrite next_ind_ok by lia. rewrite bind_lift_done.
  unfold RingBuf.store_read. rewrite bind_modify.
  erewrite bind_done by (unfold RingBuf.ptr_read; rewrite slot_mapped by done; reflexivity).
  by rewrite as_uint_id by (unfold is_uint; lia).
Qed.

Lemma push_contents r m x :
  ring_wf esz r m → count r ≠ capacity r - 1 →
  let r' := set_write ((write r + 1) mod capacity r) r in
  let m' := shm_store (RingBuf.slot esz r ((write r + 1) mod capacity r)) x m in
  ring_wf esz r' m' ∧ contents esz r' m' = contents esz r m ++ [x].
Proof.
  intros W Hc r' m'. pose proof W as []. pose proof (count_range r ltac:(lia)) as Hr.
  assert (Ew : (write r + 1) mod capacity r = (read r + (count r + 1)) mod capacity r).
  { rewrite (write_count r m W), Zplus_mod_idemp_l. f_equal. lia. }
  split.
  { split; simpl; try done. apply Z.mod_pos_bound; lia. }
  assert (Ec : count r' = count r + 1).
  { unfold count at 1, r'. simpl. rewrite Ew, Zminus_mod_idemp_l.
    replace (read r + (count r + 1) - read r) with (count r + 1) by lia.
    apply Z.mod_small. lia. }
  unfold contents. rewrite Ec, seqZ_app, fmap_app by lia. f_equal.
  - apply list_fmap_ext. intros j k Hk%list_elem_of_lookup_2. apply elem_of_seqZ in Hk.
    simpl. unfold m'. change (RingBuf.slot esz r') with (RingBuf.slot esz r).
    rewrite shm_load_store_ne; [done |].
    intros E%slot_inj; [| done]. rewrite Ew in E.
    apply mod_inj in E; lia.
  - simpl. unfold m'. replace (Z.of_nat 0 + (1 + count r)) with (count r + 1) by lia.
    rewrite <- Ew.
    change (RingBuf.slot esz r') with (RingBuf.slot esz r). by rewrite shm_load_store_eq.
Qed.

Lemma pop_contents r m :
  ring_wf esz r m → count r ≠ 0 →
  let r' := set_read ((read r + 1) mod capacity r) r in
  ring_wf esz r' m ∧
  contents esz r m
  = shm_load m (RingBuf.slot esz r ((read r + 1) mod capacity r)) :: contents esz r' m.
Proof.
  intros W Hc r'. pose proof W as []. pose proof (count_range r ltac:(lia)) as Hr.
  split.
  { split; simpl; try done. apply Z.mod_pos_bound; lia. }
  assert (Ec : count r' = count r - 1).
  { unfold count at 1, r'. simpl. rewrite (write_count r m W), <- Zminus_mod.
    replace (read r + count r - (read r + 1)) with (count r - 1) by lia.
    apply Z.mod_small. lia. }
  unfold contents. rewrite Ec, seqZ_cons by lia. simpl. f_equal.
  replace (Z.pred (count r)) with (count r - 1) by lia.
  rewrite <- (fmap_add_seqZ 1 1), <- list_fmap_compose.
  apply list_fmap_ext. intros j k _. simpl. f_equal.
  unfold RingBuf.slot. simpl. rewrite Zplus_mod_idemp_l. do 3 f_equal. lia.
Qed.
End lemmas.

(** The abstraction relation between a queue and a bounded FIFO. *)
Definition refines {T} (esz : Z) (bound : Z) (q : list T) (s : ringbuf * shm T) : Prop :=
  ring_wf esz s.1 s.2 ∧ bound = capacity s.1 - 1 ∧ contents esz s.1 s.2 = q.

Section refinement.
Context {prof : profile} {T : Type} (esz : Z).

(** One operation simulates one step of the specification. *)
Lemma step_refines bound (q : list T) o s :
  refines esz bound q s →
  ∃ s', ring_step esz o s = Done ((fifo_step bound o q).1, s') ∧
    refines esz bound (fifo_step bound o q).2 s'.
Proof.
  destruct s as [r m]. intros (W & -> & <-). simpl in *. pose proof W as [].
  pose proof (length_contents esz r m ltac:(lia)) as L. pose proof (count_range r ltac:(lia)).
  destruct o as [x|]; simpl.
  - unfold mbind, M_bind. rewrite push_step, L by done.
    destruct (Z.eqb_spec (count r) (capacity r - 1)) as [E | E];
      destruct (Z.ltb_spec (count r) (capacity r - 1)); try lia.
    + by exists (r, m).
    + destruct (push_contents esz r m x W E) as [W' C']. eexists. split; [done |].
      split; [done |]. by split.
  - unfold mbind, M_bind. rewrite pop_step by done.
    destruct (Z.eqb_spec (count r) 0) as [E | E].
    + rewrite E in L. destruct (contents esz r m) eqn:C; [| simpl in L; lia].
      exists (r, m). split; [done |]. by split.
    + destruct (pop_contents esz r m W E) as [W' ->]. eexists. split; [done |].
      split; [done |]. by split.
Qed.

Lemma run_refines bound os (q : list T) s :
  refines esz bound q s →
  ∃ s', ring_run esz os s = Done ((fifo_run bound os q).1, s') ∧
    refines esz bound (fifo_run bound os q).2 s'.
Proof.
  revert q s. induction os as [|o os IH]; intros q s R; simpl; [eauto |].
  destruct (step_refines bound q o s R) as (s1 & E1 & R1).
  destruct (fifo_step bound o q) as [a q1]. simpl in *.
  destruct (IH q1 s1 R1) as (s2 & E2 & R2).
  destruct (fifo_run bound os q1) as [rs q2]. simpl in *.
  exists s2. rewrite (bind_done _ _ _ _ _ E1), (bind_done _ _ _ _ _ E2). done.
Qed.

Lemma new_refines bs cap (m : shm T) :
  1 ≤ cap < 2 ^ 63 → 0 < esz → 0 ≤ bs → bs + cap * esz ≤ shm_size m →
  refines esz (cap - 1) [] (RingBuf.new bs cap, m).
Proof.
  intros. unfold RingBuf.new. rewrite as_sint_id by (unfold is_sint; lia).
  split; [split; simpl; lia | split; [done |]].
  unfold contents, count. cbn [write read capacity fst snd]. by rewrite Z.sub_diag, Zmod_0_l.
Qed.
End refinement.

(** ** Properties *)

Section properties.
Context {prof : profile} {T : Type}.

(** C1: used by one thread, a new [RingBuf] of capacity [cap] whose slots are
    inside the mapping is a first-in first-out queue of at most [cap - 1]
    elements: every sequence of pushes and pops returns, without a panic and
    without an access outside the mapping, exactly the answers of the bounded
    FIFO [fifo_run], and leaves its queue. *)
Theorem fifo_refinement esz bs cap (m : shm T) os :
  1 ≤ cap < 2 ^ 63 → 0 < esz → 0 ≤ bs → bs + cap * esz ≤ shm_size m →
  ∃ s', ring_run esz os (RingBuf.new bs cap, m) = Done ((fifo_run (cap - 1) os []).1, s') ∧
    refines esz (cap - 1) (fifo_run (cap - 1) os []).2 s'.
Proof. intros. by apply run_refines, new_refines. Qed.

(** A queue of capacity 0 is always empty for [pop], and [push] panics in
    every build, on the remainder by zero; with a capacity of 1 every [push]
    is refused. *)
Lemma small_capacity esz bs x (m : shm T) :
  RingBuf.pop esz (RingBuf.new bs 0, m) = Done (None, (RingBuf.new bs 0, m)) ∧
  RingBuf.push esz x (RingBuf.new bs 0, m) = Panicked ∧
  RingBuf.push esz x (RingBuf.new bs 1, m) = Done (Err BufFull, (RingBuf.new bs 1, m)).
Proof. split_and!; reflexivity. Qed.
End properties.

(** [pointers] reports the indices modulo 256: up to a capacity of 256 it
    determines them, and from 257 on a queue that holds 256 elements reports
    the same pair as an empty one. *)
Lemma pointers_faithful n :
  1 ≤ n →
  (n ≤ 256 → ∀ r r', capacity r = n → capacity r' = n →
     0 ≤ write r < n → 0 ≤ read r < n → 0 ≤ write r' < n → 0 ≤ read r' < n →
     RingBuf.pointers r = RingBuf.pointers r' → write r = write r' ∧ read r = read r') ∧
  (256 < n → ∀ bs, let r := RingBuf n bs 256 0 in
     count r = 256 ∧ RingBuf.pointers r = RingBuf.pointers (RingBuf n bs 0 0)).
Proof.
  intros Hn. split.
  - intros Hs r r' _ _ H1 H2 H3 H4 [= E1 E2].
    rewrite !as_uint_id in E1, E2 by (unfold is_uint; lia). done.
  - intros Hs bs r. split; [| done]. unfold count, r. simpl. apply Z.mod_small. lia.
Qed.

(** ** Witnesses *)

Definition sample_shm : shm Z := Shm 4096 (λ _, 0) ∅.

Lemma fifo_refinement_witness :
  ∃ s', ring_run (prof := Debug) 8 [OPush 7; OPush 8; OPush 9; OPop; OPush 9; OPop; OPop; OPop]
      (RingBuf.new 64 3, sample_shm)
    = Done ([RPush (Ok tt); RPush (Ok tt); RPush (Err BufFull); RPop (Some 7); RPush (Ok tt);
             RPop (Some 8); RPop (Some 9); RPop None], s') ∧ refines 8 2 [] s'.
Proof.
  refine (fifo_refinement (prof := Debug) 8 64 3 sample_shm
    [OPush 7; OPush 8; OPush 9; OPop; OPush 9; OPop; OPop; OPop] _ _ _ _); simpl; lia.
Defined.

Lemma pointers_faithful_witness :
  RingBuf.pointers (RingBuf 300 0 256 0) = RingBuf.pointers (RingBuf 300 0 0 0).
Proof. refine (proj2 (proj2 (pointers_faithful 300 _) _ 0)); lia. Defined.
