(* ===== verification/RingBufConc.v ===== *)
(** * One producer and one consumer on a [RingBuf] ([ipc-queue/src/lib.rs])

    The crate documents the queue for single-producer single-consumer use in
    shared memory.  [push] and [pop] are split at their accesses to shared
    state, in program order; a state is the queue, the mapping and where each
    thread is, and the threads interleave at these points (sequentially
    consistent executions).  [solo_push] and [solo_pop] show that the pieces
    make up the functions of [RingBuf.v]. *)

From S2P Require Import Prelude RingBuf.

(** Where [push] is, with its local [cur_ind] and its argument. *)
Inductive prod_pc (T : Type) :=
  | PIdle
  | PLoaded (cur_ind : Z) (elem : T)    (* [write] loaded, index advanced *)
  | PChecked (cur_ind : Z) (elem : T)   (* compared with [read]: not full *)
  | PStored (cur_ind : Z) (elem : T).   (* [write] stored *)
Arguments PIdle {T}.
Arguments PLoaded {T}.
Arguments PChecked {T}.
Arguments PStored {T}.

(** Where [pop] is. *)
Inductive cons_pc :=
  | CIdle
  | CLoaded (cur_ind : Z)               (* [read] loaded *)
  | CChecked (cur_ind : Z)              (* compared with [write]: not empty; advanced *)
  | CStored (cur_ind : Z).              (* [read] stored *)

(** [c_presults] and [c_cresults] are the answers returned so far.  The history
    [c_pushed] has the elements whose index has been published. *)
Record conc (T : Type) := Conc {
  c_ring : ringbuf;
  c_mem : shm T;
  c_prod : prod_pc T;
  c_cons : cons_pc;
  c_presults : list (result unit io_error);
  c_cresults : list (option T);
  c_pushed : list T
}.
Arguments Conc {T}.
Arguments c_ring {T}.
Arguments c_mem {T}.
Arguments c_prod {T}.
Arguments c_cons {T}.
Arguments c_presults {T}.
Arguments c_cresults {T}.
Arguments c_pushed {T}.

(** The elements [pop] has returned. *)
Definition c_popped {T} (s : conc T) : list T := omap (λ r, r) (c_cresults s).

Section conc.
Context {prof : profile} {T : Type} (esz : Z).

(** The next atomic piece of [push]; an idle producer calls [push x]. *)
Definition prod_step (x : T) (s : conc T) : outcome (conc T) :=
  let '(Conc r m p c pr cr h) := s in
  match p with
  | PIdle =>
      i ← RingBuf.next_ind (capacity r) (as_sint 64 (write r));
      Done (Conc r m (PLoaded i x) c pr cr h)
  | PLoaded i y =>
      if i =? as_sint 64 (read r) then Done (Conc r m PIdle c (pr ++ [Err BufFull]) cr h)
      else Done (Conc r m (PChecked i y) c pr cr h)
  | PChecked i y => Done (Conc (set_write (as_uint 64 i) r) m (PStored i y) c pr cr (h ++ [y]))
  | PStored i y =>
      if mapped m (RingBuf.slot esz r i) esz
      then Done (Conc r (shm_store (RingBuf.slot esz r i) y m) PIdle c (pr ++ [Ok tt]) cr h)
      else Undefined
  end.

(** The next atomic piece of [pop]. *)
Definition cons_step (s : conc T) : outcome (conc T) :=
  let '(Conc r m p c pr cr h) := s in
  match c with
  | CIdle => Done (Conc r m p (CLoaded (as_sint 64 (read r))) pr cr h)
  | CLoaded i =>
      if i =? as_sint 64 (write r) then Done (Conc r m p CIdle pr (cr ++ [None]) h)
      else i' ← RingBuf.next_ind (capacity r) i; Done (Conc r m p (CChecked i') pr cr h)
  | CChecked i => Done (Conc (set_read (as_uint 64 i) r) m p (CStored i) pr cr h)
  | CStored i =>
      if mapped m (RingBuf.slot esz r i) esz
      then Done (Conc r m p CIdle pr (cr ++ [Some (shm_load m (RingBuf.slot esz r i))]) h)
      else Undefined
  end.

(** Either thread may move. *)
Inductive step : conc T → conc T → Prop :=
  | step_prod x s s' : prod_step x s = Done s' → step s s'
  | step_cons s s' : cons_step s = Done s' → step s s'.

(** A schedule: [Some x] moves the producer, [None] the consumer. *)
Fixpoint run_sched (l : list (option T)) (s : conc T) : outcome (conc T) :=
  match l with
  | [] => Done s
  | t :: l' =>
      s' ← (match t with Some x => prod_step x s | None => cons_step s end);
      run_sched l' s'
  end.

Definition init (bs cap : Z) (m : shm T) : conc T :=
  Conc (RingBuf.new bs cap) m PIdle CIdle [] [] [].

(** ** Invariant *)

(** The pops whose index has been published. *)
Definition taken (s : conc T) : Z :=
  Z.of_nat (length (c_popped s)) + match c_cons s with CStored _ => 1 | _ => 0 end.

Definition published (s : conc T) : Z := Z.of_nat (length (c_pushed s)).

(** The element of number [j] has been stored in its slot. *)
Definition stored (s : conc T) (j : Z) : Prop :=
  match c_prod s with PStored _ _ => j + 1 < published s | _ => j < published s end.

Definition prod_ok (n P t : Z) (h : list T) (p : prod_pc T) : Prop :=
  match p with
  | PIdle => True
  | PLoaded i _ => i = (P + 1) mod n
  | PChecked i _ => i = (P + 1) mod n ∧ P + 1 < t + n
  | PStored i y => i = P mod n ∧ last h = Some y
  end.

Definition cons_ok (n P t : Z) (c : cons_pc) : Prop :=
  match c with
  | CIdle => True
  | CLoaded i => i = t mod n
  | CChecked i => i = (t + 1) mod n ∧ t < P
  | CStored i => i = t mod n
  end.

Record inv (n : Z) (s : conc T) : Prop := {
  inv_cap : capacity (c_ring s) = n;
  inv_wf : ring_wf esz (c_ring s) (c_mem s);
  inv_write : write (c_ring s) = published s mod n;
  inv_read : read (c_ring s) = taken s mod n;
  inv_bounds : taken s ≤ published s < taken s + n;
  inv_prod : prod_ok n (published s) (taken s) (c_pushed s) (c_prod s);
  inv_cons : cons_ok n (published s) (taken s) (c_cons s);
  inv_cells : ∀ j x, (length (c_popped s) ≤ j)%nat → c_pushed s !! j = Some x →
    stored s (Z.of_nat j) →
    shm_load (c_mem s) (RingBuf.slot esz (c_ring s) ((Z.of_nat j + 1) mod n)) = x
}.
End conc.

(** ** Lemmas *)

Section lemmas.
Context {prof : profile} {T : Type} (esz : Z).
Implicit Types s : conc T.

Lemma popped_app (a b : list (option T)) :
  omap (λ r, r) (a ++ b) = omap (λ r, r) a ++ omap (λ r, r) b.
Proof. apply omap_app. Qed.

(** Unfolds the counters of an invariant of an explicit state. *)
Ltac counters :=
  unfold stored, taken, published, c_popped, prod_ok, cons_ok in *;
  cbn [c_ring c_mem c_prod c_cons c_presults c_cresults c_pushed] in *.

Lemma inv_init bs cap (m : shm T) :
  1 ≤ cap < 2 ^ 63 → 0 < esz → 0 ≤ bs → bs + cap * esz ≤ shm_size m →
  inv esz cap (init bs cap m).
Proof.
  intros. destruct (new_refines esz bs cap m) as (W & E & _); try done.
  cbn [fst snd] in *. split; try done.
  - cbn [c_ring init]. lia.
  - change (0 ≤ 0 < 0 + cap). lia.
Qed.

Lemma prod_step_inv n x s :
  inv esz n s → ∃ s', prod_step esz x s = Done s' ∧ inv esz n s'.
Proof.
  destruct s as [r m p c pr cr h]. intros []. counters. pose proof inv_wf0 as [].
  subst n. set (n := capacity r) in *. set (P := Z.of_nat (length h)) in *.
  destruct p as [|i y|i y|i y]; simpl.
  - rewrite as_sint_id, next_ind_ok by (unfold is_sint; lia). eexists. split; [done |].
    split; counters; try done. by rewrite inv_write0, Zplus_mod_idemp_l.
  - rewrite as_sint_id by (unfold is_sint; lia).
    destruct (Z.eqb_spec i (read r)) as [E | E]; eexists; (split; [done |]).
    + by split; counters.
    + split; counters; try done. split; [done |].
      destruct (decide (P + 1 = Z.of_nat (length (omap (λ r, r) cr))
        + match c with CStored _ => 1 | _ => 0 end + n)) as [Ef |]; [| lia].
      exfalso. apply E. rewrite inv_prod0, inv_read0, Ef.
      replace (_ + n) with (Z.of_nat (length (omap (λ r, r) cr))
        + match c with CStored _ => 1 | _ => 0 end + 1 * n) by lia. by apply Z_mod_plus_full.
  - destruct inv_prod0 as [Ei Hb]. eexists. split; [done |].
    assert (Ri : 0 ≤ i < n) by (rewrite Ei; apply Z.mod_pos_bound; lia).
    rewrite as_uint_id by (unfold is_uint; lia).
    assert (EP : Z.of_nat (length (h ++ [y])) = P + 1) by len.
    split; counters; rewrite ?EP; try done.
    + split; simpl; fold n; lia.
    + split; [done |]. apply last_snoc.
    + destruct c; try done. lia.
    + intros j z Hj Hl Hs. apply inv_cells0; [done | | lia].
      rewrite lookup_app_l in Hl by lia. done.
  - destruct inv_prod0 as [Ei Hlast].
    assert (Ri : 0 ≤ i < n) by (rewrite Ei; apply Z.mod_pos_bound; lia).
    rewrite (slot_mapped esz r m) by done. eexists. split; [done |].
    split; counters; try done.
    intros j z Hj Hl Hs. destruct (decide (Z.of_nat j + 1 = P)) as [Ej | Ej].
    + rewrite Ej, <- Ei, shm_load_store_eq. rewrite last_lookup in Hlast.
      replace (Init.Nat.pred (length h)) with j in Hlast by lia. congruence.
    + rewrite shm_load_store_ne; [apply inv_cells0; [done | done | lia] |].
      intros E%slot_inj; [| done]. rewrite Ei in E.
      apply mod_inj in E; [lia | lia |]. destruct c; lia.
Qed.

Lemma cons_step_inv n s :
  inv esz n s → ∃ s', cons_step esz s = Done s' ∧ inv esz n s'.
Proof.
  destruct s as [r m p c pr cr h]. intros []. counters. pose proof inv_wf0 as [].
  subst n. set (n := capacity r) in *. set (P := Z.of_nat (length h)) in *.
  set (k := length (omap (λ r, r) cr)) in *.
  destruct c as [|i|i|i]; simpl.
  - eexists. split; [done |]. split; counters; try done.
    by rewrite as_sint_id by (unfold is_sint; lia).
  - rewrite as_sint_id by (unfold is_sint; lia).
    destruct (Z.eqb_spec i (write r)) as [E | E].
    + eexists. split; [done |]. by split; counters; rewrite ?popped_app, ?app_nil_r.
    + rewrite next_ind_ok by lia. eexists. split; [done |]. split; counters; try done.
      split; [by rewrite inv_cons0, Zplus_mod_idemp_l |].
      destruct (decide (Z.of_nat k + 0 = P)) as [Ee |]; [| lia].
      exfalso. apply E. by rewrite inv_cons0, inv_write0, Ee.
  - destruct inv_cons0 as [Ei Hb].
    assert (Ri : 0 ≤ i < n) by (rewrite Ei; apply Z.mod_pos_bound; lia).
    eexists. split; [done |]. rewrite as_uint_id by (unfold is_uint; lia).
    split; counters; fold k; replace (Z.of_nat k + 1) with (Z.of_nat k + 0 + 1) by lia;
      try done; try lia.
    destruct p; try done. destruct inv_prod0. split; [done | lia].
  - assert (Ri : 0 ≤ i < n) by (rewrite inv_cons0; apply Z.mod_pos_bound; lia).
    rewrite (slot_mapped esz r m) by done. eexists. split; [done |].
    assert (Ek : length (omap (λ r, r) (cr ++ [Some (shm_load m (RingBuf.slot esz r i))])) = S k).
    { rewrite popped_app, length_app. simpl. unfold k. lia. }
    split; counters; rewrite ?Ek;
      replace (Z.of_nat (S k) + 0) with (Z.of_nat k + 1) by lia; try done.
    intros j z Hj. apply inv_cells0. lia.
Qed.

Lemma reachable_inv n bs (m : shm T) s :
  1 ≤ n < 2 ^ 63 → 0 < esz → 0 ≤ bs → bs + n * esz ≤ shm_size m →
  star (step esz) (init bs n m) s → inv esz n s.
Proof.
  intros. eapply star_invariant; [by apply inv_init | | done].
  intros u v Hu Huv. destruct Huv as [x u v E | u v E].
  - destruct (prod_step_inv n x u Hu) as (v' & ? & ?). congruence.
  - destruct (cons_step_inv n u Hu) as (v' & ? & ?). congruence.
Qed.
End lemmas.

(** ** Properties *)

(** The consumer is about to read the slot the producer is about to fill. *)
Definition racy {T} (s : conc T) : Prop :=
  ∃ i x, c_cons s = CStored i ∧ c_prod s = PStored i x ∧
    S (length (c_popped s)) = length (c_pushed s).

(** Executions in which the consumer never reads such a slot. *)
Inductive calm_step {prof : profile} {T} (esz : Z) : conc T → conc T → Prop :=
  | calm_prod x s s' : prod_step esz x s = Done s' → calm_step esz s s'
  | calm_cons s s' : ¬ racy s → cons_step esz s = Done s' → calm_step esz s s'.

Definition prod_moves {T} (l : list (option T)) : Z :=
  Z.of_nat (length (filter is_Some l)).

(** How far [push] has got, counting four pieces for each finished call. *)
Definition prod_progress {T} (s : conc T) : Z :=
  4 * Z.of_nat (length (c_presults s)) +
  match c_prod s with PIdle => 0 | PLoaded _ _ => 1 | PChecked _ _ => 2 | PStored _ _ => 3 end.

Section more_lemmas.
Context {prof : profile} {T : Type} (esz : Z).
Implicit Types s : conc T.

(** What the last piece of [pop] reads. *)
Lemma read_value n s i :
  inv esz n s → c_cons s = CStored i →
  ∃ x s', c_pushed s !! length (c_popped s) = Some x ∧
    cons_step esz s = Done s' ∧ c_pushed s' = c_pushed s ∧
    (¬ racy s → c_popped s' = c_popped s ++ [x]) ∧
    (racy s → c_prod s = PStored i x ∧
       c_popped s' = c_popped s ++ [shm_load (c_mem s) (RingBuf.slot esz (c_ring s) i)]).
Proof.
  intros I Hc. destruct (cons_step_inv esz n s I) as (s' & Es & _).
  pose proof I as [E0 W E1 E2 E3 Hp Hk Hcells]. rewrite Hc in Hk. unfold taken in *. rewrite Hc in *.
  simpl in Hk. unfold published in *.
  destruct (lookup_lt_is_Some_2 (c_pushed s) (length (c_popped s))) as [x Hx]; [lia |].
  exists x, s'. split; [done |]. split; [done |].
  destruct s as [r m p c pr cr h]. simpl in *. subst c.
  destruct (mapped m (RingBuf.slot esz r i) esz); [| done]. injection Es as <-.
  unfold c_popped in *. simpl in *. rewrite popped_app. split; [done |]. split.
  - intros Hr. do 3 f_equal. rewrite Hk, <- (Hcells _ _ (Nat.le_refl _) Hx); [done |].
    unfold stored, published. destruct p; simpl in *; try lia.
    destruct (decide (S (length (omap (λ r, r) cr)) = length h)) as [El |]; [| lia].
    exfalso. apply Hr. exists i, elem. simpl. split_and!; try done.
    f_equal. rewrite Hk. destruct Hp as [-> _]. f_equal. lia.
  - intros (j & y & F1 & F2 & El). unfold c_popped in El. simpl in *. simplify_eq.
    split; [| done]. f_equal.
    destruct Hp as [_ Hl]. rewrite last_lookup in Hl.
    replace (Init.Nat.pred (length h)) with (length (omap (λ r, r) cr)) in Hl by lia. congruence.
Qed.

Lemma cons_step_popped s s' :
  cons_step esz s = Done s' →
  (∃ i, c_cons s = CStored i) ∨ (c_popped s' = c_popped s ∧ c_pushed s' = c_pushed s).
Proof.
  destruct s as [r m p c pr cr h]. unfold c_popped. destruct c as [|i|i|i]; simpl; [| | | eauto].
  - intros [= <-]. by right.
  - destruct (i =? as_sint 64 (write r)); [intros [= <-] |].
    + right. simpl. by rewrite popped_app, app_nil_r.
    + destruct (RingBuf.next_ind _ _); simpl; intros [= <-]. by right.
  - intros [= <-]. by right.
Qed.

Lemma prod_step_grows x s s' :
  prod_step esz x s = Done s' →
  c_popped s' = c_popped s ∧ (∃ k, c_pushed s' = c_pushed s ++ k) ∧
  prod_progress s + 1 ≤ prod_progress s'.
Proof.
  destruct s as [r m p c pr cr h]. unfold c_popped, prod_progress. destruct p as [|i y|i y|i y]; simpl.
  - destruct (RingBuf.next_ind _ _); simpl; intros [= <-]. simpl.
    split_and!; [done | exists []; by rewrite app_nil_r | lia].
  - destruct (i =? _); intros [= <-]; simpl;
      (split_and!; [done | exists []; by rewrite app_nil_r | len]).
  - intros [= <-]. simpl. split_and!; [done | by exists [y] | lia].
  - destruct (mapped _ _ _); intros [= <-]. simpl.
    split_and!; [done | exists []; by rewrite app_nil_r | len].
Qed.

Lemma cons_step_prod s s' :
  cons_step esz s = Done s' → prod_progress s' = prod_progress s.
Proof.
  destruct s as [r m p c pr cr h]. destruct c; simpl.
  - by intros [= <-].
  - destruct (_ =? _); [by intros [= <-] |].
    by destruct (RingBuf.next_ind _ _); simpl; intros [= <-].
  - by intros [= <-].
  - by destruct (mapped _ _ _); intros [= <-].
Qed.

Lemma run_sched_total n l s :
  inv esz n s → ∃ s', run_sched esz l s = Done s' ∧ inv esz n s' ∧
    prod_progress s + prod_moves l ≤ prod_progress s'.
Proof.
  revert s. induction l as [|[x|] l IH]; intros s I; simpl.
  - exists s. split_and!; try done. unfold prod_moves. simpl. lia.
  - destruct (prod_step_inv esz n x s I) as (s1 & E1 & I1). rewrite E1.
    destruct (IH s1 I1) as (s2 & E2 & I2 & P2). exists s2. split_and!; try done.
    destruct (prod_step_grows x s s1 E1) as (_ & _ & ?). unfold prod_moves in *.
    rewrite filter_cons_True by done. simpl. lia.
  - destruct (cons_step_inv esz n s I) as (s1 & E1 & I1). rewrite E1.
    destruct (IH s1 I1) as (s2 & E2 & I2 & P2). exists s2. split_and!; try done.
    rewrite <- (cons_step_prod s s1 E1). unfold prod_moves in *.
    rewrite filter_cons_False by (by intros []). lia.
Qed.

Lemma run_sched_star l s s' : run_sched esz l s = Done s' → star (step esz) s s'.
Proof.
  revert s. induction l as [|[x|] l IH]; intros s; simpl.
  - intros [= <-]. constructor.
  - destruct (prod_step esz x s) eqn:E; simpl; try done. intros R.
    eapply star_step; [by econstructor | by apply IH].
  - destruct (cons_step esz s) eqn:E; simpl; try done. intros R.
    eapply star_step; [by apply step_cons | by apply IH].
Qed.
(** Schedules whose executions are calm, decided by running them. *)
Definition racyb s : bool :=
  match c_cons s, c_prod s with
  | CStored i, PStored j _ => (i =? j) && Nat.eqb (S (length (c_popped s))) (length (c_pushed s))
  | _, _ => false
  end.

Lemma racyb_false s : racyb s = false → ¬ racy s.
Proof.
  unfold racyb. intros H (i & x & E1 & E2 & E3). rewrite E1, E2, E3, Z.eqb_refl, Nat.eqb_refl in H.
  done.
Qed.

Fixpoint calm_sched (l : list (option T)) s : bool :=
  match l with
  | [] => true
  | Some x :: l' => match prod_step esz x s with Done s' => calm_sched l' s' | _ => false end
  | None :: l' =>
      negb (racyb s) && match cons_step esz s with Done s' => calm_sched l' s' | _ => false end
  end.

Lemma run_sched_calm l s s' :
  calm_sched l s = true → run_sched esz l s = Done s' → star (calm_step esz) s s'.
Proof.
  revert s. induction l as [|[x|] l IH]; intros s; simpl.
  - intros _ [= <-]. constructor.
  - destruct (prod_step esz x s) eqn:E; try done. intros C R.
    eapply star_step; [by econstructor | by apply IH].
  - rewrite andb_true_iff, negb_true_iff. destruct (cons_step esz s) eqn:E; try (by intros []).
    intros [Hr C] R. eapply star_step; [| by apply IH].
    apply calm_cons; [by apply racyb_false | done].
Qed.
End more_lemmas.

Section properties.
Context {prof : profile} {T : Type} (esz n bs : Z) (m0 : shm T).
Hypothesis Hn : 1 ≤ n < 2 ^ 63.
Hypothesis Hesz : 0 < esz.
Hypothesis Hbs : 0 ≤ bs.
Hypothesis Hmap : bs + n * esz ≤ shm_size m0.

(** C2: whatever the interleaving of one producer and one consumer, no piece
    of [push] or [pop] panics or leaves the mapping, both indices stay below
    the capacity, no more elements are taken than were published and never
    more than [capacity - 1] are in the queue. *)
Theorem spsc_safe s :
  star (step esz) (init bs n m0) s →
  (∀ x, ∃ s', prod_step esz x s = Done s') ∧ (∃ s', cons_step esz s = Done s') ∧
  0 ≤ write (c_ring s) < n ∧ 0 ≤ read (c_ring s) < n ∧
  Z.of_nat (length (c_popped s)) ≤ Z.of_nat (length (c_pushed s)) ∧
  0 ≤ published s - taken s ≤ n - 1.
Proof.
  intros R. pose proof (reachable_inv esz n bs m0 s Hn Hesz Hbs Hmap R) as I.
  split; [| split].
  - intros x. destruct (prod_step_inv esz n x s I) as (s' & ? & _). eauto.
  - destruct (cons_step_inv esz n s I) as (s' & ? & _). eauto.
  - destruct I as [<- [] _ _ Hb _ _ _]. unfold taken, published in *. destruct (c_cons s); lia.
Qed.

(** C4: reading the slot after publishing the [read] index is safe in [pop]:
    in every reachable state in which the consumer has only its slot left to
    read, it returns the oldest element that has not been returned, except
    when that element's index was published by a [push] that has not yet
    written the slot; then it returns what the memory held before. *)
Theorem spsc_pop_value s i :
  star (step esz) (init bs n m0) s → c_cons s = CStored i →
  ∃ x s', c_pushed s !! length (c_popped s) = Some x ∧ cons_step esz s = Done s' ∧
    (¬ racy s → c_popped s' = c_popped s ++ [x]) ∧
    (racy s → c_prod s = PStored i x ∧
       c_popped s' = c_popped s ++ [shm_load (c_mem s) (RingBuf.slot esz (c_ring s) i)]).
Proof.
  intros R Hc. pose proof (reachable_inv esz n bs m0 s Hn Hesz Hbs Hmap R) as I.
  destruct (read_value esz n s i I Hc) as (x & s' & ? & ? & _ & ? & ?). eauto 6.
Qed.

(** Calm executions are first-in first-out. *)
Lemma calm_prefix s :
  star (calm_step esz) (init bs n m0) s → c_popped s `prefix_of` c_pushed s.
Proof.
  intros R. apply (star_invariant (calm_step esz)
    (λ s, inv esz n s ∧ c_popped s `prefix_of` c_pushed s) (init bs n m0) s); [| | done].
  { split; [by apply inv_init | done]. }
  intros u v [I P] Huv. destruct Huv as [x u v E | u v Hr E].
  - destruct (prod_step_inv esz n x u I) as (v' & E' & I'). assert (v' = v) as -> by congruence. split; [done |].
    destruct (prod_step_grows esz x u v E) as (-> & [k ->] & _). by apply prefix_app_r.
  - destruct (cons_step_inv esz n u I) as (v' & E' & I'). assert (v' = v) as -> by congruence. split; [done |].
    destruct (cons_step_popped esz u v E) as [[i Hc] | [-> ->]]; [| done].
    destruct (read_value esz n u i I Hc) as (x & w & Hx & Ew & Ep & Hv & _).
    assert (w = v) as -> by congruence. rewrite Ep.
    rewrite (Hv Hr). destruct P as [k Hk]. rewrite Hk in Hx |- *.
    rewrite lookup_app_r, Nat.sub_diag in Hx by done. destruct k as [|y k]; simplify_eq/=.
    exists k. by rewrite <- app_assoc.
Qed.

(** C3: in an execution in which the consumer never reads a slot between its
    publication and the write, the queue is first-in first-out for the two
    threads together: what has been popped is a prefix of what was pushed, in
    order, without loss or duplication. *)
Theorem spsc_fifo s :
  star (calm_step esz) (init bs n m0) s → c_popped s `prefix_of` c_pushed s.
Proof. apply calm_prefix. Qed.

(** C15: [push] publishes the index before it writes the slot, so a [pop] can
    return a value nobody pushed: with any capacity above 1 and any element
    [x] there is an execution in which [x] is the only element ever pushed and
    [pop] returns what the shared memory held before. *)
Theorem spsc_race x :
  2 ≤ n →
  ∃ s, star (step esz) (init bs n m0) s ∧ c_pushed s = [x] ∧
    c_cresults s = [Some (shm_load m0 (bs + esz))].
Proof.
  intros H2.
  assert (M : mapped m0 (bs + 1 * esz) esz = true).
  { unfold mapped. apply andb_true_intro. split; apply Z.leb_le; nia. }
  exists (Conc (RingBuf n bs 1 1) m0 (PStored 1 x) CIdle [] [Some (shm_load m0 (bs + esz))] [x]).
  split; [| done]. apply (run_sched_star esz [Some x; Some x; Some x; None; None; None; None]).
  assert (N : RingBuf.next_ind n 0 = Done 1)
    by (rewrite next_ind_ok by lia; by rewrite Z.mod_small by lia).
  unfold init, RingBuf.new. rewrite as_sint_id by (unfold is_sint; lia).
  cbn [run_sched prod_step capacity write]. change (as_sint 64 0) with 0. rewrite N.
  rewrite !outcome_bind_done. cbn [prod_step read]. change (1 =? as_sint 64 0) with false. cbv match.
  rewrite !outcome_bind_done. cbn [prod_step]. rewrite !outcome_bind_done.
  change (set_write _ _) with (RingBuf n bs 1 0).
  cbn [cons_step read]. rewrite !outcome_bind_done.
  cbn [cons_step write capacity]. change (as_sint 64 0) with 0.
  change (0 =? as_sint 64 1) with false. cbv match. rewrite N, !outcome_bind_done.
  cbn [cons_step]. rewrite !outcome_bind_done. cbn [cons_step].
  change (RingBuf.slot esz _ 1) with (bs + 1 * esz). rewrite M, Z.mul_1_l. done.
Qed.

(** C16: [push] is wait-free for the producer: any schedule can be run to its
    end, and if it gives the producer [k] turns then at least [(k - 3) / 4]
    calls of [push] have returned, whatever the consumer does in between. *)
Theorem spsc_wait_free s l :
  star (step esz) (init bs n m0) s →
  ∃ s', run_sched esz l s = Done s' ∧
    prod_moves l ≤ 4 * Z.of_nat (length (c_presults s') - length (c_presults s)) + 3.
Proof.
  intros R. pose proof (reachable_inv esz n bs m0 s Hn Hesz Hbs Hmap R) as I.
  destruct (run_sched_total esz n l s I) as (s' & E & _ & P). exists s'. split; [done |].
  unfold prod_progress in P. destruct (c_prod s), (c_prod s'); lia.
Qed.
End properties.

(** The atomic pieces are the functions: a producer that runs alone from
    an idle state ends, after at most four pieces, in the state and with the
    answer of [RingBuf::push], and panics or faults when [push] does; likewise
    a consumer and [RingBuf::pop]. *)
Lemma solo_calls {prof : profile} {T} esz (x : T) r m p c pr cr h :
  (match RingBuf.push esz x (r, m) with
   | Done (res, (r', m')) => ∃ k h', (k ≤ 4)%nat ∧
       run_sched esz (replicate k (Some x)) (Conc r m PIdle c pr cr h)
       = Done (Conc r' m' PIdle c (pr ++ [res]) cr h')
   | Panicked => run_sched esz (replicate 4 (Some x)) (Conc r m PIdle c pr cr h) = Panicked
   | Undefined => run_sched esz (replicate 4 (Some x)) (Conc r m PIdle c pr cr h) = Undefined
   end) ∧
  (match RingBuf.pop esz (r, m) with
   | Done (res, (r', m')) => ∃ k, (k ≤ 4)%nat ∧
       run_sched esz (replicate k None) (Conc r m p CIdle pr cr h)
       = Done (Conc r' m' p CIdle pr (cr ++ [res]) h)
   | Panicked => run_sched esz (replicate 4 None) (Conc r m p CIdle pr cr h) = Panicked
   | Undefined => run_sched esz (replicate 4 None) (Conc r m p CIdle pr cr h) = Undefined
   end).
Proof.
  split.
  - unfold RingBuf.push. rewrite bind_get. cbn [fst snd]. rewrite bind_lift. simpl run_sched.
    destruct (RingBuf.next_ind _ _) as [i| |] eqn:N; [| done | done].
    destruct (i =? as_sint 64 (read r)) eqn:E.
    { exists 2%nat, h. split; [lia |]. simpl. rewrite N. simpl. by rewrite E. }
    unfold RingBuf.store_write. rewrite bind_modify. unfold RingBuf.ptr_write, mbind, M_bind.
    cbn [fst snd]. destruct (mapped m (RingBuf.slot esz r i) esz) eqn:Em.
    + exists 4%nat, (h ++ [x]). split; [lia |]. simpl. rewrite N. simpl. rewrite E. simpl.
      change (RingBuf.slot esz (set_write _ r) i) with (RingBuf.slot esz r i). by rewrite Em.
    + simpl. rewrite E. simpl.
      change (RingBuf.slot esz (set_write _ r) i) with (RingBuf.slot esz r i). by rewrite Em.
  - unfold RingBuf.pop. rewrite bind_get. cbn [fst snd]. simpl run_sched.
    destruct (as_sint 64 (read r) =? as_sint 64 (write r)) eqn:E.
    { exists 2%nat. split; [lia |]. simpl. by rewrite E. }
    rewrite bind_lift. destruct (RingBuf.next_ind _ _) as [i| |] eqn:N; [| done | done].
    unfold RingBuf.store_read. rewrite bind_modify. unfold RingBuf.ptr_read, mbind, M_bind.
    cbn [fst snd]. destruct (mapped m (RingBuf.slot esz r i) esz) eqn:Em.
    + exists 4%nat. split; [lia |]. simpl. rewrite E, N. simpl.
      change (RingBuf.slot esz (set_read _ r) i) with (RingBuf.slot esz r i). by rewrite Em.
    + simpl. change (RingBuf.slot esz (set_read _ r) i) with (RingBuf.slot esz r i). by rewrite Em.
Qed.

(** ** Witnesses *)

(** Two elements pushed, one popped, the second pop under way. *)
Definition sample_sched : list (option Z) :=
  [Some 7; Some 7; None; Some 7; Some 7; None; None; None; Some 8; None; Some 8; Some 8; None;
   None].

Definition sample_conc : conc Z :=
  match run_sched (prof := Debug) 8 sample_sched (init 64 3 sample_shm) with
  | Done s => s
  | _ => init 64 3 sample_shm
  end.

Lemma sample_reachable : star (step (prof := Debug) 8) (init 64 3 sample_shm) sample_conc.
Proof. apply (run_sched_star (prof := Debug) 8 sample_sched). vm_compute. reflexivity. Qed.

Lemma spsc_safe_witness : ∃ s', cons_step (prof := Debug) 8 sample_conc = Done s'.
Proof.
  refine (proj1 (proj2 (spsc_safe (prof := Debug) 8 3 64 sample_shm _ _ _ _ sample_conc _)));
    [lia | lia | lia | simpl; lia | exact sample_reachable].
Defined.

Lemma spsc_pop_value_witness :
  ∃ x s', c_pushed sample_conc !! length (c_popped sample_conc) = Some x ∧
    cons_step (prof := Debug) 8 sample_conc = Done s' ∧
    (¬ racy sample_conc → c_popped s' = c_popped sample_conc ++ [x]) ∧
    (racy sample_conc → c_prod sample_conc = PStored 2 x ∧
       c_popped s' = c_popped sample_conc
         ++ [shm_load (c_mem sample_conc) (RingBuf.slot 8 (c_ring sample_conc) 2)]).
Proof.
  refine (spsc_pop_value (prof := Debug) 8 3 64 sample_shm _ _ _ _ sample_conc 2 _ _);
    [lia | lia | lia | simpl; lia | exact sample_reachable | vm_compute; reflexivity].
Defined.

(** The execution goes on with the producer first. *)
Definition calm_end : conc Z :=
  match run_sched (prof := Debug) 8 (sample_sched ++ [Some 8; None]) (init 64 3 sample_shm) with
  | Done s => s
  | _ => init 64 3 sample_shm
  end.

Lemma calm_reachable : star (calm_step (prof := Debug) 8) (init 64 3 sample_shm) calm_end.
Proof.
  apply (run_sched_calm (prof := Debug) 8 (sample_sched ++ [Some 8; None]));
    vm_compute; reflexivity.
Qed.

Lemma spsc_fifo_witness : c_popped calm_end = [7; 8] ∧ c_popped calm_end `prefix_of` c_pushed calm_end.
Proof.
  split; [vm_compute; reflexivity |].
  refine (spsc_fifo (prof := Debug) 8 3 64 sample_shm _ _ _ _ calm_end _);
    [lia | lia | lia | simpl; lia | exact calm_reachable].
Defined.

(** Element 7 is pushed, 0 is popped. *)
Lemma spsc_race_witness :
  ∃ s, star (step (prof := Debug) 8) (init 64 3 sample_shm) s ∧ c_pushed s = [7] ∧
    c_cresults s = [Some 0].
Proof.
  refine (spsc_race (prof := Debug) 8 3 64 sample_shm _ _ _ _ 7 _); simpl; lia.
Defined.

Lemma spsc_wait_free_witness :
  ∃ s', run_sched (prof := Debug) 8 sample_sched sample_conc = Done s' ∧
    7 ≤ 4 * Z.of_nat (length (c_presults s') - length (c_presults sample_conc)) + 3.
Proof.
  refine (spsc_wait_free (prof := Debug) 8 3 64 sample_shm _ _ _ _ sample_conc sample_sched _);
    [lia | lia | lia | simpl; lia | exact sample_reachable].
Defined.
