(* ===== verification/RingBufLive.v ===== *)
(** * Progress of the consumer ([ipc-queue/src/lib.rs])

    [spsc_wait_free] is about the producer; here every element whose index has
    been published is popped, by any schedule that lets the consumer run often
    enough, whatever the producer does in between. *)

From S2P Require Import Prelude RingBuf RingBufConc.

(** The turns of the consumer in a schedule, and how far [pop] has got,
    counting four pieces for each element. *)
Definition cons_moves {T} (l : list (option T)) : Z :=
  Z.of_nat (length (filter (λ t, t = None) l)).

Definition cons_progress {T} (s : conc T) : Z :=
  4 * Z.of_nat (length (c_popped s)) +
  match c_cons s with CIdle => 0 | CLoaded _ => 1 | CChecked _ => 2 | CStored _ => 3 end.

(** An infinite schedule, and its first [k] turns. *)
Definition fair {T} (sched : nat → option T) : Prop := ∀ m, ∃ k, (m ≤ k)%nat ∧ sched k = None.
Definition turns {T} (sched : nat → option T) (k : nat) : list (option T) := sched <$> seq 0 k.

Lemma cons_moves_app {T} (l l' : list (option T)) : cons_moves (l ++ l') = cons_moves l + cons_moves l'.
Proof. unfold cons_moves. rewrite filter_app. len. Qed.

Lemma fair_moves {T} (sched : nat → option T) (n : nat) :
  fair sched → ∃ k, Z.of_nat n ≤ cons_moves (turns sched k).
Proof.
  intros F. induction n as [|n [k IH]]; [by exists 0%nat |].
  destruct (F k) as (j & Hj & E). exists (S j). unfold turns in *.
  replace (S j) with (k + (S j - k))%nat by lia. rewrite seq_app, fmap_app, cons_moves_app.
  replace (S j - k)%nat with ((j - k) + 1)%nat by lia. rewrite seq_app, fmap_app, cons_moves_app.
  replace (0 + k + (j - k))%nat with j by lia. simpl. rewrite E.
  assert (0 ≤ cons_moves (sched <$> seq k (j - k))) by (unfold cons_moves; lia).
  change (cons_moves [None]) with 1. lia.
Qed.

Section progress.
Context {prof : profile} {T : Type} (esz : Z).
Implicit Types s : conc T.

(** While an element waits, each turn of the consumer is progress. *)
Lemma cons_step_progress n s s' :
  inv esz n s → (length (c_popped s) < length (c_pushed s))%nat → cons_step esz s = Done s' →
  cons_progress s' = cons_progress s + 1.
Proof.
  intros [Hn W Hw Hr Hb _ Hc _] Hlt. unfold cons_progress, c_popped, taken, published, c_popped in *.
  destruct s as [r m p c pr cr h]. simpl in *. destruct c as [|i|i|i]; simpl in *.
  - intros [= <-]. simpl. lia.
  - pose proof W as []. rewrite as_sint_id by (unfold is_sint; lia).
    destruct (Z.eqb_spec i (write r)) as [E | E].
    + exfalso. rewrite Hc, Hw in E. apply mod_inj in E; lia.
    + destruct (RingBuf.next_ind _ _); simpl; intros [= <-]. simpl. lia.
  - intros [= <-]. simpl. lia.
  - destruct (mapped _ _ _); intros [= <-]. simpl. rewrite popped_app, length_app. simpl. lia.
Qed.

(** Elements are neither taken back nor withdrawn. *)
Lemma cons_step_grows s s' :
  cons_step esz s = Done s' → c_pushed s' = c_pushed s ∧ c_popped s `prefix_of` c_popped s'.
Proof.
  destruct s as [r m p c pr cr h]. unfold c_popped. destruct c as [|i|i|i]; simpl.
  - by intros [= <-].
  - destruct (_ =? _); [intros [= <-] |].
    + simpl. rewrite popped_app. split; [done | by apply prefix_app_r].
    + by destruct (RingBuf.next_ind _ _); simpl; intros [= <-].
  - by intros [= <-].
  - destruct (mapped _ _ _); intros [= <-]. simpl. rewrite popped_app. split; [done | by apply prefix_app_r].
Qed.

Lemma run_sched_popped l s s' : run_sched esz l s = Done s' → c_popped s `prefix_of` c_popped s'.
Proof.
  revert s. induction l as [|[x|] l IH]; intros s; simpl.
  - by intros [= <-].
  - destruct (prod_step esz x s) as [s1| |] eqn:E; try done. intros R%IH.
    by destruct (prod_step_grows esz x s s1 E) as (<- & _).
  - destruct (cons_step esz s) as [s1| |] eqn:E; try done. intros R%IH.
    destruct (cons_step_grows s s1 E) as [_ Hp]. by etrans.
Qed.

Lemma run_sched_pushed l s s' : run_sched esz l s = Done s' → c_pushed s `prefix_of` c_pushed s'.
Proof.
  revert s. induction l as [|[x|] l IH]; intros s; simpl.
  - by intros [= <-].
  - destruct (prod_step esz x s) as [s1| |] eqn:E; try done. intros R%IH.
    destruct (prod_step_grows esz x s s1 E) as (_ & [k Ek] & _). rewrite Ek in R.
    by eapply prefix_app_l.
  - destruct (cons_step esz s) as [s1| |] eqn:E; try done. intros R%IH.
    by destruct (cons_step_grows s s1 E) as [<- _].
Qed.

(** A schedule that gives the consumer four turns for each waiting element has
    popped all of them at its end. *)
Lemma consumer_progress n l s P :
  inv esz n s → (P ≤ length (c_pushed s))%nat →
  4 * Z.of_nat P ≤ cons_progress s + cons_moves l →
  ∃ s', run_sched esz l s = Done s' ∧ inv esz n s' ∧ (P ≤ length (c_popped s'))%nat.
Proof.
  revert s. induction l as [|[x|] l IH]; intros s I HP Hm; simpl.
  - exists s. split_and!; try done. unfold cons_progress, cons_moves in Hm. simpl in Hm.
    destruct (c_cons s); lia.
  - destruct (prod_step_inv esz n x s I) as (s1 & E1 & I1). rewrite E1.
    destruct (prod_step_grows esz x s s1 E1) as (Ep & [k Ek] & _).
    apply IH; [done | rewrite Ek; len |]. unfold cons_progress, cons_moves in *. rewrite Ep.
    rewrite filter_cons_False in Hm by done. replace (c_cons s1) with (c_cons s); [done |].
    destruct s as [r m p c pr cr h]. destruct p; simpl in E1.
    + by destruct (RingBuf.next_ind _ _); simpl in E1; simplify_eq.
    + by destruct (_ =? _); simplify_eq.
    + by simplify_eq.
    + by destruct (mapped _ _ _); simplify_eq.
  - destruct (cons_step_inv esz n s I) as (s1 & E1 & I1). rewrite E1.
    destruct (cons_step_grows s s1 E1) as [Ep [k Ek]].
    destruct (decide (length (c_popped s) < length (c_pushed s))%nat) as [Hlt | Hge].
    + apply IH; [done | by rewrite Ep |]. rewrite (cons_step_progress n s s1 I Hlt E1).
      unfold cons_moves in *. rewrite filter_cons_True in Hm by done. simpl in Hm. lia.
    + destruct (run_sched_total esz n l s1 I1) as (s2 & E2 & I2 & _). exists s2. split_and!; try done.
      assert (c_popped s1 `prefix_of` c_popped s2) as Hpre%prefix_length
        by (by eapply run_sched_popped).
      rewrite Ek in Hpre. len.
Qed.
End progress.

(** ** Properties *)

Section properties.
Context {prof : profile} {T : Type} (esz n bs : Z) (m0 : shm T).
Hypothesis Hn : 1 ≤ n < 2 ^ 63.
Hypothesis Hesz : 0 < esz.
Hypothesis Hbs : 0 ≤ bs.
Hypothesis Hmap : bs + n * esz ≤ shm_size m0.

(** C7: whatever is pushed is popped.  Under every schedule that gives the
    consumer a turn again and again (the producer may move as it likes, or stop
    in the middle of [push]), after finitely many turns as many elements have
    been returned by [pop] as had been published at the start; four turns of
    the consumer for each waiting element are enough.  If moreover the consumer
    never reads a slot between its publication and the write, then these are
    the published elements, in order. *)
Theorem spsc_liveness s (sched : nat → option T) :
  star (step esz) (init bs n m0) s → fair sched →
  (∃ k s', run_sched esz (turns sched k) s = Done s' ∧
     (length (c_pushed s) ≤ length (c_popped s'))%nat) ∧
  (∀ k, 4 * (published s - Z.of_nat (length (c_popped s))) ≤ cons_moves (turns sched k) →
     ∃ s', run_sched esz (turns sched k) s = Done s' ∧
       (length (c_pushed s) ≤ length (c_popped s'))%nat ∧
       (star (calm_step esz) (init bs n m0) s → calm_sched esz (turns sched k) s = true →
        c_pushed s `prefix_of` c_popped s')).
Proof.
  intros R F. pose proof (reachable_inv esz n bs m0 s Hn Hesz Hbs Hmap R) as I.
  assert (Hk : ∀ k, 4 * (published s - Z.of_nat (length (c_popped s))) ≤ cons_moves (turns sched k) →
    ∃ s', run_sched esz (turns sched k) s = Done s' ∧ (length (c_pushed s) ≤ length (c_popped s'))%nat).
  { intros k Hk. destruct (consumer_progress esz n (turns sched k) s (length (c_pushed s)) I)
      as (s' & E & _ & L); [done | | by exists s'].
    unfold published, cons_progress in *. destruct (c_cons s); lia. }
  split.
  - destruct (fair_moves sched (Z.to_nat (4 * (published s - Z.of_nat (length (c_popped s))))) F) as [k Hm].
    exists k. apply Hk. lia.
  - intros k Hm. destruct (Hk k Hm) as (s' & E & L). exists s'. split_and!; try done. intros Rc Cs.
    assert (Rc' : star (calm_step esz) (init bs n m0) s').
    { eapply star_trans; [exact Rc |]. by eapply run_sched_calm. }
    destruct (calm_prefix esz n bs m0 Hn Hesz Hbs Hmap s' Rc') as [rest Hrest].
    assert (P : c_pushed s `prefix_of` c_pushed s') by (by eapply run_sched_pushed).
    destruct (prefix_weak_total _ _ _ P (ex_intro _ rest Hrest)) as [? | Q]; [done |].
    by rewrite (prefix_length_eq _ _ Q).
Qed.
End properties.

(** ** Witnesses *)

(** The producer never moves again. *)
Definition stalled : nat → option Z := λ _, None.

Lemma spsc_liveness_witness :
  ∃ k s', run_sched (prof := Debug) 8 (turns stalled k) sample_conc = Done s' ∧
    (length (c_pushed sample_conc) ≤ length (c_popped s'))%nat.
Proof.
  refine (proj1 (spsc_liveness (prof := Debug) 8 3 64 sample_shm _ _ _ _ sample_conc stalled _ _));
    [lia | lia | lia | simpl; lia | exact sample_reachable |].
  intros m. by exists m.
Defined.
