(* ===== verification/RingBufTso.v ===== *)
(** * The queue on x86 ([ipc-queue/src/lib.rs])

    On x86-64 the loads and stores of [push] and [pop] are plain moves, and a
    store goes through a first-in first-out buffer of the processor before the
    other processor sees it.  The pieces of [RingBufConc.v] again, in program
    order, with a store buffer for each thread (total store order); a flush of
    the oldest store of a buffer can happen at any time.  Every sequentially
    consistent execution is one of these ([sc_tso]). *)

From S2P Require Import Prelude RingBuf RingBufConc.

(** The producer stores its index and elements, the consumer its index. *)
Inductive pstore (T : Type) := SWrite (i : Z) | SSlot (a : Z) (x : T).
Arguments SWrite {T}.
Arguments SSlot {T}.

(** [t_ring] and [t_mem] are the shared memory; the other fields are those of
    [conc], and the two buffers, oldest store first. *)
Record tso (T : Type) := Tso {
  t_ring : ringbuf;
  t_mem : shm T;
  t_pbuf : list (pstore T);
  t_cbuf : list Z;
  t_prod : prod_pc T;
  t_cons : cons_pc;
  t_presults : list (result unit io_error);
  t_cresults : list (option T);
  t_pushed : list T
}.
Arguments Tso {T}.
Arguments t_ring {T}.
Arguments t_mem {T}.
Arguments t_pbuf {T}.
Arguments t_cbuf {T}.
Arguments t_prod {T}.
Arguments t_cons {T}.
Arguments t_presults {T}.
Arguments t_cresults {T}.
Arguments t_pushed {T}.

Definition t_popped {T} (s : tso T) : list T := omap (λ r, r) (t_cresults s).

(** A thread sees its own youngest store before the memory. *)
Definition load_write {T} (w : Z) (pb : list (pstore T)) : Z :=
  foldl (λ v e, match e with SWrite i => i | SSlot _ _ => v end) w pb.
Definition load_read (r : Z) (cb : list Z) : Z := default r (last cb).

Section tso.
Context {prof : profile} {T : Type} (esz : Z).

Definition tprod_step (x : T) (s : tso T) : outcome (tso T) :=
  let '(Tso r m pb cb p c pr cr h) := s in
  match p with
  | PIdle =>
      i ← RingBuf.next_ind (capacity r) (as_sint 64 (load_write (write r) pb));
      Done (Tso r m pb cb (PLoaded i x) c pr cr h)
  | PLoaded i y =>
      if i =? as_sint 64 (read r) then Done (Tso r m pb cb PIdle c (pr ++ [Err BufFull]) cr h)
      else Done (Tso r m pb cb (PChecked i y) c pr cr h)
  | PChecked i y =>
      Done (Tso r m (pb ++ [SWrite (as_uint 64 i)]) cb (PStored i y) c pr cr (h ++ [y]))
  | PStored i y =>
      if mapped m (RingBuf.slot esz r i) esz
      then Done (Tso r m (pb ++ [SSlot (RingBuf.slot esz r i) y]) cb PIdle c (pr ++ [Ok tt]) cr h)
      else Undefined
  end.

Definition tcons_step (s : tso T) : outcome (tso T) :=
  let '(Tso r m pb cb p c pr cr h) := s in
  match c with
  | CIdle => Done (Tso r m pb cb p (CLoaded (as_sint 64 (load_read (read r) cb))) pr cr h)
  | CLoaded i =>
      if i =? as_sint 64 (write r) then Done (Tso r m pb cb p CIdle pr (cr ++ [None]) h)
      else i' ← RingBuf.next_ind (capacity r) i; Done (Tso r m pb cb p (CChecked i') pr cr h)
  | CChecked i => Done (Tso r m pb (cb ++ [as_uint 64 i]) p (CStored i) pr cr h)
  | CStored i =>
      if mapped m (RingBuf.slot esz r i) esz
      then Done (Tso r m pb cb p CIdle pr (cr ++ [Some (shm_load m (RingBuf.slot esz r i))]) h)
      else Undefined
  end.

(** The oldest store of a buffer reaches the memory. *)
Definition pflush (s : tso T) : option (tso T) :=
  let '(Tso r m pb cb p c pr cr h) := s in
  match pb with
  | [] => None
  | SWrite i :: pb => Some (Tso (set_write i r) m pb cb p c pr cr h)
  | SSlot a x :: pb => Some (Tso r (shm_store a x m) pb cb p c pr cr h)
  end.

Definition cflush (s : tso T) : option (tso T) :=
  let '(Tso r m pb cb p c pr cr h) := s in
  match cb with
  | [] => None
  | i :: cb => Some (Tso (set_read i r) m pb cb p c pr cr h)
  end.

Inductive tstep : tso T → tso T → Prop :=
  | ts_prod x s s' : tprod_step x s = Done s' → tstep s s'
  | ts_cons s s' : tcons_step s = Done s' → tstep s s'
  | ts_pflush s s' : pflush s = Some s' → tstep s s'
  | ts_cflush s s' : cflush s = Some s' → tstep s s'.

(** A state without delayed stores. *)
Definition embed (s : conc T) : tso T :=
  Tso (c_ring s) (c_mem s) [] [] (c_prod s) (c_cons s) (c_presults s) (c_cresults s) (c_pushed s).

(** ** Invariant *)

(** The stores of the elements [l], of which the first has number [k], to slots
    from [bs] on; [open] when the slot of the last has not been stored. *)
Fixpoint stores (n k bs : Z) (l : list T) (open : bool) : list (pstore T) :=
  match l with
  | [] => []
  | y :: l' =>
      SWrite ((k + 1) mod n) ::
      (if open && bool_decide (l' = []) then []
       else SSlot (bs + (k + 1) mod n * esz) y :: stores n (k + 1) bs l' open)
  end.

Definition is_open (p : prod_pc T) : bool := match p with PStored _ _ => true | _ => false end.

Definition t_taken (s : tso T) : Z :=
  Z.of_nat (length (t_popped s)) + match t_cons s with CStored _ => 1 | _ => 0 end.

(** [d] elements have their slot in memory, and if [half] also the index of the
    next; [k] indices of the consumer are in memory. *)
Record tinv (n : Z) (s : tso T) (d : nat) (half : bool) (k : Z) : Prop := {
  ti_cap : capacity (t_ring s) = n;
  ti_wf : ring_wf esz (t_ring s) (t_mem s);
  ti_write : write (t_ring s) = (Z.of_nat d + Z.b2z half) mod n;
  ti_read : read (t_ring s) = k mod n;
  ti_taken : 0 ≤ k ≤ t_taken s ∧ t_taken s ≤ Z.of_nat d + Z.b2z half;
  ti_bound : Z.of_nat d + Z.b2z half ≤ Z.of_nat (length (t_pushed s)) < k + n;
  ti_open : is_open (t_prod s) = true → (d < length (t_pushed s))%nat;
  ti_pbuf : t_pbuf s = drop (Nat.b2n half)
    (stores n (Z.of_nat d) (base (t_ring s)) (drop d (t_pushed s)) (is_open (t_prod s)));
  ti_cbuf : t_cbuf s = (λ j, j mod n) <$> seqZ (k + 1) (t_taken s - k);
  ti_prod : prod_ok n (Z.of_nat (length (t_pushed s))) k (t_pushed s) (t_prod s);
  ti_cons : cons_ok n (Z.of_nat d + Z.b2z half) (t_taken s) (t_cons s);
  ti_cells : ∀ j x, (length (t_popped s) ≤ j < d)%nat → t_pushed s !! j = Some x →
    shm_load (t_mem s) (RingBuf.slot esz (t_ring s) ((Z.of_nat j + 1) mod n)) = x
}.
End tso.

(** ** Lemmas *)

Section stores.
Context {T : Type} (esz n bs : Z).
Implicit Types l : list T.

Lemma stores_publish k l y :
  stores esz n k bs (l ++ [y]) true
  = stores esz n k bs l false ++ [SWrite ((k + Z.of_nat (length l) + 1) mod n)].
Proof.
  revert k. induction l as [|x l IH]; intros k; simpl.
  - by rewrite Z.add_0_r.
  - rewrite bool_decide_eq_false_2 by (by destruct l). simpl. rewrite IH.
    by replace (k + Z.of_nat (S (length l)) + 1) with (k + 1 + Z.of_nat (length l) + 1) by lia.
Qed.

Lemma stores_write k l y :
  last l = Some y →
  stores esz n k bs l false
  = stores esz n k bs l true ++ [SSlot (bs + (k + Z.of_nat (length l)) mod n * esz) y].
Proof.
  revert k. induction l as [|x l IH]; intros k Hl; [done |]. simpl. destruct l as [|z l].
  - injection Hl as ->. done.
  - rewrite (IH (k + 1)) by done. rewrite (bool_decide_eq_false_2 (z :: l = [])) by done.
    replace (k + Z.of_nat (S (length (z :: l)))) with (k + 1 + Z.of_nat (length (z :: l))) by lia. done.
Qed.

Lemma load_slot v a (x : T) pb : load_write v (SSlot a x :: pb) = load_write v pb.
Proof. done. Qed.

(** The producer finds its own index in its buffer, or in memory. *)
Lemma load_stores v k l open :
  load_write v (stores esz n k bs l open)
  = if decide (l = []) then v else (k + Z.of_nat (length l)) mod n.
Proof.
  revert v k. induction l as [|x l IH]; intros v k; [done |]. simpl.
  destruct (open && bool_decide (l = [])) eqn:E; simpl.
  - apply andb_true_iff in E as [_ E%bool_decide_eq_true]. subst l. done.
  - unfold load_write in *. simpl. rewrite IH. case_decide as Hl; [subst l |]; simpl length; f_equal; lia.
Qed.

Lemma load_pbuf (d : nat) half l open :
  (half = true → l ≠ []) →
  load_write ((Z.of_nat d + Z.b2z half) mod n)
    (drop (Nat.b2n half) (stores esz n (Z.of_nat d) bs l open))
  = (Z.of_nat d + Z.of_nat (length l)) mod n.
Proof.
  intros Hh. destruct half; simpl drop.
  - destruct l as [|x l]; [by destruct (Hh eq_refl) |]. simpl.
    destruct (open && bool_decide (l = [])) eqn:E.
    + apply andb_true_iff in E as [_ E%bool_decide_eq_true]. subst l. done.
    + rewrite drop_0, load_slot, load_stores. case_decide; [subst l |]; simpl length; f_equal; lia.
  - change (drop (Nat.b2n false)) with (@drop (pstore T) 0). rewrite drop_0, load_stores.
    case_decide; [subst l |]; simpl length; simpl Z.b2z; f_equal; lia.
Qed.
End stores.

(** The consumer finds its own index in its buffer, or in memory. *)
Lemma load_cbuf n k m :
  k ≤ m → load_read (k mod n) ((λ j, j mod n) <$> seqZ (k + 1) (m - k)) = m mod n.
Proof.
  intros Hk. unfold load_read. destruct (decide (k = m)) as [-> |].
  - rewrite Z.sub_diag. done.
  - replace (m - k) with ((m - k - 1) + 1) by lia. rewrite seqZ_app by lia.
    rewrite fmap_app. simpl. rewrite last_snoc. simpl. f_equal. lia.
Qed.

Section preservation.
Context {prof : profile} {T : Type} (esz : Z).
Implicit Types s : tso T.

Ltac fields :=
  unfold t_taken, t_popped, prod_ok, cons_ok in *;
  cbn [t_ring t_mem t_pbuf t_cbuf t_prod t_cons t_presults t_cresults t_pushed is_open] in *.

Lemma tinv_init bs cap (m : shm T) :
  1 ≤ cap < 2 ^ 63 → 0 < esz → 0 ≤ bs → bs + cap * esz ≤ shm_size m →
  tinv esz cap (embed (init bs cap m)) 0 false 0.
Proof.
  intros. pose proof (inv_init esz bs cap m) as [E W _ _ _ _ _ _]; try done.
  split; fields; try done; simpl; lia.
Qed.

Lemma drop_half half l l' :
  (half = true → l ≠ []) → drop (Nat.b2n half) (l ++ l') = drop (Nat.b2n half) l ++ l' :> list (pstore T).
Proof. destruct half; [| done]. destruct l; [by intros []| done]. Qed.

(** The stores under way when the index of an element is stored. *)
Lemma pbuf_publish n (d : nat) half bs (h : list T) y :
  (Z.of_nat d + Z.b2z half ≤ Z.of_nat (length h)) →
  drop (Nat.b2n half) (stores esz n (Z.of_nat d) bs (drop d (h ++ [y])) true)
  = drop (Nat.b2n half) (stores esz n (Z.of_nat d) bs (drop d h) false)
    ++ [SWrite ((Z.of_nat (length h) + 1) mod n)].
Proof.
  intros Hd. rewrite drop_app_le by (destruct half; simpl in Hd; lia).
  rewrite stores_publish, length_drop, drop_half.
  - replace (Z.of_nat d + Z.of_nat (length h - d)) with (Z.of_nat (length h)); [done |].
    destruct half; simpl in Hd; lia.
  - intros ->. simpl in Hd. destruct (drop d h) eqn:E; [| done].
    apply (f_equal length) in E. rewrite length_drop in E. simpl in E. lia.
Qed.

(** And when its slot is. *)
Lemma pbuf_write n (d : nat) half bs (h : list T) y :
  (d < length h)%nat → last h = Some y →
  drop (Nat.b2n half) (stores esz n (Z.of_nat d) bs (drop d h) false)
  = drop (Nat.b2n half) (stores esz n (Z.of_nat d) bs (drop d h) true)
    ++ [SSlot (bs + Z.of_nat (length h) mod n * esz) y].
Proof.
  intros Hd Hl. rewrite (stores_write _ _ _ _ _ y), length_drop, drop_half.
  - by replace (Z.of_nat d + Z.of_nat (length h - d)) with (Z.of_nat (length h)) by lia.
  - intros _. destruct (drop d h) eqn:E; [| done].
    apply (f_equal length) in E. rewrite length_drop in E. simpl in E. lia.
  - rewrite last_lookup, lookup_drop, length_drop in *. rewrite <- Hl. f_equal. lia.
Qed.

Lemma tprod_step_inv n x s d half k :
  tinv esz n s d half k → ∃ s', tprod_step esz x s = Done s' ∧ tinv esz n s' d half k.
Proof.
  destruct s as [r m pb cb p c pr cr h].
  intros [E W Ew Er [Et1 Et2] [Eb1 Eb2] Eo Ep Ec Hp Hc Hcells]. fields. pose proof W as [].
  subst n. set (n := capacity r) in *. set (P := Z.of_nat (length h)) in *.
  assert (Hhalf : half = true → drop d h ≠ []).
  { intros -> Ed. apply (f_equal length) in Ed. rewrite length_drop in Ed. simpl in *. lia. }
  assert (Hd : (d ≤ length h)%nat) by (destruct half; simpl in *; lia).
  destruct p as [|i y|i y|i y]; simpl in *.
  - rewrite Ep, Ew, load_pbuf by done. rewrite length_drop.
    replace (Z.of_nat d + Z.of_nat (length h - d)) with P by lia.
    pose proof (Z.mod_pos_bound P n ltac:(lia)).
    rewrite as_sint_id, next_ind_ok by (unfold is_sint; lia). eexists. split; [done |].
    split; fields; try done. by rewrite Zplus_mod_idemp_l.
  - rewrite as_sint_id by (unfold is_sint; lia).
    destruct (Z.eqb_spec i (read r)) as [Ei | Ei]; eexists; (split; [done |]); split; fields; try done.
    split; [done |]. destruct (decide (P + 1 = k + n)) as [Ef |]; [| lia].
    exfalso. apply Ei. rewrite Hp, Er, Ef. replace (k + n) with (k + 1 * n) by lia. by apply Z_mod_plus_full.
  - destruct Hp as [Ei Hb]. eexists. split; [done |].
    assert (Ri : 0 ≤ i < n) by (rewrite Ei; apply Z.mod_pos_bound; lia).
    rewrite as_uint_id by (unfold is_uint; lia).
    assert (EP : Z.of_nat (length (h ++ [y])) = P + 1) by len.
    split; fields; rewrite ?EP; try done; try lia.
    + rewrite pbuf_publish, Ep by lia. by rewrite Ei.
    + split; [done |]. apply last_snoc.
    + intros j z Hj Hl. apply Hcells; [done |]. by rewrite lookup_app_l in Hl by lia.
  - destruct Hp as [Ei Hlast]. specialize (Eo eq_refl).
    assert (Ri : 0 ≤ i < n) by (rewrite Ei; apply Z.mod_pos_bound; lia).
    rewrite (slot_mapped esz r m) by done. eexists. split; [done |].
    split; fields; try done. rewrite (pbuf_write _ _ _ _ _ y), Ep by done. by rewrite Ei.
Qed.

Lemma tcons_step_inv n s d half k :
  tinv esz n s d half k → ∃ s', tcons_step esz s = Done s' ∧ tinv esz n s' d half k.
Proof.
  destruct s as [r m pb cb p c pr cr h].
  intros [E W Ew Er [Et1 Et2] [Eb1 Eb2] Eo Ep Ec Hp Hc Hcells]. fields. pose proof W as [].
  subst n. set (n := capacity r) in *. set (a := length (omap (λ r, r) cr)) in *.
  destruct c as [|i|i|i]; simpl in *.
  - rewrite Ec, Er, load_cbuf by lia. pose proof (Z.mod_pos_bound (Z.of_nat a + 0) n ltac:(lia)).
    rewrite as_sint_id by (unfold is_sint; lia). eexists. split; [done |]. split; fields; done.
  - rewrite as_sint_id by (unfold is_sint; lia).
    destruct (Z.eqb_spec i (write r)) as [Ei | Ei].
    + eexists. split; [done |]. split; fields; rewrite ?popped_app, ?app_nil_r; done.
    + pose proof (Z.mod_pos_bound (Z.of_nat a + 0) n ltac:(lia)). rewrite next_ind_ok by lia.
      eexists. split; [done |]. split; fields; try done.
      split; [by rewrite Hc, Zplus_mod_idemp_l |].
      destruct (decide (Z.of_nat a + 0 = Z.of_nat d + Z.b2z half)) as [Ee |]; [| fold a; lia].
      exfalso. apply Ei. by rewrite Hc, Ew, Ee.
  - destruct Hc as [Ei Hb].
    assert (Ri : 0 ≤ i < n) by (rewrite Ei; apply Z.mod_pos_bound; lia).
    eexists. split; [done |]. rewrite as_uint_id by (unfold is_uint; lia).
    split; fields; fold a; replace (Z.of_nat a + 1) with (Z.of_nat a + 0 + 1) by lia; try done; try lia.
    replace (Z.of_nat a + 0 + 1 - k) with ((Z.of_nat a + 0 - k) + 1) by lia.
    rewrite seqZ_app, fmap_app, <- Ec by lia. simpl. rewrite Ei. do 3 f_equal. lia.
  - assert (Ri : 0 ≤ i < n) by (rewrite Hc; apply Z.mod_pos_bound; lia).
    rewrite (slot_mapped esz r m) by done. eexists. split; [done |].
    assert (Ek : length (omap (λ r, r) (cr ++ [Some (shm_load m (RingBuf.slot esz r i))])) = S a).
    { rewrite popped_app, length_app. simpl. unfold a. lia. }
    split; fields; rewrite ?Ek; replace (Z.of_nat (S a) + 0) with (Z.of_nat a + 1) by lia; try done.
    intros j z Hj. apply Hcells. lia.
Qed.

Lemma pflush_inv n s s' d half k :
  tinv esz n s d half k → pflush s = Some s' → ∃ d' half', tinv esz n s' d' half' k.
Proof.
  destruct s as [r m pb cb p c pr cr h].
  intros [E W Ew Er [Et1 Et2] [Eb1 Eb2] Eo Ep Ec Hp Hc Hcells]. fields. pose proof W as [].
  subst n. set (n := capacity r) in *.
  destruct (drop d h) as [|y l] eqn:El; [by rewrite Ep; destruct half |].
  pose proof (f_equal length El) as Ll. rewrite length_drop in Ll. simpl in Ll.
  assert (Hy : h !! d = Some y) by (rewrite <- (Nat.add_0_r d), <- lookup_drop, El; done).
  destruct half; simpl in *.
  - destruct (is_open p && bool_decide (l = [])) eqn:Eopen; rewrite Ep; [done |].
    rewrite drop_0. intros [= <-]. exists (S d), false.
    assert (Ed : drop (S d) h = l) by (rewrite <- Nat.add_1_r, <- drop_drop, El; done).
    split; fields; try done; simpl Z.b2z; try lia.
    + rewrite Ew. f_equal. lia.
    + intros Ho. rewrite Ho in Eopen. apply bool_decide_eq_false in Eopen.
      destruct l; [done |]. simpl in Ll. lia.
    + rewrite drop_0, Ed. f_equal. lia.
    + by replace (Z.of_nat (S d) + 0) with (Z.of_nat d + 1) by lia.
    + intros j x Hj Hx. destruct (decide (j = d)) as [-> | Hne].
      * rewrite shm_load_store_eq. congruence.
      * rewrite shm_load_store_ne; [apply Hcells; [lia | done] |].
        unfold RingBuf.slot. intros Es. assert ((Z.of_nat d + 1) mod n = (Z.of_nat j + 1) mod n) as Em by nia.
        apply mod_inj in Em; [lia | lia |]. destruct c; lia.
  - rewrite Ep. intros [= <-]. exists d, true.
    pose proof (Z.mod_pos_bound (Z.of_nat d + 1) n ltac:(lia)).
    split; fields; try done; simpl Z.b2z; try lia.
    + by rewrite El.
    + destruct c; try done. destruct Hc. split; [done | lia].
Qed.

Lemma cflush_inv n s s' d half k :
  tinv esz n s d half k → cflush s = Some s' → tinv esz n s' d half (k + 1).
Proof.
  destruct s as [r m pb cb p c pr cr h].
  intros [E W Ew Er [Et1 Et2] [Eb1 Eb2] Eo Ep Ec Hp Hc Hcells]. fields. pose proof W as [].
  subst n. set (n := capacity r) in *. set (R := Z.of_nat (length (omap (λ r, r) cr)) + _) in *.
  destruct (decide (k = R)) as [-> |]; [by rewrite Z.sub_diag in Ec; simpl in Ec; rewrite Ec |].
  rewrite seqZ_cons in Ec by lia. simpl in Ec. rewrite Ec. intros [= <-].
  pose proof (Z.mod_pos_bound (k + 1) n ltac:(lia)).
  split; fields; fold R; try done; try lia.
  - f_equal. f_equal; lia.
  - destruct p; try done. destruct Hp. split; [done | lia].
Qed.
End preservation.

(** The consumer is about to read a slot whose store has not reached the
    memory: it is the oldest one in the producer's buffer, or the producer has
    not made it yet. *)
Definition late {T} (esz : Z) (s : tso T) : Prop :=
  ∃ i, t_cons s = CStored i ∧
    ((∃ x, head (t_pbuf s) = Some (SSlot (RingBuf.slot esz (t_ring s) i) x)) ∨
     (t_pbuf s = [] ∧ ∃ x, t_prod s = PStored i x)).

(** Executions in which the consumer never reads such a slot. *)
Inductive tcalm {prof : profile} {T} (esz : Z) : tso T → tso T → Prop :=
  | tc_prod x s s' : tprod_step esz x s = Done s' → tcalm esz s s'
  | tc_cons s s' : ¬ late esz s → tcons_step esz s = Done s' → tcalm esz s s'
  | tc_pflush s s' : pflush s = Some s' → tcalm esz s s'
  | tc_cflush s s' : cflush s = Some s' → tcalm esz s s'.

Section more_lemmas.
Context {prof : profile} {T : Type} (esz : Z).
Implicit Types s : tso T.

Lemma reachable_tinv n bs (m : shm T) s :
  1 ≤ n < 2 ^ 63 → 0 < esz → 0 ≤ bs → bs + n * esz ≤ shm_size m →
  star (tstep esz) (embed (init bs n m)) s → ∃ d half k, tinv esz n s d half k.
Proof.
  intros. apply (star_invariant (tstep esz) (λ s, ∃ d half k, tinv esz n s d half k)
    (embed (init bs n m)) s); [| | done].
  { exists 0%nat, false, 0. by apply tinv_init. }
  intros u v (d & half & k & I) Huv. destruct Huv as [x u v E | u v E | u v E | u v E].
  - destruct (tprod_step_inv esz n x u d half k I) as (v' & E' & I'). assert (v' = v) as -> by congruence. eauto.
  - destruct (tcons_step_inv esz n u d half k I) as (v' & E' & I'). assert (v' = v) as -> by congruence. eauto.
  - destruct (pflush_inv esz n u v d half k I E) as (d' & half' & I'). eauto.
  - eauto using cflush_inv.
Qed.

(** An index whose slot is not in memory, and is not delayed, has been taken. *)
Lemma not_late n s d half k i :
  tinv esz n s d half k → t_cons s = CStored i → ¬ late esz s → (length (t_popped s) < d)%nat.
Proof.
  intros [E W Ew Er [Et1 Et2] [Eb1 Eb2] Eo Ep Ec Hp Hc _] Hi Hl. unfold t_taken in *. rewrite Hi in *.
  destruct (decide (length (t_popped s) < d)%nat) as [|Hge]; [done |]. exfalso. apply Hl.
  assert (half = true ∧ d = length (t_popped s)) as [-> Ed] by (destruct half; simpl in *; lia).
  simpl in *. exists i. split; [done |].
  destruct (drop d (t_pushed s)) as [|y l] eqn:El.
  { apply (f_equal length) in El. rewrite length_drop in El. simpl in El. lia. }
  destruct (is_open (t_prod s) && bool_decide (l = [])) eqn:Eopen;
    simpl in Ep; rewrite drop_0, Eopen in Ep.
  - right. rewrite Ep. split; [done |]. apply andb_true_iff in Eopen as [Eopen El'%bool_decide_eq_true].
    subst l. destruct (t_prod s) as [| | |j x]; simpl in Eopen; try done. exists x.
    simpl in Hp. destruct Hp as [-> _].
    rewrite Hc. do 3 f_equal. apply (f_equal length) in El. rewrite length_drop in El. simpl in El. lia.
  - left. exists y. rewrite Ep. simpl. unfold RingBuf.slot. rewrite Hc, Ed. done.
Qed.

(** What the last piece of [pop] reads. *)
Lemma tso_read n s d half k i :
  tinv esz n s d half k → t_cons s = CStored i →
  ∃ x s', t_pushed s !! length (t_popped s) = Some x ∧ tcons_step esz s = Done s' ∧
    t_popped s' = t_popped s ++ [shm_load (t_mem s) (RingBuf.slot esz (t_ring s) i)] ∧
    (¬ late esz s → t_popped s' = t_popped s ++ [x]).
Proof.
  intros I Hi. destruct (tcons_step_inv esz n s d half k I) as (s' & Es & _).
  pose proof (not_late n s d half k i I Hi) as Hnl.
  destruct I as [E W Ew Er [Et1 Et2] [Eb1 Eb2] Eo Ep Ec Hp Hc Hcells]. unfold t_taken in *. rewrite Hi in *.
  simpl in Hc. destruct (lookup_lt_is_Some_2 (t_pushed s) (length (t_popped s))) as [x Hx]; [lia |].
  exists x, s'. split; [done |]. split; [done |].
  assert (Ev : t_popped s' = t_popped s ++ [shm_load (t_mem s) (RingBuf.slot esz (t_ring s) i)]).
  { destruct s as [r m pb cb p c pr cr h]. simpl in Hi. subst c. simpl in Es.
    destruct (mapped _ _ _); [| done]. injection Es as <-. unfold t_popped. simpl. by rewrite popped_app. }
  split; [done |]. intros Hl. rewrite Ev, Hc. do 3 f_equal. apply Hcells; [| done]. specialize (Hnl Hl). lia.
Qed.

Lemma tcons_step_popped s s' :
  tcons_step esz s = Done s' →
  t_pushed s' = t_pushed s ∧ ((∃ i, t_cons s = CStored i) ∨ t_popped s' = t_popped s).
Proof.
  destruct s as [r m pb cb p c pr cr h]. unfold t_popped. destruct c as [|i|i|i]; simpl.
  - intros [= <-]. auto.
  - destruct (_ =? _); [intros [= <-]; simpl; rewrite popped_app, app_nil_r; auto |].
    destruct (RingBuf.next_ind _ _); simpl; intros [= <-]. auto.
  - intros [= <-]. auto.
  - destruct (mapped _ _ _); intros [= <-]. simpl. split; [done |]. left. eauto.
Qed.

Lemma tprod_step_grows x s s' :
  tprod_step esz x s = Done s' → t_popped s' = t_popped s ∧ t_pushed s `prefix_of` t_pushed s'.
Proof.
  destruct s as [r m pb cb p c pr cr h]. unfold t_popped. destruct p as [|i y|i y|i y]; simpl.
  - destruct (RingBuf.next_ind _ _); simpl; by intros [= <-].
  - by destruct (_ =? _); intros [= <-].
  - intros [= <-]. split; [done | by apply prefix_app_r].
  - by destruct (mapped _ _ _); intros [= <-].
Qed.

Lemma flush_same s s' :
  pflush s = Some s' ∨ cflush s = Some s' → t_popped s' = t_popped s ∧ t_pushed s' = t_pushed s.
Proof.
  destruct s as [r m pb cb p c pr cr h]. intros [E | E]; simpl in E.
  - by destruct pb as [|[] ?]; simplify_eq.
  - by destruct cb; simplify_eq.
Qed.
End more_lemmas.

(** ** Schedules *)

Inductive turn (T : Type) := TProd (x : T) | TCons | TPFlush | TCFlush.
Arguments TProd {T}.
Arguments TCons {T}.
Arguments TPFlush {T}.
Arguments TCFlush {T}.

Definition of_option {A} (o : option A) : outcome A :=
  match o with Some a => Done a | None => Undefined end.

Section schedules.
Context {prof : profile} {T : Type} (esz : Z).

Fixpoint run_turns (l : list (turn T)) (s : tso T) : outcome (tso T) :=
  match l with
  | [] => Done s
  | t :: l' =>
      s' ← (match t with
            | TProd x => tprod_step esz x s
            | TCons => tcons_step esz s
            | TPFlush => of_option (pflush s)
            | TCFlush => of_option (cflush s)
            end);
      run_turns l' s'
  end.

Lemma run_turns_star l s s' : run_turns l s = Done s' → star (tstep esz) s s'.
Proof.
  revert s. induction l as [|t l IH]; intros s; simpl.
  { intros [= <-]. constructor. }
  intros (s1 & E & R)%outcome_bind_inv. eapply star_step; [| by apply IH]. destruct t.
  - by eapply ts_prod.
  - by eapply ts_cons.
  - apply ts_pflush. destruct (pflush s); simpl in E; by simplify_eq.
  - apply ts_cflush. destruct (cflush s); simpl in E; by simplify_eq.
Qed.

(** Schedules whose executions are calm, decided by running them. *)
Definition lateb (s : tso T) : bool :=
  match t_cons s, t_pbuf s, t_prod s with
  | CStored i, SSlot a _ :: _, _ => a =? RingBuf.slot esz (t_ring s) i
  | CStored i, [], PStored j _ => j =? i
  | _, _, _ => false
  end.

Lemma lateb_false s : lateb s = false → ¬ late esz s.
Proof.
  unfold lateb. intros Hb (i & Hi & [[x Hx] | [Hn [x Hx]]]); rewrite Hi in Hb.
  - destruct (t_pbuf s) as [|e l]; simplify_eq/=. by rewrite Z.eqb_refl in Hb.
  - rewrite Hn, Hx, Z.eqb_refl in Hb. done.
Qed.

Fixpoint calm_turns (l : list (turn T)) (s : tso T) : bool :=
  match l with
  | [] => true
  | t :: l' =>
      match t with TCons => negb (lateb s) | _ => true end &&
      match run_turns [t] s with Done s' => calm_turns l' s' | _ => false end
  end.

Lemma calm_turns_star l s s' :
  calm_turns l s = true → run_turns l s = Done s' → star (tcalm esz) s s'.
Proof.
  revert s. induction l as [|t l IH]; intros s; simpl.
  { intros _ [= <-]. constructor. }
  rewrite andb_true_iff. intros [Hb Hc] (s1 & E & R)%outcome_bind_inv. rewrite E in Hc. simpl in Hc.
  eapply star_step; [| by apply IH]. destruct t.
  - by eapply tc_prod.
  - apply tc_cons; [| done]. apply lateb_false. by destruct (lateb s).
  - apply tc_pflush. destruct (pflush s); simpl in E; by simplify_eq.
  - apply tc_cflush. destruct (cflush s); simpl in E; by simplify_eq.
Qed.

(** A piece with its store flushed at once is a step of [RingBufConc.v]. *)
Lemma step_tso (s s' : conc T) : step esz s s' → star (tstep esz) (embed s) (embed s').
Proof.
  intros Hs. destruct Hs as [x s s' E | s s' E]; destruct s as [r m p c pr cr h].
  - destruct p as [|i y|i y|i y]; simpl in E.
    + apply star_one, (ts_prod _ x). unfold embed. simpl. unfold load_write. simpl.
      destruct (RingBuf.next_ind _ _); simpl in *; by simplify_eq.
    + apply star_one, (ts_prod _ x). unfold embed. simpl. destruct (_ =? _); by simplify_eq.
    + injection E as <-. eapply star_step; [by apply (ts_prod _ x) |]. by apply star_one, ts_pflush.
    + destruct (mapped _ _ _) eqn:Em; [| done]. injection E as <-.
      eapply star_step; [apply (ts_prod _ x); unfold embed; simpl; by rewrite Em |].
      by apply star_one, ts_pflush.
  - destruct c as [|i|i|i]; simpl in E.
    + injection E as <-. by apply star_one, ts_cons.
    + apply star_one, ts_cons. unfold embed. simpl. destruct (_ =? _); [by simplify_eq |].
      destruct (RingBuf.next_ind _ _); simpl in *; by simplify_eq.
    + injection E as <-. eapply star_step; [by apply ts_cons |]. by apply star_one, ts_cflush.
    + apply star_one, ts_cons. unfold embed. simpl. destruct (mapped _ _ _); by simplify_eq.
Qed.
End schedules.

(** ** Properties *)

Section properties.
Context {prof : profile} {T : Type} (esz n bs : Z) (m0 : shm T).
Hypothesis Hn : 1 ≤ n < 2 ^ 63.
Hypothesis Hesz : 0 < esz.
Hypothesis Hbs : 0 ≤ bs.
Hypothesis Hmap : bs + n * esz ≤ shm_size m0.

(** The store buffers only add executions. *)
Lemma sc_tso (s : conc T) :
  star (step esz) (init bs n m0) s → star (tstep esz) (embed (init bs n m0)) (embed s).
Proof.
  induction 1; [constructor |]. eapply star_trans; [by apply step_tso | done].
Qed.

(** C6: the queue is safe on x86, with its store buffers: whatever the
    interleaving of the threads and of the flushes, no piece of [push] or [pop]
    panics or leaves the mapping, the indices in memory stay below the capacity
    and at most [capacity - 1] elements are published and not taken, even by
    the producer's delayed view of the consumer.  The last piece of [pop]
    returns the oldest element, unless the store of its slot has not reached
    the memory. *)
Theorem tso_safe (s : tso T) :
  star (tstep esz) (embed (init bs n m0)) s →
  (∀ x, ∃ s', tprod_step esz x s = Done s') ∧ (∃ s', tcons_step esz s = Done s') ∧
  0 ≤ write (t_ring s) < n ∧ 0 ≤ read (t_ring s) < n ∧
  0 ≤ Z.of_nat (length (t_pushed s)) - t_taken s ≤ n - 1 ∧
  (∀ i, t_cons s = CStored i → ¬ late esz s →
     ∃ x s', t_pushed s !! length (t_popped s) = Some x ∧ tcons_step esz s = Done s' ∧
       t_popped s' = t_popped s ++ [x]).
Proof.
  intros R. destruct (reachable_tinv esz n bs m0 s Hn Hesz Hbs Hmap R) as (d & half & k & I).
  split; [| split; [| split; [| split; [| split]]]].
  - intros x. destruct (tprod_step_inv esz n x s d half k I) as (s' & ? & _). eauto.
  - destruct (tcons_step_inv esz n s d half k I) as (s' & ? & _). eauto.
  - destruct I as [<- [] _ _ _ _ _ _ _ _ _ _]. done.
  - destruct I as [<- [] _ _ _ _ _ _ _ _ _ _]. done.
  - destruct I as [_ _ _ _ [? ?] [? ?] _ _ _ _ _ _]. lia.
  - intros i Hi Hl. destruct (tso_read esz n s d half k i I Hi) as (x & s' & ? & ? & _ & Hv).
    exists x, s'. auto.
Qed.

(** C17: on x86 too the queue is first-in first-out for the two threads, in the
    executions in which the consumer never reads a slot before its store has
    reached the memory. *)
Theorem tso_fifo (s : tso T) :
  star (tcalm esz) (embed (init bs n m0)) s → t_popped s `prefix_of` t_pushed s.
Proof.
  intros R. apply (star_invariant (tcalm esz)
    (λ s, (∃ d half k, tinv esz n s d half k) ∧ t_popped s `prefix_of` t_pushed s)
    (embed (init bs n m0)) s); [| | done].
  { split; [| done]. exists 0%nat, false, 0. by apply tinv_init. }
  intros u v [(d & half & k & I) P] Huv. destruct Huv as [x u v E | u v Hl E | u v E | u v E].
  - destruct (tprod_step_inv esz n x u d half k I) as (v' & E' & I'). assert (v' = v) as -> by congruence.
    split; [by eauto |]. destruct (tprod_step_grows esz x u v E) as [-> ?]. by etrans.
  - destruct (tcons_step_inv esz n u d half k I) as (v' & E' & I'). assert (v' = v) as -> by congruence.
    split; [by eauto |]. destruct (tcons_step_popped esz u v E) as [-> [[i Hi] | ->]]; [| done].
    destruct (tso_read esz n u d half k i I Hi) as (x & v' & Hx & E'' & _ & Hv).
    assert (v' = v) as -> by congruence. rewrite (Hv Hl). destruct P as [l Hk]. rewrite Hk in Hx |- *.
    rewrite lookup_app_r, Nat.sub_diag in Hx by done. destruct l as [|y l]; simplify_eq/=.
    exists l. by rewrite <- app_assoc.
  - destruct (flush_same u v (or_introl E)) as [-> ->]. split; [| done].
    destruct (pflush_inv esz n u v d half k I E) as (d' & half' & I'). eauto.
  - destruct (flush_same u v (or_intror E)) as [-> ->]. split; [| done]. eauto using cflush_inv.
Qed.

(** C18: on x86 the race of [push] and [pop] outlives [push]: there is an
    execution in which [push x] has returned [Ok] and only then [pop] is
    called, and [pop] returns what the mapping held before, because the index
    has left the store buffer and the element has not. *)
Theorem tso_race_after_return x :
  2 ≤ n →
  ∃ s1 s2 : tso T,
    star (tstep esz) (embed (init bs n m0)) s1 ∧
    t_prod s1 = PIdle ∧ t_presults s1 = [Ok tt] ∧ t_cons s1 = CIdle ∧ t_cresults s1 = [] ∧
    star (tstep esz) s1 s2 ∧ t_pushed s2 = [x] ∧ t_cresults s2 = [Some (shm_load m0 (bs + esz))].
Proof.
  intros H2.
  assert (M : mapped m0 (bs + 1 * esz) esz = true).
  { unfold mapped. apply andb_true_intro. split; apply Z.leb_le; nia. }
  assert (N : RingBuf.next_ind n 0 = Done 1) by (rewrite next_ind_ok by lia; by rewrite Z.mod_small by lia).
  exists (Tso (RingBuf n bs 0 0) m0 [SWrite 1; SSlot (bs + 1 * esz) x] [] PIdle CIdle [Ok tt] [] [x]),
    (Tso (RingBuf n bs 1 0) m0 [SSlot (bs + 1 * esz) x] [1] PIdle CIdle [Ok tt]
       [Some (shm_load m0 (bs + esz))] [x]).
  split; [| do 4 (split; [done |]); split; [| done]].
  - apply (run_turns_star esz [TProd x; TProd x; TProd x; TProd x]).
    unfold embed, init, RingBuf.new. rewrite as_sint_id by (unfold is_sint; lia).
    cbn [run_turns tprod_step c_ring c_mem c_prod c_cons c_presults c_cresults c_pushed capacity write
      load_write foldl]. change (as_sint 64 0) with 0. rewrite N, outcome_bind_done. cbv beta.
    rewrite outcome_bind_done. cbn [tprod_step read]. change (1 =? as_sint 64 0) with false. cbv match.
    rewrite outcome_bind_done. cbn [tprod_step]. rewrite outcome_bind_done. cbn [tprod_step].
    change (RingBuf.slot esz _ 1) with (bs + 1 * esz). rewrite M, outcome_bind_done. done.
  - apply (run_turns_star esz [TPFlush; TCons; TCons; TCons; TCons]).
    cbn [run_turns pflush of_option]. rewrite outcome_bind_done.
    cbn [tcons_step load_read last default read]. rewrite outcome_bind_done.
    change (set_write 1 _) with (RingBuf n bs 1 0). cbn [tcons_step write capacity].
    cbn [read]. change (as_sint 64 0) with 0. change (0 =? as_sint 64 1) with false. cbv match.
    rewrite N, !outcome_bind_done. cbn [tcons_step]. rewrite outcome_bind_done. cbn [tcons_step].
    change (RingBuf.slot esz _ 1) with (bs + 1 * esz). by rewrite M, outcome_bind_done, Z.mul_1_l.
Qed.
End properties.

(** ** Witnesses *)

(** Two elements pushed; the slot of the second is still in the buffer while the
    first is popped. *)
Definition sample_turns : list (turn Z) :=
  [TProd 7; TProd 7; TProd 7; TProd 7; TPFlush; TPFlush; TProd 8; TProd 8; TProd 8; TProd 8;
   TPFlush; TCons; TCons; TCons; TCons].

Definition sample_tso : tso Z :=
  match run_turns (prof := Debug) 8 sample_turns (embed (init 64 3 sample_shm)) with
  | Done s => s
  | _ => embed (init 64 3 sample_shm)
  end.

Lemma sample_tso_reachable : star (tstep (prof := Debug) 8) (embed (init 64 3 sample_shm)) sample_tso.
Proof. apply (run_turns_star (prof := Debug) 8 sample_turns). vm_compute. reflexivity. Qed.

Lemma tso_safe_witness :
  ∃ s', tcons_step (prof := Debug) 8 sample_tso = Done s'.
Proof.
  refine (proj1 (proj2 (tso_safe (prof := Debug) 8 3 64 sample_shm _ _ _ _ sample_tso _)));
    [lia | lia | lia | simpl; lia | exact sample_tso_reachable].
Defined.

Example sample_tso_state :
  (t_popped sample_tso, t_pushed sample_tso, length (t_pbuf sample_tso), t_cbuf sample_tso)
  = ([7], [7; 8], 1%nat, [1]).
Proof. vm_compute. reflexivity. Qed.

Lemma tso_fifo_witness : t_popped sample_tso = [7] ∧ t_popped sample_tso `prefix_of` t_pushed sample_tso.
Proof.
  split; [vm_compute; reflexivity |].
  refine (tso_fifo (prof := Debug) 8 3 64 sample_shm _ _ _ _ sample_tso _);
    [lia | lia | lia | simpl; lia |].
  apply (calm_turns_star (prof := Debug) 8 sample_turns); vm_compute; reflexivity.
Defined.

Lemma tso_race_after_return_witness :
  ∃ s1 s2 : tso Z,
    star (tstep (prof := Debug) 8) (embed (init 64 3 sample_shm)) s1 ∧
    t_prod s1 = PIdle ∧ t_presults s1 = [Ok tt] ∧ t_cons s1 = CIdle ∧ t_cresults s1 = [] ∧
    star (tstep (prof := Debug) 8) s1 s2 ∧ t_pushed s2 = [7] ∧ t_cresults s2 = [Some 0].
Proof.
  refine (tso_race_after_return (prof := Debug) 8 3 64 sample_shm _ _ _ _ 7 _); simpl; lia.
Defined.
