(* ===== verification/FdPass.v ===== *)
(** * Passing file descriptors over a Unix socket ([fdpass-rs/src/lib.rs],
    [fdpass-rs/src/ffi.rs])

    The control message the crate builds by hand, and [send_fd], [recv_fd] and
    their asynchronous twins over the system calls [sendmsg] and [recvmsg],
    which are parameters. *)

From S2P Require Import Prelude.

(** Size and alignment of a C type, and the 32-bit words of its values in
    memory, which is how the kernel reads and writes ancillary data. *)
Class CLayout (T : Type) := {
  c_size : Z;
  c_align : Z;
  c_words : T → list Z;
  c_from_words : list Z → T
}.
Arguments c_size T {_}.
Arguments c_align T {_}.

Definition round_up (n a : Z) : Z := (n + a - 1) / a * a.

(** The sizes of [size_t], [c_int] and of the [repr(C)] enumeration [Scm]. *)
Definition sizeof_size_t : Z := 8.
Definition sizeof_c_int : Z := 4.

Definition SOL_SOCKET : Z := 1.
Definition MSG_CMSG_CLOEXEC : Z := 0x40000000.

Inductive Scm := Rights | Credentials | Security.

Definition scm_value (s : Scm) : Z :=
  match s with Rights => 1 | Credentials => 2 | Security => 3 end.

(** [FdPadding] on x86-64. *)
Record FdPadding := MkFdPadding { fd : Z; padding : Z }.

#[export] Instance FdPadding_layout : CLayout FdPadding := {|
  c_size := 8;
  c_align := 4;
  c_words d := [fd d; padding d];
  c_from_words l := MkFdPadding (nth 0 l 0) (nth 1 l 0)
|}.

Module FdPadding.
Definition new (fd : Z) : FdPadding := MkFdPadding fd 0.
End FdPadding.

Record Iovec := MkIovec { iov_base : list u8; iov_len : Z }.

(** [cmsg_type] is kept as the integer in memory: the kernel may overwrite it. *)
Record Cmsghdr (T : Type) := MkCmsghdr {
  cmsg_len : Z; cmsg_level : Z; cmsg_type : Z; cmsg_data : T }.
Arguments MkCmsghdr {T}.
Arguments cmsg_len {T}.
Arguments cmsg_level {T}.
Arguments cmsg_type {T}.
Arguments cmsg_data {T}.

(** [size_of::<Cmsghdr<T>>()] of the [repr(C)] structure. *)
Definition sizeof_Cmsghdr (T : Type) `{CLayout T} : Z :=
  round_up (round_up (sizeof_size_t + sizeof_c_int + sizeof_c_int) (c_align T) + c_size T)
    (Z.max sizeof_size_t (c_align T)).

Module Cmsghdr.
(** [Cmsghdr::new]. *)
Definition new {T} `{CLayout T} (level : Z) (scm : Scm) (data : T) : outcome (Cmsghdr T) :=
  if negb (c_size T mod sizeof_size_t =? 0) then Panicked else
  if negb ((sizeof_Cmsghdr T - c_size T) mod sizeof_size_t =? 0) then Panicked else
  Done (MkCmsghdr (sizeof_Cmsghdr T) level (scm_value scm) data).
End Cmsghdr.

Record Msghdr (T : Type) := MkMsghdr {
  msg_name : option (list u8);
  msg_namelen : Z;
  msg_iov : list Iovec;
  msg_iovlen : Z;
  msg_control : Cmsghdr T;
  msg_controllen : Z;
  msg_flags : Z
}.
Arguments MkMsghdr {T}.
Arguments msg_name {T}.
Arguments msg_namelen {T}.
Arguments msg_iov {T}.
Arguments msg_iovlen {T}.
Arguments msg_control {T}.
Arguments msg_controllen {T}.
Arguments msg_flags {T}.

Module Msghdr.
(** [Msghdr::new]. *)
Definition new {T} `{CLayout T} (addr : option (list u8)) (iovv : list Iovec) (ctrl : Cmsghdr T)
    (flags : option Z) : Msghdr T :=
  let msg_controllen := sizeof_Cmsghdr T in
  let '(msg_name, msg_namelen) :=
    match addr with
    | Some a => (Some a, as_uint 32 (Z.of_nat (length a)))
    | None => (None, 0)
    end in
  MkMsghdr msg_name msg_namelen iovv (Z.of_nat (length iovv)) ctrl msg_controllen
    (match flags with Some f => f | None => 0 end).
End Msghdr.

(** ** System calls *)

(** What [recvmsg] leaves in the caller's memory: the bytes it stored through
    the vector and the new [msg_controllen] and control message. *)
Record received := MkReceived {
  rv_bytes : list u8; rv_controllen : Z; rv_len : Z; rv_level : Z; rv_type : Z;
  rv_words : list Z }.

(** [K] is the state of the kernel; the socket is a descriptor; a message is
    passed with the words of its control data. *)
Class SocketCalls (K : Type) := {
  sys_sendmsg : Z → list Iovec → Z → Cmsghdr (list Z) → Z → K → Z * K;
  sys_recvmsg : Z → list Iovec → Z → Z → K → (Z * received) * K;
  last_errno : K → Z
}.

(** The [io::Error]s the code builds. *)
Inductive fd_error :=
  | OsError (errno : Z)
  | ShortWrite (n : Z)
  | Receive.

Section ffi.
Context {K : Type} {SC : SocketCalls K} {T : Type} {CL : CLayout T}.

(** The control message as the kernel sees it. *)
Definition raw_control (c : Cmsghdr T) : Cmsghdr (list Z) :=
  MkCmsghdr (cmsg_len c) (cmsg_level c) (cmsg_type c) (c_words (cmsg_data c)).

(** [return Err(io::Error::last_os_error())]. *)
Definition last_os_error {A} : M K (result A fd_error) := λ k,
  Done (Err (OsError (last_errno k)), k).

(** [recvmsg]: [set_len] beyond the capacity, or over bytes the kernel did not
    write, is undefined behaviour. *)
Definition recvmsg (sockfd iov_len : Z) (cmsg_data : T)
    : M K (result (Z * list u8 * T) fd_error) :=
  if iov_len >? 2 ^ 63 - 1 then panic else
  let iovv := [MkIovec [] iov_len] in
  ctrl ← lift (Cmsghdr.new SOL_SOCKET Rights cmsg_data);
  let msg := Msghdr.new None iovv ctrl None in
  out ← call (sys_recvmsg sockfd (msg_iov msg) (msg_controllen msg) MSG_CMSG_CLOEXEC);
  let '(size, rv) := out in
  if size =? -1 then last_os_error else
  (* [msg_iovlen] is the number of vectors, which the kernel leaves alone *)
  if (msg_iovlen msg >? iov_len) || (msg_iovlen msg >? Z.of_nat (length (rv_bytes rv)))
  then undefined else
  let iov_data := take (Z.to_nat (msg_iovlen msg)) (rv_bytes rv) in
  if negb (rv_controllen rv =? sizeof_Cmsghdr T) then mret (Err (ShortWrite (rv_controllen rv))) else
  if negb (rv_len rv =? sizeof_Cmsghdr T) then mret (Err (ShortWrite (rv_len rv))) else
  mret (Ok (size, iov_data, c_from_words (rv_words rv))).

(** [sendmsg]. *)
Definition sendmsg (sockfd : Z) (msg : Msghdr T) : M K (result Z fd_error) :=
  s ← call (sys_sendmsg sockfd (msg_iov msg) (msg_iovlen msg) (raw_control (msg_control msg))
              (msg_controllen msg));
  if s =? -1 then last_os_error else mret (Ok s).
End ffi.

Section api.
Context {K : Type} {SC : SocketCalls K}.

(** [recv_fd]. *)
Definition recv_fd (stream : Z) (iov_expect : list u8) : M K (result Z fd_error) :=
  let fda := FdPadding.new (-1) in
  r ← recvmsg stream (Z.of_nat (length iov_expect)) fda;
  match r with
  | Ok (_, iov_recv, data) =>
      if negb (bool_decide (iov_recv = iov_expect)) then mret (Err Receive)
      else mret (Ok (fd data))
  | Err e => mret (Err e)
  end.

(** [async_recv_fd]. *)
Definition async_recv_fd (stream : Z) (iov_expect : list u8) : M K (result Z fd_error) :=
  let fda := FdPadding.new (-1) in
  r ← recvmsg stream (Z.of_nat (length iov_expect)) fda;
  match r with
  | Ok (_, iov_recv, data) =>
      if negb (bool_decide (iov_recv = iov_expect)) then mret (Err Receive)
      else mret (Ok (fd data))
  | Err e => mret (Err e)
  end.

(** [send_fd]. *)
Definition send_fd (stream : Z) (id : list u8) (raw_fd : Z) : M K (result unit fd_error) :=
  let iovv := [MkIovec id (Z.of_nat (length id))] in
  let fda := FdPadding.new raw_fd in
  ctrl ← lift (Cmsghdr.new SOL_SOCKET Rights fda);
  let msg := Msghdr.new None iovv ctrl None in
  r ← sendmsg stream msg;
  match r with
  | Ok _ => mret (Ok tt)
  | Err e => mret (Err e)
  end.

(** [async_send_fd]. *)
Definition async_send_fd (stream : Z) (id : list u8) (raw_fd : Z) : M K (result unit fd_error) :=
  let iovv := [MkIovec id (Z.of_nat (length id))] in
  let fda := FdPadding.new raw_fd in
  ctrl ← lift (Cmsghdr.new SOL_SOCKET Rights fda);
  let msg := Msghdr.new None iovv ctrl None in
  r ← sendmsg stream msg;
  match r with
  | Ok _ => mret (Ok tt)
  | Err e => mret (Err e)
  end.
End api.

(** ** Documented behaviour of the kernel

    [unix(7)], [cmsg(3)], [sendmsg(2)], [recvmsg(2)], for the two ends of one
    stream socket in two processes: the messages under way (each with its bytes
    and the open files it carries) and the descriptor tables of the sender and
    the receiver. *)
Class SocketLaws (K : Type) `{SocketCalls K} := {
  queue : K → list (list u8 * list Z);
  snd_fds : K → gmap Z Z;
  rcv_fds : K → gmap Z Z;
  (* SCM_RIGHTS data is an array of descriptors of the sender, as many as
     [cmsg_len] has room for after the 16 bytes of the header *)
  sendmsg_ok s bytes len words k files :
    0 < Z.of_nat (length bytes) →
    mapM (λ d, snd_fds k !! d) (take (Z.to_nat ((len - 16) / 4)) words) = Some files →
    ∃ k', sys_sendmsg s [MkIovec bytes (Z.of_nat (length bytes))] 1
            (MkCmsghdr len SOL_SOCKET 1 words) (round_up len 8) k
      = (Z.of_nat (length bytes), k') ∧
      queue k' = queue k ++ [(bytes, files)] ∧ snd_fds k' = snd_fds k ∧ rcv_fds k' = rcv_fds k;
  (* EBADF: one of the descriptors is not open *)
  sendmsg_badf s bytes len words k :
    mapM (λ d, snd_fds k !! d) (take (Z.to_nat ((len - 16) / 4)) words) = None →
    ∃ k', sys_sendmsg s [MkIovec bytes (Z.of_nat (length bytes))] 1
            (MkCmsghdr len SOL_SOCKET 1 words) (round_up len 8) k = (-1, k') ∧
      queue k' = queue k ∧ snd_fds k' = snd_fds k ∧ rcv_fds k' = rcv_fds k;
  (* the receiver gets a new descriptor for each file; [msg_controllen] becomes
     the space used and [cmsg_len] the length without the final padding *)
  recvmsg_ok s bytes files rest flags controllen k :
    queue k = (bytes, files) :: rest → 0 < Z.of_nat (length bytes) →
    16 + round_up (4 * Z.of_nat (length files)) 8 ≤ controllen →
    ∃ nums k', sys_recvmsg s [MkIovec [] (Z.of_nat (length bytes))] controllen flags k
      = ((Z.of_nat (length bytes),
          MkReceived bytes (16 + round_up (4 * Z.of_nat (length files)) 8)
            (16 + 4 * Z.of_nat (length files)) SOL_SOCKET 1 nums), k') ∧
      length nums = length files ∧ NoDup nums ∧ Forall (λ d, rcv_fds k !! d = None) nums ∧
      rcv_fds k' = list_to_map (zip nums files) ∪ rcv_fds k ∧
      queue k' = rest ∧ snd_fds k' = snd_fds k
}.

(** The messages under way and the two tables. *)
Definition socks {K} `{SocketLaws K} (k : K) := (queue k, snd_fds k, rcv_fds k).

(** ** Lemmas *)

(** The assertions of [Cmsghdr::new] hold for [FdPadding]; the message is as
    long as the structure, padding included. *)
Lemma Cmsghdr_new_FdPadding d :
  Cmsghdr.new SOL_SOCKET Rights d = Done (MkCmsghdr 24 SOL_SOCKET 1 d).
Proof. reflexivity. Qed.

(** For any type the assertions reduce to the size being a multiple of 8, when
    the alignment is at most 8. *)
Lemma Cmsghdr_new_cases {T} `{CLayout T} level scm (d : T) :
  c_align T ∈ [1; 2; 4; 8] →
  Cmsghdr.new level scm d
  = if c_size T mod 8 =? 0 then Done (MkCmsghdr (16 + c_size T) level (scm_value scm) d)
    else Panicked.
Proof.
  intros Ha. unfold Cmsghdr.new, sizeof_size_t. destruct (Z.eqb_spec (c_size T mod 8) 0) as [E |]; [| done].
  assert (Es : sizeof_Cmsghdr T = 16 + c_size T).
  { unfold sizeof_Cmsghdr, sizeof_size_t, sizeof_c_int.
    replace (Z.max 8 (c_align T)) with 8 by (rewrite !elem_of_cons, elem_of_nil in Ha; lia).
    assert (round_up (8 + 4 + 4) (c_align T) = 16) as ->.
    { rewrite !elem_of_cons, elem_of_nil in Ha.
      by destruct Ha as [-> | [-> | [-> | [-> | []]]]]. }
    unfold round_up. apply Z.mod_divide in E as [q Eq]; [| done]. rewrite Eq.
    replace (16 + q * 8 + 8 - 1) with (7 + (q + 2) * 8) by lia.
    rewrite Z.div_add by lia. change (7 / 8) with 0. lia. }
  rewrite Es. replace (16 + c_size T - c_size T) with 16 by lia. done.
Qed.

Section lemmas.
Context {K : Type} {SC : SocketCalls K}.

Lemma sendmsg_cases s id d (k : K) :
  send_fd s id d k =
  let '(n, k') := sys_sendmsg s [MkIovec id (Z.of_nat (length id))] 1
                    (MkCmsghdr 24 SOL_SOCKET 1 [d; 0]) 24 k in
  Done (if n =? -1 then Err (OsError (last_errno k')) else Ok tt, k').
Proof.
  unfold send_fd. rewrite Cmsghdr_new_FdPadding, bind_lift_done. unfold sendmsg.
  rewrite bind_assoc, bind_call. cbn -[Z.eqb].
  change (sizeof_Cmsghdr FdPadding) with 24. change (Z.of_nat 1) with 1.
  destruct (sys_sendmsg _ _ _ _ _ k) as [n k']. simpl. by destruct (n =? -1).
Qed.

(** [recvmsg] returns exactly one byte. *)
Lemma recvmsg_one s n d (k : K) sz bytes d' k' :
  recvmsg (T := FdPadding) s n d k = Done (Ok (sz, bytes, d'), k') → length bytes = 1%nat ∧ 1 ≤ n.
Proof.
  unfold recvmsg. destruct (n >? 2 ^ 63 - 1); [done |].
  rewrite Cmsghdr_new_FdPadding, bind_lift_done, bind_call. cbn -[Z.eqb Z.gtb].
  destruct (sys_recvmsg _ _ _ _ k) as [[size rv] k1]. cbn -[Z.eqb Z.gtb].
  destruct (size =? -1); [done |]. change (Z.of_nat 1) with 1. rewrite !Z.gtb_ltb.
  destruct (Z.ltb_spec n 1); [done |].
  destruct (Z.ltb_spec (Z.of_nat (length (rv_bytes rv))) 1); [done |]. simpl orb. cbv match.
  destruct (negb _); [done |]. destruct (negb _); [done |].
  intros [= _ <- _ _]. rewrite length_take. change (Z.to_nat 1) with 1%nat. lia.
Qed.

Lemma recv_fd_run s b (k : K) rv k' :
  sys_recvmsg s [MkIovec [] 1] 24 MSG_CMSG_CLOEXEC k = ((1, rv), k') →
  rv_bytes rv = [b] → rv_controllen rv = 24 → rv_len rv = 24 →
  recv_fd s [b] k = Done (Ok (nth 0 (rv_words rv) 0), k').
Proof.
  intros E B C L. unfold recv_fd, recvmsg. change (Z.of_nat (length [b])) with 1.
  change (1 >? 2 ^ 63 - 1) with false. cbv match zeta.
  rewrite Cmsghdr_new_FdPadding, bind_assoc, bind_lift_done, bind_assoc, bind_call.
  change (sys_recvmsg s (msg_iov (Msghdr.new None [MkIovec [] 1] _ None)) _ _ k)
    with (sys_recvmsg s [MkIovec [] 1] 24 MSG_CMSG_CLOEXEC k).
  rewrite E. cbn [fst snd]. rewrite B, C, L. simpl. rewrite bind_ret, bool_decide_eq_true_2 by done. done.
Qed.
End lemmas.

(** ** Properties *)

Section properties.
Context {K : Type} {SC : SocketCalls K}.

(** Whatever the kernel does, [recv_fd] (and its asynchronous twin) can
    only succeed when exactly one byte is expected: the length of the buffer
    is set to the number of vectors, which is one, and not to the number of
    bytes received. *)
Lemma recv_fd_one_byte s expect (k : K) d k' :
  recv_fd s expect k = Done (Ok d, k') →
  length expect = 1%nat ∧ async_recv_fd s expect k = Done (Ok d, k').
Proof.
  intros E. split; [| done]. revert E. unfold recv_fd.
  destruct (recvmsg s (Z.of_nat (length expect)) (FdPadding.new (-1)) k)
    as [[[[[sz bytes] data] | e] k1] | |] eqn:E1; unfold mbind, M_bind; rewrite E1; try done.
  destruct (recvmsg_one _ _ _ _ _ _ _ _ E1) as [L _].
  case_bool_decide as Hb; [| done]. by subst.
Qed.

Context {SL : SocketLaws K}.

(** Sending: two files are under way, the second the standard input. *)
Lemma send_fd_run s b f file stdin (k : K) :
  snd_fds k !! f = Some file → snd_fds k !! 0 = Some stdin →
  ∃ k1, send_fd s [b] f k = Done (Ok tt, k1) ∧
    socks k1 = (queue k ++ [([b], [file; stdin])], snd_fds k, rcv_fds k).
Proof.
  intros Hf H0.
  destruct (sendmsg_ok s [b] 24 [f; 0] k [file; stdin]) as (k1 & E1 & Q1 & S1 & R1);
    [simpl; lia | simpl; by rewrite Hf, H0 |].
  exists k1. split; [| unfold socks; by rewrite Q1, S1, R1].
  rewrite sendmsg_cases. change (round_up 24 8) with 24 in E1. by rewrite E1.
Qed.

(** Receiving: both get a new descriptor. *)
Lemma recv_fd_two s b file stdin rest (k : K) :
  queue k = ([b], [file; stdin]) :: rest →
  ∃ k' d d0, recv_fd s [b] k = Done (Ok d, k') ∧ d ≠ d0 ∧
    rcv_fds k !! d = None ∧ rcv_fds k !! d0 = None ∧
    rcv_fds k' !! d = Some file ∧ rcv_fds k' !! d0 = Some stdin ∧
    queue k' = rest ∧ snd_fds k' = snd_fds k.
Proof.
  intros Q1.
  destruct (recvmsg_ok s [b] [file; stdin] rest MSG_CMSG_CLOEXEC 24 k Q1)
    as (nums & k2 & E2 & L2 & N2 & F2 & R2 & Q2 & S2); [simpl; lia | vm_compute; congruence |].
  destruct nums as [|d [|d0 []]]; try done. rewrite !Forall_cons in F2. destruct F2 as (F2 & F3 & _).
  apply NoDup_cons in N2 as [Hne _].
  assert (d ≠ d0) by (intros ->; apply Hne; by left).
  exists k2, d, d0. split_and!; try done.
  - by rewrite (recv_fd_run _ _ _ _ _ E2).
  - rewrite R2. simpl. rewrite lookup_union_l'; [| by rewrite lookup_insert_eq].
    by rewrite lookup_insert_eq.
  - rewrite R2. simpl. rewrite lookup_union_l'; rewrite lookup_insert_ne, lookup_insert_eq by done;
      [done | by eauto].
Qed.

(** C29: a descriptor sent with a one-byte message arrives: the receiver gets a
    new descriptor for the same open file.  But the padding word of the control
    message counts as a second descriptor, number 0, so the receiver also gets,
    and keeps, a descriptor for the sender's standard input. *)
Theorem fd_round_trip s s' b f file stdin (k : K) :
  snd_fds k !! f = Some file → snd_fds k !! 0 = Some stdin → queue k = [] →
  ∃ k1 k2 d d0, send_fd s [b] f k = Done (Ok tt, k1) ∧
    recv_fd s' [b] k1 = Done (Ok d, k2) ∧ d ≠ d0 ∧
    rcv_fds k !! d = None ∧ rcv_fds k !! d0 = None ∧
    rcv_fds k2 !! d = Some file ∧ rcv_fds k2 !! d0 = Some stdin ∧ queue k2 = [].
Proof.
  intros Hf H0 Hq. destruct (send_fd_run s b f file stdin k Hf H0) as (k1 & E1 & [= Q1 S1 R1]).
  rewrite Hq in Q1. destruct (recv_fd_two s' b file stdin [] k1 Q1) as (k2 & d & d0 & R).
  exists k1, k2, d, d0. rewrite R1 in R. tauto.
Qed.

(** Because of that second descriptor, [send_fd] fails in a process whose
    standard input is closed, although the descriptor to send is open. *)
Lemma send_fd_needs_stdin s id f file (k : K) :
  snd_fds k !! f = Some file → snd_fds k !! 0 = None →
  ∃ e k', send_fd s id f k = Done (Err (OsError e), k') ∧ queue k' = queue k.
Proof.
  intros Hf H0. destruct (sendmsg_badf s id 24 [f; 0] k) as (k' & E & Q & _).
  { simpl. by rewrite Hf, H0. }
  change (round_up 24 8) with 24 in E. exists (last_errno k'), k'.
  rewrite sendmsg_cases, E. done.
Qed.
End properties.

(** ** A kernel that satisfies the laws *)

Record sim_kernel := SimKernel {
  sk_queue : list (list u8 * list Z); sk_snd : gmap Z Z; sk_rcv : gmap Z Z }.

(** Fresh descriptor numbers above all those in use. *)
Definition fresh_fds (m : gmap Z Z) (n : nat) : list Z :=
  seqZ (1 + foldr Z.max 0 (elements (dom m))) (Z.of_nat n).

#[export] Instance sim_calls : SocketCalls sim_kernel := {|
  sys_sendmsg s iov n c controllen k :=
    match iov, mapM (λ d, sk_snd k !! d) (take (Z.to_nat ((cmsg_len c - 16) / 4)) (cmsg_data c)) with
    | [v], Some files =>
        (Z.of_nat (length (iov_base v)),
         SimKernel (sk_queue k ++ [(iov_base v, files)]) (sk_snd k) (sk_rcv k))
    | _, _ => (-1, k)
    end;
  sys_recvmsg s iov controllen flags k :=
    match sk_queue k with
    | (bytes, files) :: rest =>
        let nums := fresh_fds (sk_rcv k) (length files) in
        ((Z.of_nat (length bytes),
          MkReceived bytes (16 + round_up (4 * Z.of_nat (length files)) 8)
            (16 + 4 * Z.of_nat (length files)) SOL_SOCKET 1 nums),
         SimKernel rest (sk_snd k) (list_to_map (zip nums files) ∪ sk_rcv k))
    | [] => ((-1, MkReceived [] 0 0 0 0 []), k)
    end;
  last_errno _ := 9
|}.

Lemma le_foldr_max (d : Z) l : d ∈ l → d ≤ foldr Z.max 0 l.
Proof.
  induction l as [|x l IH]; [by intros []%elem_of_nil |].
  simpl. rewrite elem_of_cons. intros [-> | ?%IH]; lia.
Qed.

Lemma fresh_fds_spec m n :
  length (fresh_fds m n) = n ∧ NoDup (fresh_fds m n) ∧ Forall (λ d, m !! d = None) (fresh_fds m n).
Proof.
  unfold fresh_fds. split_and!.
  - rewrite length_seqZ. lia.
  - apply NoDup_seqZ.
  - apply Forall_forall. intros d Hd. apply elem_of_seqZ in Hd.
    apply not_elem_of_dom. intros Hm. apply elem_of_elements in Hm.
    apply le_foldr_max in Hm. lia.
Qed.

#[export] Instance sim_socket_laws : SocketLaws sim_kernel.
Proof.
  refine {| queue := sk_queue; snd_fds := sk_snd; rcv_fds := sk_rcv |}.
  - intros s bytes len words k files _ E. simpl. rewrite E. by eexists.
  - intros s bytes len words k E. simpl. rewrite E. by eexists.
  - intros s bytes files rest flags controllen k E _ _. simpl. rewrite E.
    destruct (fresh_fds_spec (sk_rcv k) (length files)) as (? & ? & ?). eauto 10.
Defined.

(** ** Witnesses *)

(** The sender has its standard input and file 70 as descriptor 5. *)
Definition sample_kernel : sim_kernel := SimKernel [] {[0 := 10; 5 := 70]} {[0 := 20; 3 := 30]}.

Lemma recv_fd_one_byte_witness :
  length [x00] = 1%nat ∧
  async_recv_fd 3 [x00] (SimKernel [([x00], [70; 10])] ∅ {[0 := 20]})
  = Done (Ok 1, SimKernel [] ∅ {[0 := 20; 1 := 70; 2 := 10]}).
Proof. apply (recv_fd_one_byte 3 [x00]). vm_compute. reflexivity. Defined.

Lemma fd_round_trip_witness :
  ∃ k1 k2 d d0, send_fd 3 [x00] 5 sample_kernel = Done (Ok tt, k1) ∧
    recv_fd 3 [x00] k1 = Done (Ok d, k2) ∧ d ≠ d0 ∧
    rcv_fds sample_kernel !! d = None ∧ rcv_fds sample_kernel !! d0 = None ∧
    rcv_fds k2 !! d = Some 70 ∧ rcv_fds k2 !! d0 = Some 10 ∧ queue k2 = [].
Proof. apply (fd_round_trip 3 3 x00 5 70 10 sample_kernel); reflexivity. Defined.

Lemma send_fd_needs_stdin_witness :
  ∃ e k', send_fd 3 [x00] 5 (SimKernel [] {[5 := 70]} ∅) = Done (Err (OsError e), k') ∧
    queue k' = queue (SimKernel [] {[5 := 70]} ∅).
Proof.
  apply (send_fd_needs_stdin 3 [x00] 5 70 (SimKernel [] {[5 := 70]} ∅)); reflexivity.
Defined.
