(* ===== verification/FdExamples.v ===== *)
(** * The example programs of [fdpass-rs]
    ([fdpass-rs/examples/sender.rs], [receiver.rs])

    The sender writes a line of its standard input to a file and sends the open
    file to whoever connects; the receiver prints what the file contains.  The
    functions of the standard library they use ([read_line], [write_all],
    [read_to_string]) are modelled over the system calls, which are parameters,
    with what their manual pages promise as [FileLaws]. *)

From S2P Require Import Prelude FdPass.

(** ** System calls *)

(** The two processes. *)
Inductive side := Snd | Rcv.

(** [io::Error]; the errors of the crate are those of [FdPass]. *)
Inductive io_error :=
  | Os (errno : Z)
  | InvalidData
  | WriteZero
  | FdError (e : fd_error).

(** What the programs print; the arguments are the ones in the text. *)
Inductive message :=
  | MayRemove (socket_path data_path : string)
  | EnterString (path : string)
  | WaitingForClients
  | NewClient (fd : Z)
  | ReceivedFd (fd : Z)
  | ReadBytes (size : Z) (buffer : list u8)
  | Failed (e : io_error).

(** [open] with [O_RDWR | O_CREAT], [lseek] with [SEEK_SET]; [bind] stands for
    [socket], [bind] and [listen], [connect] for [socket] and [connect]. *)
Class FileCalls (K : Type) := {
  sys_unlink : string → K → Z * K;
  sys_open : string → K → Z * K;
  sys_write : Z → list u8 → K → Z * K;
  sys_read : side → Z → Z → K → (Z * list u8) * K;
  sys_lseek : Z → Z → K → Z * K;
  sys_close : side → Z → K → K;
  sys_bind : string → K → Z * K;
  sys_accept : Z → K → Z * K;
  sys_connect : string → K → Z * K;
  print : side → message → K → K;
  (* the size of the buffer the library reads into, given what it has read *)
  read_size : list u8 → Z
}.

Definition EINTR : Z := 4.

(** Bytes that are the UTF-8 encoding of a text, as [String] demands. *)
Definition between (a b : Z) (x : u8) : bool := (a <=? u8_to_Z x) && (u8_to_Z x <=? b).

Definition second3 (a b : u8) : bool :=
  if between 0xe0 0xe0 a then between 0xa0 0xbf b
  else if between 0xed 0xed a then between 0x80 0x9f b
  else between 0xe1 0xef a && between 0x80 0xbf b.

Definition second4 (a b : u8) : bool :=
  if between 0xf0 0xf0 a then between 0x90 0xbf b
  else if between 0xf4 0xf4 a then between 0x80 0x8f b
  else between 0xf1 0xf3 a && between 0x80 0xbf b.

Fixpoint utf8_valid (l : list u8) : bool :=
  match l with
  | [] => true
  | a :: l1 =>
      if between 0 0x7f a then utf8_valid l1 else
      match l1 with
      | [] => false
      | b :: l2 =>
          if between 0xc2 0xdf a then between 0x80 0xbf b && utf8_valid l2 else
          match l2 with
          | [] => false
          | c :: l3 =>
              if between 0xe0 0xef a
              then second3 a b && between 0x80 0xbf c && utf8_valid l3 else
              match l3 with
              | [] => false
              | d :: l4 => second4 a b && between 0x80 0xbf c && between 0x80 0xbf d && utf8_valid l4
              end
          end
      end
  end.

(** The bytes up to the first newline and with it. *)
Fixpoint line_of (l : list u8) : option (list u8) :=
  match l with
  | [] => None
  | x :: l => if bool_decide (x = x0a) then Some [x0a] else (x ::.) <$> line_of l
  end.

Section programs.
Context {K : Type} {SC : SocketCalls K} {FC : FileCalls K}.

(** ** The standard library *)

Definition errno : M K Z := λ k, Done (last_errno k, k).
Definition last_os {A} : M K (result A io_error) := e ← errno; mret (Err (Os e)).

Definition call_ (f : K → K) : M K unit := λ k, Done (tt, f k).
Definition println (p : side) (m : message) : M K unit := call_ (print p m).

(** One [read], again after a signal. *)
Fixpoint read_some (fuel : nat) (p : side) (fd n : Z) : M K (result (list u8) io_error) :=
  match fuel with
  | O => panic
  | S fuel =>
      r ← call (sys_read p fd n);
      let '(rc, bytes) := r in
      if rc =? -1 then
        e ← errno; if e =? EINTR then read_some fuel p fd n else last_os
      else mret (Ok (take (Z.to_nat rc) bytes))
  end.

(** [Read::read_to_end], up to the end of the file. *)
Fixpoint read_to_end (fuel : nat) (p : side) (fd : Z) (buf : list u8)
    : M K (result (list u8) io_error) :=
  match fuel with
  | O => panic
  | S fuel' =>
      try_bind (λ e, e) (read_some fuel p fd (read_size buf)) (λ bytes,
      match bytes with
      | [] => mret (Ok buf)
      | _ => read_to_end fuel' p fd (buf ++ bytes)
      end)
  end.

(** [Read::read_to_string]: the number of bytes and the text. *)
Definition read_to_string (fuel : nat) (p : side) (fd : Z) : M K (result (Z * list u8) io_error) :=
  try_bind (λ e, e) (read_to_end fuel p fd []) (λ buf,
  if utf8_valid buf then mret (Ok (Z.of_nat (length buf), buf)) else mret (Err InvalidData)).

(** [Stdin::read_line] of a buffered reader: up to a newline or the end. *)
Fixpoint read_until (fuel : nat) (buf : list u8) : M K (result (list u8) io_error) :=
  match fuel with
  | O => panic
  | S fuel' =>
      try_bind (λ e, e) (read_some fuel Snd 0 (read_size buf)) (λ bytes,
      match bytes, line_of bytes with
      | [], _ => mret (Ok buf)
      | _, Some l => mret (Ok (buf ++ l))
      | _, None => read_until fuel' (buf ++ bytes)
      end)
  end.

Definition read_line (fuel : nat) : M K (result (list u8) io_error) :=
  try_bind (λ e, e) (read_until fuel []) (λ buf,
  if utf8_valid buf then mret (Ok buf) else mret (Err InvalidData)).

(** [Write::write_all]; the slice [buf[n..]] panics when [n] is too large. *)
Fixpoint write_all (fuel : nat) (fd : Z) (buf : list u8) : M K (result unit io_error) :=
  match buf with
  | [] => mret (Ok tt)
  | _ =>
      match fuel with
      | O => panic
      | S fuel =>
          n ← call (sys_write fd buf);
          if n =? -1 then
            e ← errno; if e =? EINTR then write_all fuel fd buf else last_os
          else if n =? 0 then mret (Err WriteZero)
          else if n >? Z.of_nat (length buf) then panic
          else write_all fuel fd (drop (Z.to_nat n) buf)
      end
  end.

(** ** The sender *)

Definition SOCKET_PATH : string := "./tmp_fdpass.sock".
Definition DATA_PATH : string := "./tmp_fdpass.txt".

(** [n] clients of the loop over [incoming()], which ends with an error only; a
    client's stream is closed at the end of its turn. *)
Fixpoint serve (n : nat) (listener fd : Z) : M K (result unit io_error) :=
  match n with
  | O => mret (Ok tt)
  | S n =>
      c ← call (sys_accept listener);
      if c =? -1 then last_os else
      println Snd (NewClient fd) ;;
      r ← send_fd c [x00] fd;
      call_ (sys_close Snd c) ;;
      match r with
      | Ok _ => serve n listener fd
      | Err e => mret (Err (FdError e))
      end
  end.

(** [UnixListener::bind] after the removal of an old socket. *)
Definition listen (socket_path : string) : M K (result Z io_error) :=
  _ ← call (sys_unlink socket_path);
  l ← call (sys_bind socket_path);
  if l =? -1 then last_os else mret (Ok l).

(** [listen_and_send], while it has served [n] clients; the file and the
    listener are closed when it returns an error. *)
Definition listen_and_send (n : nat) (socket_path : string) (fd : Z) : M K (result unit io_error) :=
  r ← listen socket_path;
  match r with
  | Err e => call_ (sys_close Snd fd) ;; mret (Err e)
  | Ok l =>
      r ← serve n l fd;
      match r with
      | Ok _ => mret (Ok tt)
      | Err e => call_ (sys_close Snd l) ;; call_ (sys_close Snd fd) ;; mret (Err e)
      end
  end.

(** [init_data]. *)
Definition init_data (fuel : nat) (path : string) : M K (result Z io_error) :=
  println Snd (EnterString path) ;;
  try_bind (λ e, e) (read_line fuel) (λ buffer,
  _ ← call (sys_unlink path);
  file ← call (sys_open path);
  if file =? -1 then last_os else
  r ← write_all fuel file buffer;
  match r with
  | Ok _ => mret (Ok file)
  | Err e => call_ (sys_close Snd file) ;; mret (Err e)
  end).

(** [main]: the exit code, or none while it waits for the next client. *)
Definition sender_main (fuel n : nat) : M K (option Z) :=
  println Snd (MayRemove SOCKET_PATH DATA_PATH) ;;
  r ← init_data fuel DATA_PATH;
  match r with
  | Err e => println Snd (Failed e) ;; mret (Some 1)
  | Ok file =>
      println Snd WaitingForClients ;;
      r ← listen_and_send n SOCKET_PATH file;
      match r with
      | Ok _ => mret None
      | Err e => println Snd (Failed e) ;; mret (Some 1)
      end
  end.

(** ** The receiver *)

(** [recv_and_print] once it is connected: the file and the stream are closed at
    the end. *)
Definition print_file (fuel : nat) (stream : Z) : M K (result unit io_error) :=
  r ← recv_fd stream [x00]; fd ← unwrap r;
  println Rcv (ReceivedFd fd) ;;
  rc ← call (sys_lseek fd 0); assert_ (negb (rc =? -1)) ;;
  r ← read_to_string fuel Rcv fd; out ← unwrap r;
  let '(size, buffer) := out in
  println Rcv (ReadBytes size buffer) ;;
  call_ (sys_close Rcv fd) ;; call_ (sys_close Rcv stream) ;;
  mret (Ok tt).

Definition recv_and_print (fuel : nat) (socket_path : string) : M K (result unit io_error) :=
  stream ← call (sys_connect socket_path); assert_ (negb (stream =? -1)) ;;
  print_file fuel stream.

Definition receiver_main (fuel : nat) : M K Z :=
  r ← recv_and_print fuel SOCKET_PATH;
  match r with
  | Ok _ => mret 0
  | Err e => println Rcv (Failed e) ;; mret 1
  end.
End programs.

(** ** Documented behaviour of the system calls

    [unlink(2)], [open(2)], [read(2)], [write(2)], [lseek(2)], [close(2)],
    [bind(2)], [accept(2)], [connect(2)], when nothing fails: [read] and
    [write] may still move fewer bytes than they are asked for.  The state they
    show: names and contents of the files, the open files with their file and
    their offset, what is waiting on the sender's standard input, the path of
    the listening socket and its waiting connections, and what both processes
    have printed. *)

Record os_view := OsView {
  v_names : gmap string Z; v_data : gmap Z (list u8); v_open : gmap Z (Z * Z);
  v_pending : list u8; v_listen : option string; v_backlog : nat; v_printed : list message }.

Definition set_names n v :=
  OsView n (v_data v) (v_open v) (v_pending v) (v_listen v) (v_backlog v) (v_printed v).
Definition set_data d v :=
  OsView (v_names v) d (v_open v) (v_pending v) (v_listen v) (v_backlog v) (v_printed v).
Definition set_open o v :=
  OsView (v_names v) (v_data v) o (v_pending v) (v_listen v) (v_backlog v) (v_printed v).
Definition set_pending l v :=
  OsView (v_names v) (v_data v) (v_open v) l (v_listen v) (v_backlog v) (v_printed v).
Definition set_listen l n v :=
  OsView (v_names v) (v_data v) (v_open v) (v_pending v) l n (v_printed v).
Definition say m v :=
  OsView (v_names v) (v_data v) (v_open v) (v_pending v) (v_listen v) (v_backlog v)
    (v_printed v ++ [m]).

(** Open file [f] is file [i] with contents [c], at offset [off]. *)
Definition opened (f i off : Z) (c : list u8) (v : os_view) : Prop :=
  v_open v !! f = Some (i, off) ∧ v_data v !! i = Some c.

Class FileLaws (K : Type) `{SL : SocketLaws K} `{FC : FileCalls K} := {
  view : K → os_view;
  read_size_pos l : 0 < read_size l;
  print_ok p m k : socks (print p m k) = socks k ∧ view (print p m k) = say m (view k);
  send_frame s iov n c len k : view (sys_sendmsg s iov n c len k).2 = view k;
  recv_frame s iov len flags k : view (sys_recvmsg s iov len flags k).2 = view k;
  unlink_ok path k : ∃ rc k', sys_unlink path k = (rc, k') ∧ socks k' = socks k ∧
    view k' = set_names (delete path (v_names (view k))) (view k);
  (* "a new open file description"; "if pathname does not exist, create it" *)
  open_ok path k : v_names (view k) !! path = None → ∃ fd f i k', sys_open path k = (fd, k') ∧
    fd ≠ -1 ∧ snd_fds k !! fd = None ∧ socks k' = (queue k, <[fd := f]> (snd_fds k), rcv_fds k) ∧
    v_open (view k) !! f = None ∧ v_data (view k) !! i = None ∧
    view k' = set_open (<[f := (i, 0)]> (v_open (view k)))
      (set_data (<[i := []]> (v_data (view k)))
        (set_names (<[path := i]> (v_names (view k))) (view k)));
  write_ok fd f i off c bytes k : snd_fds k !! fd = Some f → opened f i off c (view k) →
    0 ≤ off ≤ Z.of_nat (length c) → bytes ≠ [] →
    ∃ n k', sys_write fd bytes k = (Z.of_nat n, k') ∧ (1 ≤ n ≤ length bytes)%nat ∧
      socks k' = socks k ∧
      view k' = set_open (<[f := (i, off + Z.of_nat n)]> (v_open (view k)))
        (set_data (<[i := splice c (Z.to_nat off) (take n bytes)]> (v_data (view k))) (view k));
  (* fewer than asked for, but 0 only at the end *)
  read_ok fd f i off c size k : rcv_fds k !! fd = Some f → opened f i off c (view k) →
    0 ≤ off → 0 < size →
    ∃ n k', sys_read Rcv fd size k = ((Z.of_nat n, take n (drop (Z.to_nat off) c)), k') ∧
      Z.of_nat n ≤ size ∧ (n ≤ length c - Z.to_nat off)%nat ∧ ((0 < length c - Z.to_nat off)%nat → (0 < n)%nat) ∧
      socks k' = socks k ∧
      view k' = set_open (<[f := (i, off + Z.of_nat n)]> (v_open (view k))) (view k);
  read_stdin_ok size k : is_Some (snd_fds k !! 0) → 0 < size →
    ∃ n k', sys_read Snd 0 size k = ((Z.of_nat n, take n (v_pending (view k))), k') ∧
      Z.of_nat n ≤ size ∧ (n ≤ length (v_pending (view k)))%nat ∧ (v_pending (view k) ≠ [] → (0 < n)%nat) ∧
      socks k' = socks k ∧ view k' = set_pending (drop n (v_pending (view k))) (view k);
  lseek_ok fd f i off c n k : rcv_fds k !! fd = Some f → opened f i off c (view k) → 0 ≤ n →
    ∃ k', sys_lseek fd n k = (n, k') ∧ socks k' = socks k ∧
      view k' = set_open (<[f := (i, n)]> (v_open (view k))) (view k);
  (* the open file is released with its last descriptor *)
  close_snd k c : let k' := sys_close Snd c k in
    socks k' = (queue k, delete c (snd_fds k), rcv_fds k) ∧ v_printed (view k') = v_printed (view k) ∧
    ∀ d f i off x, snd_fds k' !! d = Some f → opened f i off x (view k) → opened f i off x (view k');
  close_rcv k d : v_printed (view (sys_close Rcv d k)) = v_printed (view k);
  bind_ok path k : ∃ l x k', sys_bind path k = (l, k') ∧ l ≠ -1 ∧ snd_fds k !! l = None ∧
    socks k' = (queue k, <[l := x]> (snd_fds k), rcv_fds k) ∧
    ∃ i, view k' = set_listen (Some path) 0 (set_names (<[path := i]> (v_names (view k))) (view k));
  connect_ok path k : v_listen (view k) = Some path →
    ∃ s x k', sys_connect path k = (s, k') ∧ s ≠ -1 ∧ rcv_fds k !! s = None ∧
      socks k' = (queue k, snd_fds k, <[s := x]> (rcv_fds k)) ∧
      view k' = set_listen (Some path) (S (v_backlog (view k))) (view k);
  accept_ok l n k : v_backlog (view k) = S n →
    ∃ c x k', sys_accept l k = (c, k') ∧ c ≠ -1 ∧ snd_fds k !! c = None ∧
      socks k' = (queue k, <[c := x]> (snd_fds k), rcv_fds k) ∧
      view k' = set_listen (v_listen (view k)) n (view k)
}.

(** ** Lemmas *)

(** What [read_line] makes of the waiting bytes. *)
Definition first_line (l : list u8) : list u8 := default l (line_of l).

Lemma line_of_app a b : line_of (a ++ b)
  = match line_of a with Some l => Some l | None => (a ++.) <$> line_of b end.
Proof.
  induction a as [|x a IH]; simpl; [by destruct (line_of b) |].
  case_bool_decide; [done |]. rewrite IH. destruct (line_of a); [done |]. by destruct (line_of b).
Qed.

Lemma first_line_app a b : first_line (a ++ b)
  = match line_of a with Some l => l | None => a ++ first_line b end.
Proof.
  unfold first_line. rewrite line_of_app. destruct (line_of a); [done |]. by destruct (line_of b).
Qed.

Lemma first_line_length l : (length (first_line l) ≤ length l)%nat.
Proof.
  unfold first_line. induction l as [|x l IH]; simpl; [done |]. case_bool_decide; simpl; [lia |].
  destruct (line_of l); simpl in *; lia.
Qed.

Section lemmas.
Context {K : Type} {SC : SocketCalls K} {SL : SocketLaws K} {FC : FileCalls K} {FL : FileLaws K}.
Implicit Types k : K.

Lemma read_some_run fuel p fd n k m bytes k' : sys_read p fd n k = ((Z.of_nat m, bytes), k') →
  (0 < fuel)%nat → read_some fuel p fd n k = Done (Ok (take m bytes), k').
Proof.
  intros E Hf. destruct fuel as [|fuel]; [lia |]. simpl. rewrite bind_call, E. simpl.
  rewrite (proj2 (Z.eqb_neq _ _)) by lia. by rewrite Nat2Z.id.
Qed.

Lemma read_until_run fuel buf k : is_Some (snd_fds k !! 0) →
  (length (v_pending (view k)) < fuel)%nat →
  ∃ q k', read_until fuel buf k = Done (Ok (buf ++ first_line (v_pending (view k))), k') ∧
    socks k' = socks k ∧ view k' = set_pending q (view k).
Proof.
  revert buf k. induction fuel as [|fuel IH]; intros buf k H0 Hf; [lia |].
  destruct (read_stdin_ok (read_size buf) k H0) as (n & k1 & E & _ & Hn & Hp & S1 & V1);
    [apply read_size_pos |].
  change (read_until (S fuel) buf k) with (try_bind (λ e, e)
    (read_some (S fuel) Snd 0 (read_size buf)) (λ bytes, match bytes, line_of bytes with
      | [], _ => mret (Ok buf) | _, Some l => mret (Ok (buf ++ l))
      | _, None => read_until fuel (buf ++ bytes) end) k).
  unfold try_bind. erewrite bind_done by (apply read_some_run; [exact E | lia]).
  rewrite take_take, Nat.min_id. set (p := v_pending (view k)) in *.
  assert (Hq : p = take n p ++ drop n p) by (by rewrite take_drop).
  destruct (take n p) as [|x l] eqn:Et.
  - exists (drop n p), k1. assert (p = []) as ->.
    { destruct p; [done |]. destruct n; [exfalso; specialize (Hp ltac:(done)); lia | done]. }
    unfold first_line. simpl. by rewrite app_nil_r.
  - rewrite Hq, first_line_app.
    assert (Hd : v_pending (view k1) = drop n p) by (by rewrite V1).
    destruct (line_of (x :: l)) as [l'|] eqn:El; [by exists (drop n p), k1 |].
    destruct (IH (buf ++ x :: l) k1) as (q & k2 & E2 & S2 & V2).
    { by injection S1 as _ -> _. }
    { rewrite Hd, length_drop. assert (n ≠ 0)%nat by (intros ->; done). lia. }
    exists q, k2. by rewrite E2, Hd, S2, V2, V1, <- app_assoc.
Qed.

(** Writing at the end of a file appends, in as many calls as it takes. *)
Lemma write_all_run fuel fd f i c buf k : snd_fds k !! fd = Some f →
  opened f i (Z.of_nat (length c)) c (view k) → (length buf ≤ fuel)%nat →
  ∃ o d k', write_all fuel fd buf k = Done (Ok tt, k') ∧ socks k' = socks k ∧
    view k' = set_open o (set_data d (view k)) ∧
    opened f i (Z.of_nat (length (c ++ buf))) (c ++ buf) (view k').
Proof.
  revert c buf k. induction fuel as [|fuel IH]; intros c buf k Hfd Ho Hf.
  { destruct buf; [| simpl in Hf; lia]. exists (v_open (view k)), (v_data (view k)), k.
    rewrite app_nil_r. split_and!; try done. by destruct (view k). }
  destruct buf as [|x l] eqn:Eb; simpl.
  { exists (v_open (view k)), (v_data (view k)), k.
    rewrite app_nil_r. split_and!; try done. by destruct (view k). }
  rewrite <- Eb in Hf |- *. assert (Hne : buf ≠ []) by (by subst).
  change (S (length l)) with (length (x :: l)). rewrite <- Eb.
  destruct (write_ok fd f i _ c buf k Hfd Ho ltac:(lia) Hne) as (n & k1 & E & Hn & S1 & V1).
  rewrite bind_call, E. cbn [fst snd]. rewrite !(proj2 (Z.eqb_neq _ _)) by lia. rewrite Z.gtb_ltb.
  rewrite (proj2 (Z.ltb_ge _ _)) by lia. rewrite Nat2Z.id.
  rewrite Nat2Z.id in V1. unfold splice in V1.
  rewrite firstn_all, drop_ge, app_nil_r in V1 by lia.
  destruct (IH (c ++ take n buf) (drop n buf) k1) as (o & d & k2 & E2 & S2 & V2 & O2).
  - by injection S1 as _ -> _.
  - unfold opened. rewrite V1. simpl. rewrite !lookup_insert_eq, length_app, length_take.
    split; [| done]. do 2 f_equal. lia.
  - rewrite length_drop. lia.
  - rewrite <- app_assoc, take_drop in O2. exists o, d, k2. rewrite S2. split_and!; try done. by rewrite V2, V1.
Qed.

(** Reading gives the rest of the file. *)
Lemma read_to_end_run fuel fd f i off c buf k : rcv_fds k !! fd = Some f →
  opened f i (Z.of_nat off) c (view k) → (length c - off < fuel)%nat →
  ∃ o k', read_to_end fuel Rcv fd buf k = Done (Ok (buf ++ drop off c), k') ∧
    socks k' = socks k ∧ view k' = set_open o (view k).
Proof.
  revert off buf k. induction fuel as [|fuel IH]; intros off buf k Hfd Ho Hf; [lia |].
  destruct (read_ok fd f i _ c (read_size buf) k Hfd Ho) as (n & k1 & E & _ & Hn & Hp & S1 & V1);
    [lia | apply read_size_pos |]. rewrite Nat2Z.id in *.
  change (read_to_end (S fuel) Rcv fd buf k) with (try_bind (λ e, e)
    (read_some (S fuel) Rcv fd (read_size buf)) (λ bytes, match bytes with
      | [] => mret (Ok buf) | _ => read_to_end fuel Rcv fd (buf ++ bytes) end) k).
  unfold try_bind. erewrite bind_done by (apply read_some_run; [exact E | lia]).
  rewrite take_take, Nat.min_id. destruct (take n (drop off c)) as [|x l] eqn:Et.
  - eexists _, k1. rewrite drop_ge, app_nil_r; [done |].
    apply (f_equal length) in Et. rewrite length_take, length_drop in Et. simpl in Et. lia.
  - assert (Hn0 : (0 < n)%nat) by (destruct n; [done | lia]).
    destruct (IH (off + n)%nat (buf ++ x :: l) k1) as (o & k2 & E2 & S2 & V2).
    { by injection S1 as _ _ ->. }
    { destruct Ho as [_ Hd]. unfold opened. rewrite V1. simpl. rewrite lookup_insert_eq.
      split; [do 2 f_equal; lia | done]. }
    { lia. }
    exists o, k2. rewrite E2, S2, V2, V1, <- Et, <- app_assoc, <- drop_drop, take_drop. done.
Qed.

(** [sender_main] up to its first [accept]. *)
Definition sender_start (fuel : nat) : M K (result (Z * Z) io_error) :=
  println Snd (MayRemove SOCKET_PATH DATA_PATH) ;;
  try_bind (λ e, e) (init_data fuel DATA_PATH) (λ file,
  println Snd WaitingForClients ;;
  try_bind (λ e, e) (listen SOCKET_PATH) (λ l, mret (Ok (file, l)))).

Lemma println_run {A} p m (c : M K A) k : (println p m ;; c) k = c (print p m k).
Proof. done. Qed.

Lemma sender_main_start fuel n k file l k1 : sender_start fuel k = Done (Ok (file, l), k1) →
  sender_main fuel n k = (r ← serve n l file;
    match r with
    | Ok _ => mret None
    | Err e => call_ (sys_close Snd l) ;; call_ (sys_close Snd file) ;;
               println Snd (Failed e) ;; mret (Some 1)
    end) k1.
Proof.
  unfold sender_start, sender_main, listen_and_send, try_bind. rewrite !println_run.
  set (k0 := print _ _ k). unfold mbind, M_bind.
  destruct (init_data fuel DATA_PATH k0) as [[[f | e] k2] | |]; try done.
  cbn. destruct (listen SOCKET_PATH _) as [[[l' | e] k3] | |]; try done.
  intros [= -> -> ->]. by destruct (serve n l file k1) as [[[[] | e] k4] | |].
Qed.

Lemma init_data_run fuel path k stdin : snd_fds k !! 0 = Some stdin →
  (length (v_pending (view k)) < fuel)%nat →
  let line := first_line (v_pending (view k)) in
  utf8_valid line = true → (length line ≤ fuel)%nat →
  ∃ fd f i k', init_data fuel path k = Done (Ok fd, k') ∧ fd ≠ 0 ∧
    socks k' = (queue k, <[fd := f]> (snd_fds k), rcv_fds k) ∧
    opened f i (Z.of_nat (length line)) line (view k') ∧
    v_printed (view k') = v_printed (view k) ++ [EnterString path].
Proof.
  intros H0 Hp line Hu Hl. unfold init_data. rewrite println_run.
  destruct (print_ok Snd (EnterString path) k) as [S1 V1]. set (k1 := print _ _ k) in *.
  assert (Hp1 : v_pending (view k1) = v_pending (view k)) by (by rewrite V1).
  destruct (read_until_run fuel [] k1) as (q & k2 & E2 & S2 & V2).
  { injection S1 as _ -> _. by exists stdin. }
  { by rewrite Hp1. }
  unfold try_bind at 1, read_line, try_bind at 1. rewrite Hp1 in E2. fold line in E2.
  rewrite bind_assoc, (bind_done _ _ _ _ _ E2). simpl app. rewrite Hu, bind_ret.
  destruct (unlink_ok path k2) as (rc & k3 & E3 & S3 & V3). rewrite bind_call, E3. cbn [fst snd].
  destruct (open_ok path k3) as (fd & f & i & k4 & E4 & Hfd & Hfr & S4 & _ & _ & V4).
  { rewrite V3. simpl. by rewrite lookup_delete_eq. }
  rewrite bind_call, E4. cbn [fst snd]. rewrite (proj2 (Z.eqb_neq _ _)) by done.
  injection S1 as Q1 N1 R1. injection S2 as Q2 N2 R2. injection S3 as Q3 N3 R3.
  pose proof S4 as S4'. injection S4' as Q4 N4 R4.
  destruct (write_all_run fuel fd f i [] line k4) as (o & d & k5 & E5 & S5 & V5 & O5); [| | done |].
  { rewrite N4. apply lookup_insert_eq. }
  { rewrite V4. unfold opened. simpl. by rewrite !lookup_insert_eq. }
  rewrite (bind_done _ _ _ _ _ E5). exists fd, f, i, k5. split_and!; try done.
  - intros ->. by rewrite N3, N2, N1, H0 in Hfr.
  - by rewrite S5, S4, Q3, Q2, Q1, N3, N2, N1, R3, R2, R1.
  - by rewrite V5, V4, V3, V2, V1.
Qed.
Lemma listen_run path k : ∃ l x k', listen path k = Done (Ok l, k') ∧ snd_fds k !! l = None ∧
  socks k' = (queue k, <[l := x]> (snd_fds k), rcv_fds k) ∧
  ∃ n, view k' = set_listen (Some path) 0 (set_names n (view k)).
Proof.
  unfold listen. destruct (unlink_ok path k) as (rc & k1 & E1 & S1 & V1).
  destruct (bind_ok path k1) as (l & x & k2 & E2 & Hl & Hfr & S2 & i & V2).
  injection S1 as Q1 N1 R1. rewrite bind_call, E1. cbn [fst snd]. rewrite bind_call, E2. cbn [fst snd].
  rewrite (proj2 (Z.eqb_neq _ _)) by done. exists l, x, k2. split_and!; try done.
  - by rewrite <- N1.
  - by rewrite S2, Q1, N1, R1.
  - rewrite V2, V1. by eexists.
Qed.

Lemma send_fd_view s id d k r k' : send_fd s id d k = Done (r, k') → view k' = view k.
Proof.
  rewrite sendmsg_cases. destruct (sys_sendmsg _ _ _ _ _ k) as [n k1] eqn:E.
  intros [= _ <-]. by rewrite <- (send_frame s [MkIovec id (Z.of_nat (length id))] 1
    (MkCmsghdr 24 SOL_SOCKET 1 [d; 0]) 24 k), E.
Qed.

Lemma recv_fd_view s b k r k' : recv_fd s [b] k = Done (r, k') → view k' = view k.
Proof.
  unfold recv_fd, recvmsg. rewrite Cmsghdr_new_FdPadding.
  change (Z.of_nat (length [b]) >? 2 ^ 63 - 1) with false. cbv match zeta.
  rewrite bind_assoc, bind_lift_done, bind_assoc, bind_call.
  match goal with |- context [sys_recvmsg ?a ?b ?c ?d k] =>
    pose proof (recv_frame a b c d k) as V; destruct (sys_recvmsg a b c d k) as [[n rv] k1] end.
  simpl in V. cbn [fst snd]. rewrite <- V. unfold mbind, M_bind, mret, M_ret, last_os_error.
  repeat case_match; intros E; simplify_eq/=; done.
Qed.

(** One client is served; the sender is left as it was. *)
Lemma serve_run l fd f stdin k n : v_backlog (view k) = S n → snd_fds k !! fd = Some f →
  snd_fds k !! 0 = Some stdin → 
  ∃ k', serve 1 l fd k = Done (Ok tt, k') ∧
    socks k' = (queue k ++ [([x00], [f; stdin])], snd_fds k, rcv_fds k) ∧
    v_printed (view k') = v_printed (view k) ++ [NewClient fd] ∧
    (∀ i off c, opened f i off c (view k) → opened f i off c (view k')).
Proof.
  intros Hb Hf H0. destruct (accept_ok l n k Hb) as (c & x & k1 & E1 & Hc & Hfr & S1 & V1).
  simpl serve. rewrite bind_call, E1. cbn [fst snd]. rewrite (proj2 (Z.eqb_neq _ _)), println_run by done.
  destruct (print_ok Snd (NewClient fd) k1) as [S2 V2]. set (k2 := print _ _ k1) in *.
  injection S1 as Q1 N1 R1. injection S2 as Q2 N2 R2.
  assert (c ≠ fd ∧ c ≠ 0) as [Hcf Hc0] by (split; intros ->; congruence).
  destruct (send_fd_run c x00 fd f stdin k2) as (k3 & E3 & S3).
  { by rewrite N2, N1, lookup_insert_ne. }
  { by rewrite N2, N1, lookup_insert_ne. }
  rewrite (bind_done _ _ _ _ _ E3). destruct (close_snd k3 c) as (S4 & P4 & O4).
  pose proof (send_fd_view _ _ _ _ _ _ E3) as V3. pose proof S3 as S3'. injection S3' as Q3 N3 R3.
  pose proof S4 as S4'. injection S4' as Q4 N4 R4.
  exists (sys_close Snd c k3). split; [done |]. split; [| split].
  - rewrite S4, Q3, N3, R3, Q2, N2, R2, Q1, N1, R1. do 2 f_equal. by rewrite delete_insert_id.
  - by rewrite P4, V3, V2, V1.
  - intros i off y Ho. apply (O4 fd); [| by rewrite V3, V2, V1].
    by rewrite N4, N3, N2, N1, lookup_delete_ne, lookup_insert_ne.
Qed.

(** The receiver prints the file it is sent, whatever the offset. *)
Lemma print_file_run fuel s f stdin i off c k : queue k = [([x00], [f; stdin])] →
  opened f i off c (view k) → (length c < fuel)%nat → utf8_valid c = true →
  ∃ fd k', print_file fuel s k = Done (Ok tt, k') ∧ rcv_fds k !! fd = None ∧
    v_printed (view k') = v_printed (view k) ++ [ReceivedFd fd; ReadBytes (Z.of_nat (length c)) c].
Proof.
  intros Q Ho Hf Hu. destruct (recv_fd_two s x00 f stdin [] k Q)
    as (k1 & fd & d0 & E1 & _ & F1 & _ & L1 & _ & Q1 & N1).
  pose proof (recv_fd_view _ _ _ _ _ E1) as V1. unfold print_file.
  rewrite (bind_done _ _ _ _ _ E1), bind_unwrap_ok, println_run.
  destruct (print_ok Rcv (ReceivedFd fd) k1) as [S2 V2]. set (k2 := print _ _ k1) in *.
  injection S2 as Q2 N2 R2.
  destruct (lseek_ok fd f i off c 0 k2) as (k3 & E3 & S3 & V3);
    [by rewrite R2 | by rewrite V2, V1 | done |]. injection S3 as Q3 N3 R3.
  rewrite bind_call, E3. cbn [fst snd]. change (assert_ (negb (0 =? -1))) with (mret tt : M K unit).
  rewrite bind_ret.
  destruct (read_to_end_run fuel fd f i 0 c [] k3) as (o & k4 & E4 & S4 & V4);
    [by rewrite R3, R2 | | lia |].
  { destruct Ho as [_ Hd]. rewrite V3, V2, V1. split; [apply lookup_insert_eq | done]. }
  unfold read_to_string, try_bind. rewrite bind_assoc, (bind_done _ _ _ _ _ E4). simpl app.
  rewrite drop_0, Hu, bind_ret, bind_unwrap_ok, println_run.
  set (m := ReadBytes _ _). destruct (print_ok Rcv m k4) as [_ V5].
  eexists fd, _. split; [reflexivity |]. split; [done |].
  by rewrite !close_rcv, V5, V4, V3, V2, V1; simpl; rewrite <- app_assoc.
Qed.
Lemma sender_start_run fuel k stdin : snd_fds k !! 0 = Some stdin →
  (length (v_pending (view k)) < fuel)%nat →
  let line := first_line (v_pending (view k)) in utf8_valid line = true →
  ∃ file l f i k', sender_start fuel k = Done (Ok (file, l), k') ∧
    (queue k' = queue k ∧ snd_fds k' !! file = Some f ∧ snd_fds k' !! 0 = Some stdin) ∧
    opened f i (Z.of_nat (length line)) line (view k') ∧ v_listen (view k') = Some SOCKET_PATH ∧
    v_printed (view k') = v_printed (view k) ++
      [MayRemove SOCKET_PATH DATA_PATH; EnterString DATA_PATH; WaitingForClients].
Proof.
  intros H0 Hp line Hu. unfold sender_start. rewrite println_run.
  destruct (print_ok Snd (MayRemove SOCKET_PATH DATA_PATH) k) as [S1 V1].
  set (k1 := print _ _ k) in *. injection S1 as Q1 N1 R1.
  assert (Hv : v_pending (view k1) = v_pending (view k)) by (by rewrite V1).
  pose proof (first_line_length (v_pending (view k))) as Hl.
  destruct (init_data_run fuel DATA_PATH k1 stdin) as (fd & f & i & k2 & E2 & Hfd & S2 & O2 & P2);
    rewrite ?Hv, ?N1; try done; [fold line in Hl |- *; lia |].
  rewrite Hv in O2. fold line in O2. injection S2 as Q2 N2 R2.
  unfold try_bind. rewrite (bind_done _ _ _ _ _ E2), println_run.
  destruct (print_ok Snd WaitingForClients k2) as [S3 V3]. set (k3 := print _ _ k2) in *.
  injection S3 as Q3 N3 R3.
  destruct (listen_run SOCKET_PATH k3) as (l & x & k4 & E4 & Hfr & S4 & n & V4).
  injection S4 as Q4 N4 R4. rewrite (bind_done _ _ _ _ _ E4).
  assert (F : snd_fds k3 = <[fd := f]> (snd_fds k)) by (by rewrite N3, N2, N1).
  exists fd, l, f, i, k4. split; [done |]. rewrite Q4, N4, F, Q3, Q2, Q1. rewrite F in Hfr.
  assert (l ≠ fd ∧ l ≠ 0) as [Hl1 Hl2].
  { split; intros ->; [by rewrite lookup_insert_eq in Hfr |].
    by rewrite lookup_insert_ne, H0 in Hfr by done. }
  rewrite !(lookup_insert_ne _ l) by done. rewrite lookup_insert_eq, lookup_insert_ne by done.
  split_and!; try done; [by rewrite V4, V3 | by rewrite V4 |].
  rewrite V4, V3. simpl. rewrite P2, V1. simpl. by rewrite <- !app_assoc.
Qed.
End lemmas.

(** ** Properties *)

(** C30: the two programs together.  When no system call fails, the receiver
    prints exactly the line typed into the sender, through the descriptor it was
    sent: the sender waits for a client with the line in its file; the receiver
    connects; the sender serves it and waits again; and the receiver, although
    the open file comes with its offset at the end, prints the whole line.
    The fuel is enough when it exceeds the number of bytes waiting. *)
Theorem example_end_to_end {K} `{FL : FileLaws K} fuel (k : K) stdin :
  snd_fds k !! 0 = Some stdin → queue k = [] → (length (v_pending (view k)) < fuel)%nat →
  let line := first_line (v_pending (view k)) in utf8_valid line = true →
  ∃ file l k1, sender_main fuel 0 k = Done (None, k1) ∧
    sender_start fuel k = Done (Ok (file, l), k1) ∧
  ∃ s k2, sys_connect SOCKET_PATH k1 = (s, k2) ∧ s ≠ -1 ∧
  ∃ k3, serve 1 l file k2 = Done (Ok tt, k3) ∧
  ∃ fd k4, print_file fuel s k3 = Done (Ok tt, k4) ∧ rcv_fds k3 !! fd = None ∧
    v_printed (view k4) = v_printed (view k) ++
      [MayRemove SOCKET_PATH DATA_PATH; EnterString DATA_PATH; WaitingForClients;
       NewClient file; ReceivedFd fd; ReadBytes (Z.of_nat (length line)) line].
Proof.
  intros H0 Hq Hp line Hu.
  pose proof (first_line_length (v_pending (view k))) as Hl. fold line in Hl.
  destruct (sender_start_run fuel k stdin H0 Hp Hu) as (file & l & f & i & k1 & E1 & S1 & O1 & L1 & P1).
  exists file, l, k1. split; [by rewrite (sender_main_start _ 0 _ _ _ _ E1) |]. split; [done |].
  destruct (connect_ok SOCKET_PATH k1 L1) as (s & x & k2 & E2 & Hs & _ & S2 & V2).
  exists s, k2. split; [done |]. split; [done |].
  destruct S1 as (Q1 & F1 & Z1). injection S2 as Q2 N2 R2.
  destruct (serve_run l file f stdin k2 (v_backlog (view k1))) as (k3 & E3 & S3 & P3 & O3);
    [by rewrite V2 | by rewrite N2 | by rewrite N2 |].
  exists k3. split; [done |]. injection S3 as Q3 N3 R3. rewrite Q2, Q1, Hq in Q3.
  destruct (print_file_run fuel s f stdin i (Z.of_nat (length line)) line k3 Q3)
    as (fd & k4 & E4 & Hfr & P4); [apply O3; by rewrite V2 | unfold line in *; lia | done |].
  exists fd, k4. split; [done |]. split; [done |]. rewrite P4, P3, V2. simpl. rewrite P1.
  by rewrite <- !app_assoc.
Qed.

(** ** A system that satisfies the laws

    Every call succeeds; a write takes at most two bytes, a read gives all it
    may. *)

Record ex_kernel := ExKernel { ek_socks : sim_kernel; ek_view : os_view }.

Definition with_view (v : os_view) (k : ex_kernel) : ex_kernel := ExKernel (ek_socks k) v.

Definition fresh_key {A} (m : gmap Z A) : Z := 1 + foldr Z.max 0 (elements (dom m)).

Lemma fresh_key_spec {A} (m : gmap Z A) : m !! fresh_key m = None ∧ fresh_key m ≠ -1.
Proof.
  split.
  - apply not_elem_of_dom. intros Hm%elem_of_elements%le_foldr_max. unfold fresh_key in Hm. lia.
  - unfold fresh_key. assert (∀ l, 0 ≤ foldr Z.max 0 l) as F; [| specialize (F (elements (dom m))); lia].
    intros l. induction l; simpl; lia.
Qed.

(** A new descriptor [d] for something: [x]. *)
Definition new_snd (x : Z) (k : ex_kernel) : Z * ex_kernel :=
  let s := ek_socks k in
  let d := fresh_key (sk_snd s) in
  (d, ExKernel (SimKernel (sk_queue s) (<[d := x]> (sk_snd s)) (sk_rcv s)) (ek_view k)).

Definition new_rcv (x : Z) (k : ex_kernel) : Z * ex_kernel :=
  let s := ek_socks k in
  let d := fresh_key (sk_rcv s) in
  (d, ExKernel (SimKernel (sk_queue s) (sk_snd s) (<[d := x]> (sk_rcv s))) (ek_view k)).

#[export] Instance ex_socket_calls : SocketCalls ex_kernel := {|
  sys_sendmsg s iov n c len k :=
    let '(r, s') := sys_sendmsg s iov n c len (ek_socks k) in (r, ExKernel s' (ek_view k));
  sys_recvmsg s iov len flags k :=
    let '(r, s') := sys_recvmsg s iov len flags (ek_socks k) in (r, ExKernel s' (ek_view k));
  last_errno _ := 9
|}.

#[export] Instance ex_socket_laws : SocketLaws ex_kernel.
Proof.
  refine {| queue k := sk_queue (ek_socks k); snd_fds k := sk_snd (ek_socks k);
            rcv_fds k := sk_rcv (ek_socks k) |}.
  - intros s bytes len words k fl H1 H2.
    pose proof (sendmsg_ok s bytes len words (ek_socks k) fl H1) as L. destruct (L H2) as (k' & E & R).
    exists (ExKernel k' (ek_view k)). split; [| exact R]. simpl in E |- *. by rewrite E.
  - intros s bytes len words k H2.
    pose proof (sendmsg_badf s bytes len words (ek_socks k)) as L. destruct (L H2) as (k' & E & R).
    exists (ExKernel k' (ek_view k)). split; [| exact R]. simpl in E |- *. by rewrite E.
  - intros s bytes fl rest flags len k H1 H2 H3.
    pose proof (recvmsg_ok s bytes fl rest flags len (ek_socks k)) as L.
    destruct (L H1 H2 H3) as (nums & k' & E & R).
    exists nums, (ExKernel k' (ek_view k)). split; [| exact R]. simpl in E |- *. by rewrite E.
Defined.

(** The open file behind a descriptor, with its file, offset and contents. *)
Definition lookup_file (m : gmap Z Z) (fd : Z) (v : os_view) : option (Z * Z * Z * list u8) :=
  f ← m !! fd; '(i, off) ← v_open v !! f; c ← v_data v !! i; Some (f, i, off, c).

Definition ex_write (fd : Z) (bytes : list u8) (k : ex_kernel) : Z * ex_kernel :=
  let v := ek_view k in
  match lookup_file (sk_snd (ek_socks k)) fd v with
  | Some (f, i, off, c) =>
      let n := Nat.min 2 (length bytes) in
      (Z.of_nat n, with_view (set_open (<[f := (i, off + Z.of_nat n)]> (v_open v))
        (set_data (<[i := splice c (Z.to_nat off) (take n bytes)]> (v_data v)) v)) k)
  | None => (-1, k)
  end.

Definition ex_read (p : side) (fd size : Z) (k : ex_kernel) : (Z * list u8) * ex_kernel :=
  let v := ek_view k in
  match p with
  | Snd =>
      let n := Nat.min (Z.to_nat size) (length (v_pending v)) in
      ((Z.of_nat n, take n (v_pending v)), with_view (set_pending (drop n (v_pending v)) v) k)
  | Rcv =>
      match lookup_file (sk_rcv (ek_socks k)) fd v with
      | Some (f, i, off, c) =>
          let n := Nat.min (Z.to_nat size) (length c - Z.to_nat off) in
          ((Z.of_nat n, take n (drop (Z.to_nat off) c)),
           with_view (set_open (<[f := (i, off + Z.of_nat n)]> (v_open v)) v) k)
      | None => ((-1, []), k)
      end
  end.

#[export] Instance ex_file_calls : FileCalls ex_kernel := {|
  sys_unlink path k := (0, with_view (set_names (delete path (v_names (ek_view k))) (ek_view k)) k);
  sys_open path k :=
    let v := ek_view k in
    let f := fresh_key (v_open v) in
    let i := default (fresh_key (v_data v)) (v_names v !! path) in
    new_snd f (with_view (set_open (<[f := (i, 0)]> (v_open v))
      (set_data (<[i := default [] (v_data v !! i)]> (v_data v))
        (set_names (<[path := i]> (v_names v)) v))) k);
  sys_write := ex_write;
  sys_read := ex_read;
  sys_lseek fd n k :=
    match lookup_file (sk_rcv (ek_socks k)) fd (ek_view k) with
    | Some (f, i, _, _) => (n, with_view (set_open (<[f := (i, n)]> (v_open (ek_view k))) (ek_view k)) k)
    | None => (-1, k)
    end;
  sys_close p d k :=
    let s := ek_socks k in
    ExKernel (match p with
      | Snd => SimKernel (sk_queue s) (delete d (sk_snd s)) (sk_rcv s)
      | Rcv => SimKernel (sk_queue s) (sk_snd s) (delete d (sk_rcv s))
      end) (ek_view k);
  sys_bind path k :=
    new_snd 0 (with_view (set_listen (Some path) 0
      (set_names (<[path := 0]> (v_names (ek_view k))) (ek_view k))) k);
  sys_accept l k :=
    match v_backlog (ek_view k) with
    | S n => new_snd 0 (with_view (set_listen (v_listen (ek_view k)) n (ek_view k)) k)
    | O => (-1, k)
    end;
  sys_connect path k :=
    if bool_decide (v_listen (ek_view k) = Some path)
    then new_rcv 0 (with_view (set_listen (Some path) (S (v_backlog (ek_view k))) (ek_view k)) k)
    else (-1, k);
  print p m k := with_view (say m (ek_view k)) k;
  read_size _ := 32
|}.

Lemma lookup_opened m fd f i off c v : m !! fd = Some f → opened f i off c v →
  lookup_file m fd v = Some (f, i, off, c).
Proof. intros E [E1 E2]. unfold lookup_file. rewrite E. simpl. rewrite E1. simpl. by rewrite E2. Qed.

#[export] Instance ex_file_laws : FileLaws ex_kernel.
Proof.
  refine {| view := ek_view |}; simpl.
  - done.
  - done.
  - intros s iov n c len k. by repeat case_match.
  - intros s iov len flags k. by repeat case_match.
  - intros path k. by do 2 eexists.
  - intros path k E. rewrite E. simpl.
    destruct (fresh_key_spec (sk_snd (ek_socks k))). destruct (fresh_key_spec (v_open (ek_view k))).
    destruct (fresh_key_spec (v_data (ek_view k))) as [E2 _]. rewrite E2. simpl.
    do 4 eexists. split_and!; try done.
  - intros fd f i off c bytes k E Ho _ Hb. unfold ex_write. rewrite (lookup_opened _ _ _ _ _ _ _ E Ho).
    assert (1 ≤ length bytes)%nat by (destruct bytes; [done | simpl; lia]).
    do 2 eexists. split_and!; try done; lia.
  - intros fd f i off c size k E Ho _ Hs. rewrite (lookup_opened _ _ _ _ _ _ _ E Ho).
    do 2 eexists. split_and!; try done; lia.
  - intros size k _ Hs. do 2 eexists. split_and!; try done; try lia.
    intros Hp. destruct (v_pending (ek_view k)); [done | simpl; lia].
  - intros fd f i off c n k E Ho _. rewrite (lookup_opened _ _ _ _ _ _ _ E Ho). by eexists.
  - done.
  - done.
  - intros path k. destruct (fresh_key_spec (sk_snd (ek_socks k))). do 3 eexists. split_and!; try done.
    by eexists.
  - intros path k E. rewrite bool_decide_eq_true_2 by done.
    destruct (fresh_key_spec (sk_rcv (ek_socks k))). by do 3 eexists.
  - intros l n k E. rewrite E. destruct (fresh_key_spec (sk_snd (ek_socks k))). by do 3 eexists.
Defined.

(** ** Witnesses *)

(** "hi" and the beginning of another line wait on the standard input. *)
Definition sample_system : ex_kernel :=
  ExKernel (SimKernel [] {[0 := 10]} {[0 := 20]})
    (OsView ∅ ∅ ∅ [x68; x69; x0a; x21] None 0 []).

Lemma example_end_to_end_witness :
  ∃ s k3 fd k4, print_file 5 s k3 = Done (Ok tt, k4) ∧ rcv_fds (k3 : ex_kernel) !! fd = None ∧
    ∃ file, v_printed (view k4) =
      [MayRemove SOCKET_PATH DATA_PATH; EnterString DATA_PATH; WaitingForClients;
       NewClient file; ReceivedFd fd; ReadBytes 3 [x68; x69; x0a]].
Proof.
  destruct (example_end_to_end 5 sample_system 10)
    as (file & l & k1 & _ & _ & s & k2 & _ & _ & k3 & _ & fd & k4 & E & F & P).
  - reflexivity.
  - reflexivity.
  - simpl. lia.
  - reflexivity.
  - exists s, k3, fd, k4. split; [exact E |]. split; [exact F |]. exists file. exact P.
Defined.

(** Bytes that are no text are refused before the file is created. *)
Example sender_refuses_bytes :
  match sender_main 9 0 (ExKernel (SimKernel [] {[0 := 10]} ∅)
    (OsView ∅ ∅ ∅ [xc3; x28; x0a] None 0 [])) with
  | Done (Some 1, k) => v_names (view k) = ∅ ∧ last (v_printed (view k)) = Some (Failed InvalidData)
  | _ => False
  end.
Proof. vm_compute. by split. Qed.
