(* ===== verification/MemEnpsf.v ===== *)
(** * The shared-memory interface ([memenpsf/src/lib.rs])

    A [MemEnpsf] maps a file it receives over a Unix socket and lays two
    [RingBuf]s over the mapping.  The queues' indices are fields of the
    [MemEnpsf] value, so that each process has its own. *)

From S2P Require Import Prelude RingBuf FdPass.

Definition MTU : Z := 1536.

(** [[u8; MTU]]. *)
Abbreviation frame := (list u8).

(** [writes] are the buffers given to [stream.write]; what becomes of them is
    only printed. *)
Record MemEnpsf_t := MkMemEnpsf {
  name : string; s2c_q : ringbuf; c2s_q : ringbuf; cap : Z; stream : Z; writes : list (list Z) }.

Definition set_s2c (q : ringbuf) (e : MemEnpsf_t) : MemEnpsf_t :=
  MkMemEnpsf (name e) q (c2s_q e) (cap e) (stream e) (writes e).
Definition set_c2s (q : ringbuf) (e : MemEnpsf_t) : MemEnpsf_t :=
  MkMemEnpsf (name e) (s2c_q e) q (cap e) (stream e) (writes e).
Definition add_write (b : list Z) (e : MemEnpsf_t) : MemEnpsf_t :=
  MkMemEnpsf (name e) (s2c_q e) (c2s_q e) (cap e) (stream e) (writes e ++ [b]).

(** [ftruncate] and [mmap]: their results are not examined. *)
Class ShmCalls (K : Type) := {
  sys_ftruncate : Z → Z → K → K;
  sys_mmap : Z → Z → K → K
}.

Module MemEnpsf.
Section memenpsf.
Context {prof : profile}.

(** [MemEnpsf::new]; addresses are relative to the start of the mapping. *)
Definition new {K} {SC : SocketCalls K} {HC : ShmCalls K} (name : string) (cap stream : Z)
    : M K MemEnpsf_t :=
  r ← recv_fd stream [x00];
  fd ← unwrap r;
  modify (sys_ftruncate fd (as_sint 64 cap)) ;;
  modify (sys_mmap fd cap) ;;
  let bs_s2c := 0 in
  off ← lift (umul 64 cap MTU);
  let bs_c2s := as_sint 64 off in
  mret (MkMemEnpsf name (RingBuf.new bs_s2c cap) (RingBuf.new bs_c2s cap) cap stream []).

(** An operation on one of the queues. *)
Definition on_s2c {A} (m : M (ringbuf * shm frame) A) : M (MemEnpsf_t * shm frame) A := λ s,
  match m (s2c_q s.1, s.2) with
  | Done (a, (q, mem)) => Done (a, (set_s2c q s.1, mem))
  | Panicked => Panicked
  | Undefined => Undefined
  end.
Definition on_c2s {A} (m : M (ringbuf * shm frame) A) : M (MemEnpsf_t * shm frame) A := λ s,
  match m (c2s_q s.1, s.2) with
  | Done (a, (q, mem)) => Done (a, (set_c2s q s.1, mem))
  | Panicked => Panicked
  | Undefined => Undefined
  end.

(** [self.stream.write(&self.c2s_q.pointers())], the tail of all four
    operations. *)
Definition send_pointers : M (MemEnpsf_t * shm frame) unit :=
  modify (λ s, (add_write (RingBuf.pointers (c2s_q s.1)) s.1, s.2)).

Definition recv_from_client : M (MemEnpsf_t * shm frame) (option frame) :=
  res ← on_c2s (RingBuf.pop MTU); send_pointers ;; mret res.

Definition xmit_to_client (buf : frame) : M (MemEnpsf_t * shm frame) (result unit io_error) :=
  res ← on_s2c (RingBuf.push MTU buf); send_pointers ;; mret res.

Definition recv_from_srv : M (MemEnpsf_t * shm frame) (option frame) :=
  res ← on_s2c (RingBuf.pop MTU); send_pointers ;; mret res.

Definition xmit_to_srv (buf : frame) : M (MemEnpsf_t * shm frame) (result unit io_error) :=
  res ← on_c2s (RingBuf.push MTU buf); send_pointers ;; mret res.
End memenpsf.
End MemEnpsf.

(** Where [MemEnpsf::new] puts the second queue: the product is a [usize], and
    the offset an [isize]. *)
Definition c2s_base (cap : Z) : Z := as_sint 64 (as_uint 64 (cap * MTU)).

(** The value [MemEnpsf::new] returns for a capacity. *)
Definition new_iface (name : string) (cap stream : Z) : MemEnpsf_t :=
  MkMemEnpsf name (RingBuf.new 0 cap) (RingBuf.new (c2s_base cap) cap) cap stream [].

(** ** Specification: two bounded FIFOs *)

Inductive iface_op :=
  | RecvFromClient | XmitToClient (buf : frame) | RecvFromSrv | XmitToSrv (buf : frame).

Definition iface_step {prof : profile} (o : iface_op)
    : M (MemEnpsf_t * shm frame) (response frame) :=
  match o with
  | RecvFromClient => r ← MemEnpsf.recv_from_client; mret (RPop r)
  | XmitToClient b => r ← MemEnpsf.xmit_to_client b; mret (RPush r)
  | RecvFromSrv => r ← MemEnpsf.recv_from_srv; mret (RPop r)
  | XmitToSrv b => r ← MemEnpsf.xmit_to_srv b; mret (RPush r)
  end.

Fixpoint iface_run {prof : profile} (os : list iface_op)
    : M (MemEnpsf_t * shm frame) (list (response frame)) :=
  match os with
  | [] => mret []
  | o :: os' => r ← iface_step o; rs ← iface_run os'; mret (r :: rs)
  end.

(** The pair of queues, server to client first. *)
Definition two_fifo_step (bound : Z) (o : iface_op) (q : list frame * list frame)
    : response frame * (list frame * list frame) :=
  match o with
  | RecvFromClient => let '(r, c) := fifo_step bound OPop q.2 in (r, (q.1, c))
  | XmitToClient b => let '(r, s) := fifo_step bound (OPush b) q.1 in (r, (s, q.2))
  | RecvFromSrv => let '(r, s) := fifo_step bound OPop q.1 in (r, (s, q.2))
  | XmitToSrv b => let '(r, c) := fifo_step bound (OPush b) q.2 in (r, (q.1, c))
  end.

Fixpoint two_fifo_run (bound : Z) (os : list iface_op) (q : list frame * list frame)
    : list (response frame) * (list frame * list frame) :=
  match os with
  | [] => ([], q)
  | o :: os' =>
      let '(r, q1) := two_fifo_step bound o q in
      let '(rs, q2) := two_fifo_run bound os' q1 in (r :: rs, q2)
  end.

Definition iface_refines (n : Z) (q : list frame * list frame) (s : MemEnpsf_t * shm frame) : Prop :=
  refines MTU (n - 1) q.1 (s2c_q s.1, s.2) ∧ refines MTU (n - 1) q.2 (c2s_q s.1, s.2) ∧
  base (s2c_q s.1) = 0 ∧ base (c2s_q s.1) = n * MTU.

(** ** Lemmas *)

Section lemmas.
Context {prof : profile}.

(** An operation on a queue leaves the memory outside its slots alone. *)
Lemma ring_step_frame {T} esz (o : op T) r m a r' m' :
  ring_wf esz r m → ring_step esz o (r, m) = Done (a, (r', m')) →
  capacity r' = capacity r ∧ base r' = base r ∧ shm_size m' = shm_size m ∧
  ∀ x, x < base r ∨ base r + capacity r * esz ≤ x → shm_load m' x = shm_load m x.
Proof.
  intros W. pose proof W as []. destruct o as [y|]; simpl; unfold mbind, M_bind.
  - rewrite push_step by done. destruct (count r =? capacity r - 1); intros [= <- <- <-]; [done |].
    split_and!; try done. intros x Hx. apply shm_load_store_ne. unfold RingBuf.slot.
    pose proof (next_ind_range (capacity r) (write r) ltac:(lia)). nia.
  - rewrite pop_step by done. by destruct (count r =? 0); intros [= <- <- <-].
Qed.

Lemma contents_ext {T} esz r (m m' : shm T) :
  1 ≤ capacity r → 0 < esz →
  (∀ x, base r ≤ x < base r + capacity r * esz → shm_load m' x = shm_load m x) →
  contents esz r m' = contents esz r m.
Proof.
  intros Hc He Hx. unfold contents. apply list_fmap_ext. intros i k _. apply Hx.
  unfold RingBuf.slot. pose proof (Z.mod_pos_bound (read r + k) (capacity r) ltac:(lia)). nia.
Qed.

(** [push] on a queue that is not full, with its slots mapped or not. *)
Lemma push_run {T} esz (x : T) r m i :
  RingBuf.next_ind (capacity r) (as_sint 64 (write r)) = Done i → i ≠ as_sint 64 (read r) →
  RingBuf.push esz x (r, m)
  = if mapped m (RingBuf.slot esz r i) esz
    then Done (Ok tt, (set_write (as_uint 64 i) r, shm_store (RingBuf.slot esz r i) x m))
    else Undefined.
Proof.
  intros E Hr. unfold RingBuf.push. rewrite bind_get. cbn [fst snd]. rewrite E, bind_lift_done.
  destruct (Z.eqb_spec i (as_sint 64 (read r))); [done |].
  unfold RingBuf.store_write. rewrite bind_modify. unfold RingBuf.ptr_write, mbind, M_bind.
  cbn [fst snd]. by destruct (mapped _ _ _).
Qed.

(** A queue whose slots another operation does not touch keeps refining. *)
Lemma refines_frame {T} esz bound (q : list T) r m m' :
  refines esz bound q (r, m) → shm_size m' = shm_size m →
  (∀ x, base r ≤ x < base r + capacity r * esz → shm_load m' x = shm_load m x) →
  refines esz bound q (r, m').
Proof.
  intros (W & E & C) Hs Hx. simpl in *. pose proof W as [].
  split; [split; simpl; try done; by rewrite Hs | split; [done |]].
  simpl. rewrite <- C. apply contents_ext; solve [done | lia].
Qed.

Lemma iface_s2c n q s (o : op frame) :
  iface_refines n q s →
  ∃ q' m', ring_step MTU o (s2c_q s.1, s.2) = Done ((fifo_step (n - 1) o q.1).1, (q', m')) ∧
    ∀ ws, iface_refines n ((fifo_step (n - 1) o q.1).2, q.2)
      (MkMemEnpsf (name s.1) q' (c2s_q s.1) (cap s.1) (stream s.1) ws, m').
Proof.
  intros (R1 & R2 & B1 & B2). pose proof R1 as (W1 & N1 & _). pose proof R2 as (W2 & N2 & _).
  simpl in *. pose proof W1 as []. pose proof W2 as [].
  destruct (step_refines MTU (n - 1) q.1 o (s2c_q s.1, s.2) R1) as ([q' m'] & E & R').
  exists q', m'. split; [done |]. intros ws.
  destruct (ring_step_frame _ _ _ _ _ _ _ W1 E) as (F1 & F2 & F3 & F4).
  split; [done | split; [| split; [simpl; by rewrite F2 | done]]]. simpl.
  eapply refines_frame; [exact R2 | done |]. intros x Hx. apply F4. right. rewrite B1. unfold MTU in *. nia.
Qed.

Lemma iface_c2s n q s (o : op frame) :
  iface_refines n q s →
  ∃ q' m', ring_step MTU o (c2s_q s.1, s.2) = Done ((fifo_step (n - 1) o q.2).1, (q', m')) ∧
    ∀ ws, iface_refines n (q.1, (fifo_step (n - 1) o q.2).2)
      (MkMemEnpsf (name s.1) (s2c_q s.1) q' (cap s.1) (stream s.1) ws, m').
Proof.
  intros (R1 & R2 & B1 & B2). pose proof R1 as (W1 & N1 & _). pose proof R2 as (W2 & N2 & _).
  simpl in *. pose proof W1 as []. pose proof W2 as [].
  destruct (step_refines MTU (n - 1) q.2 o (c2s_q s.1, s.2) R2) as ([q' m'] & E & R').
  exists q', m'. split; [done |]. intros ws.
  destruct (ring_step_frame _ _ _ _ _ _ _ W2 E) as (F1 & F2 & F3 & F4).
  split; [| split; [done | split; [done | simpl; by rewrite F2]]]. simpl.
  eapply refines_frame; [exact R1 | done |]. intros x Hx. apply F4. left. rewrite B2. unfold MTU in *. nia.
Qed.

(** The common shape of the four operations. *)
Lemma on_s2c_run {A} (m : M (ringbuf * shm frame) A) (f : A → response frame) s b q' m' :
  (a ← m; mret (f a)) (s2c_q s.1, s.2) = Done (b, (q', m')) →
  (a ← (res ← MemEnpsf.on_s2c m; MemEnpsf.send_pointers ;; mret res); mret (f a)) s
  = Done (b, (add_write (RingBuf.pointers (c2s_q s.1)) (set_s2c q' s.1), m')).
Proof.
  unfold mbind, M_bind, MemEnpsf.on_s2c. destruct (m (s2c_q s.1, s.2)) as [[a [q1 m1]] | |]; try done.
  by intros [= <- <- <-].
Qed.

Lemma on_c2s_run {A} (m : M (ringbuf * shm frame) A) (f : A → response frame) s b q' m' :
  (a ← m; mret (f a)) (c2s_q s.1, s.2) = Done (b, (q', m')) →
  (a ← (res ← MemEnpsf.on_c2s m; MemEnpsf.send_pointers ;; mret res); mret (f a)) s
  = Done (b, (add_write (RingBuf.pointers q') (set_c2s q' s.1), m')).
Proof.
  unfold mbind, M_bind, MemEnpsf.on_c2s. destruct (m (c2s_q s.1, s.2)) as [[a [q1 m1]] | |]; try done.
  by intros [= <- <- <-].
Qed.

(** One operation simulates one step on the pair of queues and sends the
    indices of the client-to-server queue, whichever queue it used. *)
Lemma iface_step_refines n q s o :
  iface_refines n q s →
  ∃ s', iface_step o s = Done ((two_fifo_step (n - 1) o q).1, s') ∧
    iface_refines n (two_fifo_step (n - 1) o q).2 s' ∧
    writes s'.1 = writes s.1 ++ [RingBuf.pointers (c2s_q s'.1)] ∧
    match o with
    | XmitToClient _ | RecvFromSrv => c2s_q s'.1 = c2s_q s.1
    | RecvFromClient | XmitToSrv _ => s2c_q s'.1 = s2c_q s.1
    end.
Proof.
  intros R. destruct o as [| b | | b]; cbn [two_fifo_step].
  - destruct (iface_c2s n q s OPop R) as (q' & m' & E & R'). destruct (fifo_step _ _ _) as [r c].
    eexists. split; [exact (on_c2s_run _ _ _ _ _ _ E) |]. split; [apply R' | done].
  - destruct (iface_s2c n q s (OPush b) R) as (q' & m' & E & R'). destruct (fifo_step _ _ _) as [r c].
    eexists. split; [exact (on_s2c_run _ _ _ _ _ _ E) |]. split; [apply R' | done].
  - destruct (iface_s2c n q s OPop R) as (q' & m' & E & R'). destruct (fifo_step _ _ _) as [r c].
    eexists. split; [exact (on_s2c_run _ _ _ _ _ _ E) |]. split; [apply R' | done].
  - destruct (iface_c2s n q s (OPush b) R) as (q' & m' & E & R'). destruct (fifo_step _ _ _) as [r c].
    eexists. split; [exact (on_c2s_run _ _ _ _ _ _ E) |]. split; [apply R' | done].
Qed.

Lemma iface_run_refines n os q s :
  iface_refines n q s →
  ∃ s', iface_run os s = Done ((two_fifo_run (n - 1) os q).1, s') ∧
    iface_refines n (two_fifo_run (n - 1) os q).2 s'.
Proof.
  revert q s. induction os as [|o os IH]; intros q s R; simpl; [eauto |].
  destruct (iface_step_refines n q s o R) as (s1 & E1 & R1 & _).
  destruct (two_fifo_step (n - 1) o q) as [a q1]. simpl in *.
  destruct (IH q1 s1 R1) as (s2 & E2 & R2).
  destruct (two_fifo_run (n - 1) os q1) as [rs q2]. simpl in *.
  exists s2. rewrite (bind_done _ _ _ _ _ E1), (bind_done _ _ _ _ _ E2). done.
Qed.

Lemma c2s_base_id n : 0 ≤ n → n * MTU < 2 ^ 63 → c2s_base n = n * MTU.
Proof.
  unfold c2s_base, MTU. intros. rewrite as_uint_id by (unfold is_uint; lia).
  apply as_sint_id; [lia | unfold is_sint; lia].
Qed.

(** [MemEnpsf::new] returns this value, or panics when no descriptor comes. *)
Lemma memenpsf_new_run {K} {SC : SocketCalls K} {HC : ShmCalls K} nm n st (k : K) r k' :
  recv_fd st [x00] k = Done (r, k') → 0 ≤ n → n * MTU < 2 ^ 64 →
  MemEnpsf.new nm n st k
  = match r with
    | Ok fd => Done (new_iface nm n st, sys_mmap fd n (sys_ftruncate fd (as_sint 64 n) k'))
    | Err _ => Panicked
    end.
Proof.
  intros E H0 H1. unfold MemEnpsf.new. rewrite (bind_done _ _ _ _ _ E).
  destruct r as [fd|e]; [| done]. rewrite bind_unwrap_ok, !bind_modify.
  unfold new_iface, c2s_base, MTU in *. rewrite umul_exact, bind_lift_done by (unfold is_uint; lia).
  by rewrite as_uint_id by (unfold is_uint; lia).
Qed.

Lemma new_iface_refines nm n st (m : shm frame) :
  1 ≤ n → n * MTU < 2 ^ 63 → 2 * (n * MTU) ≤ shm_size m →
  iface_refines n ([], []) (new_iface nm n st, m).
Proof.
  intros Hn Hb Hm. unfold new_iface. rewrite c2s_base_id by lia. unfold MTU in *.
  split; [apply new_refines; unfold MTU; simpl; lia |]. split; [apply new_refines; unfold MTU; simpl; lia | done].
Qed.
End lemmas.

(** ** Properties *)

Section properties.
Context {prof : profile}.

(** C19: if the mapping had room for both queues ([2 * cap] frames), the
    interface would be two independent first-in first-out queues of at most
    [cap - 1] frames: every sequence of the four operations, in one process,
    answers as the pair of bounded FIFOs, without a panic or a fault.  (The
    offset of the second queue is an [isize], as in any mapping that exists.) *)
Theorem iface_two_fifos nm n st (m : shm frame) os :
  1 ≤ n → n * MTU < 2 ^ 63 → 2 * (n * MTU) ≤ shm_size m →
  ∃ s', iface_run os (new_iface nm n st, m) = Done ((two_fifo_run (n - 1) os ([], [])).1, s') ∧
    iface_refines n (two_fifo_run (n - 1) os ([], [])).2 s'.
Proof. intros. by apply iface_run_refines, new_iface_refines. Qed.

(** Every operation writes one message of two bytes to the stream, and it
    is always the indices of the client-to-server queue, also after an
    operation on the other queue, whose indices are never communicated. *)
Lemma iface_reports_c2s n q s o :
  iface_refines n q s →
  ∃ a s', iface_step o s = Done (a, s') ∧
    writes s'.1 = writes s.1 ++ [RingBuf.pointers (c2s_q s'.1)] ∧
    match o with
    | XmitToClient _ | RecvFromSrv => c2s_q s'.1 = c2s_q s.1
    | RecvFromClient | XmitToSrv _ => s2c_q s'.1 = s2c_q s.1
    end.
Proof.
  intros R. destruct (iface_step_refines n q s o R) as (s' & E & _ & W).
  by exists (two_fifo_step (n - 1) o q).1, s'.
Qed.

(** C39: the mapping is [cap] bytes, rounded up to pages, and not [cap] frames:
    with any capacity above 1 the first frame sent to the server is written
    outside of it, which is a memory error; and for capacities of 3 to 4096,
    one frame can be sent to the client and the second one faults. *)
Theorem mapping_too_small nm n st (m : shm frame) b1 b2 :
  2 ≤ n → n * MTU < 2 ^ 63 → shm_size m = round_up n 4096 →
  MemEnpsf.xmit_to_srv b1 (new_iface nm n st, m) = Undefined ∧
  (3 ≤ n ≤ 4096 → ∃ s', MemEnpsf.xmit_to_client b1 (new_iface nm n st, m) = Done (Ok tt, s') ∧
     MemEnpsf.xmit_to_client b2 s' = Undefined).
Proof.
  intros Hn Hb Hm. unfold MTU in Hb.
  assert (Hu : round_up n 4096 < n + 4096).
  { unfold round_up. pose proof (Z.mul_div_le (n + 4096 - 1) 4096 ltac:(lia)). lia. }
  assert (Eni : ∀ i, 0 ≤ i → i + 1 < n → RingBuf.next_ind n i = Done (i + 1)).
  { intros i ? ?. rewrite next_ind_ok by lia. by rewrite Z.mod_small by lia. }
  assert (Ecap : as_sint 64 n = n) by (apply as_sint_id; [lia | unfold is_sint; lia]).
  unfold MemEnpsf.xmit_to_srv, MemEnpsf.xmit_to_client, MemEnpsf.on_c2s, MemEnpsf.on_s2c, new_iface,
    RingBuf.new. rewrite Ecap, c2s_base_id by (unfold MTU; lia). unfold MTU. split.
  - unfold mbind, M_bind. cbn [c2s_q fst snd].
    rewrite (push_run _ _ _ _ 1) by (done || (apply (Eni 0); lia)).
    unfold mapped, RingBuf.slot, MTU. cbn [base]. rewrite Hm.
    destruct (Z.leb_spec (n * 1536 + 1 * 1536 + 1536) (round_up n 4096)); [lia |].
    by rewrite andb_false_r.
  - intros H3.
    assert (Hr : round_up n 4096 = 4096).
    { unfold round_up. replace ((n + 4096 - 1) / 4096) with 1; [done |].
      apply (Z.div_unique_pos _ _ _ (n - 1)); lia. }
    eexists. split; unfold mbind, M_bind; cbn [s2c_q fst snd].
    + rewrite (push_run _ _ _ _ 1) by (done || (apply (Eni 0); lia)).
      unfold mapped. rewrite Hm, Hr. reflexivity.
    + cbn [s2c_q set_s2c add_write]. rewrite (push_run _ _ _ _ 2) by (done || (apply (Eni 1); lia)).
      unfold mapped. cbn -[Z.leb]. by rewrite Hm, Hr.
Qed.

(** Two processes that map the same file exchange nothing: whatever the
    other side has written into the mapping ([m] is arbitrary), an interface
    that has itself sent nothing receives [None] from both queues, and is left
    as it was but for the message to the stream, because the indices of the
    queues are not in the shared memory. *)
Lemma iface_receives_nothing nm n st (m : shm frame) ws :
  let e := MkMemEnpsf nm (RingBuf.new 0 n) (RingBuf.new (c2s_base n) n) n st ws in
  let e' := MkMemEnpsf nm (RingBuf.new 0 n) (RingBuf.new (c2s_base n) n) n st (ws ++ [[0; 0]]) in
  MemEnpsf.recv_from_client (e, m) = Done (None, (e', m)) ∧
  MemEnpsf.recv_from_srv (e, m) = Done (None, (e', m)).
Proof. split; reflexivity. Qed.
End properties.

(** ** Witnesses *)

Definition frame0 : frame := replicate 1536 x00.
Definition frame1 : frame := replicate 1536 x01.
Definition sample_map (size : Z) : shm frame := Shm size (λ _, frame0) ∅.

Lemma iface_two_fifos_witness :
  ∃ s', iface_run (prof := Debug)
      [XmitToClient frame1; XmitToSrv frame0; XmitToSrv frame1; RecvFromSrv; RecvFromClient]
      (new_iface "memenpsf1" 2 5, sample_map 6144)
    = Done ([RPush (Ok tt); RPush (Ok tt); RPush (Err BufFull); RPop (Some frame1);
             RPop (Some frame0)], s') ∧ iface_refines 2 ([], []) s'.
Proof.
  refine (iface_two_fifos (prof := Debug) "memenpsf1" 2 5 (sample_map 6144)
    [XmitToClient frame1; XmitToSrv frame0; XmitToSrv frame1; RecvFromSrv; RecvFromClient] _ _ _);
    unfold MTU; simpl; lia.
Defined.

Lemma iface_reports_c2s_witness :
  ∃ a s', iface_step (prof := Debug) (XmitToClient frame1)
      (new_iface "memenpsf1" 2 5, sample_map 6144) = Done (a, s') ∧
    writes s'.1 = [RingBuf.pointers (c2s_q s'.1)] ∧
    c2s_q s'.1 = RingBuf.new (2 * MTU) 2.
Proof.
  apply (iface_reports_c2s (prof := Debug) 2 ([], []) (new_iface "memenpsf1" 2 5, sample_map 6144)
    (XmitToClient frame1)).
  apply new_iface_refines; unfold MTU; simpl; lia.
Defined.

(** The capacity [l3enginemux] uses. *)
Lemma mapping_too_small_witness :
  MemEnpsf.xmit_to_srv (prof := Debug) frame1 (new_iface "memenpsf1" 20 5, sample_map 4096)
  = Undefined.
Proof.
  refine (proj1 (mapping_too_small (prof := Debug) "memenpsf1" 20 5 (sample_map 4096) frame1 frame0
    _ _ _)); [lia | unfold MTU; lia | reflexivity].
Defined.

Lemma iface_receives_nothing_witness :
  MemEnpsf.recv_from_srv (prof := Debug) (MkMemEnpsf "memenpsf1" (RingBuf.new 0 20)
    (RingBuf.new (20 * MTU) 20) 20 5 [], sample_map 4096)
  = Done (None, (MkMemEnpsf "memenpsf1" (RingBuf.new 0 20)
    (RingBuf.new (20 * MTU) 20) 20 5 ([] ++ [[0; 0]]), sample_map 4096)).
Proof.
  exact (proj2 (iface_receives_nothing (prof := Debug) "memenpsf1" 20 5 (sample_map 4096) [])).
Defined.
