(* ===== verification/FiveTuple.v ===== *)
(** * Packet classification ([l3enginemux/src/mux/fivetuple.rs])

    The parser [etherparse] and the packet builder [pnet] are parameters. *)

From S2P Require Import Prelude Errors Mbuf Dpdk Sim Mempool.

(** Hardware and IPv4 addresses. *)
Record Mac := MkMac { mac0 : u8; mac1 : u8; mac2 : u8; mac3 : u8; mac4 : u8; mac5 : u8 }.
Record Ipv4Addr := MkIpv4 { oct0 : u8; oct1 : u8; oct2 : u8; oct3 : u8 }.

#[export] Instance Mac_eq_dec : EqDecision Mac.
Proof. solve_decision. Defined.
#[export] Instance Ipv4Addr_eq_dec : EqDecision Ipv4Addr.
Proof. solve_decision. Defined.

Definition mac_bytes (m : Mac) : list u8 := [mac0 m; mac1 m; mac2 m; mac3 m; mac4 m; mac5 m].
Definition octets (ip : Ipv4Addr) : list u8 := [oct0 ip; oct1 ip; oct2 ip; oct3 ip].

(** ** The crate [etherparse] *)

Record Ethernet2Header := MkEthernet2 { source : Mac; destination : Mac; ether_type : Z }.
Inductive LinkSlice := Ethernet2 (h : Ethernet2Header).
Record Ipv4Slice := MkIpv4Slice { source_addr : Ipv4Addr; destination_addr : Ipv4Addr }.
Inductive InternetSlice := Ipv4 (ip : Ipv4Slice) | Ipv6.
Record TcpSlice := MkTcpSlice { destination_port : Z }.
Inductive TransportSlice := Tcp (tcp : TcpSlice) | Udp.

Record SlicedPacket := MkSlicedPacket {
  sl_link : option LinkSlice; sl_ip : option InternetSlice; sl_transport : option TransportSlice }.

Class Etherparse := {
  ReadError : Type;
  from_ethernet : list u8 → result SlicedPacket ReadError
}.

(** [from_ethernet] goes on to an IP header only for the ether types of IPv4
    and IPv6, possibly behind VLAN tags. *)
Class EtherparseLaws `{Etherparse} : Prop := {
  from_ethernet_ip pkt sl i : from_ethernet pkt = Ok sl → sl_ip sl = Some i →
    ∀ h, sl_link sl = Some (Ethernet2 h) →
      ether_type h ∈ [0x0800; 0x86dd; 0x8100; 0x88a8; 0x9100]
}.

(** ** The crate [pnet] *)

Record ArpFields := MkArp {
  hardware_type : Z; protocol_type : Z; hw_addr_len : Z; proto_addr_len : Z; operation : Z;
  sender_hw_addr : Mac; sender_proto_addr : Ipv4Addr;
  target_hw_addr : Mac; target_proto_addr : Ipv4Addr }.

(** [MutableEthernetPacket] and [MutableArpPacket] over zeroed buffers of the
    given length: [None] when the buffer is too short, otherwise the bytes
    after all the setters ran. *)
Class Pnet := {
  ethernet_packet : Z → Mac → Mac → Z → list u8 → option (list u8);
  arp_packet : Z → ArpFields → option (list u8)
}.

Definition arp_bytes (a : ArpFields) : list u8 :=
  be16 (hardware_type a) ++ be16 (protocol_type a) ++
  [u8_of_Z (hw_addr_len a); u8_of_Z (proto_addr_len a)] ++ be16 (operation a) ++
  mac_bytes (sender_hw_addr a) ++ octets (sender_proto_addr a) ++
  mac_bytes (target_hw_addr a) ++ octets (target_proto_addr a).

(** The wire formats of Ethernet and of ARP for IPv4 (RFC 826). *)
Class PnetLaws `{Pnet} : Prop := {
  ethernet_packet_ok dst src ty payload n :
    n = 14 + Z.of_nat (length payload) →
    ethernet_packet n dst src ty payload
    = Some (mac_bytes dst ++ mac_bytes src ++ be16 ty ++ payload);
  arp_packet_ok a : arp_packet 28 a = Some (arp_bytes a)
}.

(** Constants of [pnet]: [MacAddr::broadcast] and [zero], [EtherTypes],
    [ArpHardwareTypes::Ethernet], [ArpOperations::Request]. *)
Definition MacAddr_broadcast : Mac := MkMac xff xff xff xff xff xff.
Definition MacAddr_zero : Mac := MkMac x00 x00 x00 x00 x00 x00.
Definition EtherTypes_Arp : Z := 0x0806.
Definition EtherTypes_Ipv4 : Z := 0x0800.
Definition ArpHardwareTypes_Ethernet : Z := 1.
Definition ArpOperations_Request : Z := 1.

(** ** The module *)

Record LocalIPMac := MkLocal { local_ip : Ipv4Addr; local_mac : Mac }.

Inductive FiveTupleErr {EP : Etherparse} :=
  | InvalidLink | InvalidIP | InvalidTransport | NoUDP | WrongMAC | WrongIP | WrongPort | NoIPv6
  | FtReadError (e : ReadError).

Record FiveTuple_t := MkFiveTuple {
  src_mac : Mac; src_ip : Ipv4Addr; dst_mac : Mac; dst_ip : Ipv4Addr; dst_port : Z;
  ft_ethertype : Z }.

Module FiveTuple.
Section fivetuple.
Context {EP : Etherparse}.

(** [From<ReadError> for FiveTupleErr]. *)
Definition from_read_error (e : ReadError) : FiveTupleErr := FtReadError e.

(** [FiveTuple::parse_pkt]; the argument [_ports] is unused. *)
Definition parse_pkt (pkt : list u8) (local : LocalIPMac) (_ports : list Z)
    : result FiveTuple_t FiveTupleErr :=
  match from_ethernet pkt with
  | Err e => Err (from_read_error e)
  | Ok sliced_pkt =>
  match sl_link sliced_pkt with
  | None => Err InvalidLink
  | Some linkslice =>
  match sl_ip sliced_pkt with
  | None => Err InvalidIP
  | Some ipslice =>
  match sl_transport sliced_pkt with
  | None => Err InvalidTransport
  | Some transportslice =>
  let 'Ethernet2 link := linkslice in
  match ipslice with
  | Ipv6 => Err NoIPv6
  | Ipv4 ip =>
  match transportslice with
  | Udp => Err NoUDP
  | Tcp transport =>
      if negb (bool_decide (destination_addr ip = local_ip local)) then Err WrongIP else
      if negb (bool_decide (destination link = local_mac local)) then Err WrongMAC else
      Ok (MkFiveTuple (source link) (source_addr ip) (destination link) (destination_addr ip)
            (destination_port transport) (ether_type link))
  end end end end end end.

(** [FiveTuple::ethertype]. *)
Definition ethertype (self : FiveTuple_t) : Z := u16_to_be (ft_ethertype self).

(** [FiveTuple::ipaddr_to_u32]. *)
Definition ipaddr_to_u32 (ip : Ipv4Addr) : Z :=
  let p := u8_to_Z <$> octets ip in
  Z.lor (Z.lor (Z.lor (Z.shiftl (Z.land (nth 0 p 0) 0xff) 24)
                      (Z.shiftl (Z.land (nth 1 p 0) 0xff) 16))
               (Z.shiftl (Z.land (nth 2 p 0) 0xff) 8))
        (Z.land (nth 1 p 0) 0xff).

(** [FiveTuple::arr_to_macaddr]. *)
Definition arr_to_macaddr (mac : Mac) : Mac :=
  MkMac (mac0 mac) (mac1 mac) (mac2 mac) (mac3 mac) (mac4 mac) (mac5 mac).

Definition ETHERTYPE_ARP : Z := 0x0806.
Definition ARP_OP_REQUEST : Z := 1.
Definition ARP_OP_REPLY : Z := 2.

Context {prof : profile} {PN : Pnet} {H : Type} {DP : Dpdk H}.

(** The fields [handle_arp] sets. *)
Definition arp_fields (self : FiveTuple_t) (local : LocalIPMac) : ArpFields :=
  MkArp ArpHardwareTypes_Ethernet EtherTypes_Ipv4 6 4 ArpOperations_Request
    (arr_to_macaddr (local_mac local)) (local_ip local) MacAddr_zero (src_ip self).

(** [FiveTuple::handle_arp]. *)
Definition handle_arp (self : FiveTuple_t) (local : LocalIPMac) (mp : ptr)
    : M (world H) (option ptr) :=
  if negb (bool_decide (local_mac local = dst_mac self))
     || negb (bool_decide (local_ip local = dst_ip self)) then mret None else
  if u16_to_be (ft_ethertype self) =? ETHERTYPE_ARP then
    if bool_decide (local_mac local = dst_mac self)
       || bool_decide (local_ip local = dst_ip self) then
      match arp_packet 28 (arp_fields self local) with
      | None => mret None
      | Some arp =>
      match ethernet_packet 42 MacAddr_broadcast (arr_to_macaddr (local_mac local)) EtherTypes_Arp arp with
      | None => mret None
      | Some eth =>
          r ← MbufPool.from_bytes eth mp;
          match r with
          | Ok out_buf => mret (Some out_buf)
          | Err _ => mret None
          end
      end end
    else mret None
  else mret None.
End fivetuple.
End FiveTuple.

(** ** Lemmas *)

(** The code recognises ARP by the byte-swapped type. *)
Lemma ethertype_arp_iff e : is_uint 16 e → u16_to_be e = FiveTuple.ETHERTYPE_ARP ↔ e = 0x0608.
Proof.
  intros He. rewrite u16_to_be_bytes by done. unfold FiveTuple.ETHERTYPE_ARP.
  destruct He as [? ?]. pose proof (Z.div_mod e 256 ltac:(lia)).
  pose proof (Z.mod_pos_bound e 256 ltac:(lia)).
  pose proof (Z.div_lt_upper_bound e 256 256 ltac:(lia) ltac:(lia)).
  pose proof (Z.div_pos e 256 ltac:(lia) ltac:(lia)). lia.
Qed.

(** ** Properties *)

Section parse.
Context {EP : Etherparse}.

(** C31: [parse_pkt] accepts exactly the packets the parser finds to be TCP over
    IPv4 over Ethernet for the local IP address and the local hardware address,
    and then reports their addresses, destination port and ether type; the list
    of ports plays no part. *)
Theorem parse_pkt_ok pkt local ports t :
  FiveTuple.parse_pkt pkt local ports = Ok t ↔
  ∃ h ip tcp, from_ethernet pkt
      = Ok (MkSlicedPacket (Some (Ethernet2 h)) (Some (Ipv4 ip)) (Some (Tcp tcp))) ∧
    destination_addr ip = local_ip local ∧ destination h = local_mac local ∧
    t = MkFiveTuple (source h) (source_addr ip) (local_mac local) (local_ip local)
          (destination_port tcp) (ether_type h).
Proof.
  unfold FiveTuple.parse_pkt. split.
  - destruct (from_ethernet pkt) as [[[[h]|] [[ip|]|] [[tcp|]|]] | e]; simpl; try done.
    case_bool_decide as E1; simpl; [| done]. case_bool_decide as E2; simpl; [| done].
    intros [= <-]. exists h, ip, tcp. by rewrite E1, E2.
  - intros (h & ip & tcp & -> & E1 & E2 & ->). simpl.
    by rewrite !bool_decide_eq_true_2, E1, E2.
Qed.

Context {EL : EtherparseLaws} {prof : profile} {PN : Pnet} {H : Type} {DP : Dpdk H}.

(** A packet in which the parser found an IP header is not of type ARP, in
    either byte order. *)
Lemma ip_not_arp pkt sl i h : from_ethernet pkt = Ok sl → sl_ip sl = Some i →
  sl_link sl = Some (Ethernet2 h) → ether_type h ≠ 0x0806 ∧ u16_to_be (ether_type h) ≠ 0x0806.
Proof.
  intros E Ei Eh. pose proof (from_ethernet_ip pkt sl i E Ei h Eh) as Hin.
  rewrite !elem_of_cons, elem_of_nil in Hin.
  by destruct Hin as [-> | [-> | [-> | [-> | [-> | []]]]]].
Qed.

(** The ARP code of the multiplexer is dead: a packet that [parse_pkt]
    accepted never has the ether type the caller tests for, and [handle_arp]
    returns [None] for it, for every local address, without touching the pool
    (an ARP packet has no IP header and is refused before). *)
Lemma arp_unreachable pkt local ports t local' mp (w : world H) :
  FiveTuple.parse_pkt pkt local ports = Ok t →
  FiveTuple.ethertype t ≠ FiveTuple.ETHERTYPE_ARP ∧
  FiveTuple.handle_arp t local' mp w = Done (None, w).
Proof.
  intros Hp. assert (Ht : FiveTuple.ethertype t ≠ FiveTuple.ETHERTYPE_ARP).
  { revert Hp. unfold FiveTuple.parse_pkt.
    destruct (from_ethernet pkt) as [[[[h]|] [[ip|]|] [[tcp|]|]] | e] eqn:E; simpl; try done.
    case_bool_decide; simpl; [| done]. case_bool_decide; simpl; [| done]. intros [= <-].
    by apply (ip_not_arp pkt _ (Ipv4 ip) h E). }
  split; [done |]. unfold FiveTuple.handle_arp. destruct (_ || _); [done |].
  unfold FiveTuple.ethertype in Ht. by destruct (Z.eqb_spec (u16_to_be (ft_ethertype t)) FiveTuple.ETHERTYPE_ARP).
Qed.
End parse.

(** The frame [handle_arp] builds: an ARP request from the local host. *)
Definition arp_frame (t : FiveTuple_t) (local : LocalIPMac) : list u8 :=
  mac_bytes MacAddr_broadcast ++ mac_bytes (local_mac local) ++ [x08; x06] ++
  [x00; x01; x08; x00; x06; x04; x00; x01] ++ mac_bytes (local_mac local) ++ octets (local_ip local) ++
  mac_bytes MacAddr_zero ++ octets (src_ip t).

Section arp.
Context {prof : profile} {PN : Pnet} {PL : PnetLaws} {H : Type} {DP : Dpdk H} {ML : MempoolLaws H}.

(** What [handle_arp] does for a packet addressed to the local host: a
    packet whose ether type is ARP (0x0806) is ignored, because the type is
    compared after a byte swap; for the type 0x0608 it builds a broadcast frame
    of 42 bytes, an ARP request (operation 1) although the code means to reply,
    and either returns a buffer of the pool with exactly these bytes or, when
    the pool is exhausted or the frame does not fit, nothing, with the pool as
    before. *)
Lemma handle_arp_spec t local mp (w : world H) :
  local_mac local = dst_mac t → local_ip local = dst_ip t →
  (ft_ethertype t = 0x0806 → FiveTuple.handle_arp t local mp w = Done (None, w)) ∧
  (ft_ethertype t = 0x0608 → ∃ r w', FiveTuple.handle_arp t local mp w = Done (r, w') ∧
     length (arp_frame t local) = 42%nat ∧
     match r with
     | Some p => from_bytes_result (arp_frame t local) mp w w' (Ok p)
     | None => d_pools (obs w') = d_pools (obs w)
     end).
Proof.
  intros E1 E2. unfold FiveTuple.handle_arp. rewrite !bool_decide_eq_true_2 by done. cbn [negb orb].
  split; intros ->; [done |]. change (u16_to_be 0x0608 =? FiveTuple.ETHERTYPE_ARP) with true. cbv match.
  rewrite arp_packet_ok, ethernet_packet_ok by done.
  change (mac_bytes MacAddr_broadcast ++ _) with (arp_frame t local).
  destruct (from_bytes_run (arp_frame t local) mp w) as (r & w' & E & R); [simpl; lia |].
  rewrite (bind_done _ _ _ _ _ E). destruct r as [p|e].
  - exists (Some p), w'. done.
  - exists None, w'. split; [done |]. split; [done |]. inversion R as [Eo | ? ? ? ? ? ? ? Eo |]; by rewrite Eo.
Qed.
End arp.

(** [ipaddr_to_u32] is not the number of the address: it puts the second
    octet in the place of the fourth, so it is right exactly for addresses
    whose second and fourth octets agree. *)
Lemma ipaddr_to_u32_spec a b c d :
  let z := u8_to_Z in
  FiveTuple.ipaddr_to_u32 (MkIpv4 a b c d) = ((z a * 256 + z b) * 256 + z c) * 256 + z b ∧
  (FiveTuple.ipaddr_to_u32 (MkIpv4 a b c d) = ((z a * 256 + z b) * 256 + z c) * 256 + z d ↔ b = d).
Proof.
  intros z. pose proof (u8_range a). pose proof (u8_range b). pose proof (u8_range c).
  assert (E : FiveTuple.ipaddr_to_u32 (MkIpv4 a b c d) = ((z a * 256 + z b) * 256 + z c) * 256 + z b).
  { unfold FiveTuple.ipaddr_to_u32. cbn [octets fmap list_fmap nth oct0 oct1 oct2 oct3]. fold z.
    change 255 with (Z.ones 8). rewrite !Z.land_ones by lia. change (2 ^ 8) with 256.
    rewrite !Z.mod_small by done. subst z. cbv beta.
    rewrite <- !Z.lor_assoc. rewrite (lor_shift (u8_to_Z c)) by lia. change (2 ^ 8) with 256.
    rewrite (lor_shift (u8_to_Z b)) by lia. rewrite (lor_shift (u8_to_Z a)) by lia. lia. }
  split; [done |]. rewrite E. split; [| by intros ->]. intros E'.
  assert (Ez : z b = z d) by lia. unfold z, u8_to_Z in Ez. apply N2Z.inj in Ez.
  pose proof (Byte.of_to_N b) as Hb. rewrite Ez, Byte.of_to_N in Hb. by injection Hb.
Qed.

(** ** Witnesses *)

(** A parser that knows one packet, and a builder that writes the formats. *)
Definition sample_local : LocalIPMac :=
  MkLocal (MkIpv4 x0a x0a x01 x01) (MkMac x90 xe2 xba xb2 x98 x48).

Definition sample_header : Ethernet2Header :=
  MkEthernet2 (MkMac x02 x00 x00 x00 x00 x01) (local_mac sample_local) 0x0800.

#[export] Instance sample_etherparse : Etherparse := {|
  ReadError := unit;
  from_ethernet pkt :=
    if bool_decide (pkt = [x01]) then
      Ok (MkSlicedPacket (Some (Ethernet2 sample_header))
            (Some (Ipv4 (MkIpv4Slice (MkIpv4 x0a x0a x01 x02) (local_ip sample_local))))
            (Some (Tcp (MkTcpSlice 80))))
    else Err tt
|}.

#[export] Instance sample_etherparse_laws : EtherparseLaws.
Proof.
  split. intros pkt sl i. simpl. case_bool_decide; [| done]. intros [= <-] _ h [= <-]. by left.
Qed.

#[export] Instance sample_pnet : Pnet := {|
  ethernet_packet n dst src ty payload :=
    if n =? 14 + Z.of_nat (length payload)
    then Some (mac_bytes dst ++ mac_bytes src ++ be16 ty ++ payload) else None;
  arp_packet n a := if n =? 28 then Some (arp_bytes a) else None
|}.

#[export] Instance sample_pnet_laws : PnetLaws.
Proof. split; [| done]. intros dst src ty payload n ->. simpl. by rewrite Z.eqb_refl. Qed.

Lemma arp_unreachable_witness :
  FiveTuple.ethertype (MkFiveTuple (MkMac x02 x00 x00 x00 x00 x01) (MkIpv4 x0a x0a x01 x02)
    (local_mac sample_local) (local_ip sample_local) 80 0x0800) ≠ FiveTuple.ETHERTYPE_ARP.
Proof.
  refine (proj1 (arp_unreachable (prof := Debug) [x01] sample_local [] _ sample_local 1 sample_world _)).
  vm_compute. reflexivity.
Defined.

Lemma handle_arp_spec_witness :
  let t := MkFiveTuple (MkMac x02 x00 x00 x00 x00 x01) (MkIpv4 x0a x0a x01 x02)
    (local_mac sample_local) (local_ip sample_local) 80 0x0608 in
  ∃ r w', FiveTuple.handle_arp (prof := Debug) t sample_local 1 sample_world = Done (r, w') ∧
     length (arp_frame t sample_local) = 42%nat ∧
     match r with
     | Some p => from_bytes_result (arp_frame t sample_local) 1 sample_world w' (Ok p)
     | None => d_pools (obs w') = d_pools (obs sample_world)
     end.
Proof.
  intros t. refine (proj2 (handle_arp_spec (prof := Debug) t sample_local 1 sample_world _ _) _);
    reflexivity.
Defined.
