(* ===== verification/Mux.v ===== *)
(** * The multiplexer ([l3enginemux/src/mux/mod.rs])

    The secondary process's end of the channel, with two [ArrayQueue]s of the
    crate [crossbeam] between the channel and the clients; [ArrayQueue] is a
    parameter. *)

From S2P Require Import Prelude Errors Mbuf Dpdk Sim Mempool Memring Engine.

(** ** The crate [crossbeam]: [ArrayQueue<Mbuf>] *)

Class ArrayQueue (Q : Type) := {
  aq_new : Z → Q;
  aq_capacity : Q → Z;
  aq_len : Q → Z;
  aq_is_empty : Q → bool;
  aq_push : ptr → Q → result unit ptr * Q;
  aq_pop : Q → option ptr * Q
}.

(** "A bounded multi-producer multi-consumer queue": a FIFO of at most
    [capacity] elements. *)
Class ArrayQueueLaws (Q : Type) `{ArrayQueue Q} := {
  aq_items : Q → list ptr;
  aq_bounds q : Z.of_nat (length (aq_items q)) ≤ aq_capacity q;
  aq_new_ok n : 0 < n → aq_items (aq_new n) = [] ∧ aq_capacity (aq_new n) = n;
  aq_len_ok q : aq_len q = Z.of_nat (length (aq_items q));
  aq_is_empty_ok q : aq_is_empty q = bool_decide (aq_items q = []);
  aq_push_ok p q : Z.of_nat (length (aq_items q)) < aq_capacity q →
    (aq_push p q).1 = Ok tt ∧ aq_items (aq_push p q).2 = aq_items q ++ [p] ∧
    aq_capacity (aq_push p q).2 = aq_capacity q;
  aq_pop_ok q : (aq_pop q).1 = head (aq_items q) ∧ aq_items (aq_pop q).2 = tail (aq_items q) ∧
    aq_capacity (aq_pop q).2 = aq_capacity q
}.

Record Mux_t (Q : Type) := MkMux { channel : Channel_t; mempool : ptr; in_buf : Q; out_buf : Q }.
Arguments MkMux {Q}.
Arguments channel {Q}.
Arguments mempool {Q}.
Arguments in_buf {Q}.
Arguments out_buf {Q}.

Module Mux.
Section mux.
Context {prof : profile} {EN : Errno} {H Q : Type} {DP : Dpdk H} {AQ : ArrayQueue Q}.

Definition G_MEMPOOL_NAME : string := "GLOBAL_MEMPOOL".
Definition BURST_SZ : Z := 512.

(** [Mux::new]: an early [None] drops the channel. *)
Definition new : M (world H) (option (Mux_t Q)) :=
  r ← Channel.lookup;
  match r with
  | Err _ => mret None
  | Ok channel =>
      r ← Mempool.lookup G_MEMPOOL_NAME;
      match r with
      | Err _ => Channel.drop channel ;; mret None
      | Ok mempool => mret (Some (MkMux channel mempool (aq_new BURST_SZ) (aq_new BURST_SZ)))
      end
  end.

(** [Mux::recv]: the buffer is dropped on return. *)
Definition recv (self : Mux_t Q) (buf : list u8) : M (world H) (result unit MemoryError) :=
  r ← MbufPool.from_bytes buf (mempool self);
  match r with
  | Err _ => mret (Err NoMem)
  | Ok pkt =>
      out ← Channel.receive_from_engine (channel self) pkt;
      MbufPool.drop out.2 ;;
      mret out.1
  end.

(** The loop of [recv_from_engine_burst]: the buffers allocated, at most [n]. *)
Fixpoint alloc_loop (mp : ptr) (n : nat) (pkts : list ptr) : M (world H) (list ptr) :=
  match n with
  | O => mret pkts
  | S n =>
      r ← MbufPool.new mp;
      match r with
      | Ok buf => alloc_loop mp n (pkts ++ [buf])
      | Err _ => mret pkts
      end
  end.

(** [pkts.drain(..).for_each(|pkt| self.in_buf.push(pkt).unwrap())]. *)
Fixpoint push_all (pkts : list ptr) (q : Q) : outcome Q :=
  match pkts with
  | [] => Done q
  | p :: rest =>
      match aq_push p q with
      | (Ok _, q') => push_all rest q'
      | (Err _, _) => Panicked
      end
  end.

(** [Mux::recv_from_engine_burst]; [in_buf] is returned. *)
Definition recv_from_engine_burst (self : Mux_t Q) : M (world H) (Z * Q) :=
  len ← lift (usub 64 (aq_capacity (in_buf self)) (aq_len (in_buf self)));
  if len * 8 >? 2 ^ 63 - 1 then panic else
  pkts ← alloc_loop (mempool self) (Z.to_nat len) [];
  out ← Channel.recv_from_engine_burst (channel self) pkts len;
  let '(sz, pkts) := out in
  MbufPool.drop_all (skipn (Z.to_nat sz) pkts) ;;
  q ← lift (push_all (take (Z.to_nat sz) pkts) (in_buf self));
  mret (sz, q).

(** [Mux::xmit]. *)
Definition xmit (self : Mux_t Q) (buf : list u8) : M (world H) (result unit MemoryError) :=
  r ← MbufPool.from_bytes buf (mempool self);
  match r with
  | Err _ => mret (Err NoMem)
  | Ok pkt => Channel.send_to_engine (channel self) pkt
  end.

(** The [while] loop of [xmit_to_engine_bulk], which runs until the queue is
    empty; [fuel] bounds its turns. *)
Fixpoint pop_loop (fuel : nat) (q : Q) (pkts : list ptr) : outcome (list ptr * Q) :=
  if aq_is_empty q then Done (pkts, q) else
  match fuel with
  | O => Undefined
  | S fuel =>
      match aq_pop q with
      | (Some p, q') => pop_loop fuel q' (pkts ++ [p])
      | (None, _) => Panicked
      end
  end.

(** [Mux::xmit_to_engine_bulk]; [out_buf] is returned. *)
Definition xmit_to_engine_bulk (self : Mux_t Q) : M (world H) (Z * Q) :=
  if aq_is_empty (out_buf self) then mret (0, out_buf self) else
  len ← lift (usub 64 (aq_capacity (out_buf self)) (aq_len (out_buf self)));
  if len * 8 >? 2 ^ 63 - 1 then panic else
  out ← lift (pop_loop (Z.to_nat (aq_len (out_buf self))) (out_buf self) []);
  let '(pkts, q) := out in
  r ← Channel.send_to_engine_bulk (channel self) pkts;
  mret (r.1, q).

(** What Rust drops with a [Mux], in the order of the fields. *)
Definition drop_queue (q : Q) : M (world H) unit :=
  out ← lift (pop_loop (Z.to_nat (aq_len q)) q []); MbufPool.drop_all out.1.
Definition drop (self : Mux_t Q) : M (world H) unit :=
  Channel.drop (channel self) ;;
  Mempool.drop (mempool self) ;;
  drop_queue (in_buf self) ;;
  drop_queue (out_buf self).

Definition args : list string := ["-l 2-3"; "-n 4"; "--proc-type=secondary"; "--"; "-n 0"].

(** [start]. *)
Definition start : M (world H) unit := r ← Eal.eal_init args; unwrap r.
End mux.
End Mux.

(** ** Lemmas *)

Section queues.
Context {Q : Type} {AQ : ArrayQueue Q} {AL : ArrayQueueLaws Q}.

Lemma push_all_ok l q :
  Z.of_nat (length (aq_items q) + length l) ≤ aq_capacity q →
  ∃ q', Mux.push_all l q = Done q' ∧ aq_items q' = aq_items q ++ l ∧
    aq_capacity q' = aq_capacity q.
Proof.
  revert q. induction l as [|p l IH]; intros q Hl; simpl in *.
  { exists q. by rewrite app_nil_r. }
  destruct (aq_push_ok p q) as (E1 & E2 & E3); [lia |].
  destruct (aq_push p q) as [r q1]. simpl in *. subst r.
  destruct (IH q1) as (q' & E & Ei & Ec); [rewrite E2, E3; len |].
  exists q'. rewrite E, Ei, E2, Ec, E3, <- app_assoc. done.
Qed.

(** As much fuel as there are elements is enough. *)
Lemma pop_loop_ok n q pkts :
  length (aq_items q) = n →
  ∃ q', Mux.pop_loop n q pkts = Done (pkts ++ aq_items q, q') ∧ aq_items q' = [] ∧
    aq_capacity q' = aq_capacity q.
Proof.
  revert q pkts. induction n as [|n IH]; intros q pkts Hn; simpl; rewrite aq_is_empty_ok.
  - apply length_zero_iff_nil in Hn. rewrite bool_decide_eq_true_2 by done.
    exists q. by rewrite Hn, app_nil_r.
  - destruct (aq_items q) as [|p l] eqn:Eq; [done |]. rewrite bool_decide_eq_false_2 by done.
    destruct (aq_pop_ok q) as (E1 & E2 & E3). destruct (aq_pop q) as [r q1]. simpl in *.
    rewrite Eq in E1, E2. simpl in *. subst r.
    destruct (IH q1 (pkts ++ [p])) as (q' & E & Ei & Ec); [rewrite E2; lia |].
    exists q'. rewrite E, E2, <- app_assoc, Ec. done.
Qed.
End queues.

Section buffers.
Context {prof : profile} {EN : Errno} {H : Type} {DP : Dpdk H} {ML : MempoolLaws H} {RL : RingLaws H}.
Implicit Types w : world H.

(** The buffer at [p] is an empty one of the pool. *)
Definition empty_buf (mp : ptr) (o : dpdk) (p : ptr) : Prop :=
  ∃ b, d_mbufs o !! p = Some b ∧ fresh_mbuf mp b.

(** [p] is free in the pool. *)
Definition free_in (mp : ptr) (o : dpdk) (p : ptr) : Prop :=
  ∃ s, d_pools o !! mp = Some s ∧ p ∈ s.

Lemma alloc_loop_run mp n pkts w :
  ∃ fresh w', Mux.alloc_loop mp n pkts w = Done (pkts ++ fresh, w') ∧
    (length fresh ≤ n)%nat ∧ d_rings (obs w') = d_rings (obs w) ∧
    Forall (free_in mp (obs w)) fresh ∧ Forall (empty_buf mp (obs w')) fresh ∧
    (∀ p, empty_buf mp (obs w) p → empty_buf mp (obs w') p) ∧
    d_ports (obs w') = d_ports (obs w).
Proof.
  revert pkts w. induction n as [|n IH]; intros pkts w; simpl.
  { exists [], w. rewrite app_nil_r. by split_and!. }
  destruct (new_cases mp w) as [(w1 & E & Eo) | (p & w1 & s & b & E & Hs & Hp & _ & Hf & Eo)];
    rewrite (bind_done _ _ _ _ _ E).
  { exists [], w1. rewrite app_nil_r, Eo. split_and!; try done. simpl. lia. }
  destruct (IH (pkts ++ [p]) w1) as (fresh & w2 & E2 & L2 & R2 & F2 & B2 & P2 & D2).
  assert (Hpb : empty_buf mp (obs w1) p).
  { exists b. rewrite Eo. simpl. by rewrite lookup_insert_eq. }
  exists (p :: fresh), w2. rewrite E2, <- app_assoc, R2, D2, Eo. split_and!; try done.
  - simpl. lia.
  - constructor; [by exists s |]. eapply Forall_impl; [exact F2 |]. intros q (s' & Hs' & Hq).
    exists s. split; [done |]. rewrite Eo in Hs'. simpl in Hs'. rewrite lookup_insert_eq in Hs'.
    simplify_eq. multiset_solver.
  - constructor; [by apply P2 | done].
  - intros q (bq & Hbq & Hfq). apply P2. unfold empty_buf. rewrite Eo. simpl.
    destruct (decide (p = q)) as [-> |].
    + exists b. by rewrite lookup_insert_eq.
    + exists bq. by rewrite lookup_insert_ne.
Qed.

(** After the buffers [bufs] have been allocated, the next allocation fails. *)
Definition alloc_stops (mp : ptr) (bufs : list ptr) w : Prop :=
  ∃ w1 w2, Mux.alloc_loop mp (length bufs) [] w = Done (bufs, w1) ∧
    MbufPool.new mp w1 = Done (Err NoBuf, w2).

(** The loop allocates fewer buffers than it may only when an allocation
    fails. *)
Lemma alloc_loop_stop mp n pkts w fresh w' :
  Mux.alloc_loop mp n pkts w = Done (pkts ++ fresh, w') → (length fresh < n)%nat →
  ∃ w1 w2, Mux.alloc_loop mp (length fresh) pkts w = Done (pkts ++ fresh, w1) ∧
    MbufPool.new mp w1 = Done (Err NoBuf, w2).
Proof.
  revert pkts w fresh. induction n as [|n IH]; intros pkts w fresh E Hl; [lia |]. simpl in E.
  destruct (new_cases mp w) as [(w1 & En & _) | (p & w1 & s & b & En & _)];
    rewrite (bind_done _ _ _ _ _ En) in E.
  - injection E as E _. rewrite <- (app_nil_r pkts) in E at 1. apply app_inv_head in E as <-.
    exists w, w1. simpl. by rewrite app_nil_r.
  - destruct (alloc_loop_run mp n (pkts ++ [p]) w1) as (fr & w2 & E2 & _). pose proof E as E'.
    rewrite E2 in E'. injection E' as E' _. rewrite <- app_assoc in E'.
    apply app_inv_head in E' as <-. simpl in Hl.
    change (pkts ++ [p] ++ fr) with (pkts ++ [p] ++ fr) in E. rewrite app_assoc in E.
    destruct (IH (pkts ++ [p]) w1 fr E ltac:(lia)) as (w3 & w4 & E3 & E4).
    exists w3, w4. split; [| done]. simpl. rewrite (bind_done _ _ _ _ _ En), E3. by rewrite <- app_assoc.
Qed.

Lemma drop_all_run l w :
  Forall (λ p, is_Some (d_mbufs (obs w) !! p)) l →
  ∃ w', MbufPool.drop_all l w = Done (tt, w') ∧ d_mbufs (obs w') = d_mbufs (obs w) ∧
    d_rings (obs w') = d_rings (obs w) ∧ d_ports (obs w') = d_ports (obs w).
Proof.
  revert w. induction l as [|p l IH]; intros w Hl; [by exists w |].
  apply Forall_cons in Hl as [Hp Hl].
  change (MbufPool.drop_all (p :: l) w) with (MbufPool.drop_all l (rte_pktmbuf_free p w)).
  destruct (put_one_frame p (obs w)) as (F1 & F2 & F3 & _).
  pose proof (pktmbuf_free_ok p w Hp) as Eo.
  destruct (IH (rte_pktmbuf_free p w)) as (w' & E & M' & R' & D'); [by rewrite Eo, F1 |].
  exists w'. rewrite M', R', D', Eo, F1, F2, F3. done.
Qed.
End buffers.

(** ** Properties *)

Section properties.
Context {prof : profile} {EN : Errno} {H Q : Type} {DP : Dpdk H} {AQ : ArrayQueue Q}.
Context {ML : MempoolLaws H} {RL : RingLaws H} {AL : ArrayQueueLaws Q}.
Implicit Types (w : world H) (self : Mux_t Q).

(** One call of [recv_from_engine_burst]. *)
Lemma recv_burst_run self w rg :
  aq_capacity (in_buf self) < 2 ^ 32 →
  d_rings (obs w) !! ring_raw (to_packetiser (channel self)) = Some rg →
  ∃ lost kept fresh q w', Mux.recv_from_engine_burst self w
      = Done ((Z.of_nat (length lost), q), w') ∧
    rg_items rg = lost ++ kept ∧ length fresh = length lost ∧
    d_rings (obs w') = <[ring_raw (to_packetiser (channel self))
      := RteRing (rg_cap rg) kept]> (d_rings (obs w)) ∧
    aq_items q = aq_items (in_buf self) ++ fresh ∧ aq_capacity q = aq_capacity (in_buf self) ∧
    d_ports (obs w') = d_ports (obs w) ∧
    Forall (free_in (mempool self) (obs w)) fresh ∧
    Forall (empty_buf (mempool self) (obs w')) fresh ∧
    (kept = [] ∨ aq_len q = aq_capacity q ∨ alloc_stops (mempool self) fresh w).
Proof.
  intros Hc E. pose proof (aq_bounds (in_buf self)) as Hb.
  unfold Mux.recv_from_engine_burst. rewrite aq_len_ok, usub_exact, bind_lift_done
    by (unfold is_uint; lia).
  set (n := aq_capacity (in_buf self) - Z.of_nat (length (aq_items (in_buf self)))) in *.
  rewrite Z.gtb_ltb. destruct (Z.ltb_spec (2 ^ 63 - 1) (n * 8)); [lia |].
  destruct (alloc_loop_run (mempool self) (Z.to_nat n) [] w)
    as (fr & w1 & A1 & A2 & A3 & A4 & A5 & _ & A6).
  rewrite (bind_done _ _ _ _ _ A1). simpl app.
  destruct (dequeue_burst_run (to_packetiser (channel self)) rg fr n w1) as (w2 & D1 & D2);
    [by rewrite A3 | lia | lia | lia |].
  set (k := Nat.min (length fr) (length (rg_items rg))) in *.
  erewrite bind_done by exact D1. cbv beta iota. rewrite !Nat2Z.id.
  assert (B2 : Forall (empty_buf (mempool self) (obs w2)) fr) by (unfold empty_buf; by rewrite D2).
  destruct (drop_all_run (drop k fr) w2) as (w3 & E3 & M3 & R3 & R4).
  { apply Forall_drop. eapply Forall_impl; [exact B2 |]. intros p (b & ? & _). eauto. }
  rewrite (bind_done _ _ _ _ _ E3).
  destruct (push_all_ok (take k fr) (in_buf self)) as (q & P1 & P2 & P3).
  { rewrite length_take. lia. }
  rewrite P1, bind_lift_done.
  exists (take k (rg_items rg)), (drop k (rg_items rg)), (take k fr), q, w3.
  assert (Ek : length (take k (rg_items rg)) = k) by (rewrite length_take; lia).
  split_and!; [by rewrite Ek | by rewrite take_drop | rewrite !length_take; lia | | done | done
    | by rewrite R4, D2 | by apply Forall_take | |].
  - rewrite R3, D2. unfold set_items. simpl. by rewrite A3.
  - apply Forall_take. eapply Forall_impl; [exact B2 |]. intros p Hp. unfold empty_buf. by rewrite M3.
  - destruct (decide (length (rg_items rg) ≤ length fr)%nat); [left; apply drop_ge; lia | right].
    assert (Ek' : k = length fr) by lia. rewrite Ek', firstn_all.
    destruct (decide (length fr < Z.to_nat n)%nat) as [Hlt |].
    + right. by eapply (alloc_loop_stop _ (Z.to_nat n) [] w fr w1).
    + left. rewrite aq_len_ok, P2, P3, Ek', firstn_all, length_app. lia.
Qed.

(** C27: [recv_from_engine_burst] always returns, and never overfills [in_buf],
    but it queues the wrong buffers: it takes the oldest [sz] packets out of the
    ring from the engine and loses them, and appends to [in_buf] as many newly
    allocated empty buffers, which were free in the pool before the call.  And
    [sz] is as large as it can be: the ring is empty after the call, or [in_buf]
    is full, or the pool has given [sz] buffers and refused the next one. *)
Theorem recv_from_engine_burst_spec self w rg :
  aq_capacity (in_buf self) < 2 ^ 32 →
  d_rings (obs w) !! ring_raw (to_packetiser (channel self)) = Some rg →
  ∃ lost kept fresh q w', Mux.recv_from_engine_burst self w
      = Done ((Z.of_nat (length lost), q), w') ∧
    rg_items rg = lost ++ kept ∧ length fresh = length lost ∧
    d_rings (obs w') = <[ring_raw (to_packetiser (channel self))
      := RteRing (rg_cap rg) kept]> (d_rings (obs w)) ∧
    aq_items q = aq_items (in_buf self) ++ fresh ∧
    Forall (free_in (mempool self) (obs w)) fresh ∧
    Forall (empty_buf (mempool self) (obs w')) fresh ∧
    (kept = [] ∨ aq_len q = aq_capacity q ∨ alloc_stops (mempool self) fresh w).
Proof.
  intros Hc E. destruct (recv_burst_run self w rg Hc E)
    as (lost & kept & fresh & q & w' & ? & ? & ? & ? & ? & _ & _ & ? & ? & ?).
  by exists lost, kept, fresh, q, w'.
Qed.

(** [xmit_to_engine_bulk] empties [out_buf] (its loop ends), but sends
    nothing: it reports 0, both rings are as before and the packets it took
    out of the queue are lost. *)
Lemma xmit_to_engine_bulk_spec self w rg :
  aq_capacity (out_buf self) < 2 ^ 32 →
  d_rings (obs w) !! ring_raw (to_engine (channel self)) = Some rg →
  Z.of_nat (length (rg_items rg)) ≤ rg_cap rg →
  ∃ q w', Mux.xmit_to_engine_bulk self w = Done ((0, q), w') ∧ aq_items q = [] ∧
    obs w' = obs w.
Proof.
  intros Hc E Hl. pose proof (aq_bounds (out_buf self)) as Hb. unfold Mux.xmit_to_engine_bulk.
  rewrite aq_is_empty_ok. case_bool_decide as He; [by exists (out_buf self), w |].
  rewrite aq_len_ok, usub_exact, bind_lift_done by (unfold is_uint; lia).
  rewrite Z.gtb_ltb. destruct (Z.ltb_spec (2 ^ 63 - 1) ((aq_capacity (out_buf self)
    - Z.of_nat (length (aq_items (out_buf self)))) * 8)); [lia |].
  rewrite Nat2Z.id. destruct (pop_loop_ok _ (out_buf self) [] eq_refl) as (q & P1 & P2 & _).
  rewrite P1, bind_lift_done.
  destruct (enqueue_bulk_run (to_engine (channel self)) rg ([] ++ aq_items (out_buf self)) w E Hl)
    as (w' & E1 & E2).
  erewrite bind_done by exact E1. by exists q, w'.
Qed.

(** [Mux::new] after a [Channel::lookup] that found the rings. *)
Lemma mux_new_run w ch w1 :
  Channel.lookup w = Done (Ok ch, w1) → obs w1 = obs w →
  match NonNull_new (default null (d_pool_names (obs w) !! "GLOBAL_MEMPOOL")) with
  | Some mp => ∃ w', Mux.new w = Done (Some (MkMux ch mp (aq_new 512) (aq_new 512)), w') ∧
      obs w' = obs w
  | None => ∃ w2 w', Channel.drop ch w2 = Done (tt, w') ∧ obs w2 = obs w ∧
      Mux.new w = Done (None, w')
  end.
Proof.
  intros E Eo. unfold Mux.new. rewrite (bind_done _ _ _ _ _ E). unfold Mempool.lookup.
  replace (to_cstring Mux.G_MEMPOOL_NAME) with (Ok "GLOBAL_MEMPOOL" : result string NulError) by done.
  cbv match. rewrite bind_assoc, bind_call.
  destruct (mempool_lookup_ok "GLOBAL_MEMPOOL" w1) as [L1 L2]. rewrite L1, Eo.
  destruct (NonNull_new _) as [mp|]; rewrite bind_ret.
  - eexists. split; [done |]. congruence.
  - unfold Channel.drop, Ring.drop. rewrite bind_assoc, !bind_call_.
    eexists _, _. split; [done |]. split; [| done]. congruence.
Qed.

(** C40: when [Mux::new] finds the rings of the engine but not the mempool, the
    early return drops the channel, and the engine's rings are freed in the
    primary process with everything that is in them; when it finds everything,
    it changes nothing and returns a multiplexer on these rings with two empty
    queues of 512. *)
Theorem mux_new_spec w ch w1 :
  Channel.lookup w = Done (Ok ch, w1) → obs w1 = obs w →
  ring_raw (to_engine ch) ≠ ring_raw (to_packetiser ch) →
  is_Some (d_rings (obs w) !! ring_raw (to_engine ch)) →
  is_Some (d_rings (obs w) !! ring_raw (to_packetiser ch)) →
  match NonNull_new (default null (d_pool_names (obs w) !! "GLOBAL_MEMPOOL")) with
  | Some mp => ∃ mux w', Mux.new w = Done (Some mux, w') ∧ obs w' = obs w ∧
      channel mux = ch ∧ mempool mux = mp ∧ aq_items (in_buf mux) = [] ∧ aq_items (out_buf mux) = [] ∧
      aq_capacity (in_buf mux) = 512 ∧ aq_capacity (out_buf mux) = 512
  | None => ∃ w', Mux.new w = Done (None, w') ∧
      d_rings (obs w') = delete (ring_raw (to_packetiser ch))
        (delete (ring_raw (to_engine ch)) (d_rings (obs w)))
  end.
Proof.
  intros E Eo Hne He Hp. pose proof (mux_new_run w ch w1 E Eo) as R.
  destruct (NonNull_new _) as [mp|].
  - destruct R as (w' & E' & Eo'). eexists _, w'. split; [exact E' |]. simpl.
    destruct (aq_new_ok 512 ltac:(lia)). done.
  - destruct R as (w2 & w' & Ed & Eo2 & En). exists w'. split; [done |].
    unfold Channel.drop, Ring.drop in Ed. rewrite bind_call_ in Ed. injection Ed as <-.
    assert (Eo3 := ring_free_ok (ring_raw (to_engine ch)) w2 ltac:(by rewrite Eo2)).
    rewrite ring_free_ok, Eo3, Eo2; [done |]. rewrite Eo3, Eo2. simpl. by rewrite lookup_delete_ne.
Qed.

(** C28: dropping a [Mux] (when [main] ends, or panics with packets left in
    [in_buf]) frees its mempool, and with it the memory of every buffer, before
    the buffers that are still in its queues: the fields are dropped in the
    order of their declaration.  By the time the queues are emptied, the buffer
    at [p] no longer exists, and [rte_pktmbuf_free] is called on it; the rings
    of the engine are gone as well. *)
Theorem mux_drop_frees_pool_first self w p b :
  ring_raw (to_engine (channel self)) ≠ ring_raw (to_packetiser (channel self)) →
  is_Some (d_rings (obs w) !! ring_raw (to_engine (channel self))) →
  is_Some (d_rings (obs w) !! ring_raw (to_packetiser (channel self))) →
  is_Some (d_pools (obs w) !! mempool self) →
  p ∈ aq_items (in_buf self) → d_mbufs (obs w) !! p = Some b → m_pool b = mempool self →
  ∃ w1, Mux.drop self w
      = (MbufPool.drop_all (aq_items (in_buf self)) ;; MbufPool.drop_all (aq_items (out_buf self))) w1 ∧
    d_mbufs (obs w1) !! p = None ∧ d_pools (obs w1) !! mempool self = None ∧
    d_rings (obs w1) !! ring_raw (to_engine (channel self)) = None ∧
    d_rings (obs w1) !! ring_raw (to_packetiser (channel self)) = None.
Proof.
  intros Hne He Hp Hmp Hin Hb Hm. unfold Mux.drop, Channel.drop, Ring.drop, Mempool.drop.
  rewrite bind_assoc, !bind_call_.
  pose proof (ring_free_ok (ring_raw (to_engine (channel self))) w He) as E1.
  set (w1 := rte_ring_free (ring_raw (to_engine (channel self))) w) in *.
  assert (Hp1 : is_Some (d_rings (obs w1) !! ring_raw (to_packetiser (channel self))))
    by (rewrite E1; simpl; by rewrite lookup_delete_ne).
  pose proof (ring_free_ok (ring_raw (to_packetiser (channel self))) w1 Hp1) as E2.
  set (w2 := rte_ring_free (ring_raw (to_packetiser (channel self))) w1) in *.
  exists (rte_mempool_free (mempool self) w2).
  assert (E3 := mempool_free_ok (mempool self) w2 ltac:(by rewrite E2, E1)).
  split; [| rewrite E3, E2, E1; simpl; split_and!].
  - unfold Mux.drop_queue. rewrite !aq_len_ok, !Nat2Z.id.
    destruct (pop_loop_ok _ (in_buf self) [] eq_refl) as (q1 & -> & _).
    destruct (pop_loop_ok _ (out_buf self) [] eq_refl) as (q2 & -> & _). done.
  - apply map_lookup_filter_None. right. intros b' Hb' Hn. simplify_eq/=.
  - apply lookup_delete_eq.
  - rewrite lookup_delete_ne by done. apply lookup_delete_eq.
  - apply lookup_delete_eq.
Qed.

(** [xmit] sends a copy of the bytes: when it succeeds, the ring to the
    engine has gained, at its end, a buffer of the pool that holds exactly the
    bytes; when the pool has no buffer that fits, the answer is [NoMem] and
    the pool and the rings are as before. *)
Lemma xmit_spec self bytes w rg :
  Z.of_nat (length bytes) < 2 ^ 64 →
  d_rings (obs w) !! ring_raw (to_engine (channel self)) = Some rg →
  Z.of_nat (length (rg_items rg)) < rg_cap rg →
  ∃ r w', Mux.xmit self bytes w = Done (r, w') ∧
    match r with
    | Ok _ => ∃ p w1, from_bytes_result bytes (mempool self) w w1 (Ok p) ∧
        obs w' = set_items (ring_raw (to_engine (channel self))) rg (rg_items rg ++ [p]) (obs w1)
    | Err e => e = NoMem ∧ d_pools (obs w') = d_pools (obs w) ∧ d_rings (obs w') = d_rings (obs w)
    end.
Proof.
  intros Hb E Hl. unfold Mux.xmit.
  destruct (from_bytes_run bytes (mempool self) w Hb) as (r & w1 & E1 & R1).
  rewrite (bind_done _ _ _ _ _ E1). destruct r as [p|e].
  - assert (E' : d_rings (obs w1) !! ring_raw (to_engine (channel self)) = Some rg)
      by (inversion R1 as [| | ? ? ? ? ? ? ? ? ? ? ? ? Eo]; by rewrite Eo).
    unfold Channel.send_to_engine, Ring.enqueue. rewrite bind_call.
    destruct (ring_enqueue_ok _ rg p w1 E' Hl) as [-> Ho]. eexists _, _. split; [done |].
    exists p, w1. done.
  - exists (Err NoMem), w1. split; [done |]. split; [done |].
    inversion R1 as [Eo | ? ? ? ? ? ? ? Eo |]; by rewrite Eo.
Qed.
End properties.

(** ** A queue that satisfies the laws *)

Record list_queue := ListQueue {
  lq_cap : Z; lq_items : list ptr; lq_ok : (Z.of_nat (length lq_items) <=? lq_cap) = true }.

Lemma lq_new_ok n : (Z.of_nat (length ([] : list ptr)) <=? Z.max 0 n) = true.
Proof. apply Z.leb_le. simpl. lia. Qed.

Lemma lq_tail_ok q : (Z.of_nat (length (tail (lq_items q))) <=? lq_cap q) = true.
Proof.
  destruct q as [c l E]. simpl. apply Z.leb_le. apply Z.leb_le in E. destruct l; simpl in *; lia.
Qed.

Definition lq_push (p : ptr) (q : list_queue) : result unit ptr * list_queue :=
  match Sumbool.sumbool_of_bool (Z.of_nat (length (lq_items q ++ [p])) <=? lq_cap q) with
  | left E => (Ok tt, ListQueue (lq_cap q) (lq_items q ++ [p]) E)
  | right _ => (Err p, q)
  end.

#[export] Instance list_array_queue : ArrayQueue list_queue := {|
  aq_new n := ListQueue (Z.max 0 n) [] (lq_new_ok n);
  aq_capacity := lq_cap;
  aq_len q := Z.of_nat (length (lq_items q));
  aq_is_empty q := match lq_items q with [] => true | _ => false end;
  aq_push := lq_push;
  aq_pop q := (head (lq_items q), ListQueue (lq_cap q) (tail (lq_items q)) (lq_tail_ok q))
|}.

#[export] Instance list_array_queue_laws : ArrayQueueLaws list_queue.
Proof.
  refine {| aq_items := lq_items |}; simpl.
  - intros [c l E]. simpl. by apply Z.leb_le.
  - intros n Hn. split; [done | lia].
  - done.
  - intros q. by destruct (lq_items q).
  - intros p q Hl. unfold lq_push. destruct (Sumbool.sumbool_of_bool _) as [E | E]; [done |].
    apply Z.leb_gt in E. rewrite length_app in E. simpl in E. lia.
  - done.
Defined.

(** ** Witnesses *)

(** One buffer waits in [out_buf]. *)
Definition sample_mux : Mux_t list_queue :=
  MkMux sample_channel 1 (aq_new 512) (ListQueue 512 [1501] eq_refl).

(** The packet 1500 of the ring is lost, one fresh buffer is queued. *)
Lemma recv_from_engine_burst_spec_witness :
  ∃ p q w', Mux.recv_from_engine_burst (prof := Debug) sample_mux sample_world = Done ((1, q), w') ∧
    d_rings (obs w') = <[2 := RteRing 511 []]> (d_rings (obs sample_world)) ∧
    aq_items q = [p] ∧ free_in 1 (obs sample_world) p ∧ empty_buf 1 (obs w') p.
Proof.
  destruct (recv_from_engine_burst_spec (prof := Debug) sample_mux sample_world (RteRing 511 [1500]))
    as (lost & kept & fresh & q & w' & E & El & Ef & Er & Eq & F1 & F2 & M); [simpl; lia | reflexivity |].
  destruct lost as [|p0 [|p1 lost]]; [| | discriminate El].
  - destruct fresh; [| discriminate Ef]. simpl in El. rewrite <- El in M.
    destruct M as [M | [M | (w1 & w2 & M1 & M2)]]; [discriminate M | |].
    + assert (Eq' : (λ r, match r with Done ((_, q), _) => lq_cap q | _ => 0 end)
        (Mux.recv_from_engine_burst (prof := Debug) sample_mux sample_world) = aq_capacity q)
        by (rewrite E; reflexivity).
      rewrite aq_len_ok, Eq, <- Eq' in M. vm_compute in M. discriminate M.
    + injection M1 as <-. vm_compute in M2. discriminate M2.
  - injection El as <- <-. destruct fresh as [|p [|]]; [discriminate Ef | | discriminate Ef].
    exists p, q, w'. split_and!; [exact E | exact Er | exact Eq | | ].
    + by apply Forall_inv in F1.
    + by apply Forall_inv in F2.
Defined.

(** The packet 1500 of the ring is gone, an empty buffer of the pool is queued. *)
Example recv_burst_sample :
  match Mux.recv_from_engine_burst (prof := Debug) sample_mux sample_world with
  | Done ((sz, q), w') =>
      (sz, bool_decide (1500 ∈ lq_items q), length (lq_items q), rg_items <$> d_rings (obs w') !! 2)
  | _ => (0, true, 0%nat, None)
  end = (1, false, 1%nat, Some []).
Proof. vm_compute. reflexivity. Qed.

Lemma xmit_to_engine_bulk_spec_witness :
  ∃ q w', Mux.xmit_to_engine_bulk (prof := Debug) sample_mux sample_world = Done ((0, q), w') ∧
    aq_items q = [] ∧ obs w' = obs sample_world.
Proof.
  apply (xmit_to_engine_bulk_spec (prof := Debug) sample_mux sample_world (RteRing 511 []));
    [simpl; lia | reflexivity | simpl; lia].
Defined.

Lemma xmit_spec_witness :
  ∃ r w', Mux.xmit (prof := Debug) (EN := linux_errno) sample_mux [x01; x02] sample_world
      = Done (r, w') ∧
    match r with
    | Ok _ => ∃ p w1, from_bytes_result [x01; x02] 1 sample_world w1 (Ok p) ∧
        obs w' = set_items 1 (RteRing 511 []) [p] (obs w1)
    | Err e => e = NoMem ∧ d_pools (obs w') = d_pools (obs sample_world) ∧
        d_rings (obs w') = d_rings (obs sample_world)
    end.
Proof.
  apply (xmit_spec (prof := Debug) (EN := linux_errno) sample_mux [x01; x02] sample_world
    (RteRing 511 [])); [simpl; lia | reflexivity | simpl; lia].
Defined.

(** The mempool has no name yet. *)
Definition poolless_world : sim := set_obs (set_pool_names ∅ sample_obs) sample_world.

Lemma mux_new_spec_witness :
  ∃ w', Mux.new (Q := list_queue) poolless_world = Done (None, w') ∧
    d_rings (obs w') = delete 2 (delete 1 (d_rings (obs poolless_world))).
Proof.
  refine (mux_new_spec (Q := list_queue) poolless_world sample_channel poolless_world _ _ _ _ _);
    [reflexivity | reflexivity | discriminate | eexists; reflexivity | eexists; reflexivity].
Defined.

(** A buffer waits in [in_buf]. *)
Definition busy_mux : Mux_t list_queue :=
  MkMux sample_channel 1 (ListQueue 512 [1501] eq_refl) (aq_new 512).

Lemma mux_drop_frees_pool_first_witness :
  ∃ w1, Mux.drop busy_mux sample_world
      = (MbufPool.drop_all [1501] ;; MbufPool.drop_all []) w1 ∧
    d_mbufs (obs w1) !! 1501 = None ∧ d_pools (obs w1) !! 1 = None ∧
    d_rings (obs w1) !! 1 = None ∧ d_rings (obs w1) !! 2 = None.
Proof.
  refine (mux_drop_frees_pool_first busy_mux sample_world 1501 (sample_buf 1) _ _ _ _ _ _ _).
  - discriminate.
  - eexists. reflexivity.
  - eexists. reflexivity.
  - eexists. reflexivity.
  - left.
  - reflexivity.
  - reflexivity.
Defined.
