(* ===== verification/MuxMain.v ===== *)
(** * The multiplexer's program ([l3enginemux/src/main.rs])

    The threads of the program as a transition system: the listener, which
    registers a client for each connection; the client threads
    ([handle_client]); and the routing of packets by the main loop.  The
    crossbeam channels are bounded queues with a sending end in the service map
    and a receiving end in the client thread. *)

From stdpp Require Import pretty.
From S2P Require Import Prelude Errors Mbuf Dpdk Sim Mempool FiveTuple.

Definition SOCK_NAME : string := "/tmp/fd-passrd.socket".
Definition CAP : Z := 20.
Definition BURST_SZ : Z := 512.
Definition MEMENPSF : string := "memenpsf".
Definition MTU : Z := 1536.

(** A [bounded(BURST_SZ)] channel: what is in it, whether the receiver still
    exists and whether the sender does.  The messages stay in the channel until
    both ends are gone, and are dropped with it. *)
Record chan := MkChan { ch_queue : list ptr; ch_rx : bool; ch_tx : bool }.

Definition orphans (c : chan) : list ptr := if ch_rx c || ch_tx c then [] else ch_queue c.
Definition release (c : chan) : chan := if ch_rx c || ch_tx c then c else MkChan [] false false.

Definition close_tx (c : chan) : chan := MkChan (ch_queue c) (ch_rx c) false.
Definition close_rx (c : chan) : chan := MkChan (ch_queue c) false (ch_tx c).
Definition take_one (c : chan) : chan := MkChan (tail (ch_queue c)) (ch_rx c) (ch_tx c).

(** The messages of channel [i] that go with it when it loses an end. *)
Definition freed_by (f : chan → chan) (i : nat) (l : list chan) : list ptr :=
  match l !! i with Some c => orphans (f c) | None => [] end.

(** A client thread, blocked in [cons.recv()] or at its end; [cl_got] is what it
    handed to [xmit_to_client]. *)
Record client := MkClient { cl_chan : nat; cl_name : string; cl_done : bool; cl_got : list ptr }.

(** [ms_map] is [service_map], whose only key is "dummy". *)
Record mstate := MkMState {
  ms_chans : list chan; ms_map : option nat; ms_clients : list client }.

Definition set_chans (l : list chan) (s : mstate) : mstate :=
  MkMState l (ms_map s) (ms_clients s).

(** Dropping the sender that [map.insert] replaces. *)
Definition drop_sender (o : option nat) (l : list chan) : list chan :=
  match o with
  | Some i => alter (λ c, release (close_tx c)) i l
  | None => l
  end.

(** One connection: a new channel, its sender inserted under "dummy", a name
    made from the size of the map, and a client thread. *)
Definition accept (s : mstate) : mstate :=
  let id := length (ms_chans s) in
  let map_len := 1%nat in
  MkMState (drop_sender (ms_map s) (ms_chans s) ++ [MkChan [] true true]) (Some id)
    (ms_clients s ++ [MkClient id (MEMENPSF ++ pretty map_len) false []]).

(** The end of [handle_client] drops the receiver. *)
Definition drop_receiver (i : nat) (l : list chan) : list chan :=
  alter (λ c, release (close_rx c)) i l.

(** The client thread of number [j] from [cons.recv()] on: one packet, or the
    end of the channel; [None] when it blocks. *)
Definition handle_client (j : nat) (s : mstate) : option mstate :=
  cl ← ms_clients s !! j;
  if cl_done cl then None else
  c ← ms_chans s !! cl_chan cl;
  match ch_queue c with
  | buf :: _ =>
      Some (MkMState (drop_receiver (cl_chan cl) (alter take_one (cl_chan cl) (ms_chans s)))
        (ms_map s) (<[j := MkClient (cl_chan cl) (cl_name cl) true [buf]]> (ms_clients s)))
  | [] =>
      if ch_tx c then None
      else Some (MkMState (drop_receiver (cl_chan cl) (ms_chans s)) (ms_map s)
             (<[j := MkClient (cl_chan cl) (cl_name cl) true []]> (ms_clients s)))
  end.

(** [map.get("dummy").unwrap()] and [sender.send(pkt).unwrap()]; [Done None] is
    a send that blocks on a full channel. *)
Definition send_to_service (pkt : ptr) (s : mstate) : outcome (option mstate) :=
  match ms_map s with
  | None => Panicked
  | Some i =>
      match ms_chans s !! i with
      | None => Undefined
      | Some c =>
          if ch_rx c then
            if Z.of_nat (length (ch_queue c)) <? BURST_SZ then
              Done (Some (set_chans (<[i := MkChan (ch_queue c ++ [pkt]) true (ch_tx c)]> (ms_chans s)) s))
            else Done None
          else Panicked
      end
  end.

Section route.
Context {EP : Etherparse} {prof : profile} {PN : Pnet} {H : Type} {DP : Dpdk H}.

(** The body of the packet thread: a packet that does not parse is dropped; an
    ARP answer is built and dropped with the result of [handle_arp]. *)
Definition route (local : LocalIPMac) (mp pkt : ptr) (s : mstate) : M (world H) (option mstate) :=
  bytes ← pkt_slice pkt MTU;
  match FiveTuple.parse_pkt bytes local [0] with
  | Err _ => MbufPool.drop pkt ;; mret (Some s)
  | Ok tuple =>
      (if FiveTuple.ethertype tuple =? FiveTuple.ETHERTYPE_ARP then
         r ← FiveTuple.handle_arp tuple local mp;
         match r with Some m => MbufPool.drop m | None => mret tt end
       else mret tt) ;;
      lift (send_to_service pkt s)
  end.
End route.

(** The thread panics in [MemEnpsf::new], when the client passes no
    descriptor; its receiver is dropped. *)
Definition client_panics (j : nat) (s : mstate) : option mstate :=
  cl ← ms_clients s !! j;
  if cl_done cl then None else
  Some (MkMState (drop_receiver (cl_chan cl) (ms_chans s)) (ms_map s)
    (<[j := MkClient (cl_chan cl) (cl_name cl) true []]> (ms_clients s))).

(** The threads interleave.  (In the program the scope that spawns the listener
    also waits for it, so that the main thread would only get to route packets
    after the listener has ended.) *)
Definition start_state : mstate := MkMState [] None [].

Inductive mstep : mstate → mstate → Prop :=
  | m_accept s : mstep s (accept s)
  | m_client j s s' : handle_client j s = Some s' → mstep s s'
  | m_client_panics j s s' : client_panics j s = Some s' → mstep s s'
  | m_route p s s' : send_to_service p s = Done (Some s') → mstep s s'.

(** The packets that reached [xmit_to_client]. *)
Definition delivered (s : mstate) : list ptr := ms_clients s ≫= cl_got.

(** ** Invariant *)

(** Client [j] has channel [j]; a channel has its receiver until the client is
    done and its sender until the next client connects; the map has the sender
    of the last. *)
Record minv (s : mstate) : Prop := {
  mi_len : length (ms_chans s) = length (ms_clients s);
  mi_map : ms_map s = match length (ms_clients s) with O => None | S n => Some n end;
  mi_client : ∀ j cl, ms_clients s !! j = Some cl →
    cl_chan cl = j ∧ cl_name cl = "memenpsf1" ∧ (length (cl_got cl) ≤ 1)%nat ∧
    (cl_done cl = false → cl_got cl = []);
  mi_chan : ∀ j cl c, ms_clients s !! j = Some cl → ms_chans s !! j = Some c →
    ch_rx c = negb (cl_done cl) ∧ ch_tx c = bool_decide (S j = length (ms_clients s)) ∧
    Z.of_nat (length (ch_queue c)) ≤ BURST_SZ
}.

(** ** Lemmas *)

Lemma release_ends c :
  ch_rx (release c) = ch_rx c ∧ ch_tx (release c) = ch_tx c ∧
  (length (ch_queue (release c)) ≤ length (ch_queue c))%nat.
Proof. destruct c as [q [] []]; simpl; split_and!; try done; lia. Qed.

(** The channels stay, except the one that lost an end. *)
Lemma drop_receiver_take i l :
  drop_receiver i (alter take_one i l) = alter (λ c, release (close_rx (take_one c))) i l.
Proof. revert i. induction l as [|c l IH]; intros [|i]; try done. simpl. f_equal. apply IH. Qed.

Lemma minv_accept s : minv s → minv (accept s).
Proof.
  intros [L E C K]. unfold accept. split; simpl.
  - rewrite !length_app. simpl. f_equal. destruct (ms_map s); simpl; [by rewrite length_alter | done].
  - rewrite length_app, L. simpl. by rewrite Nat.add_1_r.
  - intros j cl Hj. apply lookup_app_Some in Hj as [Hj | [Hj Hk]]; [by apply C |].
    apply list_lookup_singleton_Some in Hk as [Hk <-]. simpl. split_and!; try done; lia.
  - intros j cl c Hj Hc. rewrite length_app. simpl.
    assert (Ld : length (drop_sender (ms_map s) (ms_chans s)) = length (ms_clients s)).
    { destruct (ms_map s); simpl; [by rewrite length_alter | done]. }
    apply lookup_app_Some in Hj as [Hj | [Hj Hk]].
    + pose proof (lookup_lt_Some _ _ _ Hj) as Hlt. rewrite lookup_app_l in Hc by lia.
      rewrite bool_decide_eq_false_2 by lia. rewrite E in Hc.
      destruct (length (ms_clients s)) as [|n] eqn:En; [lia |]. simpl in Hc.
      destruct (decide (n = j)) as [-> | Hne].
      * rewrite list_lookup_alter_eq in Hc. destruct (ms_chans s !! j) as [c'|] eqn:Ec; [| done].
        simplify_eq/=. destruct (K _ _ _ Hj Ec) as (E1 & _ & E3).
        destruct (release_ends (close_tx c')) as (-> & -> & Hl). simpl in *. split_and!; [done | done | lia].
      * rewrite list_lookup_alter_ne in Hc by done. destruct (K _ _ _ Hj Hc) as (? & E2 & ?).
        split_and!; try done. rewrite E2. apply bool_decide_eq_false_2. lia.
    + apply list_lookup_singleton_Some in Hk as [Hk <-].
      rewrite lookup_app_r in Hc by lia. rewrite Ld in Hc.
      replace (j - length (ms_clients s))%nat with 0%nat in Hc by lia. simplify_eq/=.
      split_and!; try done. rewrite bool_decide_eq_true_2 by lia. done.
Qed.

(** A client that ends, with or without a packet. *)
Lemma minv_client_end f j cl got s :
  minv s → ms_clients s !! j = Some cl → (length got ≤ 1)%nat →
  (∀ c, ch_tx (f c) = ch_tx c ∧ (length (ch_queue (f c)) ≤ length (ch_queue c))%nat) →
  minv (MkMState (alter (λ c, release (close_rx (f c))) (cl_chan cl) (ms_chans s)) (ms_map s)
    (<[j := MkClient (cl_chan cl) (cl_name cl) true got]> (ms_clients s))).
Proof.
  intros [L E C K] Hj Hg Hf. destruct (C j cl Hj) as (-> & Hn & _ & _).
  assert (Hlt : (j < length (ms_clients s))%nat) by (by eapply lookup_lt_Some).
  split; simpl.
  - by rewrite length_alter, length_insert.
  - by rewrite length_insert.
  - intros i cl' Hi. apply list_lookup_insert_Some in Hi as [(<- & <- & _) | [_ Hi]]; [done |].
    by apply C.
  - intros i cl' c Hi Hc. rewrite length_insert.
    apply list_lookup_insert_Some in Hi as [(<- & <- & _) | [Hne Hi]].
    + rewrite list_lookup_alter_eq in Hc. destruct (ms_chans s !! j) as [c'|] eqn:Ec; [| done].
      simplify_eq/=. destruct (K _ _ _ Hj Ec) as (_ & E2 & E3). destruct (Hf c') as [F1 F2].
      destruct (release_ends (close_rx (f c'))) as (-> & -> & Hl). simpl in *.
      rewrite F1. split_and!; [done | done | lia].
    + rewrite list_lookup_alter_ne in Hc by done. by apply (K _ _ _ Hi).
Qed.

(** The channel of the service map. *)
Lemma minv_last s n :
  minv s → length (ms_clients s) = S n →
  ∃ cl c, ms_clients s !! n = Some cl ∧ ms_chans s !! n = Some c ∧ ms_map s = Some n ∧
    ch_rx c = negb (cl_done cl) ∧ Z.of_nat (length (ch_queue c)) ≤ BURST_SZ.
Proof.
  intros [L E C K] Hn. rewrite Hn in E.
  destruct (lookup_lt_is_Some_2 (ms_clients s) n) as [cl Hcl]; [lia |].
  destruct (lookup_lt_is_Some_2 (ms_chans s) n) as [c Hc]; [lia |].
  destruct (K n cl c Hcl Hc) as (? & _ & ?). by exists cl, c.
Qed.

Lemma minv_route p s s' : minv s → send_to_service p s = Done (Some s') → minv s'.
Proof.
  intros I. pose proof I as [L E C K]. unfold send_to_service.
  destruct (ms_map s) as [i|] eqn:Em; [| done].
  destruct (ms_chans s !! i) as [c|] eqn:Ec; [| done]. destruct (ch_rx c) eqn:Er; [| done].
  destruct (Z.ltb_spec (Z.of_nat (length (ch_queue c))) BURST_SZ); intros [= <-].
  split; simpl; [by rewrite length_insert | by rewrite Em | done |].
  intros j cl c' Hj Hc. apply list_lookup_insert_Some in Hc as [(<- & <- & _) | [_ Hc]].
  - destruct (K _ _ _ Hj Ec) as (E1 & E2 & _). simpl. rewrite <- E1, Er. split_and!; [done | done | len].
  - by apply (K _ _ _ Hj).
Qed.

Lemma minv_mstep u v : minv u → mstep u v → minv v.
Proof.
  intros I Huv. destruct Huv as [u | j u v E | j u v E | p u v E].
  - by apply minv_accept.
  - unfold handle_client in E. destruct (ms_clients u !! j) as [cl|] eqn:Hj; simpl in E; [| done].
    destruct (cl_done cl); [done |].
    destruct (ms_chans u !! cl_chan cl) as [c|]; simpl in E; [| done].
    destruct (ch_queue c) as [|b q]; [destruct (ch_tx c); [done |] |]; simplify_eq.
    + by apply (minv_client_end (λ c, c)); simpl; auto.
    + rewrite drop_receiver_take. apply minv_client_end; simpl; auto.
      intros [[|] ? ?]; simpl; split; try done; lia.
  - unfold client_panics in E. destruct (ms_clients u !! j) as [cl|] eqn:Hj; simpl in E; [| done].
    destruct (cl_done cl); [done |]. simplify_eq. by apply (minv_client_end (λ c, c)); simpl; auto.
  - by eapply minv_route.
Qed.

Lemma reachable_minv s : star mstep start_state s → minv s.
Proof. apply star_invariant; [by split | apply minv_mstep]. Qed.

(** ** Properties *)

(** Each connected client receives at most one packet, whatever the order
    in which the threads run: [handle_client] returns after the first.  All the
    clients' interfaces have the same name, because the map of services never
    has more than one entry. *)
Lemma one_packet_per_client s :
  star mstep start_state s →
  (length (delivered s) ≤ length (ms_clients s))%nat ∧
  Forall (λ cl, cl_name cl = "memenpsf1") (ms_clients s).
Proof.
  intros R. destruct (reachable_minv s R) as [_ _ C _]. split.
  - unfold delivered. assert (F : Forall (λ cl, (length (cl_got cl) ≤ 1)%nat) (ms_clients s)).
    { apply Forall_lookup. intros j cl Hj. by destruct (C j cl Hj) as (_ & _ & ? & _). }
    clear -F. induction F as [|cl l Hc _ IH]; [done |].
    rewrite bind_cons, length_app. simpl. lia.
  - apply Forall_lookup. intros j cl Hj. by destruct (C j cl Hj) as (_ & ? & _ & _).
Qed.

(** C34: routing a packet panics, and with it the main thread, exactly when no
    client has connected yet or the client that connected last has finished,
    which it does after its first packet; the older clients, even when they
    still wait, are no longer reached.  Otherwise the packet is queued, or the
    send blocks while 512 packets wait. *)
Theorem route_panics_iff p s :
  star mstep start_state s →
  (send_to_service p s = Panicked ↔
   match last (ms_clients s) with None => True | Some cl => cl_done cl = true end) ∧
  send_to_service p s ≠ Undefined.
Proof.
  intros R. pose proof (reachable_minv s R) as I. rewrite last_lookup.
  destruct (length (ms_clients s)) as [|n] eqn:Hn.
  - pose proof I as [_ E _ _]. rewrite Hn in E. unfold send_to_service. rewrite E.
    apply length_zero_iff_nil in Hn. by rewrite Hn.
  - destruct (minv_last s n I Hn) as (cl & c & Hcl & Hc & Hm & Hr & Hb). simpl. rewrite Hcl.
    unfold send_to_service. rewrite Hm, Hc, Hr. destruct (cl_done cl); simpl; [done |].
    by destruct (_ <? BURST_SZ).
Qed.

(** ** Witnesses *)

(** Two clients; the second has received a packet, the first still waits. *)
Definition sample_mstate : mstate :=
  match send_to_service 1500 (accept (accept start_state)) with
  | Done (Some s) => default s (handle_client 1 s)
  | _ => start_state
  end.

Lemma sample_mreachable : star mstep start_state sample_mstate.
Proof.
  eapply star_step; [apply m_accept |]. eapply star_step; [apply m_accept |].
  eapply star_step; [apply (m_route 1500); reflexivity |].
  apply star_one, (m_client 1). reflexivity.
Qed.

Lemma one_packet_per_client_witness :
  (length (delivered sample_mstate) ≤ length (ms_clients sample_mstate))%nat.
Proof. apply (one_packet_per_client sample_mstate). exact sample_mreachable. Defined.

Lemma route_panics_iff_witness : send_to_service 1501 sample_mstate = Panicked.
Proof. apply (route_panics_iff 1501 sample_mstate sample_mreachable). reflexivity. Defined.
