(* ===== verification/MuxProgram.v ===== *)
(** * The multiplexer's program as a whole ([l3enginemux/src/main.rs])

    [main], its listener thread and the client threads as one transition
    system over the state of the process: DPDK, the kernel, the channels and
    threads of [MuxMain.v], the interfaces of the clients and the [Mux].  A
    step of a thread is one of its blocking operations with the code up to the
    next one. *)

From S2P Require Import Prelude Errors Mbuf Dpdk Sim Mempool Memring Engine RingBuf FdPass MemEnpsf.
From S2P Require Import FiveTuple Mux MuxMain.

(** The calls of [std::fs] and [std::os::unix::net] that set up the socket:
    [remove_file], [UnixListener::bind] and [incoming().next()]; an [Ok] of the
    last is the new stream, and with [None] the loop over the iterator ends. *)
Class ListenerCalls (K : Type) := {
  sys_remove_file : string → K → K;
  sys_bind : string → K → result unit Z * K;
  incoming_next : K → option (result Z Z) * K
}.

(** [UnixListener::incoming]: "The returned iterator will never return [None]". *)
Class ListenerLaws (K : Type) `{ListenerCalls K} : Prop := {
  incoming_never_ends k : (incoming_next k).1 ≠ None
}.

(** [ctrlc::set_handler] registers a handler and leaves DPDK alone. *)
Class CtrlCLaws (H : Type) `{CtrlC H} : Prop := {
  set_handler_obs w : obs (set_handler w).2 = obs w
}.

(** The address and the hardware address of [main]. *)
Definition main_local : LocalIPMac :=
  MkLocal (MkIpv4 x0a x0a x01 x01) (MkMac x90 xe2 xba xb2 x98 x48).

(** The listener thread: before [UnixListener::bind], at the head of the loop
    over [incoming()], behind the loop, or panicked. *)
Inductive listener_pc := LBind | LAccept | LEnded | LPanicked.

(** The main thread: in [thread::scope], before [Mux::new], before
    [mux::start], before [handle_signal], at the head of the outer and of the
    inner [while] loop, in the [for] loop with [n] turns left, returned or
    panicked. *)
Inductive main_pc (Q : Type) :=
  | MScope | MNew | MStart (mux : Mux_t Q) | MSignal (mux : Mux_t Q) | MOuter (mux : Mux_t Q)
  | MPoll (mux : Mux_t Q) | MDrain (mux : Mux_t Q) (n : nat) | MEnded | MPanicked.
Arguments MScope {Q}.
Arguments MNew {Q}.
Arguments MStart {Q}.
Arguments MSignal {Q}.
Arguments MOuter {Q}.
Arguments MPoll {Q}.
Arguments MDrain {Q}.
Arguments MEnded {Q}.
Arguments MPanicked {Q}.

(** [g_streams] has the stream of each client, [g_devs] the interface of those
    that have got past [MemEnpsf::new] with the memory it maps; [g_run] is
    [keep_running]. *)
Record prog (H K Q : Type) := Prog {
  g_world : world H;
  g_kernel : K;
  g_threads : mstate;
  g_streams : list Z;
  g_devs : gmap nat (MemEnpsf_t * shm frame);
  g_listener : listener_pc;
  g_main : main_pc Q;
  g_run : bool
}.
Arguments Prog {H K Q}.
Arguments g_world {H K Q}.
Arguments g_kernel {H K Q}.
Arguments g_threads {H K Q}.
Arguments g_streams {H K Q}.
Arguments g_devs {H K Q}.
Arguments g_listener {H K Q}.
Arguments g_main {H K Q}.
Arguments g_run {H K Q}.

Section setters.
Context {H K Q : Type}.
Implicit Types s : prog H K Q.
Definition set_world (w : world H) s : prog H K Q :=
  Prog w (g_kernel s) (g_threads s) (g_streams s) (g_devs s) (g_listener s) (g_main s) (g_run s).
Definition set_kernel (k : K) s : prog H K Q :=
  Prog (g_world s) k (g_threads s) (g_streams s) (g_devs s) (g_listener s) (g_main s) (g_run s).
Definition set_threads (t : mstate) s : prog H K Q :=
  Prog (g_world s) (g_kernel s) t (g_streams s) (g_devs s) (g_listener s) (g_main s) (g_run s).
Definition set_streams (l : list Z) s : prog H K Q :=
  Prog (g_world s) (g_kernel s) (g_threads s) l (g_devs s) (g_listener s) (g_main s) (g_run s).
Definition set_dev (j : nat) (d : MemEnpsf_t * shm frame) s : prog H K Q :=
  Prog (g_world s) (g_kernel s) (g_threads s) (g_streams s) (<[j := d]> (g_devs s)) (g_listener s)
    (g_main s) (g_run s).
Definition set_listener (l : listener_pc) s : prog H K Q :=
  Prog (g_world s) (g_kernel s) (g_threads s) (g_streams s) (g_devs s) l (g_main s) (g_run s).
Definition set_main (m : main_pc Q) s : prog H K Q :=
  Prog (g_world s) (g_kernel s) (g_threads s) (g_streams s) (g_devs s) (g_listener s) m (g_run s).
Definition stop_running s : prog H K Q :=
  Prog (g_world s) (g_kernel s) (g_threads s) (g_streams s) (g_devs s) (g_listener s) (g_main s)
    false.
End setters.

Definition set_in_buf {Q} (q : Q) (mux : Mux_t Q) : Mux_t Q :=
  MkMux (channel mux) (mempool mux) q (out_buf mux).

Module Program.
Section program.
Context {prof : profile} {EN : Errno} {EP : Etherparse} {PN : Pnet}.
Context {H K Q : Type} {DP : Dpdk H} {CC : CtrlC H} {AQ : ArrayQueue Q}.
Context {SC : SocketCalls K} {HC : ShmCalls K} {LC : ListenerCalls K}.
Implicit Types s : prog H K Q.

(** ** A client *)

(** The [Ok(buf)] arm of [handle_client]: [buf.into_ptr()] gives the buffer up
    without a [Drop], and the result of [xmit_to_client] is only logged. *)
Definition serve (dev : MemEnpsf_t * shm frame) (buf : ptr) : M (world H) (MemEnpsf_t * shm frame) :=
  pkt ← pkt_slice buf MuxMain.MTU;
  out ← lift (MemEnpsf.xmit_to_client pkt dev);
  mret out.2.

(** [handle_client], given the memory that is mapped and what [cons.recv()]
    returns; the result is the interface at the end. *)
Definition handle_client (name : string) (stream : Z) (mem : shm frame) (received : option ptr)
    : M (K * world H) (MemEnpsf_t * shm frame) := λ kw,
  match MemEnpsf.new name CAP stream kw.1 with
  | Done (dev, k) =>
      match received with
      | Some buf => '(d, w) ← serve (dev, mem) buf kw.2; Done (d, (k, w))
      | None => Done ((dev, mem), (k, kw.2))
      end
  | Panicked => Panicked
  | Undefined => Undefined
  end.

(** ** Steps of the threads *)

(** [Done None]: the thread cannot move. *)
Definition blocked : outcome (option (prog H K Q)) := Done None.
Definition continue_ s : outcome (option (prog H K Q)) := Done (Some s).

(** The listener: [bind(..).unwrap()], then one turn of the loop over
    [incoming()]; the sender that the new one replaces in the map is dropped. *)
Definition listener_step s : outcome (option (prog H K Q)) :=
  match g_listener s with
  | LBind =>
      let '(r, k) := sys_bind SOCK_NAME (g_kernel s) in
      continue_ (set_kernel k (set_listener (match r with Ok _ => LAccept | Err _ => LPanicked end) s))
  | LAccept =>
      let '(r, k) := incoming_next (g_kernel s) in
      match r with
      | None => continue_ (set_kernel k (set_listener LEnded s))
      | Some (Err _) => continue_ (set_kernel k s)
      | Some (Ok stream) =>
          let t := g_threads s in
          let freed := match ms_map t with
            | Some i => freed_by close_tx i (ms_chans t) | None => [] end in
          '(_, w) ← MbufPool.drop_all freed (g_world s);
          continue_ (set_world w (set_kernel k (set_threads (accept t)
            (set_streams (g_streams s ++ [stream]) s))))
      end
  | LEnded | LPanicked => blocked
  end.

(** Client [j] runs [MemEnpsf::new], which maps [mem]; a panic ends the thread
    and drops its receiver. *)
Definition client_open (j : nat) (mem : shm frame) s : outcome (option (prog H K Q)) :=
  match ms_clients (g_threads s) !! j, g_streams s !! j, g_devs s !! j with
  | Some cl, Some stream, None =>
      if cl_done cl then blocked else
      match MemEnpsf.new (cl_name cl) CAP stream (g_kernel s) with
      | Done (dev, k) => continue_ (set_kernel k (set_dev j (dev, mem) s))
      | Panicked =>
          match client_panics j (g_threads s) with
          | Some t =>
              '(_, w) ← MbufPool.drop_all (freed_by close_rx (cl_chan cl) (ms_chans (g_threads s)))
                          (g_world s);
              continue_ (set_world w (set_threads t s))
          | None => blocked
          end
      | Undefined => Undefined
      end
  | _, _, _ => blocked
  end.

(** Client [j] returns from [cons.recv()] and from [handle_client]. *)
Definition client_recv (j : nat) s : outcome (option (prog H K Q)) :=
  match ms_clients (g_threads s) !! j, g_devs s !! j, MuxMain.handle_client j (g_threads s) with
  | Some cl, Some dev, Some t =>
      match ms_chans (g_threads s) !! cl_chan cl with
      | None => blocked
      | Some c =>
          '(dev, w) ← (match ch_queue c with
                       | buf :: _ => serve dev buf (g_world s)
                       | [] => Done (dev, g_world s)
                       end);
          '(_, w) ← MbufPool.drop_all (orphans (close_rx (take_one c))) w;
          continue_ (set_world w (set_threads t (set_dev j dev s)))
      end
  | _, _, _ => blocked
  end.

(** [main]: the scope waits for the listener, and panics with it; then come
    [Mux::new().unwrap()], [mux::start()], [handle_signal] and the loops. *)
Definition main_step s : outcome (option (prog H K Q)) :=
  match g_main s with
  | MScope =>
      match g_listener s with
      | LPanicked => continue_ (set_main MPanicked s)
      | LEnded => continue_ (set_main MNew s)
      | LBind | LAccept => blocked
      end
  | MNew =>
      '(r, w) ← Mux.new (g_world s);
      continue_ (set_world w
        (set_main (match r with Some mux => MStart mux | None => MPanicked end) s))
  | MStart mux =>
      match Mux.start (g_world s) with
      | Done (_, w) => continue_ (set_world w (set_main (MSignal mux) s))
      | Panicked => continue_ (set_main MPanicked s)
      | Undefined => Undefined
      end
  | MSignal mux =>
      let '(ok, w) := set_handler (g_world s) in
      continue_ (set_world w (set_main (if ok then MOuter mux else MPanicked) s))
  | MOuter mux =>
      if g_run s then continue_ (set_main (MPoll mux) s)
      else '(_, w) ← Mux.drop mux (g_world s); continue_ (set_world w (set_main MEnded s))
  | MPoll mux =>
      if aq_is_empty (in_buf mux) then
        '((_, q), w) ← Mux.recv_from_engine_burst mux (g_world s);
        continue_ (set_world w (set_main (MPoll (set_in_buf q mux)) s))
      else continue_ (set_main (MDrain mux (Z.to_nat (aq_len (in_buf mux)))) s)
  | MDrain mux O => continue_ (set_main (MOuter mux) s)
  | MDrain mux (S n) =>
      match aq_pop (in_buf mux) with
      | (None, q) => continue_ (set_main (MOuter (set_in_buf q mux)) s)
      | (Some pkt, q) =>
          match route main_local (mempool mux) pkt (g_threads s) (g_world s) with
          | Done (Some t, w) =>
              continue_ (set_world w (set_threads t (set_main (MDrain (set_in_buf q mux) n) s)))
          | Done (None, _) => blocked
          | Panicked => continue_ (set_main MPanicked s)
          | Undefined => Undefined
          end
      end
  | MEnded | MPanicked => blocked
  end.

(** The process ends with its main thread. *)
Definition alive s : bool :=
  match g_main s with MEnded | MPanicked => false | _ => true end.

(** Ctrl+C is handled once [handle_signal] has run; before, it ends the process. *)
Definition handler_set s : bool :=
  match g_main s with MOuter _ | MPoll _ | MDrain _ _ => true | _ => false end.

(** [mmap] maps whole pages of the file. *)
Inductive step : prog H K Q → prog H K Q → Prop :=
  | s_listener s s' : alive s → listener_step s = Done (Some s') → step s s'
  | s_open j mem s s' : alive s → shm_size mem = round_up CAP 4096 →
      client_open j mem s = Done (Some s') → step s s'
  | s_recv j s s' : alive s → client_recv j s = Done (Some s') → step s s'
  | s_main s s' : alive s → main_step s = Done (Some s') → step s s'
  | s_signal s : handler_set s → step s (stop_running s).

(** The state in which [main] enters the scope. *)
Definition start (w : world H) (k : K) : prog H K Q :=
  Prog w (sys_remove_file SOCK_NAME k) start_state [] ∅ LBind MScope true.
End program.
End Program.

(** ** Lemmas *)

Section threads.
Context {prof : profile} {EN : Errno} {EP : Etherparse} {PN : Pnet}.
Context {H K Q : Type} {DP : Dpdk H} {CC : CtrlC H} {AQ : ArrayQueue Q}.
Context {SC : SocketCalls K} {HC : ShmCalls K} {LC : ListenerCalls K}.
Implicit Types s : prog H K Q.

(** A process that has ended does not move. *)
Lemma step_alive s s' : Program.step s s' → Program.alive s = true.
Proof.
  destruct 1 as [? ? A | ? ? ? ? A | ? ? ? A | ? ? A | u A]; try by apply Is_true_eq_true.
  unfold Program.handler_set in A. unfold Program.alive. by destruct (g_main u).
Qed.

(** Routing sends at most the packet it was given. *)
Lemma route_threads local mp pkt t (w : world H) t' w' :
  route local mp pkt t w = Done (Some t', w') →
  t' = t ∨ send_to_service pkt t = Done (Some t').
Proof.
  unfold route. intros (bytes & w1 & _ & E)%bind_inv.
  destruct (FiveTuple.parse_pkt bytes local [0]).
  - apply bind_inv in E as ([] & w2 & _ & E). unfold lift in E.
    destruct (send_to_service pkt t); simplify_eq. by right.
  - apply bind_inv in E as ([] & w2 & _ & E). injection E as <- <-. by left.
Qed.

(** The steps of the three kinds of threads, as seen by the threads' state. *)
Lemma listener_step_threads s s' :
  Program.listener_step s = Done (Some s') →
  g_main s' = g_main s ∧ g_devs s' = g_devs s ∧
  (g_threads s' = g_threads s ∨ g_threads s' = accept (g_threads s)).
Proof.
  unfold Program.listener_step. destruct (g_listener s); [| | done | done].
  - destruct (sys_bind _ _) as [[]]; intros [= <-]; simpl; auto.
  - destruct (incoming_next _) as [[[st|]|] k]; [| intros [= <-]; simpl; auto ..].
    intros ([[] w] & _ & E)%outcome_bind_inv. injection E as <-. simpl. auto.
Qed.

Lemma client_open_threads j mem s s' :
  Program.client_open j mem s = Done (Some s') →
  g_main s' = g_main s ∧
  ((g_threads s' = g_threads s ∧ ∃ nm st dev k, MemEnpsf.new nm CAP st (g_kernel s) = Done (dev, k) ∧
      g_devs s' = <[j := (dev, mem)]> (g_devs s)) ∨
   (g_devs s' = g_devs s ∧ client_panics j (g_threads s) = Some (g_threads s'))).
Proof.
  unfold Program.client_open. destruct (ms_clients (g_threads s) !! j) as [cl|]; [| done].
  destruct (g_streams s !! j) as [st|]; [| done]. destruct (g_devs s !! j); [done |].
  destruct (cl_done cl); [done |].
  destruct (MemEnpsf.new _ _ _ _) as [[dev k]| |] eqn:En; [intros [= <-] | | done].
  - simpl. split; [done |]. left. eauto 8.
  - destruct (client_panics j (g_threads s)) as [t|]; [| done].
    intros ([[] w] & _ & E)%outcome_bind_inv. injection E as <-. simpl. auto.
Qed.

Lemma client_recv_threads j s s' :
  Program.client_recv j s = Done (Some s') →
  g_main s' = g_main s ∧ MuxMain.handle_client j (g_threads s) = Some (g_threads s') ∧
  ∃ cl c dev dev', ms_clients (g_threads s) !! j = Some cl ∧
    ms_chans (g_threads s) !! cl_chan cl = Some c ∧ g_devs s !! j = Some dev ∧
    g_devs s' = <[j := dev']> (g_devs s) ∧ (ch_queue c = [] → dev' = dev).
Proof.
  unfold Program.client_recv. destruct (ms_clients (g_threads s) !! j) as [cl|]; [| done].
  destruct (g_devs s !! j) as [dev|]; [| done].
  destruct (MuxMain.handle_client j (g_threads s)) as [t|]; [| done].
  destruct (ms_chans (g_threads s) !! cl_chan cl) as [c|] eqn:Ec; [| done].
  intros ([dev' w] & E1 & E2)%outcome_bind_inv.
  apply outcome_bind_inv in E2 as ([[] w2] & _ & E2). injection E2 as <-. simpl.
  split; [done |]. split; [done |]. exists cl, c, dev, dev'. split_and!; try done.
  intros Hq. rewrite Hq in E1. congruence.
Qed.

Lemma main_step_threads s s' :
  Program.main_step s = Done (Some s') →
  g_devs s' = g_devs s ∧
  (g_threads s' = g_threads s ∨
   ∃ pkt, send_to_service pkt (g_threads s) = Done (Some (g_threads s'))).
Proof.
  unfold Program.main_step. destruct (g_main s) as [| | mux | mux | mux | mux | mux [|n] | |]; try done.
  - destruct (g_listener s); try done; intros [= <-]; simpl; auto.
  - intros ([r w] & _ & E)%outcome_bind_inv. injection E as <-. simpl. auto.
  - destruct (Mux.start _) as [[]| |]; intros [= <-]; simpl; auto.
  - destruct (set_handler _) as [ok w]. intros [= <-]. simpl. auto.
  - destruct (g_run s); [intros [= <-]; simpl; auto |].
    intros ([[] w] & _ & E)%outcome_bind_inv. injection E as <-. simpl. auto.
  - destruct (aq_is_empty _); [| intros [= <-]; simpl; auto].
    intros ([[sz q] w] & _ & E)%outcome_bind_inv. injection E as <-. simpl. auto.
  - intros [= <-]. simpl. auto.
  - destruct (aq_pop _) as [[pkt|] q]; [| intros [= <-]; simpl; auto].
    destruct (route _ _ _ _ _) as [[[t|] w]| |] eqn:Er; intros [= <-]; simpl; [| auto].
    split; [done |]. destruct (route_threads _ _ _ _ _ _ _ Er) as [-> |]; eauto.
Qed.

(** The other threads do not move the listener. *)
Lemma client_open_listener j mem s s' :
  Program.client_open j mem s = Done (Some s') → g_listener s' = g_listener s.
Proof.
  unfold Program.client_open. destruct (ms_clients _ !! j) as [cl|]; [| done].
  destruct (g_streams s !! j); [| done]. destruct (g_devs s !! j); [done |]. destruct (cl_done cl); [done |].
  destruct (MemEnpsf.new _ _ _ _) as [[dev k]| |]; [by intros [= <-] | | done].
  destruct (client_panics _ _); [| done]. intros ([[] w] & _ & E)%outcome_bind_inv. by injection E as <-.
Qed.

Lemma client_recv_listener j s s' :
  Program.client_recv j s = Done (Some s') → g_listener s' = g_listener s.
Proof.
  unfold Program.client_recv. destruct (ms_clients _ !! j) as [cl|]; [| done].
  destruct (g_devs s !! j); [| done]. destruct (MuxMain.handle_client _ _); [| done].
  destruct (ms_chans _ !! _); [| done]. intros ([d w] & _ & E)%outcome_bind_inv.
  apply outcome_bind_inv in E as ([[] w2] & _ & E). by injection E as <-.
Qed.

Lemma main_step_listener s s' :
  Program.main_step s = Done (Some s') → g_listener s' = g_listener s.
Proof.
  unfold Program.main_step. destruct (g_main s) as [| | mux | mux | mux | mux | mux [|n] | |]; try done.
  - destruct (g_listener s) eqn:E; try done; by intros [= <-].
  - intros ([r w] & _ & E)%outcome_bind_inv. by injection E as <-.
  - destruct (Mux.start _) as [[]| |]; by intros [= <-].
  - destruct (set_handler _). by intros [= <-].
  - destruct (g_run s); [by intros [= <-] |]. intros ([[] w] & _ & E)%outcome_bind_inv. by injection E as <-.
  - destruct (aq_is_empty _); [| by intros [= <-]].
    intros ([[sz q] w] & _ & E)%outcome_bind_inv. by injection E as <-.
  - by intros [= <-].
  - destruct (aq_pop _) as [[pkt|] q]; [| by intros [= <-]].
    destruct (route _ _ _ _ _) as [[[t|] w]| |]; by intros [= <-].
Qed.

(** The program only moves its threads as [MuxMain.mstep] does. *)
Lemma step_mstep s s' : Program.step s s' → star mstep (g_threads s) (g_threads s').
Proof.
  intros [? ? _ E | j mem ? ? _ _ E | j ? ? _ E | ? ? _ E | ? _]; [| | | | by constructor].
  - destruct (listener_step_threads _ _ E) as (_ & _ & [-> | ->]); [constructor |].
    apply star_one, m_accept.
  - destruct (client_open_threads _ _ _ _ E) as (_ & [[-> _] | [_ E']]); [constructor |].
    by eapply star_one, m_client_panics.
  - destruct (client_recv_threads _ _ _ E) as (_ & E' & _). by eapply star_one, m_client.
  - destruct (main_step_threads _ _ E) as (_ & [-> | [pkt E']]); [constructor |].
    by eapply star_one, m_route.
Qed.

Lemma program_threads (w : world H) k s :
  star Program.step (Program.start w k) s → star mstep start_state (g_threads s).
Proof.
  intros R. apply (star_invariant Program.step (λ s, star mstep start_state (g_threads s))
    (Program.start w k) s); [constructor | | done].
  intros u v I Huv. eapply star_trans; [exact I | by apply step_mstep].
Qed.
End threads.

(** No packet has been queued for a client, none has been handed to an
    interface and no interface has sent anything. *)
Record quiet {H K Q} (s : prog H K Q) : Prop := {
  q_chans : Forall (λ c, ch_queue c = []) (ms_chans (g_threads s));
  q_clients : Forall (λ cl, cl_got cl = []) (ms_clients (g_threads s));
  q_devs : map_Forall (λ _ d, writes d.1 = []) (g_devs s)
}.

Section scope.
Context {prof : profile} {EN : Errno} {EP : Etherparse} {PN : Pnet}.
Context {H K Q : Type} {DP : Dpdk H} {CC : CtrlC H} {AQ : ArrayQueue Q}.
Context {SC : SocketCalls K} {HC : ShmCalls K} {LC : ListenerCalls K}.
Implicit Types s : prog H K Q.

Lemma memenpsf_new_writes nm cap st (k : K) dev k' :
  MemEnpsf.new nm cap st k = Done (dev, k') → writes dev = [].
Proof.
  unfold MemEnpsf.new. intros (r & k1 & _ & E)%bind_inv. apply bind_inv in E as (fd & k2 & _ & E).
  rewrite !bind_modify in E. apply bind_inv in E as (off & k3 & _ & E). by injection E as <- <-.
Qed.

Lemma quiet_delivered s : quiet s → delivered (g_threads s) = [].
Proof.
  intros [_ F _]. unfold delivered. induction F as [|cl l E _ IH]; [done |].
  rewrite bind_cons, E. exact IH.
Qed.

Lemma release_empty c : ch_queue c = [] → ch_queue (release c) = [].
Proof. intros E. unfold release. by destruct (_ || _). Qed.

Lemma quiet_chans_alter f i l :
  (∀ c, ch_queue c = [] → ch_queue (f c) = []) →
  Forall (λ c, ch_queue c = []) l → Forall (λ c, ch_queue c = []) (alter f i l).
Proof.
  intros Hf Hl. apply Forall_lookup. intros k c Hk. destruct (decide (i = k)) as [-> |].
  - rewrite list_lookup_alter_eq in Hk. apply fmap_Some in Hk as (c' & Hc & ->).
    apply Hf. by eapply (Forall_lookup_1 (λ c, ch_queue c = [])).
  - rewrite list_lookup_alter_ne in Hk by done. by eapply (Forall_lookup_1 (λ c, ch_queue c = [])).
Qed.

Lemma quiet_freed f i l :
  (∀ c, ch_queue c = [] → ch_queue (f c) = []) → Forall (λ c, ch_queue c = []) l →
  freed_by f i l = [].
Proof.
  intros Hf Hl. unfold freed_by. destruct (l !! i) as [c|] eqn:Ei; [| done]. unfold orphans.
  destruct (_ || _); [done |]. apply Hf. by eapply (Forall_lookup_1 (λ c, ch_queue c = [])).
Qed.

(** A client that ends without a packet. *)
Lemma quiet_client_end j cl t :
  Forall (λ c, ch_queue c = []) (ms_chans t) → Forall (λ cl, cl_got cl = []) (ms_clients t) →
  let t' := MkMState (drop_receiver (cl_chan cl) (ms_chans t)) (ms_map t)
    (<[j := MkClient (cl_chan cl) (cl_name cl) true []]> (ms_clients t)) in
  Forall (λ c, ch_queue c = []) (ms_chans t') ∧ Forall (λ cl, cl_got cl = []) (ms_clients t').
Proof.
  intros Hc Hl. simpl. split; [| by apply Forall_insert].
  apply quiet_chans_alter; [| done]. intros c Ec. by apply release_empty.
Qed.

Lemma quiet_listener s s' :
  quiet s → Program.listener_step s = Done (Some s') → quiet s' ∧ g_world s' = g_world s.
Proof.
  intros [Hc Hl Hd] E. destruct (listener_step_threads _ _ E) as (_ & Ed & Et). split.
  - destruct Et as [Et | Et]; split; rewrite ?Et, ?Ed; try done; simpl.
    + apply Forall_app. split; [| by repeat constructor]. destruct (ms_map _); simpl; [| done].
      apply quiet_chans_alter; [| done]. intros c Ec. by apply release_empty.
    + apply Forall_app. split; [done | by repeat constructor].
  - unfold Program.listener_step in E. destruct (g_listener s); [| | done | done].
    + destruct (sys_bind _ _) as [r k]. by injection E as <-.
    + destruct (incoming_next _) as [[[st|]|] k]; [| by injection E as <- ..].
      assert (Hn : match ms_map (g_threads s) with
        | Some i => freed_by close_tx i (ms_chans (g_threads s)) | None => [] end = []).
      { destruct (ms_map _) as [i|]; [| done]. by apply quiet_freed. }
      rewrite Hn in E. by injection E as <-.
Qed.

Lemma quiet_open j mem s s' :
  quiet s → Program.client_open j mem s = Done (Some s') → quiet s' ∧ g_world s' = g_world s.
Proof.
  intros [Hc Hl Hd] E. split.
  - destruct (client_open_threads _ _ _ _ E) as (_ & [[Et (nm & st & dev & k & En & Ed)] | [Ed Ep]]).
    + split; rewrite ?Et, ?Ed; try done. apply map_Forall_insert_2; [| done].
      by eapply memenpsf_new_writes.
    + unfold client_panics in Ep. destruct (_ !! j) as [cl|] eqn:Hj; simpl in Ep; [| done].
      destruct (cl_done cl); [done |]. injection Ep as Et.
      destruct (quiet_client_end j cl (g_threads s) Hc Hl). split; rewrite ?Ed, <- ?Et; done.
  - unfold Program.client_open in E. destruct (ms_clients (g_threads s) !! j) as [cl|]; [| done].
    destruct (g_streams s !! j) as [st|]; [| done]. destruct (g_devs s !! j); [done |].
    destruct (cl_done cl); [done |].
    destruct (MemEnpsf.new _ _ _ _) as [[dev k]| |]; [by injection E as <- | | done].
    destruct (client_panics j (g_threads s)) as [t|]; [| done].
    rewrite quiet_freed in E by done. by injection E as <-.
Qed.

Lemma quiet_recv j s s' :
  quiet s → Program.client_recv j s = Done (Some s') → quiet s' ∧ g_world s' = g_world s.
Proof.
  intros [Hc Hl Hd] E.
  destruct (client_recv_threads _ _ _ E) as (_ & Et & cl & c & dev & dev' & Hj & Hch & Hdv & Ed & Hq).
  assert (Ec : ch_queue c = []) by (by eapply (Forall_lookup_1 (λ c, ch_queue c = []))).
  unfold Program.client_recv in E. rewrite Hj, Hdv, Et, Hch, Ec in E. simpl in E.
  unfold take_one, orphans in E. rewrite Ec in E. simpl in E.
  split; [| destruct (ch_tx c); by injection E as <-].
  unfold MuxMain.handle_client in Et. rewrite Hj in Et. simpl in Et.
  destruct (cl_done cl); [done |]. rewrite Hch in Et. simpl in Et. rewrite Ec in Et.
  destruct (ch_tx c); [done |]. injection Et as Et.
  destruct (quiet_client_end j cl (g_threads s) Hc Hl).
  split; [by rewrite <- Et | by rewrite <- Et |]. rewrite Ed, (Hq Ec).
  apply map_Forall_insert_2; [| done]. exact (Hd j dev Hdv).
Qed.

(** As long as nothing is queued, the threads but the main one change neither
    DPDK nor what the main thread does. *)
Lemma quiet_step s s' :
  quiet s → Program.step s s' →
  Program.main_step s = Done (Some s') ∨
  (quiet s' ∧ g_world s' = g_world s ∧ g_main s' = g_main s).
Proof.
  intros I Huv. destruct Huv as [u v _ E | j mem u v _ _ E | j u v _ E | u v _ E | u _].
  - right. destruct (quiet_listener _ _ I E). by destruct (listener_step_threads _ _ E).
  - right. destruct (quiet_open _ _ _ _ I E). by destruct (client_open_threads _ _ _ _ E).
  - right. destruct (quiet_recv _ _ _ I E). by destruct (client_recv_threads _ _ _ E).
  - by left.
  - right. destruct I. by split; [split |].
Qed.
End scope.

(** ** The listener does not end *)

Section listener.
Context {prof : profile} {EN : Errno} {EP : Etherparse} {PN : Pnet}.
Context {H K Q : Type} {DP : Dpdk H} {CC : CtrlC H} {AQ : ArrayQueue Q}.
Context {SC : SocketCalls K} {HC : ShmCalls K} {LC : ListenerCalls K} {LL : ListenerLaws K}.
Implicit Types s : prog H K Q.

(** Only the listener's own steps move it, and none of them ends its loop. *)
Lemma step_listener s s' : Program.step s s' → g_listener s ≠ LEnded →
  g_listener s' ≠ LEnded ∧ (g_listener s = LPanicked → g_listener s' = LPanicked).
Proof.
  intros [u v _ E | j mem u v _ _ E | j u v _ E | u v _ E | u _] Hl; [| | | | done].
  - unfold Program.listener_step in E. destruct (g_listener u) eqn:El; try done.
    + destruct (sys_bind _ _) as [[] k]; injection E as <-; done.
    + pose proof (incoming_never_ends (g_kernel u)) as Hn.
      destruct (incoming_next _) as [[[st|e]|] k]; [| | done].
      * apply outcome_bind_inv in E as ([[] w] & _ & E). injection E as <-. simpl. by rewrite El.
      * injection E as <-. simpl. by rewrite El.
  - by rewrite (client_open_listener _ _ _ _ E).
  - by rewrite (client_recv_listener _ _ _ E).
  - by rewrite (main_step_listener _ _ E).
Qed.

(** What holds from the start on. *)
Lemma scope_invariant (w : world H) k s :
  star Program.step (Program.start w k) s →
  g_listener s ≠ LEnded ∧
  (g_main s = MScope ∨ g_main s = MPanicked ∧ g_listener s = LPanicked) ∧ quiet s.
Proof.
  intros R. apply (star_invariant Program.step (λ s, g_listener s ≠ LEnded ∧
    (g_main s = MScope ∨ g_main s = MPanicked ∧ g_listener s = LPanicked) ∧ quiet s)
    (Program.start w k) s); [| | done].
  { split_and!; [done | by left |]. split; simpl; try constructor. apply map_Forall_empty. }
  intros u v (Hl & Hm & I) Huv. destruct (step_listener _ _ Huv Hl) as [Hl' Hp].
  pose proof (step_alive _ _ Huv) as Hal. unfold Program.alive in Hal.
  destruct Hm as [Hm | [Hm _]]; [| by rewrite Hm in Hal].
  split; [done |]. destruct (quiet_step _ _ I Huv) as [E | (I' & _ & ->)]; [| by split; [left |]].
  unfold Program.main_step in E. rewrite Hm in E.
  destruct (g_listener u) eqn:El; try done. injection E as <-. simpl in *.
  destruct I. split; [by right | done].
Qed.
End listener.

(** ** Properties *)

Section properties.
Context {prof : profile} {EN : Errno} {EP : Etherparse} {PN : Pnet}.
Context {H K Q : Type} {DP : Dpdk H} {CC : CtrlC H} {AQ : ArrayQueue Q}.
Context {SC : SocketCalls K} {HC : ShmCalls K} {LC : ListenerCalls K}.

(** C23: the multiplexer never gets to its main loop, given that the iterator
    [incoming()] never ends, as the standard library documents.
    [thread::scope] waits for the listener it has spawned, which loops over
    [incoming()]: whatever the kernel and the clients do, and however the threads
    interleave, the listener never gets behind its loop; the main thread is
    still in the scope and cannot move, or it has panicked because [bind]
    failed, and then the process is over.  No packet is ever queued for a client,
    and no interface sends anything. *)
Theorem main_never_leaves_scope {LL : ListenerLaws K} (w : world H) k (s : prog H K Q) :
  star Program.step (Program.start w k) s →
  g_listener s ≠ LEnded ∧
  (g_main s = MScope ∨ g_main s = MPanicked ∧ g_listener s = LPanicked) ∧
  (g_listener s ≠ LPanicked → Program.main_step s = Done None) ∧
  delivered (g_threads s) = [] ∧ quiet s.
Proof.
  intros R. destruct (scope_invariant w k s R) as (Hl & Hm & Hq). split_and!; [done | done | | | done].
  - intros Hp. unfold Program.main_step. destruct Hm as [-> | [-> ?]]; [| done].
    by destruct (g_listener s).
  - by apply quiet_delivered.
Qed.

(** The bytes of a packet buffer from the start of the packet on. *)
Definition packet_bytes (b : rte_mbuf) (n : Z) : list u8 :=
  take (Z.to_nat n) (skipn (Z.to_nat (m_data_off b)) (m_buf b)).

(** C24: a client thread serves one packet.  When a descriptor arrives on the
    stream, [handle_client] copies the 1536 bytes from the start of the packet
    (if the buffer has them), whatever the length of the packet is, to slot 1 of
    the mapping, sends one message with the indices 0 and 0, and ends; the
    state of DPDK is as before: the buffer has not been returned to its pool.
    When the channel is closed nothing is sent, and when no descriptor arrives
    the thread panics. *)
Theorem handle_client_spec nm st (mem : shm frame) buf b (k : K) (w : world H) r k' :
  recv_fd st [x00] k = Done (r, k') → shm_size mem = round_up CAP 4096 →
  d_mbufs (obs w) !! buf = Some b → m_data_off b + 1536 ≤ Z.of_nat (length (m_buf b)) →
  match r with
  | Ok fd => ∃ k'',
      (∃ dev, Program.handle_client nm st mem (Some buf) (k, w)
        = Done ((dev, shm_store 1536 (packet_bytes b 1536) mem), (k'', w)) ∧
        writes dev = [[0; 0]] ∧ name dev = nm ∧ cap dev = 20) ∧
      (∃ dev, Program.handle_client nm st mem None (k, w) = Done ((dev, mem), (k'', w)) ∧
        writes dev = [])
  | Err _ => ∀ m, Program.handle_client nm st mem m (k, w) = Panicked
  end.
Proof.
  intros Er Hm Hb Hl. unfold Program.handle_client. cbn [fst snd].
  rewrite (memenpsf_new_run nm CAP st k r k' Er) by (unfold CAP, MemEnpsf.MTU; lia).
  destruct r as [fd|e]; [| done].
  exists (sys_mmap fd CAP (sys_ftruncate fd (as_sint 64 CAP) k')). split; [| by eexists].
  assert (Ep : pkt_slice buf MuxMain.MTU w = Done (packet_bytes b 1536, w)).
  { unfold pkt_slice. rewrite Hb. unfold MuxMain.MTU.
    by destruct (Z.leb_spec (m_data_off b + 1536) (Z.of_nat (length (m_buf b)))); [| lia]. }
  eexists. split; [| split; [| split]].
  - unfold Program.serve. rewrite (bind_done _ _ _ _ _ Ep).
    unfold MemEnpsf.xmit_to_client, MemEnpsf.on_s2c, new_iface. unfold mbind at 3, M_bind.
    cbn [s2c_q fst snd]. rewrite (push_run _ _ _ _ 1) by done.
    unfold mapped. rewrite Hm. change (_ && _) with true. cbv match. reflexivity.
  - reflexivity.
  - reflexivity.
  - reflexivity.
Qed.
End properties.

(** ** Witnesses *)

#[local] Existing Instance linux_errno.

(** A kernel whose socket can be bound and which has a connection waiting. *)
#[export] Instance sim_shm_calls : ShmCalls sim_kernel := {|
  sys_ftruncate := λ _ _ k, k; sys_mmap := λ _ _ k, k |}.

#[export] Instance sim_listener : ListenerCalls sim_kernel := {|
  sys_remove_file := λ _ k, k; sys_bind := λ _ k, (Ok tt, k);
  incoming_next := λ k, (Some (Ok 5), k) |}.

#[export] Instance sim_listener_laws : ListenerLaws sim_kernel.
Proof. by split. Defined.

#[export] Instance sim_ctrlc_laws : CtrlCLaws sim_hw.
Proof. by split. Defined.

(** A buffer with room for a whole frame, and a descriptor on its way. *)
Definition big_buf : rte_mbuf :=
  RteMbuf 65536 2176 128 4 4 1 (replicate 128 x00 ++ [x01; x02; x03; x04] ++ replicate 2044 x00).

Definition big_world : sim :=
  set_obs (set_mbufs (<[1700 := big_buf]> (d_mbufs sample_obs)) sample_obs) sample_world.

Definition fd_kernel : sim_kernel := SimKernel [([x00], [70; 10])] ∅ {[0 := 20]}.

Lemma handle_client_spec_witness :
  ∃ k'',
    (∃ dev, Program.handle_client (prof := Debug) "memenpsf1" 5 (sample_map 4096) (Some 1700)
        (fd_kernel, big_world)
      = Done ((dev, shm_store 1536 (packet_bytes big_buf 1536) (sample_map 4096)), (k'', big_world)) ∧
      writes dev = [[0; 0]] ∧ name dev = "memenpsf1" ∧ cap dev = 20) ∧
    (∃ dev, Program.handle_client (prof := Debug) "memenpsf1" 5 (sample_map 4096) None
        (fd_kernel, big_world) = Done ((dev, sample_map 4096), (k'', big_world)) ∧ writes dev = []).
Proof.
  refine (handle_client_spec (prof := Debug) "memenpsf1" 5 (sample_map 4096) 1700 big_buf fd_kernel
    big_world (Ok 1) (SimKernel [] ∅ {[0 := 20; 1 := 70; 2 := 10]}) _ _ _ _);
    [vm_compute; reflexivity | reflexivity | vm_compute; reflexivity | vm_compute; congruence].
Defined.

(** The listener binds its socket, a client connects and waits. *)
Definition in_scope : prog sim_hw sim_kernel list_queue :=
  match Program.listener_step (Program.start sample_world fd_kernel) with
  | Done (Some s) => match Program.listener_step s with Done (Some s') => s' | _ => s end
  | _ => Program.start sample_world fd_kernel
  end.

Lemma main_never_leaves_scope_witness :
  g_main in_scope = MScope ∧ Program.main_step (prof := Debug) in_scope = Done None ∧
  length (ms_clients (g_threads in_scope)) = 1%nat.
Proof.
  assert (R : star (Program.step (prof := Debug)) (Program.start sample_world fd_kernel) in_scope).
  { eapply star_step; [by apply Program.s_listener |]. apply star_one. by apply Program.s_listener. }
  destruct (main_never_leaves_scope (prof := Debug) sample_world fd_kernel in_scope R)
    as (_ & [E | [E _]] & Hm & _).
  - split_and!; [exact E | apply Hm; discriminate | reflexivity].
  - discriminate E.
Defined.

(** If the iterator ended, against its documentation, the main thread would
    leave the scope and go on to [Mux::new]. *)
Definition ending_listener : ListenerCalls sim_kernel := {|
  sys_remove_file := λ _ k, k; sys_bind := λ _ k, (Ok tt, k); incoming_next := λ k, (None, k) |}.

Lemma ended_scope_is_left {prof : profile} {EN : Errno} {EP : Etherparse} {PN : Pnet}
    {H K Q : Type} {DP : Dpdk H} {CC : CtrlC H} {AQ : ArrayQueue Q} {LC : ListenerCalls K}
    (s : prog H K Q) k :
  g_main s = MScope → g_listener s = LAccept → incoming_next (g_kernel s) = (None, k) →
  ∃ s1 s2, Program.listener_step s = Done (Some s1) ∧ Program.main_step s1 = Done (Some s2) ∧
    g_main s2 = MNew.
Proof.
  intros Em El En. unfold Program.listener_step. rewrite El, En. eexists _, _. split; [done |].
  unfold Program.main_step. simpl. rewrite Em. done.
Qed.
