(* ===== verification/Ownership.v ===== *)
(** * Where the buffers of a mempool are

    The accounting of the buffers of one mempool across the operations of
    [Mbuf] and of the multiplexer: [moved mp o o' out back] says that between
    the states [o] and [o'] the buffers [out] were taken out of the pool [mp]
    and the buffers [back] were returned to it, while the rings
    lost at most some of their oldest entries.  [Conservation.v] adds up these
    movements to a conservation law for the whole program. *)

From S2P Require Import Prelude Errors Mbuf Dpdk Sim Mempool Memring FiveTuple Mux MuxMain.

(** The buffer at [p] is one of the pool [mp]. *)
Definition of_pool (mp : ptr) (o : dpdk) (p : ptr) : Prop :=
  ∃ b, d_mbufs o !! p = Some b ∧ m_pool b = mp.

(** The rings have lost at most some of their oldest entries. *)
Definition drained (o o' : dpdk) : Prop :=
  ∀ r rg, d_rings o !! r = Some rg → ∃ lost rg', d_rings o' !! r = Some rg' ∧
    rg_cap rg' = rg_cap rg ∧ rg_items rg = lost ++ rg_items rg'.

Lemma drained_same o o' : d_rings o' = d_rings o → drained o o'.
Proof. intros E r rg Hr. exists [], rg. by rewrite E. Qed.

Lemma drained_trans o1 o2 o3 : drained o1 o2 → drained o2 o3 → drained o1 o3.
Proof.
  intros D1 D2 r rg Hr. destruct (D1 r rg Hr) as (l1 & rg1 & H1 & C1 & ->).
  destruct (D2 r rg1 H1) as (l2 & rg2 & H2 & C2 & ->). exists (l1 ++ l2), rg2.
  split; [done |]. split; [congruence | by rewrite app_assoc].
Qed.

Lemma drained_set_items r rg n o :
  d_rings o !! r = Some rg → drained o (set_items r rg (drop n (rg_items rg)) o).
Proof.
  intros Hr r' rg' Hr'. unfold set_items. simpl. destruct (decide (r = r')) as [-> | Hne].
  - simplify_eq. exists (take n (rg_items rg)), (RteRing (rg_cap rg) (drop n (rg_items rg))).
    rewrite lookup_insert_eq. simpl. by rewrite take_drop.
  - exists [], rg'. by rewrite lookup_insert_ne.
Qed.

Record moved (mp : ptr) (o o' : dpdk) (out back : gmultiset ptr) : Prop := {
  mv_pool : ∀ s, d_pools o !! mp = Some s → ∃ s', d_pools o' !! mp = Some s' ∧ s ⊎ back = s' ⊎ out;
  mv_keep : ∀ p, of_pool mp o p → of_pool mp o' p;
  mv_out : ∀ p, p ∈ out → of_pool mp o' p;
  mv_rings : drained o o'
}.

(** ** The algebra of movements *)

Lemma moved_same mp o o' :
  d_mbufs o' = d_mbufs o → d_pools o' = d_pools o →
  drained o o' → moved mp o o' ∅ ∅.
Proof.
  intros E1 E2 Hr. split; [| unfold of_pool; by rewrite E1 | multiset_solver | done].
  intros s Hs. exists s. by rewrite E2.
Qed.

Lemma moved_refl mp o : moved mp o o ∅ ∅.
Proof. by apply moved_same, drained_same. Qed.

Lemma moved_trans mp o1 o2 o3 out1 back1 out2 back2 :
  moved mp o1 o2 out1 back1 → moved mp o2 o3 out2 back2 →
  moved mp o1 o3 (out1 ⊎ out2) (back1 ⊎ back2).
Proof.
  intros [P1 K1 O1 R1] [P2 K2 O2 R2]. split; [| by auto | | by eapply drained_trans].
  - intros s1 Hs1. destruct (P1 s1 Hs1) as (s2 & Hs2 & E2). destruct (P2 s2 Hs2) as (s3 & Hs3 & E3).
    exists s3. split; [done |]. multiset_solver.
  - intros p [Hp | Hp]%gmultiset_elem_of_disj_union; auto.
Qed.

(** A buffer that was taken out and returned has not moved. *)
Lemma moved_cancel mp o o' out back x :
  moved mp o o' (out ⊎ x) (back ⊎ x) → moved mp o o' out back.
Proof.
  intros [P Kp O R]. split; [| done | | done].
  - intros s Hs. destruct (P s Hs) as (s' & Hs' & E). exists s'. split; [done |]. multiset_solver.
  - intros p Hp. apply O. multiset_solver.
Qed.

(** Two movements added up. *)
Lemma moved_chain mp o1 o2 o3 out1 back1 out2 back2 out back :
  moved mp o1 o2 out1 back1 → moved mp o2 o3 out2 back2 →
  out = out1 ⊎ out2 → back = back1 ⊎ back2 → moved mp o1 o3 out back.
Proof. intros M1 M2 -> ->. by eapply moved_trans. Qed.

Lemma moved_exact mp o o' s out back :
  moved mp o o' out back → d_pools o !! mp = Some s →
  ∃ s', d_pools o' !! mp = Some s' ∧ s ⊎ back = s' ⊎ out.
Proof. intros [P _ _ _]. apply P. Qed.

(** ** Operations *)

Section operations.
Context {prof : profile} {H : Type} {DP : Dpdk H} {ML : MempoolLaws H}.
Implicit Types w : world H.

(** An allocation: [p] with any buffer of the pool in it. *)
Lemma moved_alloc mp o o' s p b :
  d_pools o !! mp = Some s → p ∈ s → m_pool b = mp →
  d_mbufs o' = <[p := b]> (d_mbufs o) → d_pools o' = <[mp := s ∖ {[+ p +]}]> (d_pools o) →
  d_rings o' = d_rings o → moved mp o o' {[+ p +]} ∅.
Proof.
  intros Hs Hp Hb E1 E2 E3. split; [| | | by apply drained_same].
  - intros s0 Hs0. simplify_eq. exists (s ∖ {[+ p +]}). rewrite E2, lookup_insert_eq.
    split; [done |]. multiset_solver.
  - intros q (bq & Hq & Hm). unfold of_pool. rewrite E1. destruct (decide (p = q)) as [-> |].
    + exists b. by rewrite lookup_insert_eq.
    + exists bq. by rewrite lookup_insert_ne.
  - intros q Hq. assert (q = p) as -> by multiset_solver. exists b. by rewrite E1, lookup_insert_eq.
Qed.

Lemma moved_new mp w r w' :
  MbufPool.new mp w = Done (r, w') →
  moved mp (obs w) (obs w') (match r with Ok p => {[+ p +]} | Err _ => ∅ end) ∅.
Proof.
  intros E. destruct (new_cases mp w) as [(w1 & E1 & Eo) | (p & w1 & s & b & E1 & Hs & Hp & _ & Hf & Eo)];
    rewrite E1 in E; simplify_eq.
  - rewrite Eo. apply moved_refl.
  - destruct Hf as (_ & _ & Hm). eapply moved_alloc; solve [done | by rewrite Eo].
Qed.

Lemma moved_from_bytes bytes mp w r w' :
  Z.of_nat (length bytes) < 2 ^ 64 → MbufPool.from_bytes bytes mp w = Done (r, w') →
  moved mp (obs w) (obs w') (match r with Ok p => {[+ p +]} | Err _ => ∅ end) ∅.
Proof.
  intros Hl E. destruct (from_bytes_run bytes mp w Hl) as (r1 & w1 & E1 & R). rewrite E1 in E. simplify_eq.
  inversion R as [Eo | p b s Hs Hp Hf _ Eo | p b b' s Hs Hp _ Hf _ _ Hsb _ Eo]; subst.
  - rewrite Eo. apply moved_refl.
  - destruct Hf as (_ & _ & Hm). split; [| | multiset_solver | apply drained_same; by rewrite Eo].
    + intros s0 Hs0. exists s0. rewrite Eo. split; [done | multiset_solver].
    + intros q (bq & Hq & Hmq). unfold of_pool. rewrite Eo. simpl. destruct (decide (p = q)) as [-> |].
      * exists b. by rewrite lookup_insert_eq.
      * exists bq. by rewrite lookup_insert_ne.
  - destruct Hf as (_ & _ & Hm), Hsb as (_ & _ & _ & Hm' & _).
    eapply (moved_alloc _ _ _ s p b'); solve [done | congruence | by rewrite Eo].
Qed.

Lemma moved_drop mp p w w' :
  of_pool mp (obs w) p → MbufPool.drop p w = Done (tt, w') → moved mp (obs w) (obs w') ∅ {[+ p +]}.
Proof.
  intros (b & Hb & Hm) [= <-]. rewrite pktmbuf_free_ok by eauto. unfold put_one. rewrite Hb, Hm.
  split; [| done | multiset_solver | by apply drained_same]. intros s Hs. exists ({[+ p +]} ⊎ s).
  rewrite add_to_pool_lookup, decide_True, Hs by done. split; [done | multiset_solver].
Qed.

Lemma moved_drop_all mp l w w' :
  Forall (of_pool mp (obs w)) l → MbufPool.drop_all l w = Done (tt, w') →
  moved mp (obs w) (obs w') ∅ (list_to_set_disj l).
Proof.
  revert w. induction l as [|p l IH]; intros w Hl E.
  { injection E as <-. apply moved_refl. }
  apply Forall_cons in Hl as [Hp Hl].
  change (MbufPool.drop_all l (rte_pktmbuf_free p w) = Done (tt, w')) in E.
  pose proof (moved_drop mp p w (rte_pktmbuf_free p w) Hp eq_refl) as M1.
  assert (M2 : moved mp (obs (rte_pktmbuf_free p w)) (obs w') ∅ (list_to_set_disj l)).
  { apply IH; [| done]. eapply Forall_impl; [exact Hl |]. apply (mv_keep _ _ _ _ _ M1). }
  eapply moved_chain; [exact M1 | exact M2 | multiset_solver | by rewrite list_to_set_disj_cons].
Qed.

Lemma moved_alloc_loop mp n pkts w l w' :
  Mux.alloc_loop mp n pkts w = Done (l, w') →
  ∃ fresh, l = pkts ++ fresh ∧ moved mp (obs w) (obs w') (list_to_set_disj fresh) ∅.
Proof.
  revert pkts w. induction n as [|n IH]; intros pkts w E; simpl in E.
  { injection E as <- <-. exists []. split; [by rewrite app_nil_r | apply moved_refl]. }
  apply bind_inv in E as (r & w1 & E1 & E2). pose proof (moved_new _ _ _ _ E1) as M1.
  destruct r as [p|e].
  - destruct (IH _ _ E2) as (fresh & -> & M2). exists (p :: fresh). rewrite <- app_assoc. split; [done |].
    eapply moved_chain; [exact M1 | exact M2 | by rewrite list_to_set_disj_cons | multiset_solver].
  - injection E2 as <- <-. exists []. split; [by rewrite app_nil_r |]. done.
Qed.

Context {PN : Pnet} {PL : PnetLaws} {EP : Etherparse}.

Lemma moved_handle_arp t local mp w r w' :
  FiveTuple.handle_arp t local mp w = Done (r, w') →
  moved mp (obs w) (obs w') (match r with Some p => {[+ p +]} | None => ∅ end) ∅.
Proof.
  unfold FiveTuple.handle_arp. intros E.
  assert (Hn : ∀ v : world H, Done (None : option ptr, v) = Done (r, w') → v = w →
    moved mp (obs w) (obs w') (match r with Some p => {[+ p +]} | None => ∅ end) ∅).
  { intros v [= <- <-] ->. apply moved_refl. }
  destruct (_ || _); [by eapply Hn |]. destruct (_ =? _); [| by eapply Hn].
  destruct (_ || _); [| by eapply Hn].
  rewrite arp_packet_ok, ethernet_packet_ok in E by done.
  apply bind_inv in E as (r1 & w1 & E1 & E2). apply moved_from_bytes in E1; [| simpl; lia].
  destruct r1; injection E2 as <- <-; done.
Qed.

(** Routing a packet of the pool: it goes back to the pool, or to a client. *)
Lemma moved_route local mp pkt t w t' w' :
  of_pool mp (obs w) pkt → route local mp pkt t w = Done (Some t', w') →
  (t' = t ∧ moved mp (obs w) (obs w') ∅ {[+ pkt +]}) ∨
  (send_to_service pkt t = Done (Some t') ∧ moved mp (obs w) (obs w') ∅ ∅).
Proof.
  intros Hp. unfold route. intros (bytes & w1 & E1 & E)%bind_inv.
  assert (w1 = w) as ->.
  { unfold pkt_slice in E1. destruct (_ !! pkt); [| done]. destruct (_ <=? _); congruence. }
  destruct (FiveTuple.parse_pkt bytes local [0]) as [tuple|err].
  - right. apply bind_inv in E as ([] & w2 & E2 & E3). unfold lift in E3.
    destruct (send_to_service pkt t) as [o| |] eqn:Es; try done. injection E3 as -> ->. split; [done |].
    destruct (_ =? _); [| injection E2 as <-; apply moved_refl].
    apply bind_inv in E2 as (r & w3 & Ea & Ed). apply moved_handle_arp in Ea.
    destruct r as [m|]; [| by injection Ed as <-].
    assert (Hm : of_pool mp (obs w3) m) 
      by (apply (mv_out _ _ _ _ _ Ea); by apply gmultiset_elem_of_singleton).
    pose proof (moved_drop mp m w3 w' Hm Ed) as Md.
    apply (moved_cancel _ _ _ _ _ {[+ m +]}). eapply moved_chain; [exact Ea | exact Md | |]; multiset_solver.
  - left. apply bind_inv in E as ([] & w2 & E2 & E3). injection E3 as <- <-. split; [done |].
    by eapply moved_drop.
Qed.
End operations.

Section burst.
Context {prof : profile} {EN : Errno} {H Q : Type} {DP : Dpdk H} {AQ : ArrayQueue Q}.
Context {ML : MempoolLaws H} {RL : RingLaws H} {AL : ArrayQueueLaws Q}.

(** What [recv_from_engine_burst] queues comes out of the pool. *)
Lemma moved_burst (self : Mux_t Q) (w : world H) rg sz q w' :
  aq_capacity (in_buf self) < 2 ^ 32 →
  d_rings (obs w) !! ring_raw (to_packetiser (channel self)) = Some rg →
  Mux.recv_from_engine_burst self w = Done ((sz, q), w') →
  ∃ fresh, aq_items q = aq_items (in_buf self) ++ fresh ∧ aq_capacity q = aq_capacity (in_buf self) ∧
    moved (mempool self) (obs w) (obs w') (list_to_set_disj fresh) ∅.
Proof.
  intros Hc Er. pose proof (aq_bounds (in_buf self)) as Hb. unfold Mux.recv_from_engine_burst.
  rewrite aq_len_ok, usub_exact, bind_lift_done by (unfold is_uint; lia).
  set (n := aq_capacity (in_buf self) - Z.of_nat (length (aq_items (in_buf self)))) in *.
  destruct (n * 8 >? 2 ^ 63 - 1); [done |].
  destruct (alloc_loop_run (mempool self) (Z.to_nat n) [] w) as (fr & w1 & A1 & A2 & A3 & _).
  rewrite (bind_done _ _ _ _ _ A1). simpl app.
  destruct (moved_alloc_loop _ _ _ _ _ _ A1) as (fr' & Ef & M1). simpl in Ef. subst fr'.
  destruct (dequeue_burst_run (to_packetiser (channel self)) rg fr n w1) as (w2 & D1 & D2);
    [by rewrite A3 | lia | lia | lia |].
  set (k := Nat.min (length fr) (length (rg_items rg))) in *.
  erewrite bind_done by exact D1. cbv beta iota. rewrite !Nat2Z.id.
  intros ([] & w3 & E3 & E4)%bind_inv.
  destruct (push_all_ok (take k fr) (in_buf self)) as (q' & P1 & P2 & P3); [rewrite length_take; lia |].
  rewrite P1, bind_lift_done in E4. injection E4 as <- <- <-.
  exists (take k fr). split; [done |]. split; [done |].
  assert (M2 : moved (mempool self) (obs w1) (obs w2) ∅ ∅) 
    by (apply moved_same; rewrite D2; try done; apply drained_set_items; by rewrite A3).
  assert (M3 : moved (mempool self) (obs w2) (obs w3) ∅ (list_to_set_disj (drop k fr))).
  { apply moved_drop_all; [| done]. apply Forall_forall. intros p Hp. apply (mv_keep _ _ _ _ _ M2), (mv_out _ _ _ _ _ M1).
    apply elem_of_list_to_set_disj. by apply (subseteq_drop k). }
  apply (moved_cancel _ _ _ _ _ (list_to_set_disj (drop k fr))).
  eapply moved_chain; [exact M1 | eapply moved_trans; [exact M2 | exact M3] | |].
  - rewrite <- (take_drop k fr) at 3. rewrite list_to_set_disj_app. multiset_solver.
  - multiset_solver.
Qed.
End burst.

(** ** Channels

    The buffers in the channels, and those handed to the clients. *)
Definition queued (t : mstate) : gmultiset ptr := list_to_set_disj (ms_chans t ≫= ch_queue).
Definition handed (t : mstate) : gmultiset ptr := list_to_set_disj (delivered t).

Definition bag (l : list ptr) : gmultiset ptr := list_to_set_disj l.

Lemma queued_alter f i c l :
  l !! i = Some c →
  bag (alter f i l ≫= ch_queue) ⊎ bag (ch_queue c) = bag (l ≫= ch_queue) ⊎ bag (ch_queue (f c)).
Proof.
  unfold bag. revert i. induction l as [|d l IH]; intros [|i] Hi; simplify_eq/=.
  - rewrite !list_to_set_disj_app. multiset_solver.
  - rewrite !list_to_set_disj_app. specialize (IH i Hi). multiset_solver.
Qed.

Lemma release_orphans c : bag (ch_queue (release c)) ⊎ bag (orphans c) = bag (ch_queue c).
Proof. unfold release, orphans, bag. destruct (_ || _); simpl; multiset_solver. Qed.

Lemma queued_release f i c l :
  l !! i = Some c →
  bag (alter (λ c, release (f c)) i l ≫= ch_queue) ⊎ bag (orphans (f c)) ⊎ bag (ch_queue c)
  = bag (l ≫= ch_queue) ⊎ bag (ch_queue (f c)).
Proof.
  intros Hi. pose proof (queued_alter (λ c, release (f c)) i c l Hi).
  pose proof (release_orphans (f c)). cbv beta in *. multiset_solver.
Qed.

Lemma handed_insert j cl cl' l :
  l !! j = Some cl → cl_got cl = [] →
  bag (<[j := cl']> l ≫= cl_got) = bag (l ≫= cl_got) ⊎ bag (cl_got cl').
Proof.
  unfold bag. revert j. induction l as [|d l IH]; intros [|j] Hj Hg; simplify_eq/=.
  - rewrite !list_to_set_disj_app, Hg. simpl. multiset_solver.
  - rewrite !list_to_set_disj_app. specialize (IH j Hj Hg). multiset_solver.
Qed.

Lemma accept_accounts t :
  minv t →
  queued t = queued (accept t) ⊎ bag (match ms_map t with
    | Some i => freed_by close_tx i (ms_chans t) | None => [] end) ∧
  handed (accept t) = handed t.
Proof.
  intros I. unfold queued, handed, delivered, accept. cbn [ms_chans ms_clients].
  rewrite !bind_app. split; [| by rewrite !list_to_set_disj_app; simpl; multiset_solver].
  rewrite list_to_set_disj_app. simpl. destruct (ms_map t) as [i|] eqn:Em; simpl; [| multiset_solver].
  unfold freed_by. destruct (ms_chans t !! i) as [c|] eqn:Ei.
  - pose proof (queued_release close_tx i c (ms_chans t) Ei) as E. simpl in E. unfold bag in *. multiset_solver.
  - exfalso. apply lookup_ge_None in Ei. destruct I as [L E _ _]. rewrite Em in E.
    destruct (length (ms_clients t)) eqn:El; simplify_eq. lia.
Qed.

Lemma client_panics_accounts j cl t t' :
  minv t → ms_clients t !! j = Some cl → client_panics j t = Some t' →
  queued t = queued t' ⊎ bag (freed_by close_rx (cl_chan cl) (ms_chans t)) ∧ handed t' = handed t.
Proof.
  intros [L E C _] Hj. unfold client_panics. rewrite Hj. simpl.
  destruct (C j cl Hj) as (Hc & _ & _ & Hg). clear C. destruct (cl_done cl); [done |]. intros [= <-].
  unfold queued, handed, delivered, drop_receiver. cbn [ms_chans ms_clients]. rewrite Hc. split.
  - unfold freed_by. destruct (ms_chans t !! j) as [c|] eqn:Ei.
    + pose proof (queued_release close_rx j c (ms_chans t) Ei). simpl in *. unfold bag in *. multiset_solver.
    + apply lookup_ge_None in Ei. apply lookup_lt_Some in Hj. lia.
  - pose proof (handed_insert j cl (MkClient j (cl_name cl) true []) (ms_clients t) Hj (Hg eq_refl)) as Eh.
    unfold bag in Eh. rewrite Eh. simpl. multiset_solver.
Qed.

Lemma handle_client_accounts j cl c t t' :
  minv t → ms_clients t !! j = Some cl → ms_chans t !! cl_chan cl = Some c →
  handle_client j t = Some t' →
  let got := bag (take 1 (ch_queue c)) in
  queued t = queued t' ⊎ bag (orphans (close_rx (take_one c))) ⊎ got ∧ handed t' = handed t ⊎ got.
Proof.
  intros [L E C _] Hj Hch. unfold handle_client. rewrite Hj. simpl.
  destruct (C j cl Hj) as (_ & _ & _ & Hg). clear C. destruct (cl_done cl); [done |]. rewrite Hch. simpl.
  specialize (Hg eq_refl).
  destruct (ch_queue c) as [|buf q] eqn:Eq; [destruct (ch_tx c); [done |] |]; intros [= <-];
    unfold queued, handed, delivered; cbn [ms_chans ms_clients].
  - pose proof (queued_release close_rx _ c (ms_chans t) Hch) as E1. unfold drop_receiver.
    pose proof (handed_insert j cl (MkClient (cl_chan cl) (cl_name cl) true []) (ms_clients t) Hj Hg) as E2.
    unfold orphans, take_one in *. simpl in *. unfold bag in *. rewrite Eq in *. simpl.
    destruct (ch_tx c); simpl in *; multiset_solver.
  - pose proof (queued_release (λ c, close_rx (take_one c)) _ c (ms_chans t) Hch) as E1.
    rewrite drop_receiver_take.
    pose proof (handed_insert j cl (MkClient (cl_chan cl) (cl_name cl) true [buf]) (ms_clients t) Hj Hg) as E2.
    simpl in *. unfold bag in *. rewrite Eq in *. simpl in *. multiset_solver.
Qed.

Lemma send_accounts pkt t t' :
  send_to_service pkt t = Done (Some t') →
  queued t' = queued t ⊎ {[+ pkt +]} ∧ handed t' = handed t.
Proof.
  unfold send_to_service. destruct (ms_map t) as [i|]; [| done].
  destruct (ms_chans t !! i) as [c|] eqn:Ei; [| done]. destruct (ch_rx c); [| done].
  destruct (_ <? _); [| done]. intros [= <-]. split; [| done].
  unfold queued, set_chans. cbn [ms_chans].
  pose proof (queued_alter (λ _, MkChan (ch_queue c ++ [pkt]) true (ch_tx c)) i c (ms_chans t) Ei) as E.
  rewrite <- list_insert_alter in E.
  simpl in E. unfold bag in E. rewrite list_to_set_disj_app in E. simpl in E. multiset_solver.
Qed.
