(* ===== verification/Conservation.v ===== *)
(** * Conservation of buffers in the multiplexer

    The movements of [Ownership.v] added up over the steps of the program of
    [MuxProgram.v], from the start of [main] to the end of the process. *)

From S2P Require Import Prelude Errors Mbuf Dpdk Sim Mempool Memring Engine RingBuf FdPass MemEnpsf.
From S2P Require Import FiveTuple Mux MuxMain MuxProgram Ownership.

(** The multiplexer of the main thread, once there is one. *)
Definition main_mux {Q} (m : main_pc Q) : option (Mux_t Q) :=
  match m with
  | MStart mux | MSignal mux | MOuter mux | MPoll mux | MDrain mux _ => Some mux
  | MScope | MNew | MEnded | MPanicked => None
  end.

Section conservation.
Context {prof : profile} {EN : Errno} {EP : Etherparse} {PN : Pnet}.
Context {H K Q : Type} {DP : Dpdk H} {CC : CtrlC H} {AQ : ArrayQueue Q}.
Context {SC : SocketCalls K} {HC : ShmCalls K} {LC : ListenerCalls K}.
Context {ML : MempoolLaws H} {RL : RingLaws H} {AL : ArrayQueueLaws Q} {PL : PnetLaws}.
Context {LE : EalLaws H} {LS : CtrlCLaws H}.
Implicit Types s : prog H K Q.

(** The buffers in the two queues of the multiplexer, and those of the main
    thread, which has none before there is a multiplexer. *)
Definition held (mux : Mux_t Q) : gmultiset ptr :=
  bag (aq_items (in_buf mux)) ⊎ bag (aq_items (out_buf mux)).
Definition main_held (m : main_pc Q) : gmultiset ptr :=
  match main_mux m with Some mux => held mux | None => ∅ end.

(** The state in which [main] starts: the channel is [ch], the mempool is [mp]
    with the free buffers [U], and the engine has left [rg0] in the ring to the
    multiplexer. *)
Record setting (ch : Channel_t) (mp : ptr) (U : gmultiset ptr) (rg0 : rte_ring) (o : dpdk) : Prop := {
  st_channel : channel_named ch o;
  st_ring : d_rings o !! ring_raw (to_packetiser ch) = Some rg0;
  st_name : d_pool_names o !! "GLOBAL_MEMPOOL" = Some mp;
  st_mp : mp ≠ null;
  st_pool : d_pools o !! mp = Some U
}.

Variables (ch : Channel_t) (mp : ptr) (U : gmultiset ptr) (rg0 : rte_ring).

(** All the buffers [U] of the pool [mp] are accounted for: they are free,
    held by the multiplexer, in a channel or handed to a client; and the ring
    has lost only its oldest entries. *)
Record accounted s (mux : Mux_t Q) : Prop := {
  ac_mux : mempool mux = mp;
  ac_channel : channel mux = ch;
  ac_cap : aq_capacity (in_buf mux) < 2 ^ 32;
  ac_ring : ∃ lost rg, d_rings (obs (g_world s)) !! ring_raw (to_packetiser ch) = Some rg ∧
    rg_cap rg = rg_cap rg0 ∧ rg_items rg0 = lost ++ rg_items rg;
  ac_threads : minv (g_threads s);
  ac_sum : ∃ free, d_pools (obs (g_world s)) !! mp = Some free ∧
    free ⊎ held mux ⊎ queued (g_threads s) ⊎ handed (g_threads s) = U;
  ac_of : ∀ p, p ∈ held mux ⊎ queued (g_threads s) → of_pool mp (obs (g_world s)) p
}.

(** The invariant of the steps: before there is a multiplexer nothing has
    happened to the buffers; then they are accounted for, until the process is
    over. *)
Definition conserved s : Prop :=
  match g_main s with
  | MScope | MNew => quiet s ∧ minv (g_threads s) ∧ setting ch mp U rg0 (obs (g_world s))
  | MStart mux | MSignal mux | MOuter mux | MPoll mux | MDrain mux _ => accounted s mux
  | MEnded | MPanicked => True
  end.

(** A step that moves buffers between the pool, the multiplexer and the
    threads keeps the sum. *)
Lemma accounted_moved s mux s' mux' out back :
  accounted s mux → minv (g_threads s') →
  moved mp (obs (g_world s)) (obs (g_world s')) out back →
  mempool mux' = mempool mux → channel mux' = channel mux →
  aq_capacity (in_buf mux') = aq_capacity (in_buf mux) →
  held mux' ⊎ queued (g_threads s') ⊎ handed (g_threads s') ⊎ back
  = held mux ⊎ queued (g_threads s) ⊎ handed (g_threads s) ⊎ out →
  held mux' ⊎ queued (g_threads s') ⊆ held mux ⊎ queued (g_threads s) ⊎ out →
  accounted s' mux'.
Proof.
  intros [A1 A0 A2 (lost & rg & A3 & C3 & L3) A4 (free & A5 & A6) A7] I' Mv E1 E2 E3 E4 Hsub.
  destruct (moved_exact _ _ _ _ _ _ Mv A5) as (free' & F1 & F2). destruct Mv as [_ Kp O R].
  split; [congruence | congruence | lia | | done | |].
  - destruct (R _ _ A3) as (l & rg' & R1 & R2 & R3). exists (lost ++ l), rg'.
    split; [done |]. split; [congruence | by rewrite L3, R3, app_assoc].
  - exists free'. split; [done |]. clear A7 Kp O R A3 L3. multiset_solver.
  - intros p Hp. assert (Hp' : p ∈ held mux ⊎ queued (g_threads s) ⊎ out).
    { by eapply gmultiset_elem_of_subseteq. }
    apply gmultiset_elem_of_disj_union in Hp' as [Hp' | Hp']; auto.
Qed.

Lemma of_pool_all o (x : gmultiset ptr) l :
  (∀ p, p ∈ x → of_pool mp o p) → bag l ⊆ x → Forall (of_pool mp o) l.
Proof.
  intros Hx Hl. apply Forall_forall. intros p Hp. apply Hx. eapply gmultiset_elem_of_subseteq; [| exact Hl].
  by apply elem_of_list_to_set_disj.
Qed.

Lemma serve_world dev buf (w : world H) dev' w' :
  Program.serve dev buf w = Done (dev', w') → w' = w.
Proof.
  unfold Program.serve. intros (bytes & w1 & E1 & E)%bind_inv.
  apply bind_inv in E as (out & w2 & E2 & E). injection E as <- <-.
  unfold pkt_slice in E1. destruct (_ !! buf); [| done]. destruct (_ <=? _); simplify_eq.
  unfold lift in E2. destruct (MemEnpsf.xmit_to_client _ dev); by simplify_eq.
Qed.

Lemma accounted_same s mux s' :
  accounted s mux → obs (g_world s') = obs (g_world s) → g_threads s' = g_threads s →
  accounted s' mux.
Proof. intros [] E1 E2. split; rewrite ?E1, ?E2; done. Qed.

(** The three ways in which a channel loses an end: the buffers [freed] go
    back to the pool. *)
Lemma accounted_freed s mux s' freed got w' :
  accounted s mux → minv (g_threads s') → g_world s' = w' →
  queued (g_threads s) = queued (g_threads s') ⊎ bag freed ⊎ got →
  handed (g_threads s') = handed (g_threads s) ⊎ got →
  MbufPool.drop_all freed (g_world s) = Done (tt, w') →
  accounted s' mux.
Proof.
  intros A I <- E1 E2 E3. pose proof A as [_ _ _ _ _ _ Hof].
  assert (Mv : moved mp (obs (g_world s)) (obs (g_world s')) ∅ (bag freed)).
  { apply moved_drop_all; [| done]. eapply of_pool_all; [exact Hof |]. rewrite E1. multiset_solver. }
  eapply (accounted_moved s mux s' mux); try done; rewrite ?E1, ?E2; clear; multiset_solver.
Qed.

Lemma accounted_listener s mux s' :
  accounted s mux → Program.listener_step s = Done (Some s') → accounted s' mux.
Proof.
  intros A. unfold Program.listener_step. destruct (g_listener s); [| | done | done].
  - destruct (sys_bind _ _) as [r k]. intros [= <-]. by eapply accounted_same.
  - destruct (incoming_next _) as [[[st|]|] k]; [| intros [= <-]; by eapply accounted_same ..].
    intros ([[] w] & Ed & E)%outcome_bind_inv. injection E as <-.
    pose proof A as [_ _ _ _ I _ _]. destruct (accept_accounts _ I) as [E1 E2].
    eapply (accounted_freed _ _ _ _ ∅); [exact A | by apply minv_accept | reflexivity | | | exact Ed].
    + simpl. rewrite E1. clear. multiset_solver.
    + simpl. rewrite E2. clear. multiset_solver.
Qed.

Lemma accounted_open j mem s mux s' :
  accounted s mux → Program.client_open j mem s = Done (Some s') → accounted s' mux.
Proof.
  intros A E. pose proof A as [_ _ _ _ I _ _].
  assert (I' : minv (g_threads s')).
  { destruct (client_open_threads _ _ _ _ E) as (_ & [[-> _] | [_ Ep]]); [done |].
    by eapply (minv_mstep (g_threads s)), m_client_panics. }
  unfold Program.client_open in E. destruct (ms_clients (g_threads s) !! j) as [cl|] eqn:Hj; [| done].
  destruct (g_streams s !! j) as [st|]; [| done]. destruct (g_devs s !! j); [done |].
  destruct (cl_done cl); [done |].
  destruct (MemEnpsf.new _ _ _ _) as [[dev k]| |]; [injection E as <-; by eapply accounted_same | | done].
  destruct (client_panics j (g_threads s)) as [t|] eqn:Ep; [| done].
  apply outcome_bind_inv in E as ([[] w] & Ed & E). injection E as <-.
  destruct (client_panics_accounts _ _ _ _ I Hj Ep) as [E1 E2].
  eapply (accounted_freed _ _ _ _ ∅); [exact A | done | reflexivity | | | exact Ed].
  - simpl. rewrite E1. clear. multiset_solver.
  - simpl. rewrite E2. clear. multiset_solver.
Qed.

Lemma accounted_recv j s mux s' :
  accounted s mux → Program.client_recv j s = Done (Some s') → accounted s' mux.
Proof.
  intros A E. pose proof A as [_ _ _ _ I _ _].
  destruct (client_recv_threads _ _ _ E) as (_ & Eh & _).
  assert (I' : minv (g_threads s')) by (by eapply (minv_mstep (g_threads s)), m_client).
  unfold Program.client_recv in E. destruct (ms_clients (g_threads s) !! j) as [cl|] eqn:Hj; [| done].
  destruct (g_devs s !! j) as [dev|]; [| done]. rewrite Eh in E.
  destruct (ms_chans (g_threads s) !! cl_chan cl) as [c|] eqn:Ec; [| done].
  apply outcome_bind_inv in E as ([dev' w] & E1 & E). apply outcome_bind_inv in E as ([[] w2] & Ed & E).
  assert (w = g_world s) as ->.
  { destruct (ch_queue c); [congruence |]. by eapply serve_world. }
  destruct (handle_client_accounts _ _ _ _ _ I Hj Ec Eh) as [F1 F2].
  eapply (accounted_freed _ _ _ _ _); [exact A | done | | exact F1 | exact F2 | exact Ed].
  by injection E as <-.
Qed.

(** The [for] loop takes a packet out of [in_buf] and routes it. *)
Lemma accounted_route s mux pkt q t w (m : main_pc Q) :
  accounted s mux → aq_pop (in_buf mux) = (Some pkt, q) →
  route main_local (mempool mux) pkt (g_threads s) (g_world s) = Done (Some t, w) →
  accounted (set_world w (set_threads t (set_main m s))) (set_in_buf q mux).
Proof.
  intros A Eq Er. pose proof A as [Emp _ _ _ I _ Hof]. rewrite Emp in Er. destruct (aq_pop_ok (in_buf mux)) as (P1 & P2 & P3).
  rewrite Eq in P1, P2, P3. simpl in P1, P2, P3.
  destruct (aq_items (in_buf mux)) as [|p l] eqn:El; simplify_eq/=.
  assert (Eh : held mux = {[+ p +]} ⊎ held (set_in_buf q mux)).
  { unfold held, bag. rewrite El. simpl. clear. multiset_solver. }
  assert (Hp : of_pool mp (obs (g_world s)) p) by (apply Hof; rewrite Eh; clear; multiset_solver).
  assert (I' : minv t).
  { destruct (route_threads _ _ _ _ _ _ _ Er) as [-> | Es]; [done |].
    by eapply (minv_mstep (g_threads s)), m_route. }
  destruct (moved_route _ _ _ _ _ _ _ Hp Er) as [[-> Mv] | [Es Mv]].
  - eapply (accounted_moved s mux); try done; simpl; rewrite Eh; clear; multiset_solver.
  - destruct (send_accounts _ _ _ Es) as [E1 E2].
    eapply (accounted_moved s mux); try done; simpl; rewrite Eh, E1, ?E2; clear; multiset_solver.
Qed.

Lemma quiet_queued s : quiet s → queued (g_threads s) = ∅.
Proof.
  intros [Hc _ _]. unfold queued. induction Hc as [|c l E _ IH]; [done |]. by rewrite bind_cons, E.
Qed.

(** [Mux::new] finds the channel and the mempool, and leaves all as it is. *)
Lemma setting_new (w : world H) r w' :
  setting ch mp U rg0 (obs w) → Mux.new w = Done (r, w') →
  r = Some (MkMux ch mp (aq_new 512) (aq_new 512)) ∧ obs w' = obs w.
Proof.
  intros [Sc _ Sn Sm _] E. destruct (channel_lookup_named ch w Sc) as (w1 & E1 & O1).
  pose proof (mux_new_run w ch w1 E1 O1) as R. rewrite Sn in R. simpl in R. unfold NonNull_new in R.
  destruct (Z.eqb_spec mp 0); [done |]. destruct R as (w2 & E2 & O2). rewrite E2 in E. by simplify_eq.
Qed.

Lemma accounted_new s w mux :
  quiet s → minv (g_threads s) → setting ch mp U rg0 (obs (g_world s)) →
  Mux.new (g_world s) = Done (Some mux, w) → accounted (set_world w (set_main (MStart mux) s)) mux.
Proof.
  intros Hq I St E. destruct (setting_new _ _ _ St E) as [[= ->] Eo]. destruct St as [_ Sr _ _ Sp].
  destruct (aq_new_ok 512 ltac:(lia)) as [Q1 Q2].
  pose proof (quiet_queued s Hq) as Eq.
  assert (Eh : handed (g_threads s) = ∅) by (unfold handed; by rewrite quiet_delivered).
  assert (Em : held (MkMux ch mp (aq_new 512) (aq_new 512)) = ∅).
  { unfold held, bag. simpl. rewrite Q1. simpl. multiset_solver. }
  split; simpl; rewrite ?Eo, ?Eq, ?Eh, ?Em; try done; [lia | | | ].
  - by exists [], rg0.
  - exists U. split; [done |]. multiset_solver.
  - intros p Hp. multiset_solver.
Qed.

(** [mux::start] joins the engine as a secondary process. *)
Lemma start_obs (w : world H) w' : Mux.start w = Done (tt, w') → obs w' = obs w.
Proof.
  unfold Mux.start, Eal.eal_init, Engine.Eal.eal_init.
  rewrite cstrings_ok by (by repeat constructor). rewrite bind_assoc, bind_lift_done, bind_assoc, bind_call.
  pose proof (eal_init_secondary Mux.args w ltac:(repeat (left || right))) as Eo.
  destruct (_ =? -1); [| by intros [= <-]].
  rewrite bind_assoc, bind_ask. done.
Qed.

(** One turn of the polling loop. *)
Lemma accounted_poll s mux sz q w :
  accounted s mux → Mux.recv_from_engine_burst mux (g_world s) = Done ((sz, q), w) →
  accounted (set_world w (set_main (MPoll (set_in_buf q mux)) s)) (set_in_buf q mux).
Proof.
  intros A Eb. pose proof A as [Emp Ech Hc (lost & rg & Hr & _) I _ _]. rewrite <- Ech in Hr.
  destruct (moved_burst mux (g_world s) rg sz q w Hc Hr Eb) as (fresh & F1 & F2 & Mv). rewrite Emp in Mv.
  eapply (accounted_moved s mux); [exact A | done | exact Mv | done | done | done | |];
    unfold held, bag; simpl; rewrite F1, list_to_set_disj_app; clear; multiset_solver.
Qed.

(** The [for] loop finds [in_buf] empty. *)
Lemma accounted_empty s mux q :
  accounted s mux → aq_pop (in_buf mux) = (None, q) →
  accounted (set_main (MOuter (set_in_buf q mux)) s) (set_in_buf q mux).
Proof.
  intros A Eq. destruct (aq_pop_ok (in_buf mux)) as (P1 & P2 & P3). rewrite Eq in P1, P2, P3.
  simpl in P1, P2, P3. destruct (aq_items (in_buf mux)) as [|p l] eqn:El; [| done].
  eapply (accounted_moved s mux _ _ ∅ ∅); [exact A | by destruct A | apply moved_refl | done | done | done | |];
    unfold held, bag; simpl; rewrite P2, El; clear; multiset_solver.
Qed.

Lemma conserved_main s s' :
  conserved s → Program.main_step s = Done (Some s') → conserved s'.
Proof.
  intros A. unfold Program.main_step, conserved in *.
  destruct (g_main s) as [| | mux | mux | mux | mux | mux [|n] | |]; try done.
  - destruct A as (Hq & I & St). destruct (g_listener s); try done; intros [= <-]; simpl; [| done].
    split_and!; [by destruct Hq | done | done].
  - destruct A as (Hq & I & St). intros ([r w] & En & E)%outcome_bind_inv. injection E as <-. simpl.
    destruct (setting_new _ _ _ St En) as [-> _]. by apply accounted_new.
  - destruct (Mux.start _) as [[[] w]| |] eqn:Es; intros [= <-]; simpl; [| done].
    eapply accounted_same; [exact A | by apply start_obs | done].
  - pose proof (set_handler_obs (g_world s)) as Eo. destruct (set_handler _) as [ok w].
    intros [= <-]. simpl. destruct ok; [| done]. by eapply accounted_same.
  - destruct (g_run s); [intros [= <-]; by eapply accounted_same |].
    intros ([[] w] & _ & E)%outcome_bind_inv. by injection E as <-.
  - destruct (aq_is_empty _); [| intros [= <-]; by eapply accounted_same].
    intros ([[sz q] w] & Eb & E)%outcome_bind_inv. injection E as <-. by eapply accounted_poll.
  - intros [= <-]. by eapply accounted_same.
  - destruct (aq_pop (in_buf mux)) as [[pkt|] q] eqn:Eq.
    + destruct (route _ _ _ _ _) as [[[t|] w]| |] eqn:Er; intros [= <-]; simpl; [| done].
      by eapply accounted_route.
    + intros [= <-]. by apply accounted_empty.
Qed.

(** A step of another thread: it keeps the main thread where it is. *)
Lemma conserved_other s s' :
  conserved s → g_main s' = g_main s → star mstep (g_threads s) (g_threads s') →
  (quiet s → quiet s' ∧ g_world s' = g_world s) → (∀ mux, accounted s mux → accounted s' mux) →
  conserved s'.
Proof.
  intros C Em R Hq Ha. unfold conserved in *. rewrite Em.
  assert (Hi : minv (g_threads s) → minv (g_threads s')).
  { intros I. eapply star_invariant; [exact I | | exact R]. intros. by eapply minv_mstep. }
  destruct (g_main s); try done; try (by apply Ha);
    destruct C as (Q' & I & St); destruct (Hq Q') as [? ->]; auto.
Qed.

Lemma conserved_step s s' : conserved s → Program.step s s' → conserved s'.
Proof.
  intros C Hs. pose proof (step_mstep _ _ Hs) as R.
  destruct Hs as [u v _ E | j mem u v _ _ E | j u v _ E | u v _ E | u _].
  - destruct (listener_step_threads _ _ E) as (Ev & _). apply (conserved_other u v C Ev R).
    + intros Hq. by apply quiet_listener.
    + intros mux Ha. by eapply accounted_listener.
  - destruct (client_open_threads _ _ _ _ E) as (Ev & _). apply (conserved_other u v C Ev R).
    + intros Hq. by eapply quiet_open.
    + intros mux Ha. by eapply accounted_open.
  - destruct (client_recv_threads _ _ _ E) as (Ev & _). apply (conserved_other u v C Ev R).
    + intros Hq. by eapply quiet_recv.
    + intros mux Ha. by eapply accounted_recv.
  - by eapply conserved_main.
  - apply (conserved_other u (stop_running u) C); [done | done | by intros [] |].
    intros mux Ha. by eapply accounted_same.
Qed.

Lemma conserved_start (w : world H) k : setting ch mp U rg0 (obs w) → conserved (Program.start w k).
Proof.
  intros St. unfold conserved. simpl. split_and!; [| apply reachable_minv; constructor | done].
  split; simpl; try constructor. apply map_Forall_empty.
Qed.

(** The places of the buffers when the main thread holds [h]. *)
Definition places s (h : gmultiset ptr) : Prop :=
  ∃ free lost rg, d_pools (obs (g_world s)) !! mp = Some free ∧
    d_rings (obs (g_world s)) !! ring_raw (to_packetiser ch) = Some rg ∧
    rg_items rg0 = lost ++ rg_items rg ∧
    free ⊎ h ⊎ queued (g_threads s) ⊎ handed (g_threads s) = U.

Lemma accounted_places s mux : accounted s mux → places s (held mux).
Proof. intros [_ _ _ (lost & rg & ? & _ & ?) _ (free & ? & ?) _]. by exists free, lost, rg. Qed.

Lemma setting_places s : quiet s → setting ch mp U rg0 (obs (g_world s)) → places s ∅.
Proof.
  intros Hq [_ ? _ _ ?]. exists U, [], rg0. split_and!; try done.
  rewrite quiet_queued by done. unfold handed. rewrite quiet_delivered by done. simpl. multiset_solver.
Qed.

(** Where the buffers are, in every phase of [main]. *)
Lemma conserved_places s :
  conserved s → Program.alive s = true → places s (main_held (g_main s)).
Proof.
  unfold conserved, Program.alive. destruct (g_main s); try done; intros C _;
    try (by destruct C as (? & ? & ?); apply setting_places); by apply accounted_places.
Qed.
End conservation.

(** ** Properties *)

Section properties.
Context {prof : profile} {EN : Errno} {EP : Etherparse} {PN : Pnet}.
Context {H K Q : Type} {DP : Dpdk H} {CC : CtrlC H} {AQ : ArrayQueue Q}.
Context {SC : SocketCalls K} {HC : ShmCalls K} {LC : ListenerCalls K}.
Context {ML : MempoolLaws H} {RL : RingLaws H} {AL : ArrayQueueLaws Q} {PL : PnetLaws}.
Context {LE : EalLaws H} {LS : CtrlCLaws H}.

(** C11: the buffers are conserved by the multiplexer, from the start of [main] to
    the end of the process and whatever the order of the threads.  Let [U] be
    the free buffers of its pool and [rg0] the ring from the engine at the
    start.  Then at any time each buffer is in as many places as it was at the
    start, and the places are: free in the pool, in [in_buf] or [out_buf], in the
    channel of a client, handed to a client, still in the ring, or among the
    [lost] ones, the oldest entries of the ring that were taken out of it.  Those
    in the first four places are exactly the [U], so that what is taken out of
    the ring gets to none of them: it is lost for good, as a buffer that was
    handed to a client is; and no buffer that occurs once is freed twice, or is
    in use and free at the same time.  (The theorem does not assume that
    [incoming()] never ends.  If it never does, the main thread stays in its
    scope and nothing moves.  The steps are those of the multiplexer's process;
    the engine's loop leaves the rings alone, see
    [Engine.engine_loop_is_a_sink].) *)
Theorem buffers_conserved ch mp U rg0 (w : world H) k (s : prog H K Q) :
  setting ch mp U rg0 (obs w) → star Program.step (Program.start w k) s → Program.alive s = true →
  ∃ free lost rg,
    d_pools (obs (g_world s)) !! mp = Some free ∧
    d_rings (obs (g_world s)) !! ring_raw (to_packetiser ch) = Some rg ∧
    rg_items rg0 = lost ++ rg_items rg ∧
    free ⊎ main_held (g_main s) ⊎ queued (g_threads s) ⊎ handed (g_threads s) = U ∧
    (∀ p, multiplicity p (U ⊎ bag (rg_items rg0)) = 1%nat →
       p ∈ handed (g_threads s) ∨ p ∈ lost →
       ¬ (p ∈ free ∨ p ∈ main_held (g_main s) ∨ p ∈ queued (g_threads s) ∨ p ∈ rg_items rg)).
Proof.
  intros St R Hal. assert (C : conserved ch mp U rg0 s).
  { eapply star_invariant; [by apply conserved_start | apply conserved_step | exact R]. }
  destruct (conserved_places ch mp U rg0 s C Hal) as (free & lost & rg & E1 & E2 & E3 & E4).
  exists free, lost, rg. split_and!; try done. intros p Hp Hh.
  rewrite <- E4, E3 in Hp. unfold bag in Hp. rewrite list_to_set_disj_app in Hp.
  rewrite !multiplicity_disj_union in Hp.
  rewrite <- !(elem_of_list_to_set_disj _ (A := ptr)) in *.
  rewrite !elem_of_multiplicity in *. lia.
Qed.
End properties.

(** ** Witnesses *)

#[local] Existing Instance linux_errno.
#[local] Existing Instance ending_listener.

(** A run of the two threads: [true] is a step of the listener. *)
Definition turn (b : bool) (s : prog sim_hw sim_kernel list_queue)
    : outcome (option (prog sim_hw sim_kernel list_queue)) :=
  if b then Program.listener_step s else Program.main_step (prof := Debug) s.

Fixpoint turns (l : list bool) (s : prog sim_hw sim_kernel list_queue)
    : prog sim_hw sim_kernel list_queue :=
  match l, Program.alive s with
  | b :: l, true => match turn b s with Done (Some s') => turns l s' | _ => s end
  | _, _ => s
  end.

Lemma turns_star l s : star (Program.step (prof := Debug)) s (turns l s).
Proof.
  revert s. induction l as [|b l IH]; intros s; simpl; [constructor |].
  destruct (Program.alive s) eqn:Ea; [| constructor].
  destruct (turn b s) as [[s'|]| |] eqn:E; try constructor.
  eapply star_step; [| apply IH].
  destruct b; [apply Program.s_listener | apply Program.s_main]; solve [done | by rewrite Ea].
Qed.

(** The listener binds its socket and its iterator ends; the main thread leaves
    the scope, sets up the multiplexer, polls once and starts to process what
    it has queued. *)
Definition after_poll : prog sim_hw sim_kernel list_queue :=
  turns [true; true; false; false; false; false; false; false; false]
    (Program.start sample_world fd_kernel).

Lemma sample_setting :
  setting sample_channel 1 {[+ 1000; 1001; 1002 +]} (RteRing 511 [1500]) (obs sample_world).
Proof.
  split; try reflexivity; [| discriminate]. exists 1, 2. split_and!; try reflexivity; discriminate.
Qed.

(** One buffer of the pool waits in [in_buf]; the packet 1500 of the ring is lost. *)
Lemma buffers_conserved_witness :
  ∃ free, d_pools (obs (g_world after_poll)) !! 1 = Some free ∧
    free ⊎ main_held (g_main after_poll) ⊎ queued (g_threads after_poll)
      ⊎ handed (g_threads after_poll) = {[+ 1000; 1001; 1002 +]} ∧
    ¬ (1500 ∈ free) ∧ ¬ (1500 ∈ main_held (g_main after_poll)) ∧
    (match g_main after_poll with MDrain mux n => (n, length (lq_items (in_buf mux))) | _ => (0%nat, 0%nat) end)
    = (1%nat, 1%nat).
Proof.
  destruct (buffers_conserved (prof := Debug) sample_channel 1 {[+ 1000; 1001; 1002 +]}
    (RteRing 511 [1500]) sample_world fd_kernel after_poll sample_setting (turns_star _ _))
    as (free & lost & rg & E1 & E2 & E3 & E4 & E5); [vm_compute; reflexivity |].
  assert (Er : rg_items rg = []).
  { assert (E : (rg_items <$> (d_rings (obs (g_world after_poll)) !! 2)) = Some []) by (vm_compute; reflexivity).
    change (ring_raw (to_packetiser sample_channel)) with 2 in E2. rewrite E2 in E. by injection E. }
  assert (Hn : ¬ (1500 ∈ free ∨ 1500 ∈ main_held (g_main after_poll)
    ∨ 1500 ∈ queued (g_threads after_poll) ∨ 1500 ∈ rg_items rg)).
  { apply E5; [vm_compute; reflexivity |]. right. rewrite Er, app_nil_r in E3. rewrite <- E3. left. }
  exists free. split_and!; [exact E1 | exact E4 | tauto | tauto | vm_compute; reflexivity].
Defined.
