(* ===== verification/System.v ===== *)
(** * The engine and the multiplexer together

    The engine's loop ([l3enginelib/src/main.rs]) and the multiplexer's
    program ([l3enginemux/src/main.rs]) as two processes that share DPDK's
    memory: the rings of the channel, the mempool and the devices.  The steps
    of the multiplexer are those of [MuxProgram.v]; the engine moves by one
    call of [recv_pkts] or [xmit_pkts] at a time. *)

From S2P Require Import Prelude Errors Mbuf Dpdk Sim Mempool Memring Port Engine RingBuf FdPass.
From S2P Require Import MemEnpsf FiveTuple Mux MuxMain MuxProgram Ownership Conservation.

(** The vectors [in_pkts] and [out_pkts] of the engine, and the multiplexer
    with the shared state. *)
Record system (H K Q : Type) := System { y_in : vec; y_out : vec; y_mux : prog H K Q }.
Arguments System {H K Q}.
Arguments y_in {H K Q}.
Arguments y_out {H K Q}.
Arguments y_mux {H K Q}.

Section system.
Context {prof : profile} {EN : Errno} {EP : Etherparse} {PN : Pnet}.
Context {H K Q : Type} {DP : Dpdk H} {CC : CtrlC H} {AQ : ArrayQueue Q}.
Context {SC : SocketCalls K} {HC : ShmCalls K} {LC : ListenerCalls K}.

(** The device and the channel of the engine. *)
Variables (port : Port_t) (ch : Channel_t).

Inductive sstep : system H K Q → system H K Q → Prop :=
  | y_recv i o s n i' w' : Engine.recv_pkts port i ch (g_world s) = Done ((n, i'), w') →
      sstep (System i o s) (System i' o (set_world w' s))
  | y_xmit i o s n o' w' : Engine.xmit_pkts port o ch (g_world s) = Done ((n, o'), w') →
      sstep (System i o s) (System i o' (set_world w' s))
  | y_prog i o s s' : Program.step s s' → sstep (System i o s) (System i o s').

(** The start of the system: the engine has created its channel and enters its
    loop, and the multiplexer is at the start of its [main]. *)
Definition system_start (w : world H) (k : K) : system H K Q :=
  System (vec_with_capacity Engine.QUEUE_SZ) (vec_with_capacity Engine.QUEUE_SZ) (Program.start w k).

(** The multiplexer [mux] is on the channel and has no packet. *)
Definition idle {AL : ArrayQueueLaws Q} (mux : Mux_t Q) : Prop :=
  channel mux = ch ∧ aq_items (in_buf mux) = [] ∧ aq_capacity (in_buf mux) < 2 ^ 32.

(** The main thread has not got to the processing of a packet; before
    [Mux::new] the channel is there to be found. *)
Definition waiting {AL : ArrayQueueLaws Q} (o : dpdk) (m : main_pc Q) : Prop :=
  match m with
  | MScope | MNew => channel_named ch o
  | MStart mux | MSignal mux | MOuter mux | MPoll mux => idle mux
  | MDrain _ _ | MEnded | MPanicked => False
  end.
End system.

(** ** Invariant *)

Section invariant.
Context {prof : profile} {EN : Errno} {EP : Etherparse} {PN : Pnet}.
Context {H K Q : Type} {DP : Dpdk H} {CC : CtrlC H} {AQ : ArrayQueue Q}.
Context {SC : SocketCalls K} {HC : ShmCalls K} {LC : ListenerCalls K}.
Context {ML : MempoolLaws H} {RL : RingLaws H} {EL : EthLaws H} {AL : ArrayQueueLaws Q}.
Context {LE : EalLaws H} {LS : CtrlCLaws H}.
Variables (port : Port_t) (ch : Channel_t).

(** Nothing is under way: the ring to the packetiser and the engine's vectors
    are empty, the multiplexer waits, and the device has at most the packets
    [sent] in transmission. *)
Record silent (c1 c2 : Z) (sent : gmultiset ptr) (y : system H K Q) : Prop := {
  si_in : y_in y = Vec [] c1;
  si_out : y_out y = Vec [] c2;
  si_channel : channel_ok ch (obs (g_world (y_mux y)));
  si_ring : ∃ cap, d_rings (obs (g_world (y_mux y))) !! ring_raw (to_packetiser ch)
    = Some (RteRing cap []);
  si_port : ∃ e, d_ports (obs (g_world (y_mux y))) !! id port = Some e ∧ ep_inflight e ⊆ sent;
  si_main : waiting ch (obs (g_world (y_mux y))) (g_main (y_mux y))
}.

(** The invariant: no packet is under way as long as the process of the
    multiplexer lives, and none has got to a client. *)
Record nothing_moves (c1 c2 : Z) (sent : gmultiset ptr) (y : system H K Q) : Prop := {
  nm_quiet : quiet (y_mux y);
  nm_silent : Program.alive (y_mux y) = true → silent c1 c2 sent y
}.

(** [Mux::new] finds the channel; the multiplexer it returns has no packet. *)
Lemma new_idle (w w' : world H) mux :
  channel_named ch (obs w) → Mux.new w = Done (Some mux, w') → idle ch mux ∧ obs w' = obs w.
Proof.
  intros Hn E. destruct (channel_lookup_named ch w Hn) as (w1 & E1 & O1).
  pose proof (mux_new_run w ch w1 E1 O1) as R. destruct (NonNull_new _) as [mp|].
  - destruct R as (w2 & E2 & Eo). rewrite E2 in E. injection E as <- <-. split; [| done].
    destruct (aq_new_ok 512 ltac:(lia)) as [Q1 Q2]. unfold idle. simpl. rewrite Q1, Q2.
    split_and!; solve [done | lia].
  - destruct R as (? & ? & _ & _ & E2). by rewrite E2 in E.
Qed.

(** One turn of the polling loop: nothing comes. *)
Lemma poll_nothing (s : prog H K Q) mux cap :
  g_main s = MPoll mux → aq_items (in_buf mux) = [] → aq_capacity (in_buf mux) < 2 ^ 32 →
  d_rings (obs (g_world s)) !! ring_raw (to_packetiser (channel mux)) = Some (RteRing cap []) →
  ∃ q w', Program.main_step s = Done (Some (set_world w' (set_main (MPoll (set_in_buf q mux)) s))) ∧
    aq_items q = [] ∧ aq_capacity q = aq_capacity (in_buf mux) ∧
    d_rings (obs w') = d_rings (obs (g_world s)) ∧ d_ports (obs w') = d_ports (obs (g_world s)).
Proof.
  intros Em Hi Hc Hr. destruct (recv_burst_run mux (g_world s) (RteRing cap []) Hc Hr)
    as (lost & kept & fresh & q & w' & E & El & Ef & Er & Eq & Ec & Ed & _).
  simpl in El. symmetry in El. apply app_nil in El as [-> ->].
  apply nil_length_inv in Ef. subst fresh. rewrite Hi in Eq. simpl in *.
  exists q, w'. unfold Program.main_step. rewrite Em, aq_is_empty_ok, bool_decide_eq_true_2 by done.
  rewrite E. split_and!; try done. rewrite Er. by apply insert_id.
Qed.

Lemma channel_ok_rings o o' : d_rings o' = d_rings o → channel_ok ch o → channel_ok ch o'.
Proof. unfold channel_ok. by intros ->. Qed.

Lemma waiting_names o o' (m : main_pc Q) :
  d_ring_names o' = d_ring_names o → waiting ch o m → waiting ch o' m.
Proof. intros E. unfold waiting, channel_named. destruct m; rewrite ?E; done. Qed.

(** A step of the engine: it leaves the rings alone, and the device at most as
    busy. *)
Lemma silent_world c1 c2 sent (y : system H K Q) w' e' :
  silent c1 c2 sent y → d_rings (obs w') = d_rings (obs (g_world (y_mux y))) →
  d_ring_names (obs w') = d_ring_names (obs (g_world (y_mux y))) →
  d_ports (obs w') !! id port = Some e' → ep_inflight e' ⊆ sent →
  silent c1 c2 sent (System (y_in y) (y_out y) (set_world w' (y_mux y))).
Proof.
  intros [? ? ? [cap Hr] ? Hm] Er En Ep Hs.
  split; simpl; try done;
    [by eapply channel_ok_rings | exists cap; by rewrite Er | by eauto | by eapply waiting_names].
Qed.

(** A step of the multiplexer that leaves the rings and the devices alone. *)
Lemma silent_prog c1 c2 sent (y : system H K Q) s' :
  silent c1 c2 sent y → d_rings (obs (g_world s')) = d_rings (obs (g_world (y_mux y))) →
  d_ports (obs (g_world s')) = d_ports (obs (g_world (y_mux y))) →
  waiting ch (obs (g_world s')) (g_main s') → silent c1 c2 sent (System (y_in y) (y_out y) s').
Proof.
  intros [? ? ? [cap Hr] (e & He & ?) _] Er Ep Hm.
  split; simpl; try done; [by eapply channel_ok_rings | exists cap; by rewrite Er | exists e; by rewrite Ep].
Qed.

(** A step of the main thread that waits. *)
Lemma waiting_step (s s' : prog H K Q) cap :
  d_rings (obs (g_world s)) !! ring_raw (to_packetiser ch) = Some (RteRing cap []) →
  waiting ch (obs (g_world s)) (g_main s) → Program.main_step s = Done (Some s') →
  g_threads s' = g_threads s ∧
  (Program.alive s' = true →
   d_rings (obs (g_world s')) = d_rings (obs (g_world s)) ∧
   d_ports (obs (g_world s')) = d_ports (obs (g_world s)) ∧ waiting ch (obs (g_world s')) (g_main s')).
Proof.
  intros Hr Hw E. pose proof E as E'. unfold Program.main_step in E'. unfold waiting in Hw.
  destruct (g_main s) as [| | mux | mux | mux | mux | |  |] eqn:Em; try done.
  - destruct (g_listener s); try done; by injection E' as <-.
  - apply outcome_bind_inv in E' as ([r w] & En & E'). injection E' as <-. split; [done |].
    destruct r as [mux|]; [| done]. intros _. simpl.
    destruct (new_idle _ _ _ Hw En) as [Hi Eo]. by rewrite Eo.
  - destruct (Mux.start _) as [[[] w]| |] eqn:Es; [| by injection E' as <- | done].
    injection E' as <-. split; [done |]. intros _. simpl. by rewrite (start_obs _ _ Es).
  - pose proof (set_handler_obs (g_world s)) as Eo. destruct (set_handler _) as [ok w].
    injection E' as <-. simpl in *. split; [done |]. destruct ok; [by rewrite Eo | done].
  - destruct (g_run s); [by injection E' as <- |].
    apply outcome_bind_inv in E' as ([[] w] & _ & E'). by injection E' as <-.
  - destruct Hw as (Ech & Hi & Hc).
    destruct (poll_nothing s mux cap Em Hi Hc) as (q & w' & Es & Eq & Ec & Er & Ep); [by rewrite Ech |].
    rewrite Es in E. injection E as <-. split; [done |]. intros _. simpl. rewrite Er, Ep.
    split_and!; try done. split_and!; simpl; [done | done | lia].
Qed.

Lemma quiet_threads (s s' : prog H K Q) : quiet s → g_threads s' = g_threads s → g_devs s' = g_devs s → quiet s'.
Proof. intros [] E1 E2. by split; rewrite ?E1, ?E2. Qed.

(** The multiplexer may run alone. *)
Lemma star_prog i o (s s' : prog H K Q) : star Program.step s s' → star (sstep port ch) (System i o s) (System i o s').
Proof. induction 1 as [|s1 s2 s3 H1 _ IH]; [constructor |]. eapply star_step; [by apply y_prog | done]. Qed.

(** The steps of the whole system. *)
Lemma nothing_moves_step c1 c2 sent (y y' : system H K Q) :
  vec_ok (Vec [] c1) → vec_ok (Vec [] c2) →
  nothing_moves c1 c2 sent y → sstep port ch y y' → nothing_moves c1 c2 sent y'.
Proof.
  intros V1 V2 [Hq Hs] Hy. destruct Hy as [i o s n i' w' E | i o s n o' w' E | i o s s' E]; simpl in *.
  - split; [by destruct Hq |]. intros Hal. simpl in Hal.
    assert (I : silent c1 c2 sent (System i o s)) by (apply Hs; exact Hal).
    pose proof I as [Ei Eo Hch [cap Hr] (e & He & Hsub) Hm]. simpl in *. subst i o.
    destruct (recv_pkts_run port (Vec [] c1) ch (g_world s) V1 Hch) as (ps & w1 & E1 & R1 & D1 & _ & _ & N1).
    assert (i' = Vec [] c1 ∧ w' = w1) as [-> ->].
    { rewrite E1 in E. case_decide; by injection E as <- <- <-. }
    eapply (silent_world _ _ _ (System (Vec [] c1) (Vec [] c2) s) w1 e); try done. by rewrite D1.
  - split; [by destruct Hq |]. intros Hal. simpl in Hal.
    assert (I : silent c1 c2 sent (System i o s)) by (apply Hs; exact Hal).
    pose proof I as [Ei Eo Hch [cap Hr] (e & He & Hsub) Hm]. simpl in *. subst i o.
    destruct (xmit_pkts_run port c2 ch (g_world s) e V2 Hch He) as (w1 & E1 & R1 & N1 & e1 & He1 & Hs1).
    rewrite E1 in E. injection E as <- <- <-.
    eapply (silent_world _ _ _ (System (Vec [] c1) (Vec [] c2) s) w1 e1); try done. by transitivity (ep_inflight e).
  - pose proof (Hs (step_alive _ _ E)) as I. pose proof I as [_ _ _ [cap Hr] _ Hm]. simpl in *.
    destruct (quiet_step _ _ Hq E) as [Em | (Hq' & Ew & Em)].
    + destruct (waiting_step s s' cap Hr Hm Em) as [Et Hl].
      destruct (main_step_threads _ _ Em) as [Ed _].
      split; [by eapply quiet_threads |]. intros Hal. destruct (Hl Hal) as (Er & Ep & Hm').
      by eapply (silent_prog _ _ _ (System i o s)).
    + split; [done |]. intros _. by eapply (silent_prog _ _ _ (System i o s)); rewrite ?Ew, ?Em.
Qed.

(** The polling loop is not left: its condition does not look at [keep_running]. *)
Lemma polling_step c1 c2 sent (y y' : system H K Q) :
  nothing_moves c1 c2 sent y → (∃ mux, g_main (y_mux y) = MPoll mux) → sstep port ch y y' →
  ∃ mux, g_main (y_mux y') = MPoll mux.
Proof.
  intros [Hq Hs] [mux Em] Hy.
  destruct (Hs ltac:(unfold Program.alive; by rewrite Em)) as [_ _ _ [cap Hr] _ Hm].
  destruct Hy as [i o s n i' w' E | i o s n o' w' E | i o s s' E]; simpl in *; [by eauto | by eauto |].
  destruct (quiet_step _ _ Hq E) as [E' | (_ & _ & ->)]; [| by eauto].
  rewrite Em in Hm. destruct Hm as (Ech & Hi & Hc). rewrite <- Ech in Hr.
  destruct (poll_nothing s mux cap Em Hi Hc Hr) as (q & w' & Es & _).
  rewrite Es in E'. injection E' as <-. by eexists.
Qed.

(** The start of both processes. *)
Lemma start_nothing_moves (w w1 : world H) e (k : K) :
  Channel.new w = Done (Ok ch, w1) → d_ports (obs w) !! id port = Some e →
  nothing_moves Engine.QUEUE_SZ Engine.QUEUE_SZ (ep_inflight e) (system_start w1 k).
Proof.
  intros Ec Hp. destruct (channel_new_run w)
    as [(err & w' & E & _) | (c & w' & w'' & E & _ & R1 & R2 & _ & _ & D1 & _ & N)];
    rewrite E in Ec; simplify_eq.
  split; [split; simpl; try constructor; apply map_Forall_empty |]. intros _. split; simpl; try done.
  - exists (RteRing 511 []), (RteRing 511 []). split_and!; simpl; solve [done | lia].
  - by eexists.
  - exists e. by rewrite D1.
Qed.
End invariant.

(** ** Properties *)

Section properties.
Context {prof : profile} {EN : Errno} {EP : Etherparse} {PN : Pnet}.
Context {H K Q : Type} {DP : Dpdk H} {CC : CtrlC H} {AQ : ArrayQueue Q}.
Context {SC : SocketCalls K} {HC : ShmCalls K} {LC : ListenerCalls K}.
Context {ML : MempoolLaws H} {RL : RingLaws H} {EL : EthLaws H} {AL : ArrayQueueLaws Q}.
Context {LE : EalLaws H} {LS : CtrlCLaws H}.
Variables (port : Port_t) (ch : Channel_t).

(** C20: the system moves no packet from end to end.  Let the engine create its
    channel and enter its loop, and let the multiplexer's program start.  Then
    for every interleaving of the two processes, the clients and Ctrl+C, and
    whatever the device receives: no packet gets to a client.  As long as the
    multiplexer lives, the ring to the packetiser stays empty, and the device is
    not given a packet to send.  And should its main thread get to the polling
    loop, then it polls for ever: [in_buf] is empty, a next turn exists, and
    whatever happens then, Ctrl+C included, it is still in that loop.

    The engine's [main] does not get to its loop with the device's configuration
    as it is (see [Engine.engine_main_panics]), and the multiplexer's main thread
    leaves its scope only if [incoming()] ends, which the theorem does not exclude
    (see [MuxProgram.main_never_leaves_scope]): the statement is that nothing
    moves even if these two faults are repaired. *)
Theorem no_packet_end_to_end (w w1 : world H) e (k : K) (y : system H K Q) :
  Channel.new w = Done (Ok ch, w1) → d_ports (obs w) !! id port = Some e →
  star (sstep port ch) (system_start w1 k) y →
  delivered (g_threads (y_mux y)) = [] ∧
  (Program.alive (y_mux y) = true →
   (∃ cap, d_rings (obs (g_world (y_mux y))) !! ring_raw (to_packetiser ch) = Some (RteRing cap [])) ∧
   ∃ e', d_ports (obs (g_world (y_mux y))) !! id port = Some e' ∧ ep_inflight e' ⊆ ep_inflight e) ∧
  (∀ mux, g_main (y_mux y) = MPoll mux →
   aq_items (in_buf mux) = [] ∧
   (∃ s mux', Program.main_step (y_mux y) = Done (Some s) ∧ g_main s = MPoll mux') ∧
   ∀ y', star (sstep port ch) y y' → ∃ mux', g_main (y_mux y') = MPoll mux').
Proof.
  intros Ec Hp R. pose proof (start_nothing_moves port ch w w1 e k Ec Hp) as I.
  assert (V : vec_ok (Vec [] Engine.QUEUE_SZ)) by (by split).
  assert (Iy : nothing_moves port ch Engine.QUEUE_SZ Engine.QUEUE_SZ (ep_inflight e) y).
  { eapply star_invariant; [exact I | | exact R]. intros u v Iu Huv. by eapply nothing_moves_step. }
  pose proof Iy as [Hq Hs]. split; [by apply quiet_delivered |]. split.
  - intros Hal. by destruct (Hs Hal) as [_ _ _ Hr He _].
  - intros mux Em. destruct (Hs ltac:(unfold Program.alive; by rewrite Em)) as [_ _ _ [cap Hr] _ Hm].
    rewrite Em in Hm. destruct Hm as (Ech & Hi & Hc). rewrite <- Ech in Hr.
    split; [done |]. destruct (poll_nothing (y_mux y) mux cap Em Hi Hc Hr) as (q & w' & Es & _).
    split; [by eexists _, _ |]. intros y' R'.
    apply (star_invariant (sstep port ch) (λ y, nothing_moves port ch Engine.QUEUE_SZ Engine.QUEUE_SZ
      (ep_inflight e) y ∧ ∃ mux, g_main (y_mux y) = MPoll mux) y y'); [by eauto | | done].
    intros u v [Iu Hu] Huv. split; [by eapply nothing_moves_step | by eapply polling_step].
Qed.
End properties.

(** ** Witnesses *)

#[local] Existing Instance linux_errno.
#[local] Existing Instance ending_listener.

(** The sample state without rings, on which the engine creates its own. *)
Definition ringless_world : sim :=
  set_obs (set_rings ∅ (set_ring_names ∅ sample_obs)) sample_world.

Definition channel_world : Channel_t * sim :=
  match Channel.new ringless_world with Done (Ok c, w) => (c, w) | _ => (sample_channel, ringless_world) end.

(** The multiplexer leaves the scope and gets to its polling loop; then Ctrl+C
    arrives. *)
Definition sample_polling : prog sim_hw sim_kernel list_queue :=
  turns [true; true; false; false; false; false; false; false]
    (Program.start channel_world.2 fd_kernel).

Definition sample_stopped : system sim_hw sim_kernel list_queue :=
  System (Vec [] 32) (Vec [] 32) (stop_running sample_polling).

Lemma no_packet_end_to_end_witness :
  ∃ mux, g_main (y_mux sample_stopped) = MPoll mux ∧ g_run (y_mux sample_stopped) = false ∧
    aq_items (in_buf mux) = [] ∧
    ∀ y', star (sstep (prof := Debug) sample_port channel_world.1) sample_stopped y' →
      ∃ mux', g_main (y_mux y') = MPoll mux'.
Proof.
  assert (R : star (sstep (prof := Debug) sample_port channel_world.1)
    (system_start channel_world.2 fd_kernel) sample_stopped).
  { eapply star_trans; [apply star_prog, turns_star |]. apply star_one, y_prog. by apply Program.s_signal. }
  destruct (no_packet_end_to_end (prof := Debug) sample_port channel_world.1 ringless_world
    channel_world.2 (EthPort 0 0 [] [] false false ∅) fd_kernel sample_stopped) as (_ & _ & P);
    [reflexivity | reflexivity | exact R |].
  destruct (g_main (y_mux sample_stopped)) as [| | | | | mux | | |] eqn:Em;
    try (vm_compute in Em; discriminate Em).
  destruct (P mux eq_refl) as (Hi & _ & Hp). exists mux. split_and!; [done | reflexivity | exact Hi | exact Hp].
Defined.
