(* ===== verification/LoopApis.v ===== *)
(** * The copy of the library in the loop-back engine ([dpdk_loop/l3engine/src/apis])

    The crate has no dependency on [l3enginelib]: it has a copy of its [apis].
    [mbuf.rs], [mod.rs] and [mempool.rs] are the same files, [memring.rs]
    differs in its layout and one debug print, and [port.rs] in debug prints
    and in [configure].  The functions are therefore those of the library; the
    modules below give them the names by which this crate imports them, and
    choose its version of [configure]. *)

From S2P Require Import Prelude Errors Mbuf Dpdk Mempool Memring Port Engine.

(** [apis/mbuf.rs]: the methods on the packet. *)
Module Mbuf.
Section methods.
Context {prof : profile}.

Definition data_len := Mbuf.Mbuf.data_len.
Definition data_address := Mbuf.Mbuf.data_address.
Definition tailroom := Mbuf.Mbuf.tailroom.
Definition extend := Mbuf.Mbuf.extend.
Definition shrink := Mbuf.Mbuf.shrink.
Definition resize := Mbuf.Mbuf.resize.
Definition truncate := Mbuf.Mbuf.truncate.
Definition read_data (T : Type) `{SizeOf T} := Mbuf.Mbuf.read_data T.
Definition read_data_slice (T : Type) `{SizeOf T} := Mbuf.Mbuf.read_data_slice T.
Definition write_data_slice {T : Type} `{SizeOf T} := Mbuf.Mbuf.write_data_slice (T := T).
End methods.
End Mbuf.

(** [apis/mbuf.rs]: the trait [SizeOf] and its implementations. *)
Module Sizes.
Definition SizeOf : Type → Type := Mbuf.SizeOf.
Definition SizeOf_unit : SizeOf unit := Mbuf.SizeOf_unit.
Definition SizeOf_u8 : SizeOf u8 := Mbuf.SizeOf_u8.
Definition SizeOf_arr2 : SizeOf _ := Mbuf.SizeOf_arr2.
Definition SizeOf_arr16 : SizeOf _ := Mbuf.SizeOf_arr16.
Definition SizeOf_Ipv6Addr : SizeOf _ := Mbuf.SizeOf_Ipv6Addr.
End Sizes.

(** [apis/mempool.rs]. *)
Module Mempool.
Section mempool.
Context {EN : Errno} {H : Type} {DP : Dpdk H}.

Definition new := Mempool.Mempool.new.
Definition lookup := Mempool.Mempool.lookup.
Definition drop := Mempool.Mempool.drop.
End mempool.
End Mempool.

(** [apis/mbuf.rs] and [apis/mod.rs]: allocation and release of buffers. *)
Module MbufPool.
Section mbuf.
Context {prof : profile} {H : Type} {DP : Dpdk H}.

Definition new := Mempool.MbufPool.new.
Definition from_bytes := Mempool.MbufPool.from_bytes.
Definition alloc_bulk := Mempool.MbufPool.alloc_bulk.
Definition free_bulk := Mempool.MbufPool.free_bulk.
Definition mbuf_free_bulk := Mempool.MbufPool.mbuf_free_bulk.
Definition mod_mbuf_free_bulk := Mempool.MbufPool.mod_mbuf_free_bulk.
Definition drop := Mempool.MbufPool.drop.
Definition drop_all := for_each drop.
End mbuf.
End MbufPool.

(** [apis/memring.rs]. *)
Module Ring.
Section ring.
Context {EN : Errno} {H : Type} {DP : Dpdk H}.

Definition from_ptr := Memring.Ring.from_ptr.
Definition new := Memring.Ring.new.
Definition name := Memring.Ring.name.
Definition lookup := Memring.Ring.lookup.
Definition enqueue := Memring.Ring.enqueue.
Definition dequeue := Memring.Ring.dequeue.
Definition enqueue_bulk := Memring.Ring.enqueue_bulk.
Definition dequeue_burst := Memring.Ring.dequeue_burst.
Definition drop := Memring.Ring.drop.
End ring.
End Ring.

Module Channel.
Section channel.
Context {EN : Errno} {H : Type} {DP : Dpdk H}.

Definition new := Memring.Channel.new.
Definition lookup := Memring.Channel.lookup.
Definition send_to_engine := Memring.Channel.send_to_engine.
Definition receive_from_engine := Memring.Channel.receive_from_engine.
Definition send_to_packetiser := Memring.Channel.send_to_packetiser.
Definition receive_from_packetiser := Memring.Channel.receive_from_packetiser.
Definition send_to_packetiser_bulk := Memring.Channel.send_to_packetiser_bulk.
Definition recv_from_packetiser_bulk := Memring.Channel.recv_from_packetiser_bulk.
Definition send_to_engine_bulk := Memring.Channel.send_to_engine_bulk.
Definition recv_from_engine_burst := Memring.Channel.recv_from_engine_burst.
Definition drop := Memring.Channel.drop.
End channel.
End Channel.

(** [apis/port.rs]: [configure] is the one of [Port.v] that rounds the number of
    cores up before [rte_eth_dev_configure]. *)
Module Port.
Section port.
Context {prof : profile} {EN : Errno} {H : Type} {DP : Dpdk H}.

Definition new := Port.Port.new.
Definition configure := Port.Port.configure_loop.
Definition start := Port.Port.start.
Definition get_name := Port.Port.get_name.
Definition receive := Port.Port.receive.
Definition send := Port.Port.send.
End port.
End Port.

(** [apis/mod.rs]: strings, error decoders, start-up and clean-up. *)
Module Eal.
Section eal.
Context {EN : Errno} {H : Type} {DP : Dpdk H}.

Definition to_cstring := Errors.to_cstring.
Definition MemoryError := Errors.MemoryError.
Definition RingClientMapError := Errors.RingClientMapError.
Definition BufError := Errors.BufError.
Definition PortError := Errors.PortError.
Definition EALErrors := Errors.EALErrors.
Definition MemoryError_from_nul := Errors.MemoryError_from_nul.
Definition RingClientMapError_from := Errors.RingClientMapError_from.
Definition MemoryError_new := Errors.MemoryError_new.
Definition PortError_new := Errors.PortError_new.
Definition EALErrors_new := Errors.EALErrors_new.
Definition eal_init := Engine.Eal.eal_init.
Definition eal_cleanup := Engine.Eal.eal_cleanup.
End eal.
End Eal.
