(* ===== verification/Loop.v ===== *)
(** * The loop-back engine ([dpdk_loop/l3engine/src/main.rs])

    A variant of the engine with two devices and no multiplexer, over its own
    copy of the library ([LoopApis.v]). *)

From S2P Require Import Prelude Errors Mbuf Dpdk Sim Shim Mempool Memring Port Engine FiveTuple LoopApis.

(** [FiveTuple] of this crate has no port. *)
Record LoopTuple := MkLoopTuple {
  lt_src_mac : Mac; lt_src_ip : Ipv4Addr; lt_dst_mac : Mac; lt_dst_ip : Ipv4Addr; lt_ethertype : Z }.

Module Loop.
Section loop.
Context {EP : Etherparse} {prof : profile} {EN : Errno} {PN : Pnet} {H : Type} {DP : Dpdk H}.

Definition ETHERTYPE_ARP : Z := 0x0806.
Definition G_MEMPOOL_NAME : string := "GLOBAL_MEMPOOL".
Definition QUEUE_SZ : Z := 32.

(** [parse_pkt]: what the multiplexer reports as errors panics here. *)
Definition parse_pkt (pkt : list u8) (local_ip : Ipv4Addr) (local_mac : Mac)
    : outcome (option LoopTuple) :=
  match from_ethernet pkt with
  | Err _ => Panicked
  | Ok sliced_pkt =>
  match sl_link sliced_pkt with
  | None => Panicked
  | Some linkslice =>
  match sl_ip sliced_pkt with
  | None => Panicked
  | Some ipslice =>
  match sl_transport sliced_pkt with
  | None => Panicked
  | Some transportslice =>
  let 'Ethernet2 link := linkslice in
  match ipslice with
  | Ipv6 => Done None
  | Ipv4 ip =>
  match transportslice with
  | Udp => Done None
  | Tcp _ =>
      if negb (bool_decide (destination_addr ip = local_ip)) then Done None else
      if negb (bool_decide (destination link = local_mac)) then Done None else
      Done (Some (MkLoopTuple (source link) (source_addr ip) (destination link)
                    (destination_addr ip) (ether_type link)))
  end end end end end end.

Definition arr_to_macaddr (mac : Mac) : Mac :=
  MkMac (mac0 mac) (mac1 mac) (mac2 mac) (mac3 mac) (mac4 mac) (mac5 mac).

(** [handle_arp]. *)
Definition handle_arp (local_ip : Ipv4Addr) (local_mac dst_mac : Mac) (dst_ip : Ipv4Addr) (mp : ptr)
    (ethertype : Z) : M (world H) (option ptr) :=
  if negb (bool_decide (local_mac = dst_mac)) || negb (bool_decide (local_ip = dst_ip))
  then mret None else
  if u16_to_be ethertype =? ETHERTYPE_ARP then
    if bool_decide (local_mac = dst_mac) || bool_decide (local_ip = dst_ip) then
      match arp_packet 28 (MkArp ArpHardwareTypes_Ethernet EtherTypes_Ipv4 6 4 ArpOperations_Request
              (arr_to_macaddr local_mac) local_ip MacAddr_zero dst_ip) with
      | None => mret None
      | Some arp =>
      match ethernet_packet 42 MacAddr_broadcast (arr_to_macaddr local_mac)
              EtherTypes_Arp arp with
      | None => mret None
      | Some eth =>
          r ← MbufPool.from_bytes eth mp;
          match r with Ok out_buf => mret (Some out_buf) | Err _ => mret None end
      end end
    else mret None
  else mret None.

(** [handle_signal]. *)
Definition handle_signal `{CtrlC H} : M (world H) unit :=
  ok ← call set_handler; assert_ ok.

(** [recv_pkts]: the packets asked for are as many as the vector has already. *)
Definition recv_pkts (port0 : Port_t) (in_pkts : vec) : M (world H) (Z * vec) :=
  queue_id ← ask rte_lcore_id;
  ps ← Port.receive port0 (as_uint 16 queue_id) (Z.of_nat (length (v_items in_pkts)));
  let in_pkts := vec_extend in_pkts ps in
  mret (Z.of_nat (length (v_items in_pkts)), in_pkts).

(** [xmit_pkts]: [clear] drops every buffer. *)
Definition xmit_pkts (port : Port_t) (out_pkts : vec) : M (world H) (Z * vec) :=
  queue_id ← ask rte_lcore_id;
  num ← Port.send port (v_items out_pkts) (Z.lxor (as_uint 16 queue_id) 1);
  MbufPool.drop_all (v_items out_pkts) ;;
  mret (num, Vec [] (v_cap out_pkts)).

(** The addresses [main] answers for. *)
Definition loop_ip : Ipv4Addr := MkIpv4 xc0 xa8 x01 x02.
Definition loop_mac : Mac := MkMac x90 xe2 xba x87 x6b xe8.

(** The body of the [for] loop over the packets. *)
Definition answer (port1 : Port_t) (mempool pkt : ptr) : M (world H) unit :=
  buf ← pkt_slice pkt 1536;
  r ← lift (parse_pkt buf loop_ip loop_mac);
  ft ← unwrap_opt r;
  r ← handle_arp loop_ip loop_mac (lt_src_mac ft) (lt_src_ip ft) mempool (lt_ethertype ft);
  m ← unwrap_opt r;
  xmit_pkts port1 (Vec [m] 1) ;;
  mret tt.

(** One turn of the [while] loop, and [n] turns. *)
Definition loop_turn (port1 port2 : Port_t) (mempool : ptr) (in_pkts : vec) : M (world H) vec :=
  r ← recv_pkts port1 in_pkts;
  let '(rsz, in_pkts) := r in
  if rsz >? 0 then
    t ← xmit_pkts port2 in_pkts;
    let in_pkts := t.2 in
    for_each (answer port1 mempool) (v_items in_pkts) ;;
    mret in_pkts
  else mret in_pkts.

Fixpoint loop_turns (n : nat) (port1 port2 : Port_t) (mempool : ptr) (in_pkts : vec)
    : M (world H) vec :=
  match n with
  | O => mret in_pkts
  | S n => in_pkts ← loop_turn port1 port2 mempool in_pkts;
           loop_turns n port1 port2 mempool in_pkts
  end.

(** One device: [Port::new], [configure] with one core and [start]. *)
Definition open_port (device : string) (id : Z) (mempool : ptr) : M (world H) Port_t :=
  let cores := [0] in
  r ← Port.new device id; port ← unwrap r;
  r ← Port.configure port (as_uint 16 (Z.of_nat (length cores))) mempool; _ ← unwrap r;
  r ← Port.start port; _ ← unwrap r;
  mret port.

(** [main] up to its [while] loop, and [main]; the end is as the engine's. *)
Definition startup `{CtrlC H} : M (world H) (ptr * Port_t * Port_t) :=
  r ← Eal.eal_init Engine.args; _ ← unwrap r;
  r ← Mempool.new G_MEMPOOL_NAME; mempool ← unwrap r;
  port1 ← open_port "port0" 0 mempool;
  port2 ← open_port "port1" 1 mempool;
  handle_signal ;;
  mret (mempool, port1, port2).

Definition main `{CtrlC H} (n : nat) : M (world H) ending :=
  s ← startup;
  let '(mempool, port1, port2) := s in
  loop_turns n port1 port2 mempool (vec_with_capacity QUEUE_SZ) ;;
  e ← Shim._pkt_stop_and_close_ports;
  match e with
  | Exited c => mret (Exited c)
  | Returned => r ← Eal.eal_cleanup mempool; _ ← unwrap r; mret Returned
  end.
End loop.
End Loop.

(** ** Properties *)

Section properties.
Context {prof : profile} {H : Type} {DP : Dpdk H} {EL : EthLaws H}.
Implicit Types w : world H.

Lemma recv_nothing_run port cap w :
  0 ≤ cap →
  ∃ w', Loop.recv_pkts port (Vec [] cap) w = Done ((0, Vec [] cap), w') ∧
    d_rings (obs w') = d_rings (obs w) ∧ d_ports (obs w') = d_ports (obs w).
Proof.
  intros Hc. unfold Loop.recv_pkts. rewrite bind_ask.
  destruct (receive_run port (as_uint 16 (rte_lcore_id w)) 0 w) as (ps & w1 & E & L & _ & R1 & R2 & _);
    [lia | lia |].
  change (Z.of_nat (length (v_items (Vec [] cap)))) with 0. rewrite (bind_done _ _ _ _ _ E).
  destruct ps as [|p ps]; [| simpl in L; change (0 mod 2 ^ 16) with 0 in L; lia].
  exists w1. split_and!; try done. unfold vec_extend, mret, M_ret. simpl. do 4 f_equal. lia.
Qed.

(** The loop-back engine never receives, forwards or answers a packet: its
    vector starts empty, and [recv_pkts] asks the device for as many packets as
    the vector already holds; any number of turns of its loop returns without a
    panic, with the vector empty and no packet handed to a device. *)
Lemma loop_never_forwards {EP : Etherparse} {PN : Pnet} n port1 port2 mp cap w :
  0 ≤ cap →
  ∃ w', Loop.loop_turns n port1 port2 mp (Vec [] cap) w = Done (Vec [] cap, w') ∧
    d_rings (obs w') = d_rings (obs w) ∧ d_ports (obs w') = d_ports (obs w).
Proof.
  intros Hc. revert w. induction n as [|n IH]; intros w; simpl; [by exists w |].
  unfold Loop.loop_turn. rewrite bind_assoc.
  destruct (recv_nothing_run port1 cap w Hc) as (w1 & E1 & R1 & P1).
  rewrite (bind_done _ _ _ _ _ E1). change (0 >? 0) with false. cbv match. rewrite bind_ret.
  destruct (IH w1) as (w2 & E2 & R2 & P2). exists w2. by rewrite R2, P2.
Qed.

(** Start-up of a device: the port that [Port::new] returns names a device that
    exists, so that [configure] and [start] return. *)
Lemma open_port_cases {EN : Errno} device id mp w Q :
  (∀ port w', Q port w') → wp_or_panic (Loop.open_port device id mp) Q w.
Proof.
  intros HQ. unfold Loop.open_port, Port.new, Port.Port.new. apply wpp_bind.
  destruct (eth_dev_info_get_ok id eth_dev_info_default w) as [O D].
  destruct (rte_eth_dev_info_get id eth_dev_info_default w) as [[rc info] w1] eqn:E. simpl in O, D.
  destruct (Z.eqb_spec rc 0) as [-> | Hrc].
  2: { eapply wpp_done; [rewrite bind_call, E; simpl; rewrite (proj2 (Z.eqb_neq _ _) Hrc); reflexivity |].
    by left. }
  eapply wpp_done; [rewrite bind_call, E; reflexivity |].
  apply wpp_bind, wpp_unwrap. intros port [= <-]. apply wpp_bind.
  destruct D as [e He]; [done |]. rewrite <- O in He.
  assert (Hc : ∃ r w2, Port.configure (MkPort id device info) 1 mp w1 = Done (r, w2)).
  { destruct (configure_loop_cases (MkPort id device info) 1 mp w1 e) as [(? & ? & _) | (? & ? & ?)];
      unfold is_uint; eauto; lia. }
  destruct Hc as (r & w2 & E2). eapply wpp_done; [exact E2 |].
  apply wpp_bind, wpp_unwrap. intros _ _. apply wpp_bind. unfold Port.start, Port.Port.start.
  destruct (check_cases (rte_eth_dev_start id) w2) as [(w3 & _ & E3) | (rc & w3 & _ & _ & E3)];
    (eapply wpp_done; [exact E3 |]); apply wpp_bind, wpp_unwrap; intros _ _;
    by eapply wpp_done.
Qed.

(** The installation of the handler returns or panics. *)
Lemma handle_signal_cases `{CtrlC H} Q w :
  (∀ w', Q tt w') → wp_or_panic Loop.handle_signal Q w.
Proof.
  intros HQ. unfold Loop.handle_signal. apply wpp_bind.
  destruct (set_handler w) as [ok w1] eqn:E. eapply (wpp_done _ _ _ ok w1); [by rewrite <- E |].
  destruct ok; [by eapply wpp_done | by left].
Qed.

(** The start-up returns or panics. *)
Lemma startup_cases {EN : Errno} `{CtrlC H} w : wp_or_panic Loop.startup (λ _ _, True) w.
Proof.
  unfold Loop.startup. apply wpp_bind. unfold Eal.eal_init, Engine.Eal.eal_init.
  rewrite cstrings_ok by (by repeat constructor).
  assert (Er : ∃ r w1, (args ← lift (Done Engine.args); rc ← call (rte_eal_init args);
    if rc =? -1 then e ← ask rte_errno; mret (Err (EALErrors_new e)) else mret (Ok tt)) w
    = Done (r, w1)).
  { rewrite bind_lift_done, bind_call. destruct (_ =? -1); do 2 eexists; reflexivity. }
  destruct Er as (r0 & w1 & E1). eapply wpp_done; [exact E1 |].
  apply wpp_bind, wpp_unwrap. intros _ _.
  destruct (mempool_new_returns Loop.G_MEMPOOL_NAME w1) as (r & w2 & E2).
  apply wpp_bind. eapply wpp_done; [exact E2 |]. apply wpp_bind, wpp_unwrap. intros mp _.
  apply wpp_bind, open_port_cases. intros port1 w3. apply wpp_bind, open_port_cases. intros port2 w4.
  apply wpp_bind, handle_signal_cases. intros w5. by eapply wpp_done.
Qed.

(** C21: [main] of the loop-back engine ends, after any number of turns of its
    loop and whatever the environment answers.  Its start-up (everything before
    the loop) returns or panics, without undefined behaviour.  When it panics,
    so does [main]; when it returns, nothing after it panics: the process exits
    with code 0, with no device started.  It never returns: the process is gone
    before [eal_cleanup], whose call is dead code. *)
Theorem main_exits {EP : Etherparse} {PN : Pnet} {EN : Errno} `{CtrlC H} n w :
  match Loop.startup w with
  | Done _ => ∃ w', Loop.main n w = Done (Exited 0, w') ∧ all_stopped (obs w')
  | Panicked => Loop.main n w = Panicked
  | Undefined => False
  end.
Proof.
  unfold Loop.main. destruct (wpp_elim _ _ _ (startup_cases w)) as [E | ([[mp port1] port2] & w1 & E & _)];
    rewrite E.
  { unfold mbind, M_bind. by rewrite E. }
  rewrite (bind_done _ _ _ _ _ E).
  destruct (loop_never_forwards n port1 port2 mp Loop.QUEUE_SZ w1 ltac:(done)) as (w2 & E2 & _).
  rewrite (bind_done _ _ _ _ _ E2). destruct (stop_and_close_run w2) as (w3 & E3 & S3).
  rewrite (bind_done _ _ _ _ _ E3). by exists w3.
Qed.

(** C22: the answer of the loop-back engine is never sent: for every packet in a
    buffer large enough to be read, the body of the loop over the packets
    panics.  A packet without an IP and a transport header, ARP requests
    included, panics in [parse_pkt]; one with them that [parse_pkt] accepts is
    not of type ARP, so that [handle_arp] has no answer and its [unwrap]
    panics. *)
Theorem answer_panics {EP : Etherparse} {EPL : EtherparseLaws} {PN : Pnet} port1 mp pkt b w :
  d_mbufs (obs w) !! pkt = Some b → m_data_off b + 1536 ≤ Z.of_nat (length (m_buf b)) →
  Loop.answer port1 mp pkt w = Panicked.
Proof.
  intros E L. unfold Loop.answer, mbind, M_bind, pkt_slice. rewrite E.
  rewrite (proj2 (Z.leb_le _ _) L). unfold Loop.parse_pkt, lift.
  destruct (from_ethernet _) as [[[[h]|] [[ip|]|] [[tcp|]|]] | e] eqn:Ep; simpl; try done.
  case_bool_decide; simpl; [| done]. case_bool_decide; simpl; [| done].
  destruct (ip_not_arp _ _ (Ipv4 ip) h Ep eq_refl eq_refl) as [_ Hn].
  unfold Loop.handle_arp, unwrap_opt, mret, M_ret. destruct (_ || _); [done |].
  cbn [lt_ethertype]. unfold Loop.ETHERTYPE_ARP. by rewrite (proj2 (Z.eqb_neq _ _) Hn).
Qed.

Context {ML : MempoolLaws H}.

(** [xmit_pkts] frees a packet it has handed to the driver: when the device
    takes the packet, [clear] still drops the buffer, so that it is in flight
    and free in its mempool at the same time; when the device does not take
    it, it is freed twice. *)
Lemma xmit_frees_sent port p b cap w e mp :
  d_ports (obs w) !! id port = Some e → d_mbufs (obs w) !! p = Some b → m_pool b = mp →
  is_Some (d_pools (obs w) !! mp) →
  ∃ k w', Loop.xmit_pkts port (Vec [p] cap) w = Done ((Z.of_nat k, Vec [] cap), w') ∧
    ∃ e' s', d_ports (obs w') !! id port = Some e' ∧ d_pools (obs w') !! mp = Some s' ∧
      match k with
      | S _ => k = 1%nat ∧ p ∈ ep_inflight e' ∧ p ∈ s'
      | O => (2 ≤ multiplicity p s')%nat
      end.
Proof.
  intros Ep Eb Em [s Es]. unfold Loop.xmit_pkts. rewrite bind_ask. cbn [v_items].
  destruct (send_run port (Z.lxor (as_uint 16 (rte_lcore_id w)) 1) p b [] w e Ep)
    as (k & sent & o1 & w1 & E & Hk & Eo1 & Eo); [simpl; lia | by repeat constructor | done |].
  rewrite (bind_done _ _ _ _ _ E).
  assert (F : d_mbufs o1 = d_mbufs (obs w) ∧ is_Some (d_pools o1 !! mp)).
  { rewrite Eo1. unfold on_port. simpl. clear -Es. induction sent as [|x l [IH1 IH2]]; simpl; [eauto |].
    rewrite (proj1 (put_one_frame x _)). split; [done |]. unfold put_one.
    destruct (d_mbufs _ !! x) as [bx|]; [| done]. rewrite add_to_pool_lookup.
    case_decide as Hd; [| done]. rewrite Hd. by apply fmap_is_Some. }
  destruct F as [F1 [s1 F2]].
  assert (Eb1 : d_mbufs (obs w1) !! p = Some b).
  { rewrite Eo. case_decide; simpl; rewrite F1; done. }
  change (MbufPool.drop_all [p]) with (MbufPool.drop p ;; mret tt).
  unfold MbufPool.drop, Mempool.MbufPool.drop. rewrite bind_assoc, bind_call_, bind_ret.
  exists k, (rte_pktmbuf_free p w1). split; [done |].
  assert (Of : obs (rte_pktmbuf_free p w1) = put_one p (obs w1)) by (apply pktmbuf_free_ok; eauto).
  rewrite Of. destruct (put_one_frame p (obs w1)) as (_ & _ & -> & _).
  unfold put_one. rewrite Eb1, Em, add_to_pool_lookup, decide_True by done.
  rewrite Eo. simpl in Hk. destruct k as [|k].
  - rewrite decide_True by (simpl; lia). rewrite Em, add_to_pool_lookup, decide_True by done.
    rewrite F2. eexists _, _. split; [| split; [done |]].
    { simpl. rewrite Eo1. apply on_port_lookup_foldr. exact Ep. }
    cbv beta. rewrite list_to_set_disj_cons, !multiplicity_disj_union, !multiplicity_singleton_eq. lia.
  - assert (k = 0%nat) as -> by lia. rewrite decide_False by (simpl; lia). rewrite F2.
    eexists _, _. split; [| split; [done |]].
    { rewrite Eo1. apply on_port_lookup_foldr. exact Ep. }
    split; [done |]. simpl. split; multiset_solver.
Qed.
End properties.

(** ** Witnesses *)

Lemma loop_never_forwards_witness :
  ∃ w', Loop.loop_turns (prof := Debug) 7 sample_port sample_port 1 (Vec [] 32) sample_world
      = Done (Vec [] 32, w') ∧
    d_rings (obs w') = d_rings (obs sample_world) ∧ d_ports (obs w') = d_ports (obs sample_world).
Proof.
  apply (loop_never_forwards (prof := Debug) 7 sample_port sample_port 1 32 sample_world). lia.
Defined.

Lemma xmit_frees_sent_witness :
  ∃ k w', Loop.xmit_pkts sample_port (Vec [1500] 32) sample_world
      = Done ((Z.of_nat k, Vec [] 32), w') ∧
    ∃ e' s', d_ports (obs w') !! 0 = Some e' ∧ d_pools (obs w') !! 1 = Some s' ∧
      match k with
      | S _ => k = 1%nat ∧ 1500 ∈ ep_inflight e' ∧ 1500 ∈ s'
      | O => (2 ≤ multiplicity (1500 : ptr) s')%nat
      end.
Proof.
  apply (xmit_frees_sent sample_port 1500 (sample_buf 1) 32 sample_world
    (EthPort 0 0 [] [] false false ∅) 1);
    [reflexivity | reflexivity | reflexivity | eexists; vm_compute; reflexivity].
Defined.

(** With two devices the start-up returns and [main] exits; with one it panics. *)
Definition two_devices : sim :=
  set_obs (set_pools ∅ (set_pool_names ∅
    (set_ports (<[1 := EthPort 0 0 [] [] false false ∅]> (d_ports sample_obs)) sample_obs)))
    sample_world.

(** The 32767 objects of the mempool are not computed. *)
Lemma two_devices_start :
  match Loop.startup (prof := Debug) (EN := linux_errno) two_devices with Done _ => True | _ => False end.
Proof. with_strategy transparent [gmap_empty] lazy. exact I. Qed.

Lemma sample_start : Loop.startup (prof := Debug) (EN := linux_errno) sample_world = Panicked.
Proof. vm_compute. reflexivity. Qed.

Lemma main_exits_witness :
  (∃ w', Loop.main (prof := Debug) (EN := linux_errno) 3 two_devices = Done (Exited 0, w') ∧
    all_stopped (obs w')) ∧
  Loop.main (prof := Debug) (EN := linux_errno) 3 sample_world = Panicked.
Proof.
  split.
  - pose proof (main_exits (prof := Debug) (EN := linux_errno) 3 two_devices) as R.
    pose proof two_devices_start as S.
    destruct (Loop.startup two_devices); [exact R | destruct S | destruct S].
  - pose proof (main_exits (prof := Debug) (EN := linux_errno) 3 sample_world) as R.
    rewrite sample_start in R. exact R.
Defined.

(** A buffer of 2048 bytes, and a parser that finds a TCP packet from and to the
    engine's own addresses in it. *)
Definition big_buf : rte_mbuf := RteMbuf 65536 2176 128 64 64 1 (replicate 2176 x00).

Definition own_etherparse : Etherparse := {|
  ReadError := unit;
  from_ethernet pkt :=
    Ok (MkSlicedPacket (Some (Ethernet2 (MkEthernet2 Loop.loop_mac Loop.loop_mac 0x0800)))
          (Some (Ipv4 (MkIpv4Slice Loop.loop_ip Loop.loop_ip))) (Some (Tcp (MkTcpSlice 80))))
|}.

Lemma own_etherparse_laws : EtherparseLaws (H := own_etherparse).
Proof. split. intros pkt sl i [= <-] _ h [= <-]. by left. Qed.

Lemma answer_panics_witness :
  Loop.answer (EP := own_etherparse) (prof := Debug) sample_port 1 1600 (with_buf 1600 big_buf)
  = Panicked.
Proof.
  apply (answer_panics (EP := own_etherparse) (EPL := own_etherparse_laws) (prof := Debug)
    sample_port 1 1600 big_buf (with_buf 1600 big_buf)).
  - reflexivity.
  - vm_compute. discriminate.
Defined.
