(* ===== verification/Build.v ===== *)
(** * The build script of the DPDK bindings ([dpdk-sys/build.rs])

    What the script asks the C compiler, the binding generator and Cargo for.
    The compiler ([cc]), the generator ([bindgen]) and the environment are
    parameters: the script's own part is the configuration it gives them, the
    order of its calls, where it stops, and the lines it prints for Cargo. *)

From Stdlib Require Import Ascii.
From S2P Require Import Prelude.

(** The libraries of DPDK, in the order in which they are linked. *)
Definition RTE_CORE_LIBS : list string :=
  ["rte_acl"; "rte_bbdev"; "rte_bitratestats"; "rte_bpf"; "rte_bus_dpaa"; "rte_bus_fslmc";
   "rte_bus_ifpga"; "rte_bus_pci"; "rte_bus_vdev"; "rte_bus_vmbus"; "rte_cfgfile"; "rte_cmdline";
   "rte_common_cpt"; "rte_common_dpaax"; "rte_common_octeontx"; "rte_common_octeontx2";
   "rte_compressdev"; "rte_cryptodev"; "rte_distributor"; "rte_eal"; "rte_efd"; "rte_ethdev";
   "rte_eventdev"; "rte_fib"; "rte_flow_classify"; "rte_gro"; "rte_gso"; "rte_hash";
   "rte_ip_frag"; "rte_ipsec"; "rte_jobstats"; "rte_kni"; "rte_kvargs"; "rte_latencystats";
   "rte_lpm"; "rte_mbuf"; "rte_member"; "rte_mempool"; "rte_mempool_bucket"; "rte_mempool_dpaa";
   "rte_mempool_dpaa2"; "rte_mempool_octeontx"; "rte_mempool_octeontx2"; "rte_mempool_ring";
   "rte_mempool_stack"; "rte_meter"; "rte_metrics"; "rte_net"; "rte_pci"; "rte_pdump";
   "rte_pipeline"; "rte_port"; "rte_power"; "rte_rawdev"; "rte_rawdev_dpaa2_cmdif";
   "rte_rawdev_dpaa2_qdma"; "rte_rawdev_ioat"; "rte_rawdev_ntb"; "rte_rawdev_octeontx2_dma";
   "rte_rawdev_skeleton"; "rte_rcu"; "rte_reorder"; "rte_rib"; "rte_ring"; "rte_sched";
   "rte_security"; "rte_stack"; "rte_table"; "rte_timer"; "rte_vhost"].

Definition RTE_PMD_LIBS : list string :=
  ["rte_pmd_af_packet"; "rte_pmd_ark"; "rte_pmd_atlantic"; "rte_pmd_avp"; "rte_pmd_axgbe";
   "rte_pmd_bbdev_fpga_lte_fec"; "rte_pmd_bbdev_null"; "rte_pmd_bbdev_turbo_sw"; "rte_pmd_bnxt";
   "rte_pmd_bond"; "rte_pmd_caam_jr"; "rte_pmd_crypto_scheduler"; "rte_pmd_cxgbe";
   "rte_pmd_dpaa"; "rte_pmd_dpaa2"; "rte_pmd_dpaa2_event"; "rte_pmd_dpaa2_sec";
   "rte_pmd_dpaa_event"; "rte_pmd_dpaa_sec"; "rte_pmd_dsw_event"; "rte_pmd_e1000"; "rte_pmd_ena";
   "rte_pmd_enetc"; "rte_pmd_enic"; "rte_pmd_failsafe"; "rte_pmd_fm10k"; "rte_pmd_hinic";
   "rte_pmd_hns3"; "rte_pmd_i40e"; "rte_pmd_iavf"; "rte_pmd_ice"; "rte_pmd_ifc"; "rte_pmd_ixgbe";
   "rte_pmd_kni"; "rte_pmd_liquidio"; "rte_pmd_memif"; "rte_pmd_netvsc"; "rte_pmd_nfp";
   "rte_pmd_nitrox"; "rte_pmd_null"; "rte_pmd_null_crypto"; "rte_pmd_octeontx";
   "rte_pmd_octeontx2"; "rte_pmd_octeontx2_crypto"; "rte_pmd_octeontx2_event";
   "rte_pmd_octeontx_compress"; "rte_pmd_octeontx_crypto"; "rte_pmd_octeontx_event";
   "rte_pmd_opdl_event"; "rte_pmd_pcap"; "rte_pmd_pfe"; "rte_pmd_qat"; "rte_pmd_qede";
   "rte_pmd_ring"; "rte_pmd_sfc"; "rte_pmd_skeleton_event"; "rte_pmd_softnic";
   "rte_pmd_sw_event"; "rte_pmd_tap"; "rte_pmd_thunderx"; "rte_pmd_vdev_netvsc"; "rte_pmd_vhost";
   "rte_pmd_virtio"; "rte_pmd_virtio_crypto"; "rte_pmd_vmxnet3"].

Definition RTE_DEPS_LIBS : list string := ["numa"; "pcap"].

(** The settings of [cc::Build] and [bindgen::Builder] that the script uses. *)
Record cc_build := CcBuild { cc_files : list string; cc_flags : list string }.

Record bindgen_builder := BindgenBuilder {
  bg_header : string;
  bg_layout_tests : bool;
  bg_inline_functions : bool;
  bg_opaque_type : string;
  bg_whitelist_type : string;
  bg_whitelist_function : string;
  bg_whitelist_var : string;
  bg_derive : list string;
  bg_enum_style : string;
  bg_clang_args : list string;
  bg_rustfmt : bool
}.

(** What the script calls: the environment, [cc]'s [compile] (which ends the
    process when the compiler fails: [false]), [generate] with the text of the
    bindings, and [write_to_file]. *)
Class Toolchain (B : Type) := {
  env_var : string → B → option string;
  cc_compile : cc_build → string → B → bool * B;
  bindgen_generate : bindgen_builder → B → option string * B;
  write_file : string → string → B → bool * B
}.

Module Build.
Section build.
Context {B : Type} {TC : Toolchain B}.

Definition shim : cc_build := CcBuild ["src/shim.c"] ["-march=corei7"; "-mavx"].

Definition bindings : bindgen_builder := {|
  bg_header := "src/bindings.h";
  bg_layout_tests := false;
  bg_inline_functions := true;
  bg_opaque_type := "rte_arp_ipv4|rte_arp_hdr";
  bg_whitelist_type := "(rte|eth|pcap)_.*";
  bg_whitelist_function := "(_rte|rte|_pkt|eth|numa|pcap)_.*";
  bg_whitelist_var := "(RTE|DEV|ETH|MEMPOOL|PKT|rte)_.*";
  bg_derive := ["Copy"; "Debug"; "Default"; "PartialEq"];
  bg_enum_style := "ModuleConsts";
  bg_clang_args := ["-finline-functions"; "-march=corei7"; "-mavx"];
  bg_rustfmt := true |}.

(** [path.join(file)] for a relative [file]: a separator unless there is one. *)
Definition join (path file : string) : string :=
  let n := String.length path in
  match String.get (n - 1) path with
  | None | Some "/"%char => path ++ file
  | Some _ => path ++ "/" ++ file
  end.

(** [bind]. *)
Definition bind (path : string) : M B unit :=
  ok ← call (cc_compile shim "rte_shim");
  assert_ ok ;;
  r ← call (bindgen_generate bindings);
  text ← unwrap_opt r;
  ok ← call (write_file (join path "bindings.rs") text);
  assert_ ok.

(** The lines for Cargo. *)
Definition link_line (lib : string) : string := "cargo:rustc-link-lib=dylib=" ++ lib.

Definition cargo_lines : list string :=
  map link_line ((RTE_CORE_LIBS ++ RTE_PMD_LIBS) ++ RTE_DEPS_LIBS)%list ++
  ["cargo:rerun-if-changed=build.rs"; "cargo:rerun-if-changed=src/";
   "cargo:rustc-link-search=/usr/local/lib/x86_64-linux-gnu/"]%list.

(** [main]; the result is what it has printed. *)
Definition main : M B (list string) :=
  b ← get;
  out_path ← unwrap_opt (env_var "OUT_DIR" b);
  bind out_path ;;
  mret cargo_lines.
End build.
End Build.

(** [dpdk_loop/dpdk-sys/build.rs] is the same file. *)
Module LoopBuild.
Section build.
Context {B : Type} {TC : Toolchain B}.
Definition RTE_CORE_LIBS := RTE_CORE_LIBS.
Definition RTE_PMD_LIBS := RTE_PMD_LIBS.
Definition RTE_DEPS_LIBS := RTE_DEPS_LIBS.
Definition bind := Build.bind.
Definition main := Build.main.
End build.
End LoopBuild.

(** ** Lemmas *)

(** What [cc], [bindgen] and the file system promise: [generate] does not touch
    files, and a successful [write_to_file] leaves the text in the file. *)
Class ToolchainLaws (B : Type) {TC : Toolchain B} := {
  file_of : string → B → option string;
  write_file_ok p t b b' : write_file p t b = (true, b') → file_of p b' = Some t
}.

Section lemmas.
Context {B : Type} {TC : Toolchain B} {TL : ToolchainLaws B}.

(** A script that returns has written the generated bindings to [OUT_DIR] and
    printed a line for each library. *)
Lemma main_builds (b b' : B) out :
  Build.main b = Done (out, b') →
  ∃ path text b1 b2, env_var "OUT_DIR" b = Some path ∧
    cc_compile Build.shim "rte_shim" b = (true, b1) ∧
    bindgen_generate Build.bindings b1 = (Some text, b2) ∧
    file_of (Build.join path "bindings.rs") b' = Some text ∧ out = Build.cargo_lines.
Proof.
  unfold Build.main. rewrite bind_get, bind_unwrap_opt.
  destruct (env_var "OUT_DIR" b) as [path|]; [| done].
  intros ([] & b3 & E & [= <- <-])%bind_inv. unfold Build.bind in E. rewrite bind_call in E.
  destruct (cc_compile _ _ _) as [[] b1] eqn:E1; [| done]. cbn [fst snd] in E.
  change (assert_ true) with (mret (M := M B) tt) in E. rewrite bind_ret, bind_call, bind_unwrap_opt in E.
  destruct (bindgen_generate _ _) as [[text|] b2] eqn:E2; [| done]. cbn [fst snd] in E.
  rewrite bind_call in E.
  destruct (write_file _ _ _) as [[] b4] eqn:E3; [| done]. injection E as <-.
  exists path, text, b1, b2. split_and!; try done. by apply (write_file_ok _ _ b2).
Qed.

(** A script that cannot write the bindings tells Cargo nothing. *)
Lemma main_stops (b : B) :
  env_var "OUT_DIR" b = None ∨ (cc_compile Build.shim "rte_shim" b).1 = false →
  Build.main b = Panicked.
Proof.
  intros E. unfold Build.main. rewrite bind_get, bind_unwrap_opt.
  destruct (env_var "OUT_DIR" b); [| done]. destruct E as [E | E]; [done |].
  unfold Build.bind. by rewrite !bind_assoc, bind_call, E.
Qed.
End lemmas.

(** Every library is named once. *)
Lemma libs_distinct : NoDup ((RTE_CORE_LIBS ++ RTE_PMD_LIBS) ++ RTE_DEPS_LIBS)%list.
Proof. apply (bool_decide_unpack _). vm_compute. exact I. Qed.

Lemma link_line_inj : Inj (=) (=) Build.link_line.
Proof. intros l1 l2 E. by injection E. Qed.

(** Cargo is told to link each of them once. *)
Lemma links_once lib : lib ∈ ((RTE_CORE_LIBS ++ RTE_PMD_LIBS) ++ RTE_DEPS_LIBS)%list →
  ∃ l1 l2, Build.cargo_lines = (l1 ++ Build.link_line lib :: l2)%list ∧
    Build.link_line lib ∉ (l1 ++ l2)%list.
Proof.
  intros Hin. assert (Hn : NoDup Build.cargo_lines).
  { unfold Build.cargo_lines. apply (bool_decide_unpack _). vm_compute. exact I. }
  assert (Hl : Build.link_line lib ∈ Build.cargo_lines).
  { unfold Build.cargo_lines. apply elem_of_app. left. apply list_elem_of_fmap. by exists lib. }
  apply list_elem_of_split in Hl as (l1 & l2 & E). exists l1, l2. split; [done |].
  rewrite E in Hn. apply NoDup_app in Hn as (_ & N1 & N2). apply NoDup_cons in N2 as [N2 _].
  rewrite not_elem_of_app. split; [| done]. intros H1. apply (N1 _ H1). left.
Qed.
